(* ===== verification/_CoqProject ===== *)
-Q . S2P
Prelude.v
Bits.v
Codec.v
Env.v
Hmap.v
IdMap.v
DList.v
Memory.v
Tree.v
LocalRes.v
ByteTransfer.v
ByteRoundtrip.v
Counter.v
Meter.v
Group.v
FlowEntry.v
FlowTable.v
FlowSpec.v
FlowOps.v
TableOps.v
Port.v
Slot.v
Parse.v
ParseSpec.v
MessageSpec.v
PortMgr.v
PortSpec.v
Boot.v
BootSpec.v
EnumSpec.v
Text.v
Config.v
ConfigSpec.v
Listen.v
Sctrl.v
ListenSpec.v
Command.v
CommandSpec.v
Program.v
ProgramSpec.v
Packet.v
Action.v
Instruction.v
FieldSpec.v
PacketSpec.v
ActionSpec.v
ChecksumSpec.v
ActionRun.v
ForwardSpec.v
Hazards.v
Switch.v
SwitchSpec.v
StreamSpec.v
HandshakeSpec.v
