(* ===== verification/Prelude.v ===== *)
(** * POFSwitch: verification development (root file)

    POFSwitch is a software switch for Protocol Oblivious Forwarding.  A
    controller connects to it, describes flow tables, groups, meters and
    counters, and the switch forwards the frames it receives by looking up
    fields of the frame in the tables and executing the instructions of the
    entry that matches.  This library models the program of src/ as Gallina
    functions, one per C function where the code has one, and proves what they
    do.

    ** The program and its parts

    - common/: bit-field access and tasks (pof_basefunc.c), byte order of the
      messages (pof_byte_transfer.c), a hash map (pof_hmap.c), a prefix tree
      (pof_tree.c), a list (pof_list.c) and memory bookkeeping (pof_memory.c).
    - local_resource/: the resources of a slot, its ports, tables, groups,
      meters and counters, kept in hash maps.
    - switch_control/: [main], the connection to the controller and its three
      tasks (pof_switch.c), the configuration file and options (pof_config.c),
      the messages from the controller (pof_parse.c), replies and errors to it
      (pof_encap.c), the task that serves the client pofsctrl
      (pof_switch_listen.c), and that client, a program of its own
      (pof_sctrl.c).  The console is common/pof_command.c.
    - datapath/: receiving and sending frames (pof_datapath.c), instructions
      (pof_instruction.c) and actions (pof_action.c).
    The controller task hands each message to the parser, which runs a handler
    of the local resources on one or all slots; the datapath reads the same
    resources for every frame, and counts.  Both answer by writing messages to
    one queue, which the sender task empties into the socket.  [main] reads the
    configuration, makes the slots with a port for each interface, starts the
    queue, the tasks and the timer, serves the console and takes all of it down.

    ** How the code is modelled

    Integers are [Z] with the wrap-around of their C type written out ([u8] to
    [u64], [i16], [i32]); buffers are lists of bytes; a C struct of the protocol
    is its bytes, read with [fld], where the code casts a buffer, and a Rocq
    record where the code keeps an object.  Objects linked by pointers live in
    finite maps from addresses (Hmap.v).  A handler is a computation of the
    state monad [St] over [env] (Env.v), returning [None] for a memory fault,
    undefined behaviour, [exit], or a call that never returns; where the end of
    the process is what the code means to do it is a value ([Exit] of [run] in
    Config.v) or the last state (Program.v).  [malloc], [msgsnd], [sendto],
    [read], [write] and [connect] are lists of coming outcomes in the state: the
    theorems hold for the outcomes their hypotheses allow.  What the system
    answers about interfaces, sockets and threads is the parameter
    [system : nat -> sys] of PortMgr.v, its state at each call; the theorems
    about it are for a system that stays as it is and is [sys_ok].  The other
    parameters are [files] and [writable] (what opening a file gives), [sizeof]
    (the layout of the structures sent to pofsctrl), [calls] (message queues and
    timer) and [meanwhile] (what the other tasks do while [main] sleeps).  Functions keep their C names; a name ending in [_ok], [_spec],
    [_refines] and the like is a theorem about the function.

    ** Files

    - Prelude.v: integers, buffers, tactics.  Bits.v: [pofbf_copy_bit],
      [pofbf_cover_bit].  Codec.v: struct fields, the [POF_NTOHx] macros.
      Env.v: the environment, the error macros of include/pof_global.h, the
      message queue, pof_encap.c.
    - Hmap.v (pof_hmap.c), Tree.v (pof_tree.c), IdMap.v: resources kept in hash
      maps by id, with the interface [res_ok]/[contents] the resources are
      proved against (class [Resource]).
    - LocalRes.v: the structs of a slot.  Counter.v, Meter.v, Group.v,
      FlowEntry.v and FlowTable.v, Port.v, Slot.v: the files of local_resource/.
      FlowSpec.v, FlowOps.v, TableOps.v: what the flow-table operations do,
      against abstract step relations.
    - ByteTransfer.v (pof_byte_transfer.c), ByteRoundtrip.v: conversions there
      and back.  Parse.v (pof_parse.c), ParseSpec.v, MessageSpec.v.
    - Packet.v, Action.v, Instruction.v: the datapath; FieldSpec.v,
      PacketSpec.v, ActionSpec.v, ChecksumSpec.v, ActionRun.v, ForwardSpec.v and
      Hazards.v: its theorems.
    - Switch.v (pof_switch.c), SwitchSpec.v, StreamSpec.v, HandshakeSpec.v: the
      connection.
    - DList.v (pof_list.c), Memory.v (pof_memory.c).
    - PortMgr.v (pof_port.c and the tasks of pof_basefunc.c), PortSpec.v: how the
      ports follow the interfaces.  Boot.v (the start of pof_datapath.c and of
      pof_local_resource.c), BootSpec.v: slots and their first ports.
    - Text.v: the functions of the C library on text the code uses.  Config.v
      (pof_config.c), ConfigSpec.v.  EnumSpec.v: what a loop over a map emits.
      Listen.v (pof_switch_listen.c), Sctrl.v (pof_sctrl.c), ListenSpec.v.
      Command.v (pof_command.c), CommandSpec.v: the console.  Program.v ([main],
      [pofsc_init], [pofsc_destroy], queues and timers), ProgramSpec.v.

    ** What the theorems show

    - Containers: inserting, looking up, deleting and traversing the hash map
      agree with a finite map, the prefix tree finds the longest prefix
      (Hmap.v, Tree.v), the resources by id are such maps (IdMap.v).
    - Encodings: reading back what was written for bit fields, headers, queue
      messages and whole flow entries (Bits.v, Env.v, ByteRoundtrip.v).
    - Resources: each handler, errors included, is a step of an abstract machine
      on finite maps (Counter.v, Meter.v, Group.v, TableOps.v, FlowOps.v); every
      lookup is the best match, the longest prefix or the hash it stands for
      (FlowEntry.v, FlowOps.v).
    - Messages: a decodable request whose counts and flow entries are within what
      the code can hold ([request_ok]) leaves every slot well-formed and tells
      the controller nothing but errors (ParseSpec.v); a message is handled by
      its own bytes (MessageSpec.v).
    - Connection: the channel states follow their order, a connection begins
      with HELLO whatever the tasks' order (SwitchSpec.v), the byte stream is cut
      into its messages and handled in order, in bursts that fit the buffer or of
      any length when messages and reads are small enough for the buffer to be
      compacted in time (StreamSpec.v), and a working handshake reaches RUN
      (HandshakeSpec.v).
    - Lists and memory: any program of list operations does what it does to
      abstract lists, and the bookkeeping of memory is exact (DList.v, Memory.v).
    - Ports: a round of the detection brings the ports, the reports and the two
      maps to what the interfaces of the system ask for, and after it nothing is
      left to do (PortSpec.v); a slot starts with one port per interface, with
      sockets and a task (BootSpec.v).
    - Configuration: a file of settings is read whatever its layout, reading
      stops at the first unknown key and the program goes on, options name exactly the ports the slots
      start with (ConfigSpec.v).
    - Clients and console: what the switch sends for a listing is what pofsctrl
      takes and prints, every element once (ListenSpec.v); a session of
      lines within the limits of [cmd_ok] refines an abstract console on finite
      maps (CommandSpec.v).
    - The whole program: [main] runs from the options to [quit] and takes down
      what it has started, composing the theorems on the configuration, the
      slots, the console and the end; a start that fails takes down what it had
      made (ProgramSpec.v).
    - Datapath: the bits each action and instruction changes and those it does
      not, checksums, packet windows, and end to end what becomes of a frame
      that hits or misses (ForwardSpec.v); inputs that overrun a buffer or never
      end (Hazards.v).

    ** Configuration, fuel and bounds

    The model is of the configuration the Makefile of src/ builds: version
    1.4.0, POF_SD2N, POF_SD2N_AFTER1015, POF_MULTIPLE_SLOTS, no POF_SHT_VXLAN, no
    PROMISC, POF_NOMATCH_PACKET_IN, POF_AFTER_CTRL_DISCONN_RECONN, on a
    little-endian 64-bit host.  Loops over chains of a hash map take the number
    of live nodes plus one as fuel, which is enough under [rep]; the loop that
    waits for a message the number of bytes still to come; an action list as
    many steps as it has actions.  Instructions and groups have no bound in the
    code: their fuel is an argument, and Hazards.v shows programs no fuel is
    enough for.  The loops over text (the words of a file, the lines of the
    console and of pofsctrl) take the characters to come plus one: each round
    takes one, and the theorems show it is enough up to [quit] or the end of the
    file.  Uninitialised locals the code reads are arguments or state
    ([unspecified], [s_stack]).

    ** Not modelled

    The text of what is printed (pof_log_print.c): the model records which
    structures are printed, not their layout. The instruction blocks and the
    actions of POF_SHT_VXLAN (pof_ins_block.c and the functions under that macro
    elsewhere), which the Makefile does not build. The functions of pof_port.c
    for queueing disciplines, which nothing calls. The tasks run one round at a
    time: scheduling inside a round, the locks other than the one the console
    holds, the signals that end the program at any moment, and the clocks are
    not modelled, nor is the system beyond the answers of its calls. The
    detection and the messages of the controller are not interleaved with the
    console.
    *)

From stdpp Require Export base option list numbers gmap.
From Stdlib Require Export ZArith Lia Bool.
#[global] Open Scope Z_scope.
#[global] Unset Universe Polymorphism.

(** ** Machine integers

    A [w]-bit unsigned C integer is a [Z]; the conversions below are the
    reductions C performs when a wider value is stored in the type. *)

Definition u8 (x : Z) : Z := x mod 256.
Definition u16 (x : Z) : Z := x mod 65536.
Definition u32 (x : Z) : Z := x mod 4294967296.
Definition u64 (x : Z) : Z := x mod 18446744073709551616.
Definition i16 (x : Z) : Z := (x + 32768) mod 65536 - 32768.
Definition i32 (x : Z) : Z := (x + 2147483648) mod 4294967296 - 2147483648.

Definition byte_ok (b : Z) : Prop := 0 <= b < 256.
Definition bytes_ok (l : list Z) : Prop := Forall byte_ok l.

(** [POF_BITNUM_TO_BYTENUM_CEIL]: the number of bytes that hold [len_b] bits
    (the addition is done in the operand's type, here wide enough, and the
    result is cast to [uint32_t]). *)
Definition BITNUM_TO_BYTENUM_CEIL (len_b : Z) : Z := u32 ((len_b + 7) / 8).

(** ** Buffers

    A C object of bytes is a [list Z].  [rd] and [wr] are one-byte accesses;
    an access outside the object is undefined behaviour in C and is [None]
    here (a memory fault). *)

Definition blen (l : list Z) : Z := Z.of_nat (length l).

Definition rd (l : list Z) (i : Z) : option Z :=
  if i <? 0 then None else l !! Z.to_nat i.

Definition wr (l : list Z) (i v : Z) : option (list Z) :=
  if (0 <=? i) && (i <? blen l) then Some (<[Z.to_nat i := v]> l) else None.

(** Total read used in specifications only. *)
Definition byte_at (l : list Z) (i : Z) : Z := nth (Z.to_nat i) l 0.

(** Bit [i] of a buffer in network order: bit 0 is the most significant bit
    of byte 0. *)
Definition bit_at (l : list Z) (i : Z) : bool :=
  Z.testbit (byte_at l (i / 8)) (7 - i mod 8).

(** [sub_buf l i n]: the [n] bytes from offset [i]; [None] past the end. *)
Definition sub_buf (l : list Z) (i n : Z) : option (list Z) :=
  if (0 <=? i) && (0 <=? n) && (i + n <=? blen l)
  then Some (take (Z.to_nat n) (drop (Z.to_nat i) l)) else None.

(** [put_buf l i s]: [memcpy] of [s] into [l] at offset [i]. *)
Definition put_buf (l : list Z) (i : Z) (s : list Z) : option (list Z) :=
  if (0 <=? i) && (i + blen s <=? blen l)
  then Some (take (Z.to_nat i) l ++ s ++ drop (Z.to_nat i + length s) l) else None.

(** [at_ptr l i f]: run [f] on the object seen through a pointer to its byte
    [i] and put the changed suffix back. *)
Definition at_ptr (l : list Z) (i : Z) (f : list Z -> option (list Z)) : option (list Z) :=
  if (0 <=? i) && (i <=? blen l)
  then r ← f (drop (Z.to_nat i) l); Some (take (Z.to_nat i) l ++ r)
  else None.

(** ** Lemma database and tactics *)

Create HintDb pof discriminated.
Create Rewrite HintDb pof.

(** [lia] reads [/] and [mod] through their Euclidean equations. *)
Ltac Zify.zify_post_hook ::= Z.to_euclidean_division_equations.

(** Case analysis on every boolean comparison in sight. *)
Ltac zcases :=
  repeat match goal with
  | |- context [Z.ltb ?a ?b] => destruct (Z.ltb_spec a b)
  | |- context [Z.leb ?a ?b] => destruct (Z.leb_spec a b)
  | |- context [Z.eqb ?a ?b] => destruct (Z.eqb_spec a b)
  | H : context [Z.ltb ?a ?b] |- _ => destruct (Z.ltb_spec a b)
  | H : context [Z.leb ?a ?b] |- _ => destruct (Z.leb_spec a b)
  | H : context [Z.eqb ?a ?b] |- _ => destruct (Z.eqb_spec a b)
  end; cbn [andb orb negb] in *; try lia; try discriminate.

Ltac mod_lia := unfold u8, u16, u32, u64, i16, i32, byte_ok in *; lia.

(** *** Machine-integer facts *)

Lemma u8_small x : 0 <= x < 256 -> u8 x = x.
Proof. mod_lia. Qed.
Lemma u16_small x : 0 <= x < 65536 -> u16 x = x.
Proof. mod_lia. Qed.
Lemma u32_small x : 0 <= x < 4294967296 -> u32 x = x.
Proof. mod_lia. Qed.
Lemma u8_bound x : 0 <= u8 x < 256.
Proof. mod_lia. Qed.
Lemma u16_bound x : 0 <= u16 x < 65536.
Proof. mod_lia. Qed.
Lemma u32_bound x : 0 <= u32 x < 4294967296.
Proof. mod_lia. Qed.
#[export] Hint Resolve u8_bound u16_bound u32_bound : pof.

Lemma ceil_bytes len_b : 0 <= len_b <= 1048576 -> BITNUM_TO_BYTENUM_CEIL len_b = (len_b + 7) / 8.
Proof. intros. unfold BITNUM_TO_BYTENUM_CEIL. mod_lia. Qed.

(** *** Bits of bytes *)

Lemma testbit_u8 x j : 0 <= j -> Z.testbit (u8 x) j = (j <? 8) && Z.testbit x j.
Proof.
  intros. unfold u8. change 256 with (2 ^ 8). zcases.
  - now rewrite Z.mod_pow2_bits_low by lia.
  - now rewrite Z.mod_pow2_bits_high by lia.
Qed.

Lemma byte_testbit_high b j : byte_ok b -> 8 <= j -> Z.testbit b j = false.
Proof.
  intros Hb Hj. rewrite <- (u8_small b) by exact Hb.
  rewrite testbit_u8 by lia. zcases; reflexivity.
Qed.

Lemma u8_byte_ok x : byte_ok (u8 x).
Proof. apply u8_bound. Qed.
#[export] Hint Resolve u8_byte_ok : pof.

Lemma byte_ext b c : byte_ok b -> byte_ok c ->
  (forall j, 0 <= j < 8 -> Z.testbit b j = Z.testbit c j) -> b = c.
Proof.
  intros Hb Hc H. apply Z.bits_inj'. intros j Hj.
  destruct (Z.ltb_spec j 8); [apply H; lia|].
  now rewrite !byte_testbit_high by (auto; lia).
Qed.

(** *** Buffer accesses *)

Lemma rd_inv l i b : rd l i = Some b -> 0 <= i < blen l /\ b = byte_at l i.
Proof.
  unfold rd, byte_at, blen. zcases. intros Hl.
  pose proof (lookup_lt_Some _ _ _ Hl). rewrite nth_lookup, Hl. split; [lia|done].
Qed.

Lemma rd_in l i : 0 <= i < blen l -> rd l i = Some (byte_at l i).
Proof.
  unfold rd, byte_at, blen. intros. zcases.
  destruct (l !! Z.to_nat i) eqn:E.
  - now rewrite nth_lookup, E.
  - apply lookup_ge_None in E. lia.
Qed.

Lemma rd_out l i : i < 0 \/ blen l <= i -> rd l i = None.
Proof.
  unfold rd, blen. intros. zcases; [done|]. apply lookup_ge_None. lia.
Qed.

Lemma wr_in l i v : 0 <= i < blen l -> wr l i v = Some (<[Z.to_nat i := v]> l).
Proof. unfold wr. intros. zcases. reflexivity. Qed.

Lemma wr_out l i v : i < 0 \/ blen l <= i -> wr l i v = None.
Proof. unfold wr. intros. zcases; reflexivity. Qed.

Lemma wr_inv l i v l' : wr l i v = Some l' -> 0 <= i < blen l /\ l' = <[Z.to_nat i := v]> l.
Proof. unfold wr. zcases; intros [= <-]. split; [lia|done]. Qed.

Lemma blen_nonneg l : 0 <= blen l.
Proof. unfold blen. lia. Qed.
#[export] Hint Resolve blen_nonneg : pof.

Lemma blen_insert l i (v : Z) : blen (<[i := v]> l) = blen l.
Proof. unfold blen. now rewrite length_insert. Qed.

Lemma blen_app l1 l2 : blen (l1 ++ l2) = blen l1 + blen l2.
Proof. unfold blen. rewrite length_app. lia. Qed.

Lemma blen_drop l i : 0 <= i <= blen l -> blen (drop (Z.to_nat i) l) = blen l - i.
Proof. unfold blen. rewrite length_drop. lia. Qed.

Lemma blen_take l i : 0 <= i <= blen l -> blen (take (Z.to_nat i) l) = i.
Proof. unfold blen. rewrite length_take. lia. Qed.
#[export] Hint Rewrite blen_insert blen_app : pof.

Lemma byte_at_insert l i k v : 0 <= i < blen l -> 0 <= k ->
  byte_at (<[Z.to_nat i := v]> l) k = if k =? i then v else byte_at l k.
Proof.
  unfold byte_at, blen. intros. rewrite !nth_lookup. zcases.
  - subst. rewrite list_lookup_insert_eq; [done|lia].
  - rewrite list_lookup_insert_ne; [done|lia].
Qed.

Lemma byte_at_out l i : blen l <= i -> byte_at l i = 0.
Proof. unfold byte_at, blen. intros. apply nth_overflow. lia. Qed.

Lemma bytes_ok_at l i : bytes_ok l -> byte_ok (byte_at l i).
Proof.
  intros H. unfold byte_at. rewrite nth_lookup.
  destruct (l !! Z.to_nat i) eqn:E; cbn.
  - eapply Forall_lookup in H; eauto.
  - unfold byte_ok; lia.
Qed.

Lemma bytes_ok_insert l i v : bytes_ok l -> byte_ok v -> bytes_ok (<[i := v]> l).
Proof. intros. now apply Forall_insert. Qed.
#[export] Hint Resolve bytes_ok_at bytes_ok_insert : pof.

Lemma byte_at_drop l i k : 0 <= i -> 0 <= k -> byte_at (drop (Z.to_nat i) l) k = byte_at l (i + k).
Proof.
  intros. unfold byte_at. rewrite !nth_lookup, lookup_drop. do 2 f_equal. lia.
Qed.

Lemma byte_at_app l1 l2 k : 0 <= k ->
  byte_at (l1 ++ l2) k = if k <? blen l1 then byte_at l1 k else byte_at l2 (k - blen l1).
Proof.
  intros. unfold byte_at, blen. zcases.
  - rewrite app_nth1; [done|lia].
  - rewrite app_nth2 by lia. f_equal. lia.
Qed.

Lemma byte_at_take l n k : 0 <= n -> 0 <= k < n -> byte_at (take (Z.to_nat n) l) k = byte_at l k.
Proof.
  intros. unfold byte_at. rewrite !nth_lookup, lookup_take_lt; [done|lia].
Qed.

Lemma bytes_ext l1 l2 : blen l1 = blen l2 ->
  (forall k, 0 <= k < blen l1 -> byte_at l1 k = byte_at l2 k) -> l1 = l2.
Proof.
  unfold blen, byte_at. intros Hl H. apply (nth_ext _ _ 0 0); [lia|].
  intros n Hn. specialize (H (Z.of_nat n) ltac:(lia)). now rewrite Nat2Z.id in H.
Qed.

(** Two byte buffers with the same bits are the same buffer. *)
Lemma bits_ext l1 l2 : bytes_ok l1 -> bytes_ok l2 -> blen l1 = blen l2 ->
  (forall i, 0 <= i < 8 * blen l1 -> bit_at l1 i = bit_at l2 i) -> l1 = l2.
Proof.
  intros H1 H2 Hl H. apply bytes_ext; [done|]. intros k Hk.
  apply byte_ext; auto with pof. intros j Hj.
  specialize (H (8 * k + (7 - j)) ltac:(lia)). unfold bit_at in H.
  replace ((8 * k + (7 - j)) / 8) with k in H by lia.
  replace (7 - (8 * k + (7 - j)) mod 8) with j in H by lia. done.
Qed.

Lemma bit_at_out l i : 8 * blen l <= i -> bit_at l i = false.
Proof. intros. unfold bit_at. rewrite byte_at_out by lia. apply Z.testbit_0_l. Qed.

(** Writing byte [k] changes exactly the bits [8k .. 8k+7]. *)
Lemma bit_at_insert l k v i : 0 <= k < blen l -> 0 <= i ->
  bit_at (<[Z.to_nat k := v]> l) i =
  if (8 * k <=? i) && (i <? 8 * k + 8) then Z.testbit v (7 - (i - 8 * k)) else bit_at l i.
Proof.
  intros. unfold bit_at. rewrite byte_at_insert by lia.
  destruct (Z.eqb_spec (i / 8) k).
  - zcases. f_equal. lia.
  - zcases; reflexivity.
Qed.

Lemma bit_at_drop l k i : 0 <= k -> 0 <= i -> bit_at (drop (Z.to_nat k) l) i = bit_at l (8 * k + i).
Proof.
  intros. unfold bit_at. rewrite byte_at_drop by lia.
  replace ((8 * k + i) / 8) with (k + i / 8) by lia.
  now replace ((8 * k + i) mod 8) with (i mod 8) by lia.
Qed.

Lemma bit_at_byte l k m : 0 <= m < 8 -> bit_at l (8 * k + m) = Z.testbit (byte_at l k) (7 - m).
Proof.
  intros. unfold bit_at. replace ((8 * k + m) / 8) with k by lia.
  now replace ((8 * k + m) mod 8) with m by lia.
Qed.

Lemma bytes_ok_app l1 l2 : bytes_ok l1 -> bytes_ok l2 -> bytes_ok (l1 ++ l2).
Proof. intros. now apply Forall_app. Qed.

Lemma bytes_ok_cons b l : bytes_ok (b :: l) <-> byte_ok b /\ bytes_ok l.
Proof. apply Forall_cons. Qed.

Lemma bytes_ok_drop n l : bytes_ok l -> bytes_ok (drop n l).
Proof. apply Forall_drop. Qed.

Lemma bytes_ok_take n l : bytes_ok l -> bytes_ok (take n l).
Proof. apply Forall_take. Qed.
#[export] Hint Resolve bytes_ok_app bytes_ok_drop bytes_ok_take : pof.

(** *** Deciding side conditions on concrete buffers *)

#[export] Instance byte_ok_dec b : Decision (byte_ok b).
Proof. unfold byte_ok. apply _. Defined.
#[export] Instance bytes_ok_dec l : Decision (bytes_ok l).
Proof. unfold bytes_ok. apply _. Defined.

(** A bounded property of integers, checked by enumeration. *)
Definition for_range (lo : Z) (n : nat) (f : Z -> bool) : bool :=
  forallb (fun k => f (lo + Z.of_nat k)) (seq 0 n).

Lemma for_range_spec lo n f : for_range lo n f = true ->
  forall i, lo <= i < lo + Z.of_nat n -> f i = true.
Proof.
  unfold for_range. rewrite forallb_forall. intros H i Hi.
  specialize (H (Z.to_nat (i - lo))). rewrite in_seq in H.
  replace (lo + Z.of_nat (Z.to_nat (i - lo))) with i in H by lia. apply H. lia.
Qed.

(** Splits conjunctions only. *)
Ltac conjs := repeat match goal with |- _ /\ _ => split end.

(** Closes the decidable side conditions of a property at a concrete input. *)
Ltac by_decide := refine (bool_decide_unpack _ _); vm_compute; exact I.
