(* ===== verification/Bits.v ===== *)
(** * Bit-field copy and cover (common/pof_basefunc.c)

    [pofbf_copy_bit] reads a bit field out of a buffer, [pofbf_cover_bit]
    writes one into a buffer.  Every field access of the datapath goes through
    these two functions.  Pointers are modelled by the suffix of the object
    they point into; an access outside the object is a fault ([None]).  The two
    operands of [|] are evaluated left to right, as the source intends. *)

From S2P Require Import Prelude.

(** ** Definitions *)

(** The loop of [pofbf_cover_bit]: [ptr] and [vi] are the indices of [*ptr]
    and [*value].  [len_b - 8] is an [int] compared with the unsigned
    [process_len_b], so it is converted to [uint32_t].  Each round writes at
    [ptr + 1], so the rounds are bounded by the length of the object; [fuel]
    is that length, and a loop that would go on faults. *)
Fixpoint cover_loop (fuel : nat) (data value : list Z) (ptr vi process_len_b pos_b_x len_b : Z)
  : option (list Z * Z * Z * Z) :=
  if process_len_b <? u32 (len_b - 8) then
    match fuel with
    | O => None
    | S fuel' =>
        v0 ← rd value vi;
        v1 ← rd value (vi + 1);
        data' ← wr data (ptr + 1)
          (u8 (Z.lor (Z.shiftl v0 (8 - pos_b_x)) (Z.shiftr v1 pos_b_x)));
        cover_loop fuel' data' value (ptr + 1) (vi + 1) (u32 (process_len_b + 8)) pos_b_x len_b
    end
  else Some (data, ptr, vi, process_len_b).

Definition pofbf_cover_bit (data_ori value : list Z) (pos_b len_b : Z) : option (list Z) :=
  let pos_b_x := pos_b mod 8 in
  let after_len_b_x := u16 (Z.rem (len_b + pos_b - 1) 8 + 1) in
  let ptr := u16 (pos_b / 8) in
  p ← rd data_ori ptr;
  v ← rd value 0;
  if len_b <=? 8 - pos_b_x then
    wr data_ori ptr
      (u8 (Z.lor (Z.lor (Z.land p (Z.shiftl 255 (8 - pos_b_x)))
                        (Z.land (Z.shiftr v pos_b_x) (Z.shiftl 255 (8 - after_len_b_x))))
                 (Z.land p (Z.shiftr 255 after_len_b_x))))
  else
    data1 ← wr data_ori ptr
      (u8 (Z.lor (Z.land p (Z.shiftl 255 (8 - pos_b_x))) (Z.shiftr v pos_b_x)));
    '(data2, ptr2, vi, process_len_b) ←
      cover_loop (S (length data_ori)) data1 value ptr 0 (8 - pos_b_x) pos_b_x len_b;
    v0 ← rd value vi;
    v1 ← rd value (vi + 1);
    q ← rd data2 (ptr2 + 1);
    wr data2 (ptr2 + 1)
      (u8 (Z.lor (Z.lor (Z.shiftl v0 (8 - pos_b_x))
                        (Z.land (Z.shiftr v1 pos_b_x)
                                (Z.shiftl 255 (8 - (len_b - process_len_b)))))
                 (Z.land q (Z.shiftr 255 (len_b - process_len_b))))).

(** The loop of [pofbf_copy_bit]: [ptr] indexes [data_ori], [ri] indexes
    [data_res]; [process_len_b] grows by 8 up to [len_b], a [uint16_t]. *)
Fixpoint copy_loop (fuel : nat) (data_ori data_res : list Z) (ptr ri process_len_b offset_b_x len_b : Z)
  : option (list Z * Z * Z) :=
  if process_len_b <? len_b then
    match fuel with
    | O => None
    | S fuel' =>
        a ← rd data_ori ptr;
        b ← rd data_ori (ptr + 1);
        res' ← wr data_res ri
          (u8 (Z.lor (Z.shiftl a offset_b_x) (Z.shiftr b (8 - offset_b_x))));
        copy_loop fuel' data_ori res' (ptr + 1) (ri + 1) (u32 (process_len_b + 8)) offset_b_x len_b
    end
  else Some (data_res, ri, process_len_b).

(** [data_res] points to byte [base] of the object [res]; [len_b / 8 + 1]
    rounds are enough. *)
Definition pofbf_copy_bit (data_ori res : list Z) (base offset_b len_b : Z) : option (list Z) :=
  let offset_B := u16 (offset_b / 8) in
  let offset_b_x := offset_b mod 8 in
  '(res1, ri, process_len_b) ←
    copy_loop (Z.to_nat (len_b / 8 + 1)) data_ori res offset_B base 0 offset_b_x len_b;
  b ← rd res1 (ri - 1);
  wr res1 (ri - 1) (u8 (Z.land b (Z.shiftl 255 (process_len_b - len_b)))).

(** ** Specification vocabulary *)

(** The buffer [value] holds a [len_b]-bit field, left-justified, and the rest
    of its last byte is zero. *)
Definition tail_zero (value : list Z) (len_b : Z) : Prop :=
  forall i, len_b <= i < 8 * ((len_b + 7) / 8) -> bit_at value i = false.

(** Bits [pos .. pos+len-1] of [data] replaced by the first [len] of [value]. *)
Definition covered (data value : list Z) (pos_b len_b : Z) (data' : list Z) : Prop :=
  length data' = length data /\ bytes_ok data' /\
  forall i, 0 <= i -> bit_at data' i =
    if (pos_b <=? i) && (i <? pos_b + len_b) then bit_at value (i - pos_b) else bit_at data i.

(** [res'] is [res] with the field written left-justified and zero-padded to
    a whole number of bytes at byte [base]. *)
Definition copied (src res : list Z) (base offset_b len_b : Z) (res' : list Z) : Prop :=
  length res' = length res /\ bytes_ok res' /\
  forall i, 0 <= i -> bit_at res' i =
    if (8 * base <=? i) && (i <? 8 * base + 8 * ((len_b + 7) / 8))
    then (i - 8 * base <? len_b) && bit_at src (offset_b + (i - 8 * base))
    else bit_at res i.

(** ** Bit-level lemmas *)

Lemma testbit_255 j : Z.testbit 255 j = (0 <=? j) && (j <? 8).
Proof.
  destruct (Z.ltb_spec j 0); [now rewrite Z.testbit_neg_r by lia; zcases|].
  change 255 with (Z.ones 8). rewrite Z.testbit_ones_nonneg by lia. zcases; reflexivity.
Qed.

(** Push [Z.testbit] through the byte expression, split on every shift bound
    and drop the bits outside a byte. *)
Ltac byte_bits :=
  intros;
  rewrite ?testbit_u8, ?Z.lor_spec, ?Z.land_spec by lia;
  rewrite ?Z.shiftl_spec, ?Z.shiftr_spec by lia;
  rewrite ?testbit_255; zcases;
  rewrite ?andb_true_r, ?andb_false_r, ?orb_false_r, ?orb_false_l;
  repeat match goal with
    | |- context [Z.testbit ?b ?k] =>
        first [ rewrite (byte_testbit_high b k) by (assumption || lia)
              | rewrite (Z.testbit_neg_r b k) by lia ]
    end;
  rewrite ?andb_true_r, ?andb_false_r, ?orb_false_r, ?orb_false_l; try reflexivity;
  try (f_equal; lia).

Section byte_expressions.
Context (p q v v0 v1 x r j : Z).
Hypothesis Hx : 0 <= x < 8.
Hypothesis Hj : 0 <= j < 8.
Hypothesis Hp : byte_ok p.
Hypothesis Hv : byte_ok v.
Hypothesis Hv1 : byte_ok v1.

Lemma first_byte :
    Z.testbit (u8 (Z.lor (Z.land p (Z.shiftl 255 (8 - x))) (Z.shiftr v x))) j =
    if 8 - x <=? j then Z.testbit p j else Z.testbit v (j + x).
  Proof. byte_bits. Qed.

Lemma middle_byte :
    Z.testbit (u8 (Z.lor (Z.shiftl v0 (8 - x)) (Z.shiftr v1 x))) j =
    if 8 - x <=? j then Z.testbit v0 (j - (8 - x)) else Z.testbit v1 (j + x).
  Proof. byte_bits. Qed.

Lemma last_byte : 1 <= r <= 8 ->
    Z.testbit (u8 (Z.lor (Z.lor (Z.shiftl v0 (8 - x))
                          (Z.land (Z.shiftr v1 x) (Z.shiftl 255 (8 - r))))
                     (Z.land q (Z.shiftr 255 r)))) j =
    if 8 - r <=? j
    then (if 8 - x <=? j then Z.testbit v0 (j - (8 - x)) else Z.testbit v1 (j + x))
    else ((8 - x <=? j) && Z.testbit v0 (j - (8 - x))) || Z.testbit q j.
  Proof. byte_bits. Qed.

Lemma single_byte : 1 <= r <= 8 -> x < r ->
    Z.testbit (u8 (Z.lor (Z.lor (Z.land p (Z.shiftl 255 (8 - x)))
                            (Z.land (Z.shiftr v x) (Z.shiftl 255 (8 - r))))
                     (Z.land p (Z.shiftr 255 r)))) j =
    if 8 - x <=? j then Z.testbit p j
    else if 8 - r <=? j then Z.testbit v (j + x) else Z.testbit p j.
  Proof. byte_bits. Qed.

Lemma copy_byte :
    Z.testbit (u8 (Z.lor (Z.shiftl v0 x) (Z.shiftr v1 (8 - x)))) j =
    if x <=? j then Z.testbit v0 (j - x) else Z.testbit v1 (j + (8 - x)).
  Proof. byte_bits. Qed.

Lemma trim_byte : 0 <= x < 8 ->
    Z.testbit (u8 (Z.land p (Z.shiftl 255 x))) j = (x <=? j) && Z.testbit p j.
  Proof. byte_bits. Qed.
End byte_expressions.

(** A field bit that starts [x + m] bits into byte [k] sits in byte [k] or in
    byte [k + 1]. *)
Lemma bit_at_straddle l k x m : 0 <= x <= 8 -> 0 <= m < 8 ->
  bit_at l (8 * k + (x + m)) =
  if x + m <? 8 then Z.testbit (byte_at l k) (7 - (x + m))
  else Z.testbit (byte_at l (k + 1)) (7 - (x + m - 8)).
Proof.
  intros. zcases.
  - now rewrite bit_at_byte by lia.
  - replace (8 * k + (x + m)) with (8 * (k + 1) + (x + m - 8)) by lia.
    now rewrite bit_at_byte by lia.
Qed.

(** ** [pofbf_copy_bit] *)

Section copy.
Context (src : list Z) (P base x len : Z).
  #[local] Abbreviation N := ((len + 7) / 8).
Hypothesis Hx : 0 <= x < 8.
Hypothesis HP : 0 <= P.
Hypothesis Hbase : 0 <= base.
Hypothesis Hlen : 0 <= len < 65536.
Hypothesis Hsrc : bytes_ok src.
Hypothesis Hroom : P + N + 1 <= blen src.

Lemma copy_loop_ok fuel : forall k res,
    0 <= k <= N -> N - k <= Z.of_nat fuel -> bytes_ok res -> base + N <= blen res ->
    exists res',
      copy_loop fuel src res (P + k) (base + k) (8 * k) x len = Some (res', base + N, 8 * N) /\
      length res' = length res /\ bytes_ok res' /\
      forall i, 0 <= i -> bit_at res' i =
        if (8 * (base + k) <=? i) && (i <? 8 * (base + N))
        then bit_at src (8 * P + (x + (i - 8 * base))) else bit_at res i.
  Proof.
    induction fuel as [|fuel IH]; intros k res Hk Hf Hres Hb; cbn [copy_loop].
    - destruct (Z.ltb_spec (8 * k) len); [lia|]. exists res.
      split; [repeat f_equal; lia|]. do 2 (split; [done|]). intros i Hi. zcases; reflexivity.
    - destruct (Z.ltb_spec (8 * k) len).
      2: { exists res. split; [repeat f_equal; lia|]. do 2 (split; [done|]).
           intros i Hi. zcases; reflexivity. }
      rewrite !rd_in by lia. cbn [mbind option_bind].
      rewrite wr_in by lia. cbn [mbind option_bind].
      set (w := u8 _). rewrite (u32_small (8 * k + 8)) by lia.
      specialize (IH (k + 1) (<[Z.to_nat (base + k) := w]> res)).
      rewrite blen_insert in IH. destruct IH as (res' & E & L & B & S); try lia.
      { apply bytes_ok_insert; [done|apply u8_byte_ok]. }
      replace (P + k + 1) with (P + (k + 1)) by lia.
      replace (base + k + 1) with (base + (k + 1)) by lia.
      replace (8 * k + 8) with (8 * (k + 1)) by lia.
      exists res'. split; [exact E|]. rewrite length_insert in L. do 2 (split; [done|]).
      intros i Hi. rewrite S by lia. rewrite bit_at_insert by lia.
      zcases; try reflexivity. unfold w.
      rewrite copy_byte by (first [lia | apply bytes_ok_at, Hsrc]).
      replace (8 * P + (x + (i - 8 * base))) with (8 * (P + k) + (x + (i - 8 * (base + k)))) by lia.
      rewrite bit_at_straddle by lia. zcases; f_equal; lia.
  Qed.
End copy.

(** [pofbf_copy_bit] reads the field: for a non-empty field inside the source
    (whose object has one byte more than the field covers) the destination
    holds exactly the field's bits, zero-padded to a byte. *)
Lemma copy_bit_ok src res base offset_b len_b :
  bytes_ok src -> bytes_ok res -> 0 <= base ->
  0 <= offset_b < 65536 -> 1 <= len_b < 65536 ->
  offset_b / 8 + (len_b + 7) / 8 + 1 <= blen src ->
  base + (len_b + 7) / 8 <= blen res ->
  exists res', pofbf_copy_bit src res base offset_b len_b = Some res' /\
               copied src res base offset_b len_b res'.
Proof.
  intros Hs Hr Hb Ho Hl H1 H2. unfold pofbf_copy_bit. rewrite (u16_small (offset_b / 8)) by lia.
  destruct (copy_loop_ok src (offset_b / 8) base (offset_b mod 8) len_b
              ltac:(lia) ltac:(lia) Hb ltac:(lia) Hs H1 (Z.to_nat (len_b / 8 + 1)) 0 res)
    as (r1 & E & L & B & S); try lia; auto.
  rewrite !Z.add_0_r, Z.mul_0_r in E. rewrite E. cbn [mbind option_bind].
  assert (blen r1 = blen res) as Lr by (unfold blen; lia).
  rewrite rd_in by lia. cbn [mbind option_bind]. rewrite wr_in by lia.
  eexists; split; [reflexivity|]. split; [now rewrite length_insert|].
  split; [apply bytes_ok_insert; [done|apply u8_byte_ok]|].
  intros i Hi. rewrite bit_at_insert by lia.
  set (last := base + (len_b + 7) / 8 - 1) in *.
  destruct ((8 * last <=? i) && (i <? 8 * last + 8)) eqn:C.
  - assert (8 * last <= i < 8 * last + 8) as Ci by (revert C; zcases).
    rewrite trim_byte by (first [lia | apply bytes_ok_at, B]).
    rewrite <- (bit_at_byte r1 last (i - 8 * last)) by lia.
    replace (8 * last + (i - 8 * last)) with i by lia. rewrite S by lia.
    unfold last in *. zcases; try reflexivity; rewrite ?andb_true_l; f_equal; lia.
  - rewrite S by lia. unfold last in *. revert C. zcases; intros _; try reflexivity.
    rewrite ?andb_true_l. f_equal; lia.
Qed.

(** ** [pofbf_cover_bit] *)

Section cover.
Context (value : list Z) (P x len : Z).
  #[local] Abbreviation K := ((len + x - 9) / 8).
Hypothesis Hx : 0 <= x < 8.
Hypothesis HP : 0 <= P.
Hypothesis Hlen : 8 <= len < 65536.
Hypothesis Hval : bytes_ok value.
Hypothesis Hroom : K + 2 <= blen value.

Lemma cover_loop_ok fuel : forall k data,
    0 <= k <= K -> K - k <= Z.of_nat fuel -> bytes_ok data -> P + K + 2 <= blen data ->
    exists data',
      cover_loop fuel data value (P + k) k (8 - x + 8 * k) x len
        = Some (data', P + K, K, 8 - x + 8 * K) /\
      length data' = length data /\ bytes_ok data' /\
      forall i, 0 <= i -> bit_at data' i =
        if (8 * (P + k + 1) <=? i) && (i <? 8 * (P + K + 1))
        then bit_at value (i - (8 * P + x)) else bit_at data i.
  Proof.
    assert (u32 (len - 8) = len - 8) as Hu by (apply u32_small; lia).
    induction fuel as [|fuel IH]; intros k data Hk Hf Hd Hb; cbn [cover_loop]; rewrite Hu.
    - destruct (Z.ltb_spec (8 - x + 8 * k) (len - 8)); [lia|].
      replace k with K by lia. exists data.
      do 3 (split; [done|]). intros i Hi. zcases; reflexivity.
    - destruct (Z.ltb_spec (8 - x + 8 * k) (len - 8)).
      2: { replace k with K by lia. exists data. do 3 (split; [done|]).
           intros i Hi. zcases; reflexivity. }
      rewrite !rd_in by lia. cbn [mbind option_bind].
      rewrite wr_in by lia. cbn [mbind option_bind].
      set (w := u8 _). rewrite (u32_small (8 - x + 8 * k + 8)) by lia.
      specialize (IH (k + 1) (<[Z.to_nat (P + k + 1) := w]> data)).
      rewrite blen_insert in IH. destruct IH as (d' & E & L & B & S); try lia.
      { apply bytes_ok_insert; [done|apply u8_byte_ok]. }
      replace (P + k + 1) with (P + (k + 1)) by lia.
      replace (8 - x + 8 * k + 8) with (8 - x + 8 * (k + 1)) by lia.
      exists d'. replace (P + k + 1) with (P + (k + 1)) in E by lia.
      split; [exact E|]. rewrite length_insert in L. do 2 (split; [done|]).
      intros i Hi. rewrite S by lia. rewrite bit_at_insert by lia.
      destruct ((8 * (P + k + 1) <=? i) && (i <? 8 * (P + k + 1) + 8)) eqn:C.
      + assert (8 * (P + k + 1) <= i < 8 * (P + k + 1) + 8) as Ci by (revert C; zcases).
        unfold w. rewrite middle_byte by (first [lia | apply bytes_ok_at, Hval]).
        replace (i - (8 * P + x)) with (8 * k + ((8 - x) + (i - 8 * (P + k + 1)))) by lia.
        rewrite bit_at_straddle by lia. clear C E S. zcases; f_equal; lia.
      + revert C. clear E S. zcases; intros _; reflexivity.
  Qed.
End cover.

(** The field lies in one byte. *)
Lemma cover_single data value pos_b len_b :
  bytes_ok data -> bytes_ok value -> 0 <= pos_b -> 1 <= len_b -> pos_b < 65536 -> len_b < 65536 ->
  len_b <= 8 - pos_b mod 8 -> pos_b + len_b <= 8 * blen data -> 1 <= blen value ->
  exists data', pofbf_cover_bit data value pos_b len_b = Some data' /\
                covered data value pos_b len_b data'.
Proof.
  intros Hd Hv Hp Hl Hpm Hlm Hone Hdl Hvl. unfold pofbf_cover_bit.
  rewrite (u16_small (pos_b / 8)) by lia. rewrite !rd_in by lia. cbn [mbind option_bind].
  rewrite (proj2 (Z.leb_le _ _)) by lia. rewrite wr_in by lia.
  eexists; split; [reflexivity|]. split; [now rewrite length_insert|].
  split; [apply bytes_ok_insert; [done|apply u8_byte_ok]|].
  intros i Hi. rewrite bit_at_insert by lia.
  rewrite (Z.rem_mod_nonneg (len_b + pos_b - 1) 8) by lia.
  rewrite (u16_small ((len_b + pos_b - 1) mod 8 + 1)) by lia.
  set (x := pos_b mod 8) in *. set (P := pos_b / 8) in *.
  assert (pos_b = 8 * P + x) as Ep by lia.
  assert (0 <= x < 8) as Hx by lia. assert (0 <= P) by lia.
  replace ((len_b + pos_b - 1) mod 8 + 1) with (x + len_b) by lia.
  clearbody x P. subst pos_b.
  destruct ((8 * P <=? i) && (i <? 8 * P + 8)) eqn:C.
  - assert (8 * P <= i < 8 * P + 8) as Ci by (revert C; zcases). clear C.
    rewrite single_byte by (first [lia | apply bytes_ok_at; done]).
    assert (bit_at data i = Z.testbit (byte_at data P) (7 - (i - 8 * P))) as ->.
    { rewrite <- bit_at_byte by lia. f_equal; lia. }
    zcases; try (f_equal; lia).
    replace (i - (8 * P + x)) with (8 * 0 + (i - (8 * P + x))) by lia.
    rewrite bit_at_byte by lia. f_equal; lia.
  - revert C. zcases; intros _; reflexivity.
Qed.

(** The field spans several bytes and is at least eight bits long. *)
Lemma cover_multi data value pos_b len_b :
  bytes_ok data -> bytes_ok value -> 0 <= pos_b -> 8 <= len_b -> pos_b < 65536 -> len_b < 65536 ->
  8 - pos_b mod 8 < len_b -> pos_b + len_b <= 8 * blen data ->
  (pos_b mod 8 + len_b + 7) / 8 <= blen value -> tail_zero value len_b ->
  exists data', pofbf_cover_bit data value pos_b len_b = Some data' /\
                covered data value pos_b len_b data'.
Proof.
  intros Hd Hv Hp Hl Hpm Hlm Hone Hdl Hvl Htail. unfold pofbf_cover_bit, tail_zero in *.
  rewrite (u16_small (pos_b / 8)) by lia. rewrite !rd_in by lia. cbn [mbind option_bind].
  rewrite (proj2 (Z.leb_gt _ _)) by lia. rewrite wr_in by lia. cbn [mbind option_bind].
  set (x := pos_b mod 8) in *. set (P := pos_b / 8) in *.
  assert (pos_b = 8 * P + x) as Ep by lia.
  assert (0 <= x < 8) as Hx by lia. assert (0 <= P) by lia.
  clearbody x P. subst pos_b. clear Hp.
  set (w0 := u8 _). set (K := (len_b + x - 9) / 8).
  destruct (cover_loop_ok value P x len_b Hx ltac:(lia) ltac:(lia) Hv ltac:(lia)
              (S (length data)) 0 (<[Z.to_nat P := w0]> data)) as (d2 & E & L & B & S).
  { lia. } { unfold blen in *. lia. }
  { apply bytes_ok_insert; [done|apply u8_byte_ok]. } { rewrite blen_insert. lia. }
  rewrite Z.add_0_r, Z.mul_0_r, Z.add_0_r in E. rewrite E. clear E. cbn [mbind option_bind].
  fold K in S |- *. rewrite length_insert in L.
  assert (blen d2 = blen data) as Lb by (unfold blen; lia).
  rewrite !rd_in by lia. cbn [mbind option_bind]. rewrite wr_in by lia.
  eexists; split; [reflexivity|]. split; [now rewrite length_insert|].
  split; [apply bytes_ok_insert; [done|apply u8_byte_ok]|].
  intros i Hi. rewrite bit_at_insert by lia.
  set (r := len_b - (8 - x + 8 * K)). assert (1 <= r <= 8) as Hr by lia.
  assert (len_b = 8 - x + 8 * K + r) as El by lia. clearbody K r. 
  destruct ((8 * (P + K + 1) <=? i) && (i <? 8 * (P + K + 1) + 8)) eqn:C.
  - assert (8 * (P + K + 1) <= i < 8 * (P + K + 1) + 8) as Ci by (revert C; zcases). clear C.
    rewrite last_byte by (first [lia | apply bytes_ok_at; done]).
    assert (Z.testbit (byte_at d2 (P + K + 1)) (7 - (i - 8 * (P + K + 1))) = bit_at data i) as ->.
    { rewrite <- bit_at_byte by lia.
      replace (8 * (P + K + 1) + (i - 8 * (P + K + 1))) with i by lia.
      rewrite S, bit_at_insert by lia. clear S. zcases. reflexivity. }
    clear S.
    assert (bit_at value (i - (8 * P + x)) =
      if 8 - x <=? 7 - (i - 8 * (P + K + 1))
      then Z.testbit (byte_at value K) (7 - (i - 8 * (P + K + 1)) - (8 - x))
      else Z.testbit (byte_at value (K + 1)) (7 - (i - 8 * (P + K + 1)) + x)) as Ev.
    { replace (i - (8 * P + x)) with (8 * K + ((8 - x) + (i - 8 * (P + K + 1)))) by lia.
      rewrite bit_at_straddle by lia. zcases; f_equal; lia. }
    destruct (Z.ltb_spec i (8 * P + x + len_b)).
    + zcases; rewrite Ev; zcases; reflexivity.
    + assert (8 - x <= 7 - (i - 8 * (P + K + 1)) -> bit_at value (i - (8 * P + x)) = false) as Z0.
      { intros. apply Htail. lia. }
      zcases; try reflexivity. all: rewrite Ev in Z0; clear Ev; revert Z0; zcases; intros Z0.
      all: rewrite Z0 by lia; reflexivity.
  - rewrite S, bit_at_insert by lia. clear S.
    destruct ((8 * P <=? i) && (i <? 8 * P + 8)) eqn:C0.
    + assert (8 * P <= i < 8 * P + 8) as Ci by (revert C0; zcases). clear C C0.
      unfold w0. rewrite first_byte by (first [lia | apply bytes_ok_at; done]).
      assert (bit_at data i = Z.testbit (byte_at data P) (7 - (i - 8 * P))) as ->.
      { rewrite <- bit_at_byte by lia. f_equal; lia. }
      zcases; try (f_equal; lia).
      replace (i - (8 * P + x)) with (8 * 0 + (i - (8 * P + x))) by lia.
      rewrite bit_at_byte by lia. f_equal; lia.
    + revert C C0. zcases; intros _ _; reflexivity.
Qed.

(** A field [pofbf_cover_bit] can write: inside one byte, or at least a byte
    long. *)
Definition coverable (pos_b len_b : Z) : Prop :=
  0 <= pos_b < 65536 /\ 1 <= len_b < 65536 /\ (pos_b mod 8 + len_b <= 8 \/ 8 <= len_b).

(** Enough bytes behind the [value] pointer. *)
Definition value_room (value : list Z) (pos_b len_b : Z) : Prop :=
  (pos_b mod 8 + len_b + 7) / 8 <= blen value.

Lemma cover_bit_ok data value pos_b len_b :
  bytes_ok data -> bytes_ok value -> coverable pos_b len_b ->
  pos_b + len_b <= 8 * blen data -> value_room value pos_b len_b -> tail_zero value len_b ->
  exists data', pofbf_cover_bit data value pos_b len_b = Some data' /\
                covered data value pos_b len_b data'.
Proof.
  intros Hd Hv (Hp & Hl & Hc) Hdl Hvr Ht. unfold value_room in Hvr.
  destruct (Z.leb_spec (pos_b mod 8 + len_b) 8).
  - apply cover_single; auto; lia.
  - destruct Hc; [lia|]. apply cover_multi; auto; lia.
Qed.

Lemma cover_loop_runs_away value x len fuel : forall data ptr vi proc,
  1 <= len < 8 -> 0 <= proc -> proc + 8 * Z.of_nat fuel < 4294967280 ->
  cover_loop fuel data value ptr vi proc x len = None.
Proof.
  induction fuel as [|fuel IH]; intros data ptr vi proc Hl Hp Hf; cbn [cover_loop].
  all: destruct (Z.ltb_spec proc (u32 (len - 8))) as [_|Hc]; [|unfold u32 in Hc; lia].
  - reflexivity.
  - destruct (rd value vi); [|done]. destruct (rd value (vi + 1)); [|done].
    cbn [mbind option_bind]. destruct (wr data _ _); [|done]. cbn [mbind option_bind].
    rewrite (u32_small (proc + 8)) by lia. apply IH; lia.
Qed.

(** ** Properties *)


(** Copy after cover is a round trip: a field written with
    [pofbf_cover_bit] and read with [pofbf_copy_bit] gives back the value's
    bits, left-justified, with the rest of the last byte cleared. *)
Theorem copy_after_cover data value res pos_b len_b :
  bytes_ok data -> bytes_ok value -> bytes_ok res -> coverable pos_b len_b ->
  pos_b / 8 + (len_b + 7) / 8 + 1 <= blen data -> pos_b + len_b <= 8 * blen data ->
  value_room value pos_b len_b -> tail_zero value len_b -> (len_b + 7) / 8 <= blen res ->
  exists data' res', pofbf_cover_bit data value pos_b len_b = Some data' /\
    pofbf_copy_bit data' res 0 pos_b len_b = Some res' /\
    forall i, 0 <= i < 8 * ((len_b + 7) / 8) ->
      bit_at res' i = (i <? len_b) && bit_at value i.
Proof.
  intros Hd Hv Hres Hc Hr Hr' Hw Ht Hro.
  destruct (cover_bit_ok data value pos_b len_b) as (d & E & L & B & S); auto.
  destruct Hc as (Hp & Hl & _).
  destruct (copy_bit_ok d res 0 pos_b len_b) as (r & E' & L' & B' & S'); auto; try lia.
  { unfold blen in *. lia. }
  exists d, r. split; [exact E|]. split; [exact E'|]. intros i Hi.
  rewrite S' by lia. rewrite Z.mul_0_r, !Z.add_0_l, Z.sub_0_r. zcases; try reflexivity.
  cbn. rewrite S by lia. zcases. f_equal; lia.
Qed.

(** A field shorter than a byte that crosses a byte boundary makes the
    loop of [pofbf_cover_bit] compare with a negative length converted to
    unsigned: the call never completes inside the buffer, whatever the buffers
    hold (up to 256 MB). *)
Theorem cover_short_straddle_faults data value pos_b len_b :
  1 <= len_b < 8 -> 8 < pos_b mod 8 + len_b -> blen data < 268435456 ->
  pofbf_cover_bit data value pos_b len_b = None.
Proof.
  intros Hl Hx Hd. unfold pofbf_cover_bit.
  destruct (rd data _); [|done]. destruct (rd value 0); [|done]. cbn [mbind option_bind].
  rewrite (proj2 (Z.leb_gt _ _)) by lia.
  destruct (wr data _ _) as [d|] eqn:E; [|done]. cbn [mbind option_bind].
  rewrite cover_loop_runs_away; [done|lia|lia|]. unfold blen in Hd. lia.
Qed.

(** A zero-length cover at a byte boundary other than the first is not a
    no-op: it overwrites the whole byte with the first byte of the value. *)
Theorem cover_zero_length_clobbers data value k :
  bytes_ok value -> 1 <= blen value -> 1 <= k < blen data -> k < 8192 ->
  pofbf_cover_bit data value (8 * k) 0 = Some (<[Z.to_nat k := byte_at value 0]> data).
Proof.
  intros Hv Hl Hk Hm. unfold pofbf_cover_bit.
  replace ((8 * k) mod 8) with 0 by lia. replace (8 * k / 8) with k by lia.
  rewrite (u16_small k) by lia. rewrite !rd_in by lia. cbn [mbind option_bind].
  change (0 <=? 8 - 0) with true. cbv iota. rewrite wr_in by lia. do 2 f_equal.
  rewrite (Z.rem_mod_nonneg (0 + 8 * k - 1) 8) by lia.
  replace ((0 + 8 * k - 1) mod 8) with 7 by lia. change (u16 (7 + 1)) with 8.
  change (8 - 0) with 8. change (8 - 8) with 0. change (8 - 8) with 0.
  apply byte_ext; auto with pof. intros j Hj.
  rewrite Z.shiftl_0_r, Z.shiftr_0_r. byte_bits.
Qed.

(** ** Witnesses *)


Lemma copy_after_cover_witness :
  exists d r, pofbf_cover_bit [255; 255; 255; 255] [171; 192; 0] 6 10 = Some d /\
              pofbf_copy_bit d [0; 0] 0 6 10 = Some r.
Proof.
  destruct (copy_after_cover [255; 255; 255; 255] [171; 192; 0] [0; 0] 6 10)
    as (d & r & E & F & _).
  - by_decide.
  - by_decide.
  - by_decide.
  - cbv; intuition congruence.
  - cbv; congruence.
  - cbv; congruence.
  - cbv; congruence.
  - intros i Hi. apply negb_true_iff.
    exact (for_range_spec 10 6 (fun i => negb (bit_at [171; 192; 0] i)) eq_refl i ltac:(lia)).
  - cbv; congruence.
  - exists d, r. split; [exact E|exact F].
Defined.

Lemma cover_short_straddle_faults_witness :
  pofbf_cover_bit [0; 0; 0; 0] [255; 255] 5 6 = None.
Proof. apply cover_short_straddle_faults; cbv; intuition congruence. Defined.

Lemma cover_zero_length_clobbers_witness :
  pofbf_cover_bit [1; 2; 3] [170] 16 0 = Some [1; 2; 170].
Proof. apply (cover_zero_length_clobbers [1; 2; 3] [170] 2); [by_decide| | |]; cbv; intuition congruence. Defined.
