(* ===== verification/Codec.v ===== *)
(** * Struct layout and byte order

    The C structs of the protocol (include/pof_global.h) are laid out in byte
    buffers: a field of [n] bytes at offset [off] is read with [fld] and
    written with [set_fld], little-endian like the modelled host.  The
    [POF_NTOHx] macros of include/pof_byte_transfer.h are translated from their
    masks and shifts and shown to reverse the bytes of a field. *)

From S2P Require Import Prelude.

Fixpoint le (n : nat) (x : Z) : list Z :=
  match n with
  | O => []
  | S n' => (x mod 256) :: le n' (x / 256)
  end.

Fixpoint unle (l : list Z) : Z :=
  match l with
  | [] => 0
  | b :: l' => b + 256 * unle l'
  end.

(** Read the [n]-byte field at offset [off]. *)
Definition fld (buf : list Z) (off n : nat) : Z := unle (take n (drop off buf)).

(** Overwrite the bytes of [buf] from [off]. *)
Definition patch (buf : list Z) (off : nat) (s : list Z) : list Z :=
  take off buf ++ s ++ drop (off + length s) buf.

(** Store [v] in the [n]-byte field at offset [off] ([None]: past the object). *)
Definition set_fld (buf : list Z) (off n : nat) (v : Z) : option (list Z) :=
  if (off + n <=? length buf)%nat then Some (patch buf off (le n v)) else None.

(** ** The byte-order macros *)

Definition POF_NTOHS (x : Z) : Z :=
  Z.lor (Z.shiftl (Z.land x 0x00ff) 8) (Z.shiftr (Z.land x 0xff00) 8).

Definition POF_NTOHL (x : Z) : Z :=
  Z.lor (Z.lor (Z.lor (Z.shiftl (Z.land x 0x000000ff) 24)
                      (Z.shiftl (Z.land x 0x0000ff00) 8))
               (Z.shiftr (Z.land x 0x00ff0000) 8))
        (Z.shiftr (Z.land x 0xff000000) 24).

Definition POF_NTOH64 (x : Z) : Z :=
  Z.lor (Z.lor (Z.lor (Z.lor (Z.lor (Z.lor (Z.lor
    (Z.shiftl (Z.land x 0x00000000000000ff) 56)
    (Z.shiftl (Z.land x 0x000000000000ff00) 40))
    (Z.shiftl (Z.land x 0x0000000000ff0000) 24))
    (Z.shiftl (Z.land x 0x00000000ff000000) 8))
    (Z.shiftr (Z.land x 0x000000ff00000000) 8))
    (Z.shiftr (Z.land x 0x0000ff0000000000) 24))
    (Z.shiftr (Z.land x 0x00ff000000000000) 40))
    (Z.shiftr (Z.land x 0xff00000000000000) 56).

(** [POF_NTOHx_FUNC(p->field)] for the field of [n] bytes at [off]. *)
Definition POF_NTOH_FUNC (off n : nat) (buf : list Z) : option (list Z) :=
  let x := fld buf off n in
  match n with
  | 2%nat => set_fld buf off 2 (POF_NTOHS x)
  | 4%nat => set_fld buf off 4 (POF_NTOHL x)
  | 8%nat => set_fld buf off 8 (POF_NTOH64 x)
  | _ => None
  end.

(** A sequence of such statements. *)
Fixpoint ntoh_fields (fs : list (nat * nat)) (buf : list Z) : option (list Z) :=
  match fs with
  | [] => Some buf
  | (off, n) :: fs' => buf' ← POF_NTOH_FUNC off n buf; ntoh_fields fs' buf'
  end.

(** ** Lemmas *)

Lemma length_le n x : length (le n x) = n.
Proof. revert x. induction n; intros; cbn; auto. Qed.

Lemma bytes_ok_le n x : bytes_ok (le n x).
Proof. revert x. induction n; intros; cbn; constructor; [mod_lia|apply IHn]. Qed.
#[export] Hint Resolve bytes_ok_le : pof.

Lemma unle_le n x : unle (le n x) = x mod 256 ^ Z.of_nat n.
Proof.
  revert x. induction n; intros; cbn [le unle].
  - now rewrite Z.mod_1_r.
  - rewrite IHn, Nat2Z.inj_succ, Z.pow_succ_r by lia.
    now rewrite Z.rem_mul_r by (try apply Z.pow_pos_nonneg; lia).
Qed.

Lemma unle_le_small n x : 0 <= x < 256 ^ Z.of_nat n -> unle (le n x) = x.
Proof. intros. rewrite unle_le. now apply Z.mod_small. Qed.

Lemma le_mod n x : le n (x mod 256 ^ Z.of_nat n) = le n x.
Proof.
  revert x. induction n as [|n IH]; intros x; cbn [le]; [done|].
  rewrite Nat2Z.inj_succ, Z.pow_succ_r by lia. f_equal.
  - rewrite Z.rem_mul_r by lia. rewrite Z.mul_comm, Z.mod_add by lia. now rewrite Z.mod_mod by lia.
  - rewrite Z.rem_mul_r by lia. rewrite Z.mul_comm, Z.div_add by lia. rewrite (Z.div_small (x mod 256)) by lia.
    rewrite Z.add_0_l. apply IH.
Qed.

Lemma le_unle l : bytes_ok l -> le (length l) (unle l) = l.
Proof.
  induction 1 as [|b l Hb _ IH]; cbn [length le unle]; [done|].
  unfold byte_ok in Hb. f_equal.
  - lia.
  - transitivity (le (length l) (unle l)); [f_equal; lia|exact IH].
Qed.

Lemma unle_bound l : bytes_ok l -> 0 <= unle l < 256 ^ Z.of_nat (length l).
Proof.
  induction 1 as [|b l Hb _ IH]; cbn [length unle]; [lia|].
  rewrite Nat2Z.inj_succ, Z.pow_succ_r by lia. unfold byte_ok in Hb. lia.
Qed.

Lemma fld_bound buf off n : bytes_ok buf -> 0 <= fld buf off n < 256 ^ Z.of_nat n.
Proof.
  intros H. unfold fld.
  pose proof (unle_bound (take n (drop off buf))) as B.
  destruct B as [B1 B2]; [now apply Forall_take, Forall_drop|].
  split; [done|]. eapply Z.lt_le_trans; [exact B2|].
  apply Z.pow_le_mono_r; [lia|]. rewrite length_take. lia.
Qed.

(** *** Fields of concatenated encodings *)

Lemma fld_here n x l : fld (le n x ++ l) 0 n = x mod 256 ^ Z.of_nat n.
Proof.
  unfold fld. rewrite drop_0, take_app_length' by (now rewrite length_le). apply unle_le.
Qed.

Lemma fld_skip a l off n : (length a <= off)%nat -> fld (a ++ l) off n = fld l (off - length a) n.
Proof. intros. unfold fld. now rewrite drop_app_ge. Qed.

(** *** In-place updates *)

Lemma length_patch buf off s : (off + length s <= length buf)%nat ->
  length (patch buf off s) = length buf.
Proof. intros. unfold patch. rewrite !length_app, length_take, length_drop. lia. Qed.

Lemma lookup_patch buf off s i : (off + length s <= length buf)%nat ->
  patch buf off s !! i =
  if decide (off <= i < off + length s)%nat then s !! (i - off)%nat else buf !! i.
Proof.
  intros. unfold patch. case_decide.
  - rewrite lookup_app_r by (rewrite length_take; lia).
    rewrite length_take, lookup_app_l by lia. f_equal. lia.
  - destruct (Nat.lt_ge_cases i off).
    + rewrite lookup_app_l by (rewrite length_take; lia). now apply lookup_take_lt.
    + rewrite lookup_app_r by (rewrite length_take; lia).
      rewrite length_take, lookup_app_r by lia. rewrite lookup_drop. f_equal. lia.
Qed.

Lemma bytes_ok_patch buf off s : bytes_ok buf -> bytes_ok s -> bytes_ok (patch buf off s).
Proof.
  intros. unfold patch. apply Forall_app; split; [now apply Forall_take|].
  apply Forall_app; split; [done|now apply Forall_drop].
Qed.
#[export] Hint Resolve bytes_ok_patch : pof.

(** *** The macros reverse bytes *)

(** Positioned bytes do not overlap. *)
Lemma lor_shiftl a b k : 0 <= k -> 0 <= a < 2 ^ k ->
  Z.lor a (Z.shiftl b k) = a + b * 2 ^ k.
Proof.
  intros Hk Ha. rewrite <- Z.shiftl_mul_pow2 by lia. rewrite Z.add_nocarry_lxor, Z.lxor_lor; [done| |].
  all: apply Z.bits_inj'; intros j Hj; rewrite Z.land_spec, Z.bits_0, Z.shiftl_spec by lia.
  all: destruct (Z.ltb_spec j k);
    [now rewrite (Z.testbit_neg_r b) by lia; rewrite andb_false_r|].
  all: rewrite <- (Z.mod_small a (2 ^ k)) by lia; now rewrite Z.mod_pow2_bits_high by lia.
Qed.

Lemma land_low x k : 0 <= k -> Z.land x (Z.shiftl 255 k) = Z.shiftl ((x / 2 ^ k) mod 256) k.
Proof.
  intros. change 256 with (2 ^ 8). rewrite <- Z.shiftr_div_pow2 by lia.
  rewrite <- Z.land_ones by lia. change (Z.ones 8) with 255.
  apply Z.bits_inj'. intros j Hj. rewrite Z.land_spec, !Z.shiftl_spec by lia.
  destruct (Z.ltb_spec j k).
  - rewrite !(Z.testbit_neg_r _ (j - k)) by lia. now rewrite andb_false_r.
  - rewrite Z.land_spec, Z.shiftr_spec by lia. do 2 f_equal. lia.
Qed.

Lemma land_mask x k m : 0 <= k -> m = Z.shiftl 255 k ->
  Z.land x m = Z.shiftl ((x / 2 ^ k) mod 256) k.
Proof. intros ? ->. now apply land_low. Qed.

Lemma shiftl_pow a k : 0 <= k -> Z.shiftl a k = a * 2 ^ k.
Proof. intros. now rewrite Z.shiftl_mul_pow2. Qed.

Lemma shiftr_shiftl a j k : 0 <= k <= j -> Z.shiftr (Z.shiftl a j) k = a * 2 ^ (j - k).
Proof.
  intros. rewrite Z.shiftr_shiftl_l by lia. now apply shiftl_pow; lia.
Qed.

Lemma lor_low c d k a : 0 <= k -> c = d * 2 ^ k -> 0 <= a < 2 ^ k -> Z.lor c a = c + a.
Proof. intros Hk -> Ha. rewrite Z.lor_comm, <- shiftl_pow, lor_shiftl by lia. rewrite shiftl_pow by lia. lia. Qed.

(** The byte [k] of a word, moved [d] bytes up or down. *)
Lemma move_up x k m d : 0 <= k -> 0 <= d -> m = Z.shiftl 255 k ->
  Z.shiftl (Z.land x m) d = (x / 2 ^ k) mod 256 * 2 ^ (k + d).
Proof.
  intros. rewrite (land_mask x k) by done. rewrite Z.shiftl_shiftl by lia. now apply shiftl_pow; lia.
Qed.

Lemma move_down x k m d : 0 <= d <= k -> m = Z.shiftl 255 k ->
  Z.shiftr (Z.land x m) d = (x / 2 ^ k) mod 256 * 2 ^ (k - d).
Proof. intros. rewrite (land_mask x k) by (lia || done). now apply shiftr_shiftl. Qed.

Lemma div_256 x :
  (x / 256 / 256 / 256 / 256 / 256 / 256 / 256 = x / 2 ^ 56) /\
  (x / 256 / 256 / 256 / 256 / 256 / 256 = x / 2 ^ 48) /\
  (x / 256 / 256 / 256 / 256 / 256 = x / 2 ^ 40) /\ (x / 256 / 256 / 256 / 256 = x / 2 ^ 32) /\
  (x / 256 / 256 / 256 = x / 2 ^ 24) /\ (x / 256 / 256 = x / 2 ^ 16) /\ (x / 256 = x / 2 ^ 8).
Proof. repeat split; rewrite ?Z.div_div by lia; reflexivity. Qed.

Lemma POF_NTOHS_rev x : POF_NTOHS x = unle (rev (le 2 x)).
Proof.
  unfold POF_NTOHS. rewrite (move_up x 0), (move_down x 8) by (lia || reflexivity).
  rewrite (lor_low _ (x mod 256) 8) by lia. cbn [rev le unle app]. lia.
Qed.

Lemma POF_NTOHL_rev x : POF_NTOHL x = unle (rev (le 4 x)).
Proof.
  unfold POF_NTOHL.
  rewrite (move_up x 0), (move_up x 8), (move_down x 16), (move_down x 24) by (lia || reflexivity).
  cbn [rev le unle app]. destruct (div_256 x) as (_&_&_&_&->&->&->). rewrite Z.pow_0_r, Z.div_1_r. change 256 with (2 ^ 8).
  pose proof (Z.mod_pos_bound x (2 ^ 8) ltac:(lia)).
  pose proof (Z.mod_pos_bound (x / 2 ^ 8) (2 ^ 8) ltac:(lia)).
  pose proof (Z.mod_pos_bound (x / 2 ^ 16) (2 ^ 8) ltac:(lia)).
  pose proof (Z.mod_pos_bound (x / 2 ^ 24) (2 ^ 8) ltac:(lia)).
  generalize dependent (x mod 2 ^ 8); generalize dependent ((x / 2 ^ 8) mod 2 ^ 8).
  generalize dependent ((x / 2 ^ 16) mod 2 ^ 8); generalize dependent ((x / 2 ^ 24) mod 2 ^ 8).
  intros b3 H3 b2 H2 b1 H1 b0 H0.
  rewrite (lor_low (b0 * 2 ^ (0 + 24)) b0 24) by lia.
  rewrite (lor_low (_ + _) (b0 * 2 ^ 8 + b1) 16) by lia.
  rewrite (lor_low (_ + _) (b0 * 2 ^ 16 + b1 * 2 ^ 8 + b2) 8) by lia.
  lia.
Qed.

Lemma POF_NTOH64_rev x : POF_NTOH64 x = unle (rev (le 8 x)).
Proof.
  unfold POF_NTOH64.
  rewrite (move_up x 0), (move_up x 8), (move_up x 16), (move_up x 24) by (lia || reflexivity).
  rewrite (move_down x 32), (move_down x 40), (move_down x 48), (move_down x 56)
    by (lia || reflexivity).
  cbn [rev le unle app]. destruct (div_256 x) as (->&->&->&->&->&->&->). rewrite Z.pow_0_r, Z.div_1_r. change 256 with (2 ^ 8).
  pose proof (Z.mod_pos_bound x (2 ^ 8) ltac:(lia)).
  pose proof (Z.mod_pos_bound (x / 2 ^ 8) (2 ^ 8) ltac:(lia)).
  pose proof (Z.mod_pos_bound (x / 2 ^ 16) (2 ^ 8) ltac:(lia)).
  pose proof (Z.mod_pos_bound (x / 2 ^ 24) (2 ^ 8) ltac:(lia)).
  pose proof (Z.mod_pos_bound (x / 2 ^ 32) (2 ^ 8) ltac:(lia)).
  pose proof (Z.mod_pos_bound (x / 2 ^ 40) (2 ^ 8) ltac:(lia)).
  pose proof (Z.mod_pos_bound (x / 2 ^ 48) (2 ^ 8) ltac:(lia)).
  pose proof (Z.mod_pos_bound (x / 2 ^ 56) (2 ^ 8) ltac:(lia)).
  generalize dependent (x mod 2 ^ 8); generalize dependent ((x / 2 ^ 8) mod 2 ^ 8).
  generalize dependent ((x / 2 ^ 16) mod 2 ^ 8); generalize dependent ((x / 2 ^ 24) mod 2 ^ 8).
  generalize dependent ((x / 2 ^ 32) mod 2 ^ 8); generalize dependent ((x / 2 ^ 40) mod 2 ^ 8).
  generalize dependent ((x / 2 ^ 48) mod 2 ^ 8); generalize dependent ((x / 2 ^ 56) mod 2 ^ 8).
  intros b7 H7 b6 H6 b5 H5 b4 H4 b3 H3 b2 H2 b1 H1 b0 H0.
  rewrite (lor_low (b0 * _) b0 56) by lia.
  rewrite (lor_low (_ + _) (b0 * 2 ^ 8 + b1) 48) by lia.
  rewrite (lor_low (_ + _) (b0 * 2 ^ 16 + b1 * 2 ^ 8 + b2) 40) by lia.
  rewrite (lor_low (_ + _) (b0 * 2 ^ 24 + b1 * 2 ^ 16 + b2 * 2 ^ 8 + b3) 32) by lia.
  rewrite (lor_low (_ + _) (b0 * 2 ^ 32 + b1 * 2 ^ 24 + b2 * 2 ^ 16 + b3 * 2 ^ 8 + b4) 24) by lia.
  rewrite (lor_low (_ + _) (b0 * 2 ^ 40 + b1 * 2 ^ 32 + b2 * 2 ^ 24 + b3 * 2 ^ 16 + b4 * 2 ^ 8 + b5) 16) by lia.
  rewrite (lor_low (_ + _) (b0 * 2 ^ 48 + b1 * 2 ^ 40 + b2 * 2 ^ 32 + b3 * 2 ^ 24 + b4 * 2 ^ 16 + b5 * 2 ^ 8 + b6) 8) by lia.
  lia.
Qed.

Lemma bytes_ok_rev l : bytes_ok l -> bytes_ok (rev l).
Proof. apply Forall_rev. Qed.
#[export] Hint Resolve bytes_ok_rev : pof.

Lemma le_unle_rev s : bytes_ok s -> le (length s) (unle (rev (le (length s) (unle s)))) = rev s.
Proof.
  intros. rewrite le_unle by done. rewrite <- (length_rev s) at 1.
  apply le_unle. now apply bytes_ok_rev.
Qed.

(** Converting a field reverses its bytes in place. *)
Lemma POF_NTOH_FUNC_rev off n buf : n ∈ [2; 4; 8]%nat -> (off + n <= length buf)%nat ->
  bytes_ok buf -> POF_NTOH_FUNC off n buf = Some (patch buf off (rev (take n (drop off buf)))).
Proof.
  intros Hn Hl Hb. set (s := take n (drop off buf)).
  assert (length s = n) as Ls by (unfold s; rewrite length_take, length_drop; lia).
  assert (bytes_ok s) as Bs by (now apply Forall_take, Forall_drop).
  pose proof (le_unle_rev s Bs) as R. rewrite Ls in R.
  unfold POF_NTOH_FUNC, set_fld, fld. fold s.
  assert (n = 2 \/ n = 4 \/ n = 8)%nat as [-> | [-> | ->]]
    by (rewrite list_elem_of_In in Hn; cbn in Hn; lia).
  all: rewrite (proj2 (Nat.leb_le _ _)) by lia.
  - now rewrite POF_NTOHS_rev, R.
  - now rewrite POF_NTOHL_rev, R.
  - now rewrite POF_NTOH64_rev, R.
Qed.

(** Big-endian encoding. *)
Definition be (n : nat) (x : Z) : list Z := rev (le n x).

Lemma length_be n x : length (be n x) = n.
Proof. unfold be. now rewrite length_rev, length_le. Qed.

Lemma bytes_ok_be n x : bytes_ok (be n x).
Proof. unfold be. auto with pof. Qed.
#[export] Hint Resolve bytes_ok_be : pof.

Lemma byte_ok_mod x : byte_ok (x mod 256).
Proof. unfold byte_ok. lia. Qed.
#[export] Hint Resolve byte_ok_mod : pof.

(** Runs one conversion on a buffer written out byte by byte. *)
Ltac bytes_explicit :=
  cbn [le app];
  repeat first [ apply bytes_ok_cons; split;
                   [first [assumption | apply byte_ok_mod | unfold byte_ok; mod_lia]|]
               | assumption | solve [constructor] | solve [auto with pof] ].

Ltac ntoh_step :=
  rewrite POF_NTOH_FUNC_rev;
  [ cbn [mbind option_bind patch take drop app plus length rev le]
  | rewrite list_elem_of_In; cbn; lia
  | cbn; lia
  | bytes_explicit ].
