(* ===== verification/Env.v ===== *)
(** * The switch environment

    What every handler of the switch shares: the last error
    ([g_pofec_error]), the transaction ids, the connection state, the message
    buffer and the queue to the controller, and the two services of the system
    that may fail, [malloc] and [msgsnd], whose outcomes are a list of
    booleans consumed in order (an exhausted list means success).  Handlers are
    computations of the state monad [St]; [None] is a memory fault or a call
    that never returns.  The error macros of include/pof_global.h, the error
    and reply functions of switch_control/pof_encap.c and the message queue of
    common/pof_basefunc.c are translated on top of it. *)

From S2P Require Import Prelude Codec.
From Stdlib Require String Ascii.
Import String.StringSyntax.
#[local] Open Scope string_scope.

(** ** Error types and codes

    A constant with the name the macros stringify into the error report. *)
Record ecode := EC { ec_num : Z; ec_name : String.string }.

Definition str_bytes (s : String.string) : list Z :=
  map (fun a => Z.of_nat (Ascii.nat_of_ascii a)) (String.list_ascii_of_string s) ++ [0].

Definition POF_OK : Z := 0.
Definition POF_ERROR : Z := 0xffff.

(** [pof_error_type]. *)
Definition POFET_HELLO_FAILED := EC 0 "POFET_HELLO_FAILED".
Definition POFET_BAD_REQUEST := EC 1 "POFET_BAD_REQUEST".
Definition POFET_BAD_ACTION := EC 2 "POFET_BAD_ACTION".
Definition POFET_BAD_INSTRUCTION := EC 3 "POFET_BAD_INSTRUCTION".
Definition POFET_BAD_MATCH := EC 4 "POFET_BAD_MATCH".
Definition POFET_FLOW_MOD_FAILED := EC 5 "POFET_FLOW_MOD_FAILED".
Definition POFET_GROUP_MOD_FAILED := EC 6 "POFET_GROUP_MOD_FAILED".
Definition POFET_PORT_MOD_FAILED := EC 7 "POFET_PORT_MOD_FAILED".
Definition POFET_TABLE_MOD_FAILED := EC 8 "POFET_TABLE_MOD_FAILED".
Definition POFET_METER_MOD_FAILED := EC 12 "POFET_METER_MOD_FAILED".
Definition POFET_SOFTWARE_FAILED := EC 14 "POFET_SOFTWARE_FAILED".
Definition POFET_COUNTER_MOD_FAILED := EC 15 "POFET_COUNTER_MOD_FAILED".

(** [pof_soft_error]. *)
Definition POF_PACKET_LEN_ERROR := EC 0x1001 "POF_PACKET_LEN_ERROR".
Definition POF_METADATA_LEN_ERROR := EC 0x1002 "POF_METADATA_LEN_ERROR".
Definition POF_FIELD_LEN_ERROR := EC 0x1004 "POF_FIELD_LEN_ERROR".
Definition POF_ALLOCATE_RESOURCE_FAILURE := EC 0x5001 "POF_ALLOCATE_RESOURCE_FAILURE".
Definition POF_INVALID_SLOT_ID := EC 0x5006 "POF_INVALID_SLOT_ID".
Definition POF_WRITE_MSG_QUEUE_FAILURE := EC 0x7006 "POF_WRITE_MSG_QUEUE_FAILURE".
Definition POF_READ_MSG_QUEUE_FAILURE := EC 0x7007 "POF_READ_MSG_QUEUE_FAILURE".
Definition POF_MESSAGE_SIZE_TOO_BIG := EC 0x7008 "POF_MESSAGE_SIZE_TOO_BIG".
Definition POF_PTR_NULL := EC 0x7010 "POF_PTR_NULL".

(** ** Message types and channel states *)

Definition POFT_HELLO : Z := 0.
Definition POFT_ERROR : Z := 1.
Definition POFT_ECHO_REQUEST : Z := 2.
Definition POFT_ECHO_REPLY : Z := 3.
Definition POFT_FEATURES_REQUEST : Z := 5.
Definition POFT_FEATURES_REPLY : Z := 6.
Definition POFT_GET_CONFIG_REQUEST : Z := 7.
Definition POFT_GET_CONFIG_REPLY : Z := 8.
Definition POFT_SET_CONFIG : Z := 9.
Definition POFT_PACKET_IN : Z := 10.
Definition POFT_PORT_STATUS : Z := 12.
Definition POFT_RESOURCE_REPORT : Z := 13.
Definition POFT_PACKET_OUT : Z := 14.
Definition POFT_FLOW_MOD : Z := 15.
Definition POFT_GROUP_MOD : Z := 16.
Definition POFT_PORT_MOD : Z := 17.
Definition POFT_TABLE_MOD : Z := 18.
Definition POFT_METER_MOD : Z := 30.
Definition POFT_COUNTER_MOD : Z := 31.
Definition POFT_COUNTER_REQUEST : Z := 32.
Definition POFT_COUNTER_REPLY : Z := 33.
Definition POFT_QUERYALL_REQUEST : Z := 34.
Definition POFT_QUERYALL_FIN : Z := 35.

Inductive pof_channel_state :=
| POFCS_CHANNEL_INVALID | POFCS_CHANNEL_CONNECTING | POFCS_CHANNEL_CONNECTED
| POFCS_HELLO | POFCS_REQUEST_FEATURE | POFCS_SET_CONFIG | POFCS_REQUEST_GET_CONFIG
| POFCS_CHANNEL_RUN | POFCS_STATE_MAX.

#[export] Instance pof_channel_state_eq_dec : EqDecision pof_channel_state.
Proof. solve_decision. Defined.

(** ** The environment *)

Record env := mkEnv {
  g_recv_xid : Z;                      (* xid of the message being handled *)
  g_upward_xid : Z;                    (* next xid of an unsolicited message *)
  g_pofec_error : ecode * ecode;       (* last error: type, code *)
  g_poflr_dev_id : Z;
  conn_state : pof_channel_state;      (* pofsc_conn_desc.conn_status.state *)
  queue_msg_buf : list Z;              (* pofec_queue_msg_buf *)
  send_q_valid : bool;                 (* pofsc_send_q_id != POF_INVALID_QUEUEID *)
  send_q : list (list Z);              (* the queue to the controller, oldest first *)
  q_residue : list Z;                  (* the bytes [msgsnd] reads past the message *)
  mallocs : list bool;                 (* outcomes of the coming [malloc]s *)
  msgsnds : list bool                  (* outcomes of the coming [msgsnd]s *)
}.

Definition set_recv_xid x e :=
  mkEnv x (g_upward_xid e) (g_pofec_error e) (g_poflr_dev_id e) (conn_state e)
    (queue_msg_buf e) (send_q_valid e) (send_q e) (q_residue e) (mallocs e) (msgsnds e).
Definition set_upward_xid x e :=
  mkEnv (g_recv_xid e) x (g_pofec_error e) (g_poflr_dev_id e) (conn_state e)
    (queue_msg_buf e) (send_q_valid e) (send_q e) (q_residue e) (mallocs e) (msgsnds e).
Definition set_error t c e :=
  mkEnv (g_recv_xid e) (g_upward_xid e) (t, c) (g_poflr_dev_id e) (conn_state e)
    (queue_msg_buf e) (send_q_valid e) (send_q e) (q_residue e) (mallocs e) (msgsnds e).
Definition set_conn_state s e :=
  mkEnv (g_recv_xid e) (g_upward_xid e) (g_pofec_error e) (g_poflr_dev_id e) s
    (queue_msg_buf e) (send_q_valid e) (send_q e) (q_residue e) (mallocs e) (msgsnds e).
Definition set_msg_buf b e :=
  mkEnv (g_recv_xid e) (g_upward_xid e) (g_pofec_error e) (g_poflr_dev_id e) (conn_state e)
    b (send_q_valid e) (send_q e) (q_residue e) (mallocs e) (msgsnds e).
Definition set_send_q q e :=
  mkEnv (g_recv_xid e) (g_upward_xid e) (g_pofec_error e) (g_poflr_dev_id e) (conn_state e)
    (queue_msg_buf e) (send_q_valid e) q (q_residue e) (mallocs e) (msgsnds e).
Definition set_mallocs l e :=
  mkEnv (g_recv_xid e) (g_upward_xid e) (g_pofec_error e) (g_poflr_dev_id e) (conn_state e)
    (queue_msg_buf e) (send_q_valid e) (send_q e) (q_residue e) l (msgsnds e).
Definition set_msgsnds l e :=
  mkEnv (g_recv_xid e) (g_upward_xid e) (g_pofec_error e) (g_poflr_dev_id e) (conn_state e)
    (queue_msg_buf e) (send_q_valid e) (send_q e) (q_residue e) (mallocs e) l.

(** ** The monad *)

Definition St (A : Type) : Type := env -> option (A * env).

#[export] Instance St_ret : MRet St := fun A a e => Some (a, e).
#[export] Instance St_bind : MBind St := fun A B f m e =>
  match m e with Some (a, e') => f a e' | None => None end.

Definition get_env : St env := fun e => Some (e, e).
Definition mod_env (f : env -> env) : St unit := fun e => Some (tt, f e).
Definition fault {A} : St A := fun _ => None.
Definition lift {A} (o : option A) : St A :=
  fun e => match o with Some a => Some (a, e) | None => None end.

(** [malloc]: [true] when it returns memory. *)
Definition malloc : St bool := fun e =>
  match mallocs e with
  | [] => Some (true, e)
  | b :: l => Some (b, set_mallocs l e)
  end.

(** [msgsnd] of the message [m] to the queue to the controller. *)
Definition msgsnd (m : list Z) : St bool := fun e =>
  match msgsnds e with
  | [] => Some (true, set_send_q (send_q e ++ [m]) e)
  | true :: l => Some (true, set_msgsnds l (set_send_q (send_q e ++ [m]) e))
  | false :: l => Some (false, set_msgsnds l e)
  end.

(** [g_upward_xid++]. *)
Definition upward_xid_pp : St Z := fun e =>
  Some (g_upward_xid e, set_upward_xid (u32 (g_upward_xid e + 1)) e).

(** ** Error macros (include/pof_global.h) *)

Definition pofec_set_error (type code : ecode) : St unit := mod_env (set_error type code).

(** [code | 0xF0000000]. *)
Definition err_ret (code : ecode) : Z := Z.lor (ec_num code) 0xF0000000.

Definition POF_ERROR_HANDLE_RETURN_NO_UPWARD (type code : ecode) : St Z :=
  _ ← pofec_set_error type code; mret (err_ret code).

(** ** The message queue (common/pof_basefunc.c) *)

Definition POF_MESSAGE_SIZE : Z := 2560.
Definition POF_WAIT_FOREVER : Z := 0.
Definition POF_NO_WAIT : Z := 2048.
Definition sizeof_msg : Z := 8.        (* struct msg: the long mtype *)

(** [message] is the caller's buffer.  [msgsnd] is told a length
    [sizeof(struct msg)] larger than the data, so it also sends the bytes that
    follow the allocated message ([q_residue]). *)
Definition pofbf_queue_write (message : list Z) (msg_len timeout : Z) : St Z :=
  e ← get_env;
  if negb (send_q_valid e) then
    POF_ERROR_HANDLE_RETURN_NO_UPWARD POFET_SOFTWARE_FAILED POF_WRITE_MSG_QUEUE_FAILURE
  else if POF_MESSAGE_SIZE <? msg_len then
    POF_ERROR_HANDLE_RETURN_NO_UPWARD POFET_SOFTWARE_FAILED POF_MESSAGE_SIZE_TOO_BIG
  else if negb (timeout =? POF_WAIT_FOREVER) && negb (timeout =? POF_NO_WAIT) then
    POF_ERROR_HANDLE_RETURN_NO_UPWARD POFET_SOFTWARE_FAILED POF_WRITE_MSG_QUEUE_FAILURE
  else
    ok ← malloc;
    if negb ok then
      POF_ERROR_HANDLE_RETURN_NO_UPWARD POFET_SOFTWARE_FAILED POF_ALLOCATE_RESOURCE_FAILURE
    else
      mdata ← lift (sub_buf message 0 msg_len);
      sent ← msgsnd (mdata ++ q_residue e);
      if negb sent then
        POF_ERROR_HANDLE_RETURN_NO_UPWARD POFET_SOFTWARE_FAILED POF_WRITE_MSG_QUEUE_FAILURE
      else mret POF_OK.

(** The result is the return code and the bytes copied to the caller's buffer
    of [max_len] bytes.  An empty queue fails without waiting and never returns
    with [POF_WAIT_FOREVER]; a longer message makes [msgrcv] fail. *)
Definition pofbf_queue_read (max_len timeout : Z) : St (Z * list Z) :=
  e ← get_env;
  let fail code := r ← POF_ERROR_HANDLE_RETURN_NO_UPWARD POFET_SOFTWARE_FAILED code; mret (r, []) in
  if negb (send_q_valid e) then fail POF_READ_MSG_QUEUE_FAILURE
  else if negb (timeout =? POF_WAIT_FOREVER) && negb (timeout =? POF_NO_WAIT) then
    fail POF_WRITE_MSG_QUEUE_FAILURE
  else
    ok ← malloc;
    if negb ok then fail POF_ALLOCATE_RESOURCE_FAILURE
    else
      match send_q e with
      | [] => if timeout =? POF_NO_WAIT then fail POF_READ_MSG_QUEUE_FAILURE else fault
      | m :: q =>
          if max_len + sizeof_msg <? blen m then fail POF_READ_MSG_QUEUE_FAILURE
          else
            _ ← mod_env (set_send_q q);
            mdata ← lift (sub_buf m 0 (blen m - sizeof_msg));
            mret (POF_OK, mdata)
      end.

(** ** Encapsulation (switch_control/pof_encap.c, pof_switch.c) *)

Definition POF_VERSION : Z := 4.
Definition POF_SLOT_ID_BASE : Z := 0.
Definition sizeof_pof_header : Z := 8.
Definition sizeof_pof_error : Z := 272.

Definition pof_NtoH_transfer_header (p : list Z) : option (list Z) :=
  ntoh_fields [(2, 2); (4, 4)]%nat p.
Definition pof_HtoN_transfer_header (p : list Z) : option (list Z) :=
  ntoh_fields [(2, 2); (4, 4)]%nat p.
Definition pof_NtoH_transfer_error (p : list Z) : option (list Z) :=
  ntoh_fields [(8, 2); (0, 2); (2, 2); (4, 4)]%nat p.

Definition pofsc_send_packet_upward (packet : list Z) (len : Z) : St Z :=
  ret ← pofbf_queue_write packet len POF_WAIT_FOREVER;
  if negb (ret =? POF_OK)
  then POF_ERROR_HANDLE_RETURN_NO_UPWARD POFET_SOFTWARE_FAILED POF_WRITE_MSG_QUEUE_FAILURE
  else mret POF_OK.

(** Store into [pofec_queue_msg_buf]. *)
Definition store_msg (f : list Z -> option (list Z)) : St unit :=
  e ← get_env; b ← lift (f (queue_msg_buf e)); mod_env (set_msg_buf b).

Definition pofec_reply_msg (type xid msg_len : Z) (msg_body : option (list Z)) : St Z :=
  e ← get_env;
  let total_len := u32 (msg_len + sizeof_pof_header) in
  match conn_state e with
  | POFCS_REQUEST_FEATURE | POFCS_SET_CONFIG | POFCS_REQUEST_GET_CONFIG | POFCS_CHANNEL_RUN =>
      _ ← store_msg (fun b => set_fld b 0 1 POF_VERSION);
      _ ← store_msg (fun b => set_fld b 1 1 type);
      _ ← store_msg (fun b => set_fld b 4 4 xid);
      _ ← store_msg (fun b => set_fld b 2 2 total_len);
      _ ← store_msg pof_HtoN_transfer_header;
      _ ← match msg_body with
          | Some body => store_msg (fun b =>
              src ← sub_buf body 0 msg_len; put_buf b sizeof_pof_header src)
          | None => mret tt
          end;
      e' ← get_env;
      ret ← pofsc_send_packet_upward (queue_msg_buf e') total_len;
      if negb (ret =? POF_OK)
      then POF_ERROR_HANDLE_RETURN_NO_UPWARD POFET_SOFTWARE_FAILED POF_WRITE_MSG_QUEUE_FAILURE
      else mret POF_OK
  | _ => mret POF_OK
  end.

(** [pofec_reply_error] reports its own failure with another error message,
    and that one again: it recurses until a message is sent.  [fuel] bounds
    the recursion ([pofec_reply_error_returns] gives enough). *)
Fixpoint reply_error_loop (fuel : nat) (type code : ecode) (xid : Z) : St Z :=
  match fuel with
  | O => fault
  | S fuel' =>
      _ ← store_msg (fun b => set_fld b 10 2 (ec_num code));
      _ ← (e ← get_env; store_msg (fun b => set_fld b 12 4 (g_poflr_dev_id e)));
      _ ← store_msg (fun b => set_fld b 16 2 POF_SLOT_ID_BASE);
      _ ← store_msg (fun b => set_fld b 8 2 (ec_num type));
      _ ← store_msg (fun b => put_buf b 24 (str_bytes (ec_name code)));
      _ ← store_msg (fun b => at_ptr b sizeof_pof_header pof_NtoH_transfer_error);
      ret ← pofec_reply_msg POFT_ERROR xid sizeof_pof_error None;
      if negb (ret =? POF_OK) then
        _ ← pofec_set_error POFET_SOFTWARE_FAILED POF_WRITE_MSG_QUEUE_FAILURE;
        x ← upward_xid_pp;
        _ ← reply_error_loop fuel' POFET_SOFTWARE_FAILED POF_WRITE_MSG_QUEUE_FAILURE x;
        mret (err_ret POF_WRITE_MSG_QUEUE_FAILURE)
      else mret POF_OK
  end.

Definition pofec_reply_error (type code : ecode) (xid : Z) : St Z :=
  e ← get_env;
  reply_error_loop (S (length (mallocs e) + length (msgsnds e))) type code xid.

Definition POF_ERROR_HANDLE_NO_RETURN_UPWARD (type code : ecode) (xid : Z) : St unit :=
  _ ← pofec_set_error type code;
  _ ← pofec_reply_error type code xid;
  mret tt.

Definition POF_ERROR_HANDLE_RETURN_UPWARD (type code : ecode) (xid : Z) : St Z :=
  _ ← POF_ERROR_HANDLE_NO_RETURN_UPWARD type code xid;
  mret (err_ret code).

(** ** Lemmas *)

Lemma err_ret_nonzero code : err_ret code <> POF_OK.
Proof. unfold err_ret, POF_OK. rewrite Z.lor_eq_0_iff. lia. Qed.

Lemma run_bind {A B} (m : St A) (k : A -> St B) e :
  (m ≫= k) e = match m e with Some (a, e') => k a e' | None => None end.
Proof. reflexivity. Qed.

(** Symbolic execution of a handler, one primitive at a time. *)
Ltac st_unfold :=
  unfold mbind, St_bind, option_bind, mret, St_ret, mod_env, get_env, lift, fault, pofec_set_error;
  cbv beta iota.

(** The byte strings of the protocol header. *)
Definition header_bytes (type xid total_len : Z) : list Z :=
  [POF_VERSION; u8 type] ++ be 2 total_len ++ be 4 xid.

Definition error_bytes (dev : Z) (type code : ecode) : list Z :=
  be 2 (ec_num type) ++ be 2 (ec_num code) ++ be 4 dev ++ be 2 POF_SLOT_ID_BASE.

(** An environment the program can be in: the message buffer has its size, the
    residue is what follows an allocated message. *)
Record env_ok (e : env) : Prop := {
  eo_buf : length (queue_msg_buf e) = 2560%nat;
  eo_buf_ok : bytes_ok (queue_msg_buf e);
  eo_res : length (q_residue e) = 8%nat;
  eo_res_ok : bytes_ok (q_residue e)
}.

(** The channel can carry messages. *)
Definition sending (e : env) : bool :=
  match conn_state e with
  | POFCS_REQUEST_FEATURE | POFCS_SET_CONFIG | POFCS_REQUEST_GET_CONFIG | POFCS_CHANNEL_RUN => true
  | _ => false
  end.

(** No service failure is coming. *)
Definition quiet (e : env) : Prop := mallocs e = [] /\ msgsnds e = [] /\ send_q_valid e = true.

(** [e'] differs from [e] only by what reporting can change: the error record,
    the ids of unsolicited messages, the message buffer, messages appended to
    the queue, and service outcomes consumed. *)
Record reported (e e' : env) : Prop := {
  rp_ok : env_ok e';
  rp_recv : g_recv_xid e' = g_recv_xid e;
  rp_dev : g_poflr_dev_id e' = g_poflr_dev_id e;
  rp_conn : conn_state e' = conn_state e;
  rp_valid : send_q_valid e' = send_q_valid e;
  rp_res : q_residue e' = q_residue e;
  rp_sent : exists ms, send_q e' = send_q e ++ ms;
  rp_mallocs : exists l, mallocs e = l ++ mallocs e';
  rp_msgsnds : exists l, msgsnds e = l ++ msgsnds e'
}.

Lemma reported_refl e : env_ok e -> reported e e.
Proof.
  constructor; auto; exists []; now rewrite ?app_nil_r.
Qed.

Lemma reported_trans e1 e2 e3 : reported e1 e2 -> reported e2 e3 -> reported e1 e3.
Proof.
  intros [] [H]. destruct rp_sent0 as [? E1], rp_mallocs0 as [? E2], rp_msgsnds0 as [? E3].
  destruct rp_sent1 as [? F1], rp_mallocs1 as [? F2], rp_msgsnds1 as [? F3].
  constructor; try congruence; try done.
  - rewrite F1, E1, <- app_assoc. eauto.
  - rewrite E2, F2, app_assoc. eauto.
  - rewrite E3, F3, app_assoc. eauto.
Qed.

#[export] Instance reported_preorder_trans : Transitive reported.
Proof. exact reported_trans. Qed.

Lemma quiet_reported e e' : quiet e -> reported e e' -> quiet e'.
Proof.
  intros (A & B & C) [_ _ _ _ D _ _ [l1 E] [l2 F]]. rewrite A in E. rewrite B in F.
  symmetry in E, F. apply app_eq_nil in E as [_ ?], F as [_ ?]. repeat split; congruence.
Qed.

Lemma reported_set_error e t c : env_ok e -> reported e (set_error t c e).
Proof. intros []. constructor; try done; [exists []; cbn; now rewrite app_nil_r|exists []; done|exists []; done]. Qed.

Lemma reported_set_upward_xid e x : env_ok e -> reported e (set_upward_xid x e).
Proof. intros []. constructor; try done; [exists []; cbn; now rewrite app_nil_r|exists []; done|exists []; done]. Qed.

Lemma reported_set_msg_buf e b : env_ok e -> length b = 2560%nat -> bytes_ok b ->
  reported e (set_msg_buf b e).
Proof. intros []. constructor; try done; [exists []; cbn; now rewrite app_nil_r|exists []; done|exists []; done]. Qed.
#[export] Hint Resolve reported_refl reported_set_error reported_set_upward_xid reported_set_msg_buf : pof.

(** [pofbf_queue_write] of a message that fits. *)
Lemma queue_write_spec e m len : env_ok e -> send_q_valid e = true ->
  0 <= len <= POF_MESSAGE_SIZE -> len <= blen m ->
  exists r e', pofbf_queue_write m len POF_WAIT_FOREVER e = Some (r, e') /\ reported e e' /\
    ((r = POF_OK /\ send_q e' = send_q e ++ [take (Z.to_nat len) m ++ q_residue e] /\
      g_pofec_error e' = g_pofec_error e /\ queue_msg_buf e' = queue_msg_buf e) \/
     (r <> POF_OK /\ send_q e' = send_q e /\ queue_msg_buf e' = queue_msg_buf e /\
      (length (mallocs e') + length (msgsnds e') < length (mallocs e) + length (msgsnds e))%nat)).
Proof.
  intros [A B C D] V Hl Hm. unfold pofbf_queue_write, POF_MESSAGE_SIZE in *. st_unfold.
  rewrite V. cbn [negb]. rewrite (proj2 (Z.ltb_ge _ _)) by lia.
  change ((POF_WAIT_FOREVER =? POF_WAIT_FOREVER)) with true. cbn [negb andb].
  assert (sub_buf m 0 len = Some (take (Z.to_nat len) m)) as S by (unfold sub_buf; zcases; done).
  unfold malloc, msgsnd.
  destruct e as [? ? ? ? ? ? ? ? ? [|[] ml] [|[] sl]]; cbn in *; subst; rewrite ?S; st_unfold; cbn.
  all: eexists _, _; split; [reflexivity|]; split;
    [constructor; cbn; eauto using app_nil_r; first
      [now constructor | now exists [] | now exists [true] | now exists [false]
      | exists []; now rewrite app_nil_r]|].
  all: first [left; repeat split; done | right; repeat split; (done || (cbn; lia))].
Qed.

Lemma store_msg_run f e b : f (queue_msg_buf e) = Some b ->
  store_msg f e = Some (tt, set_msg_buf b e).
Proof. intros H. unfold store_msg. st_unfold. now rewrite H. Qed.

Lemma set_fld_in b off n v : (off + n <= length b)%nat -> set_fld b off n v = Some (patch b off (le n v)).
Proof. intros. unfold set_fld. now rewrite (proj2 (Nat.leb_le _ _)). Qed.

Lemma put_buf_in b i s : 0 <= i -> i + blen s <= blen b ->
  put_buf b i s = Some (patch b (Z.to_nat i) s).
Proof. intros. unfold put_buf. zcases. reflexivity. Qed.

Lemma sub_buf_in b i n : 0 <= i -> 0 <= n -> i + n <= blen b ->
  sub_buf b i n = Some (take (Z.to_nat n) (drop (Z.to_nat i) b)).
Proof. intros. unfold sub_buf. zcases. reflexivity. Qed.

(** Take a long enough list apart. *)
Ltac take_one b H := destruct b as [|? b]; [cbn in H; lia|].
Ltac bytes_split :=
  repeat match goal with X : bytes_ok (_ :: _) |- _ => apply bytes_ok_cons in X as [? X] end.

(** The header [pofec_reply_msg] leaves at the start of the buffer. *)
Lemma store_header b type xid len : bytes_ok b -> (8 <= length b)%nat ->
  (b1 ← set_fld b 0 1 POF_VERSION; b2 ← set_fld b1 1 1 type; b3 ← set_fld b2 4 4 xid;
   b4 ← set_fld b3 2 2 len; pof_HtoN_transfer_header b4) =
  Some (header_bytes type xid len ++ drop 8 b).
Proof.
  intros Hb Hl. do 8 take_one b Hl. bytes_split. rewrite set_fld_in by (cbn; lia). cbn [mbind option_bind].
  do 3 (rewrite set_fld_in by (rewrite !length_patch; rewrite ?length_le; cbn; lia);
        cbn [mbind option_bind]).
  cbn [patch take drop app le plus length].
  unfold pof_HtoN_transfer_header, ntoh_fields.
  assert (bytes_ok (le 1 POF_VERSION ++ le 1 type ++ le 2 len ++ le 4 xid ++ b)) as B.
  { auto 10 with pof. }
  cbn [le app] in B.
  rewrite POF_NTOH_FUNC_rev; [|rewrite list_elem_of_In; cbn; lia|cbn; lia|exact B].
  cbn [mbind option_bind patch take drop app plus length rev].
  assert (bytes_ok (le 1 POF_VERSION ++ le 1 type ++ be 2 len ++ le 4 xid ++ b)) as B'.
  { auto 10 with pof. }
  cbn [le be app rev] in B'.
  rewrite POF_NTOH_FUNC_rev; [|rewrite list_elem_of_In; cbn; lia|cbn; lia|exact B'].
  cbn [mbind option_bind patch take drop app plus length rev].
  unfold header_bytes. reflexivity.
Qed.

Lemma length_header type xid len : length (header_bytes type xid len) = 8%nat.
Proof. unfold header_bytes. now rewrite !length_app, !length_be. Qed.

Lemma bytes_ok_header type xid len : bytes_ok (header_bytes type xid len).
Proof.
  unfold header_bytes. apply bytes_ok_app; [|auto with pof].
  apply bytes_ok_cons; split; [done|]. apply bytes_ok_cons; split; [apply u8_byte_ok|constructor].
Qed.
#[export] Hint Resolve bytes_ok_header : pof.

Lemma set_msg_buf_twice a b e : set_msg_buf a (set_msg_buf b e) = set_msg_buf a e.
Proof. reflexivity. Qed.

Lemma store_msgs_run (f : list Z -> option (list Z)) (k : St Z) e b1 :
  f (queue_msg_buf e) = Some b1 ->
  (_ ← store_msg f; k) e = k (set_msg_buf b1 e).
Proof. intros H. rewrite run_bind, (store_msg_run _ _ _ H). reflexivity. Qed.

(** The first five statements of [pofec_reply_msg] write the header. *)
Lemma header_stores type xid len (k : St Z) e : env_ok e ->
  (_ ← store_msg (fun b => set_fld b 0 1 POF_VERSION);
   _ ← store_msg (fun b => set_fld b 1 1 type);
   _ ← store_msg (fun b => set_fld b 4 4 xid);
   _ ← store_msg (fun b => set_fld b 2 2 len);
   _ ← store_msg pof_HtoN_transfer_header; k) e =
  k (set_msg_buf (header_bytes type xid len ++ drop 8 (queue_msg_buf e)) e).
Proof.
  intros [A B _ _]. pose proof (store_header _ type xid len B ltac:(lia)) as H.
  do 4 (match type of H with context [set_fld ?l ?o ?n ?v] =>
    destruct (set_fld l o n v) as [?b|] eqn:?; [cbn [mbind option_bind] in H|discriminate] end).
  do 4 (erewrite store_msgs_run; [|eassumption]).
  erewrite store_msgs_run; [reflexivity|exact H].
Qed.

(** A message body as the buffer holds it after the optional [memcpy]. *)
Definition body_of (e : env) (msg_len : Z) (body : option (list Z)) : list Z :=
  match body with
  | Some d => take (Z.to_nat msg_len) d
  | None => take (Z.to_nat msg_len) (drop 8 (queue_msg_buf e))
  end.

(** The complete message on the queue, [msgsnd] residue included. *)
Definition queued (e : env) (type xid : Z) (body : list Z) : list Z :=
  header_bytes type xid (blen body + 8) ++ body ++ q_residue e.

Definition body_fits (msg_len : Z) (body : option (list Z)) : Prop :=
  0 <= msg_len <= 2552 /\
  match body with Some d => msg_len <= blen d /\ bytes_ok d | None => True end.

(** The optional [memcpy] of the body behind the header. *)
Lemma body_store e hd msg_len body : env_ok e -> length hd = 8%nat -> bytes_ok hd ->
  body_fits msg_len body ->
  exists b, match body with
    | Some d => store_msg (fun b => src ← sub_buf d 0 msg_len; put_buf b sizeof_pof_header src)
    | None => mret tt
    end (set_msg_buf (hd ++ drop 8 (queue_msg_buf e)) e) = Some (tt, set_msg_buf b e) /\
    length b = 2560%nat /\ bytes_ok b /\
    take (Z.to_nat (msg_len + 8)) b = hd ++ body_of e msg_len body.
Proof.
  intros [A B _ _] Hh Bh [Hl Hb].
  assert (length (hd ++ drop 8 (queue_msg_buf e)) = 2560%nat) as L
    by (rewrite length_app, length_drop; lia).
  replace (Z.to_nat (msg_len + 8)) with (length hd + Z.to_nat msg_len)%nat by lia.
  destruct body as [d|].
  - destruct Hb as [Hd Bd]. unfold blen in Hd.
    exists (hd ++ take (Z.to_nat msg_len) d ++ drop (8 + Z.to_nat msg_len) (queue_msg_buf e)).
    split; [|repeat split].
    + erewrite store_msg_run; [rewrite set_msg_buf_twice; reflexivity|].
      rewrite sub_buf_in by (unfold blen; lia). cbn [mbind option_bind].
      change (Z.to_nat 0) with 0%nat.
      rewrite drop_0, put_buf_in
        by (cbn [queue_msg_buf set_msg_buf]; unfold blen, sizeof_pof_header; rewrite ?length_take; lia).
      unfold patch, sizeof_pof_header. change (Z.to_nat 8) with 8%nat. cbn [queue_msg_buf set_msg_buf].
      rewrite take_app_length', drop_app_ge by (rewrite ?Hh, ?length_take; lia).
      rewrite drop_drop, length_take. do 4 f_equal. lia.
    + rewrite !length_app, length_take, length_drop. lia.
    + auto with pof.
    + rewrite take_app_add'; [|done]. rewrite take_app_length' by (rewrite length_take; lia). done.
  - exists (hd ++ drop 8 (queue_msg_buf e)). repeat split; auto with pof.
    rewrite take_app_add'; done.
Qed.

(** The end of [pofec_reply_msg]: hand the buffer to the queue. *)
Lemma send_tail e len : env_ok e -> send_q_valid e = true -> 0 <= len <= POF_MESSAGE_SIZE ->
  exists r e',
    (e0 ← get_env; ret ← pofsc_send_packet_upward (queue_msg_buf e0) len;
     if negb (ret =? POF_OK)
     then POF_ERROR_HANDLE_RETURN_NO_UPWARD POFET_SOFTWARE_FAILED POF_WRITE_MSG_QUEUE_FAILURE
     else mret POF_OK) e = Some (r, e') /\ reported e e' /\
    ((r = POF_OK /\ g_pofec_error e' = g_pofec_error e /\
      send_q e' = send_q e ++ [take (Z.to_nat len) (queue_msg_buf e) ++ q_residue e]) \/
     (r <> POF_OK /\ send_q e' = send_q e /\
      (length (mallocs e') + length (msgsnds e') < length (mallocs e) + length (msgsnds e))%nat)).
Proof.
  intros Ok V Hl. pose proof Ok as [A _ _ _].
  rewrite run_bind. unfold get_env; cbv beta iota. rewrite run_bind.
  unfold pofsc_send_packet_upward. rewrite run_bind.
  destruct (queue_write_spec e (queue_msg_buf e) len Ok V Hl) as (r & e' & E & R & Hr).
  { unfold blen, POF_MESSAGE_SIZE in *. lia. }
  rewrite E. destruct Hr as [(-> & Q & Er & _)|(Hr & Q & _ & M)].
  - eexists _, _; split; [reflexivity|]. split; [exact R|]. left; auto.
  - apply Z.eqb_neq in Hr. rewrite Hr. eexists _, _; split; [reflexivity|]. split.
    + etrans; [exact R|]. etrans; [|apply reported_set_error]; auto using reported_set_error, rp_ok.
      apply reported_set_error, (rp_ok _ _ R).
      apply (rp_ok e'), reported_set_error, (rp_ok _ _ R).
    + right. repeat split; [done|exact Q|exact M].
Qed.

Lemma reply_msg_spec e type xid msg_len body :
  env_ok e -> send_q_valid e = true -> sending e = true -> body_fits msg_len body ->
  exists r e', pofec_reply_msg type xid msg_len body e = Some (r, e') /\ reported e e' /\
    ((r = POF_OK /\ g_pofec_error e' = g_pofec_error e /\
      send_q e' = send_q e ++
        [header_bytes type xid (msg_len + 8) ++ body_of e msg_len body ++ q_residue e]) \/
     (r <> POF_OK /\ send_q e' = send_q e /\
      (length (mallocs e') + length (msgsnds e') < length (mallocs e) + length (msgsnds e))%nat)).
Proof.
  intros Ok V Sd Hb. pose proof Hb as [Hl _].
  unfold pofec_reply_msg. rewrite run_bind. unfold get_env at 1; cbv beta iota.
  change (msg_len + sizeof_pof_header) with (msg_len + 8). rewrite (u32_small (msg_len + 8)) by lia.
  set (hd := header_bytes type xid (msg_len + 8)).
  destruct (body_store e hd msg_len body Ok (length_header _ _ _) (bytes_ok_header _ _ _) Hb)
    as (b & E & Lb & Bb & Tb).
  pose proof (reported_set_msg_buf e b Ok Lb Bb) as R1.
  destruct (send_tail (set_msg_buf b e) (msg_len + 8) (rp_ok _ _ R1) V) as (r & e' & E' & R & H).
  { unfold POF_MESSAGE_SIZE; lia. }
  cbn [queue_msg_buf set_msg_buf] in H. rewrite Tb, <- app_assoc in H.
  exists r, e'. split; [|split; [now trans (set_msg_buf b e)|exact H]].
  unfold sending in Sd. destruct (conn_state e); try discriminate; clear Sd.
  all: rewrite header_stores by exact Ok; rewrite run_bind; fold hd;
    rewrite E; exact E'.
Qed.

Lemma reply_msg_silent e type xid msg_len body : sending e = false ->
  pofec_reply_msg type xid msg_len body e = Some (POF_OK, e).
Proof. unfold sending, pofec_reply_msg. intros. st_unfold. destruct (conn_state e); done. Qed.

Lemma ntoh_error p : bytes_ok p -> (10 <= length p)%nat -> forall t c d s r,
  p = le 2 t ++ le 2 c ++ le 4 d ++ le 2 s ++ r ->
  pof_NtoH_transfer_error p = Some (be 2 t ++ be 2 c ++ be 4 d ++ be 2 s ++ r).
Proof.
  intros Hp Hl t c d s r ->.
  unfold pof_NtoH_transfer_error, ntoh_fields.
  cbn [le app]. rewrite POF_NTOH_FUNC_rev; [|rewrite list_elem_of_In; cbn; lia|cbn; lia|exact Hp].
  assert (bytes_ok r) as Hr.
  { cbn [le app] in Hp. repeat match goal with X : bytes_ok (_ :: _) |- _ => apply bytes_ok_cons in X as [_ X] end. done. }
  cbn [mbind option_bind patch take drop app plus length rev].
  assert (bytes_ok (le 2 t ++ le 2 c ++ le 4 d ++ be 2 s ++ r)) as H1 by auto 10 with pof.
  cbn [le be app rev] in H1.
  rewrite POF_NTOH_FUNC_rev; [|rewrite list_elem_of_In; cbn; lia|cbn; lia|exact H1].
  cbn [mbind option_bind patch take drop app plus length rev].
  assert (bytes_ok (be 2 t ++ le 2 c ++ le 4 d ++ be 2 s ++ r)) as H2 by auto 10 with pof.
  cbn [le be app rev] in H2.
  rewrite POF_NTOH_FUNC_rev; [|rewrite list_elem_of_In; cbn; lia|cbn; lia|exact H2].
  cbn [mbind option_bind patch take drop app plus length rev].
  assert (bytes_ok (be 2 t ++ be 2 c ++ le 4 d ++ be 2 s ++ r)) as H3 by auto 10 with pof.
  cbn [le be app rev] in H3.
  rewrite POF_NTOH_FUNC_rev; [|rewrite list_elem_of_In; cbn; lia|cbn; lia|exact H3].
  reflexivity.
Qed.

(** The report [pofec_reply_error] leaves in the buffer. *)
Lemma store_error b type code dev str : bytes_ok b -> bytes_ok str ->
  24 + blen str <= blen b ->
  (b1 ← set_fld b 10 2 code; b2 ← set_fld b1 12 4 dev; b3 ← set_fld b2 16 2 POF_SLOT_ID_BASE;
   b4 ← set_fld b3 8 2 type; b5 ← put_buf b4 24 str;
   at_ptr b5 sizeof_pof_header pof_NtoH_transfer_error) =
  Some (take 8 b ++ (be 2 type ++ be 2 code ++ be 4 dev ++ be 2 POF_SLOT_ID_BASE) ++
        take 6 (drop 18 b) ++ str ++ drop (24 + length str) b).
Proof.
  intros Hb Hs Hl. unfold blen in Hl. assert (24 <= length b)%nat as L by lia.
  do 24 take_one b L. bytes_split.
  do 4 (rewrite set_fld_in by (rewrite ?length_patch; rewrite ?length_le; cbn; lia);
        cbn [mbind option_bind]).
  rewrite put_buf_in; [|lia|unfold blen; rewrite ?length_patch, ?length_le by (rewrite ?length_patch, ?length_le; cbn; lia); lia].
  change (Z.to_nat 24) with 24%nat. cbn [mbind option_bind].
  cbn [patch take drop app le plus length].
  unfold at_ptr, sizeof_pof_header.
  change (Z.to_nat 8) with 8%nat. cbn [take drop].
  unfold blen. cbn [length]. zcases.
  erewrite (ntoh_error _ _ _ type code dev POF_SLOT_ID_BASE); [|reflexivity].
  cbn [mbind option_bind app]. reflexivity.
  Unshelve.
  - repeat (apply bytes_ok_cons; split; auto; try (unfold byte_ok; mod_lia)). auto with pof.
  - cbn. lia.
Qed.

(** Names of error constants fit in [err_str]. *)
Definition ecode_ok (c : ecode) : Prop := blen (str_bytes (ec_name c)) <= 256.

#[export] Instance ecode_ok_dec c : Decision (ecode_ok c).
Proof. unfold ecode_ok. apply _. Defined.

Lemma bytes_ok_str s : bytes_ok (str_bytes s).
Proof.
  unfold str_bytes. apply bytes_ok_app; [|by_decide].
  apply Forall_map, Forall_true. intros a. unfold byte_ok.
  pose proof (Ascii.nat_ascii_bounded a). cbn. lia.
Qed.
#[export] Hint Resolve bytes_ok_str : pof.

(** The error body: the four fields, the padding left in the buffer, the
    name of the code and what the buffer held after it. *)
Definition error_body (e : env) (type code : ecode) : list Z :=
  error_bytes (g_poflr_dev_id e) type code ++ take 6 (drop 18 (queue_msg_buf e)) ++
  str_bytes (ec_name code) ++
  take (256 - length (str_bytes (ec_name code)))
       (drop (24 + length (str_bytes (ec_name code))) (queue_msg_buf e)).

Definition error_message (e : env) (type code : ecode) (xid : Z) : list Z :=
  header_bytes POFT_ERROR xid 280 ++ error_body e type code ++ q_residue e.

Definition error_buf (e : env) (type code : ecode) : list Z :=
  take 8 (queue_msg_buf e) ++ error_bytes (g_poflr_dev_id e) type code ++
  take 6 (drop 18 (queue_msg_buf e)) ++ str_bytes (ec_name code) ++
  drop (24 + length (str_bytes (ec_name code))) (queue_msg_buf e).

Lemma error_stores type code (k : St Z) e : env_ok e -> ecode_ok code ->
  (_ ← store_msg (fun b => set_fld b 10 2 (ec_num code));
   _ ← (e ← get_env; store_msg (fun b => set_fld b 12 4 (g_poflr_dev_id e)));
   _ ← store_msg (fun b => set_fld b 16 2 POF_SLOT_ID_BASE);
   _ ← store_msg (fun b => set_fld b 8 2 (ec_num type));
   _ ← store_msg (fun b => put_buf b 24 (str_bytes (ec_name code)));
   _ ← store_msg (fun b => at_ptr b sizeof_pof_header pof_NtoH_transfer_error); k) e =
  k (set_msg_buf (error_buf e type code) e).
Proof.
  intros [A B _ _] Hc. unfold ecode_ok in Hc.
  pose proof (store_error (queue_msg_buf e) (ec_num type) (ec_num code) (g_poflr_dev_id e)
    (str_bytes (ec_name code)) B (bytes_ok_str _) ltac:(unfold blen in *; lia)) as H.
  do 4 (match type of H with context [set_fld ?l ?o ?n ?v] =>
    destruct (set_fld l o n v) as [?b|] eqn:?; [cbn [mbind option_bind] in H|discriminate] end).
  destruct (put_buf _ _ _) as [b5|] eqn:?; [cbn [mbind option_bind] in H|discriminate].
  erewrite store_msgs_run; [|eassumption]. rewrite run_bind.
  assert (forall f : env -> list Z -> option (list Z), (e0 ← get_env; store_msg (f e0)) = 
    (fun e => store_msg (f e) e)) as -> by reflexivity.
  erewrite store_msg_run; [|cbn; eassumption]. cbv iota beta.
  do 3 (erewrite store_msgs_run; [|eassumption]).
  erewrite store_msgs_run; [reflexivity|]. exact H.
Qed.

Lemma error_buf_ok e type code : env_ok e -> ecode_ok code ->
  length (error_buf e type code) = 2560%nat /\ bytes_ok (error_buf e type code) /\
  take 272 (drop 8 (error_buf e type code)) = error_body e type code.
Proof.
  intros [A B _ _] Hc. unfold ecode_ok, blen in Hc.
  assert (length (error_bytes (g_poflr_dev_id e) type code) = 10%nat) as Le.
  { unfold error_bytes. now rewrite !length_app, !length_be. }
  assert (bytes_ok (error_bytes (g_poflr_dev_id e) type code)) as Be.
  { unfold error_bytes. auto with pof. }
  unfold error_buf. repeat split.
  - rewrite !length_app, !length_take, !length_drop. lia.
  - auto 10 with pof.
  - rewrite drop_app_length' by (rewrite length_take; lia).
    unfold error_body. rewrite take_app_ge by lia. rewrite Le. f_equal.
    rewrite take_app_ge by (rewrite length_take, length_drop; lia).
    rewrite length_take, length_drop. f_equal.
    rewrite take_app_ge by lia. f_equal. f_equal. lia.
Qed.

Lemma error_loop_spec fuel : forall e type code xid,
  env_ok e -> send_q_valid e = true -> ecode_ok code ->
  (length (mallocs e) + length (msgsnds e) < fuel)%nat ->
  exists r e', reply_error_loop fuel type code xid e = Some (r, e') /\ reported e e' /\
    (quiet e -> sending e = true -> r = POF_OK /\
       send_q e' = send_q e ++ [error_message e type code xid]) /\
    (quiet e \/ sending e = false -> g_pofec_error e' = g_pofec_error e) /\
    (sending e = false -> r = POF_OK /\ send_q e' = send_q e).
Proof.
  induction fuel as [|fuel IH]; intros e type code xid Ok V Hc Hf; [lia|].
  cbn [reply_error_loop]. rewrite error_stores by done.
  destruct (error_buf_ok e type code Ok Hc) as (Lb & Bb & Tb).
  set (e1 := set_msg_buf _ e). pose proof (reported_set_msg_buf e _ Ok Lb Bb) as R1. fold e1 in R1.
  rewrite run_bind. destruct (sending e) eqn:S.
  - destruct (reply_msg_spec e1 POFT_ERROR xid sizeof_pof_error None (rp_ok _ _ R1) V S)
      as (r & e2 & E & R2 & H).
    { split; [unfold sizeof_pof_error; lia|done]. }
    rewrite E. destruct H as [(-> & Er & Q)|(Hr & Q & M)].
    + eexists _, _; split; [reflexivity|]. split; [now trans e1|].
      split; [|split; [intros; exact Er|done]].
      intros _ _. split; [done|]. rewrite Q. unfold error_message. do 3 f_equal.
      rewrite <- Tb. reflexivity.
    + apply Z.eqb_neq in Hr. rewrite Hr. cbn [negb]. rewrite run_bind.
      unfold pofec_set_error, mod_env. rewrite run_bind. unfold upward_xid_pp.
      set (e3 := set_upward_xid _ _).
      assert (reported e2 e3) as R3.
      { pose proof (reported_set_error e2 POFET_SOFTWARE_FAILED POF_WRITE_MSG_QUEUE_FAILURE
          (rp_ok _ _ R2)) as R. etrans; [exact R|]. apply reported_set_upward_xid, (rp_ok _ _ R). }
      assert (reported e e3) as R by (trans e1; [exact R1|]; now trans e2).
      rewrite run_bind.
      destruct (IH e3 POFET_SOFTWARE_FAILED POF_WRITE_MSG_QUEUE_FAILURE (g_upward_xid
        (set_error POFET_SOFTWARE_FAILED POF_WRITE_MSG_QUEUE_FAILURE e2)) (rp_ok _ _ R))
        as (r' & e4 & E4 & R4 & _).
      { now rewrite (rp_valid _ _ R). } { by_decide. } { cbn in *. lia. }
      rewrite E4. eexists _, _; split; [reflexivity|]. split; [now trans e3|].
      split; [|split].
      * intros (Qm & Qs & _). unfold e1 in M. cbn in M. rewrite Qm, Qs in M. cbn in M. lia.
      * intros [(Qm & Qs & _)|?]; [|done]. unfold e1 in M. cbn in M. rewrite Qm, Qs in M. cbn in M. lia.
      * done.
  - rewrite reply_msg_silent by exact S. eexists _, _; split; [reflexivity|].
    split; [exact R1|]. split; [done|]. split; [done|]. intros _. done.
Qed.

(** Every error macro returns, with the error code as its result; the error is
    recorded, and one error message is queued when the channel is up and no
    service fails. *)
Lemma error_upward_spec e type code xid :
  env_ok e -> send_q_valid e = true -> ecode_ok code ->
  exists e', POF_ERROR_HANDLE_RETURN_UPWARD type code xid e = Some (err_ret code, e') /\
    reported e e' /\
    (quiet e -> g_pofec_error e' = (type, code)) /\
    (quiet e -> sending e = true -> send_q e' = send_q e ++ [error_message e type code xid]) /\
    (sending e = false -> send_q e' = send_q e).
Proof.
  intros Ok V Hc. unfold POF_ERROR_HANDLE_RETURN_UPWARD, POF_ERROR_HANDLE_NO_RETURN_UPWARD.
  rewrite !run_bind. unfold pofec_set_error, mod_env at 1.
  pose proof (reported_set_error e type code Ok) as R1. set (e1 := set_error type code e) in *.
  rewrite run_bind. unfold pofec_reply_error. rewrite run_bind. unfold get_env.
  destruct (error_loop_spec (S (length (mallocs e1) + length (msgsnds e1))) e1 type code xid
    (rp_ok _ _ R1) V Hc ltac:(lia)) as (r & e2 & E & R2 & H1 & H2 & H3).
  rewrite E. eexists; split; [reflexivity|]. split; [now trans e1|].
  split; [|split].
  - intros Q. rewrite H2 by now left. reflexivity.
  - intros Q S. now apply H1.
  - intros S. now apply H3.
Qed.

(** A fresh environment in state [s], with the given service outcomes. *)
Definition env_init (s : pof_channel_state) (ml sl : list bool) : env :=
  mkEnv 0 0 (POFET_HELLO_FAILED, POFET_HELLO_FAILED) 1 s (replicate 2560 0) true [] (replicate 8 0) ml sl.

Lemma zeros_ok n : bytes_ok (replicate n 0).
Proof. apply Forall_replicate. unfold byte_ok; lia. Qed.

Lemma env_init_ok s ml sl : env_ok (env_init s ml sl).
Proof.
  split; cbv [env_init queue_msg_buf q_residue].
  - apply length_replicate.
  - apply zeros_ok.
  - apply length_replicate.
  - apply zeros_ok.
Qed.
#[export] Hint Resolve env_init_ok : pof.

(** ** Properties *)

(** C36. Reporting an error always returns, whatever [malloc] and [msgsnd] do:
    the recursion of [pofec_reply_error] on its own failure ends within as many
    rounds as failures remain, and only the error record, the ids, the buffer,
    the queue and the service outcomes change. *)
Theorem pofec_reply_error_returns e type code xid :
  env_ok e -> send_q_valid e = true -> ecode_ok code ->
  exists r e', pofec_reply_error type code xid e = Some (r, e') /\ reported e e'.
Proof.
  intros Ok V Hc. unfold pofec_reply_error. rewrite run_bind. unfold get_env.
  destruct (error_loop_spec (S (length (mallocs e) + length (msgsnds e))) e type code xid)
    as (r & e' & E & R & _); auto; try lia. eauto.
Qed.

(** What the controller receives for an error: on an open channel with no
    service failure, one message is appended to the queue, with the
    [POFT_ERROR] header and the request's xid, and in network order the type,
    the code, the device id and the slot of the report, then the code's name;
    the handler returns [code | 0xF0000000] and the error is recorded. *)
Theorem error_report_message e type code xid :
  env_ok e -> quiet e -> sending e = true -> ecode_ok code ->
  exists e' rest, POF_ERROR_HANDLE_RETURN_UPWARD type code xid e =
      Some (Z.lor (ec_num code) 0xF0000000, e') /\
    send_q e' = send_q e ++ [([POF_VERSION; POFT_ERROR] ++ be 2 280 ++ be 4 xid) ++
      be 2 (ec_num type) ++ be 2 (ec_num code) ++ be 4 (g_poflr_dev_id e) ++ be 2 POF_SLOT_ID_BASE ++
      take 6 (drop 18 (queue_msg_buf e)) ++ str_bytes (ec_name code) ++ rest ++ q_residue e] /\
    g_pofec_error e' = (type, code).
Proof.
  intros Ok Q S Hc. destruct (error_upward_spec e type code xid Ok (proj2 (proj2 Q)) Hc)
    as (e' & E & R & H1 & H2 & _).
  exists e', (take (256 - length (str_bytes (ec_name code)))
    (drop (24 + length (str_bytes (ec_name code))) (queue_msg_buf e))).
  split; [exact E|]. split; [|now apply H1].
  rewrite H2 by done. unfold error_message, error_body, error_bytes, header_bytes.
  change (u8 POFT_ERROR) with POFT_ERROR. do 3 f_equal. rewrite <- !app_assoc. reflexivity.
Qed.

(** Queue round trip: a message written with [pofbf_queue_write] to an
    empty queue and read with [pofbf_queue_read] comes back as the first
    [msg_len] bytes of the buffer, although eight bytes of residue travel with
    it, and the queue is empty again. *)
Theorem queue_write_read e m len max_len :
  env_ok e -> quiet e -> send_q e = [] -> 0 <= len <= 2560 -> len <= blen m -> len <= max_len ->
  exists e1 e2, pofbf_queue_write m len POF_WAIT_FOREVER e = Some (POF_OK, e1) /\
    pofbf_queue_read max_len POF_WAIT_FOREVER e1 = Some ((POF_OK, take (Z.to_nat len) m), e2) /\
    send_q e2 = [].
Proof.
  intros Ok Q Em Hl Hm Hx. pose proof Ok as [A B C D]. destruct Q as (Q1 & Q2 & V).
  destruct (queue_write_spec e m len Ok V Hl Hm) as (r & e1 & E & R & [(-> & S & _)|(_ & _ & _ & M)]);
    [|rewrite Q1, Q2 in M; cbn in M; lia].
  rewrite Em in S. cbn [app] in S. exists e1.
  destruct (quiet_reported e e1 (conj Q1 (conj Q2 V)) R) as (M1 & _ & V1).
  eexists. split; [exact E|]. unfold pofbf_queue_read. st_unfold. rewrite V1. cbn [negb].
  change (POF_WAIT_FOREVER =? POF_WAIT_FOREVER) with true. cbn [negb andb].
  unfold malloc. rewrite M1, S. cbn [negb].
  assert (blen (take (Z.to_nat len) m ++ q_residue e) = len + 8) as L.
  { unfold blen in *. rewrite length_app, length_take. lia. }
  rewrite L. unfold sizeof_msg. zcases. rewrite sub_buf_in by lia.
  change (Z.to_nat 0) with 0%nat. rewrite drop_0. replace (len + 8 - 8) with len by lia.
  rewrite take_app_length' by (rewrite length_take; unfold blen in *; lia).
  split; reflexivity.
Qed.

(** ** Witnesses *)

Lemma pofec_reply_error_returns_witness :
  exists r e', pofec_reply_error POFET_BAD_REQUEST POF_PTR_NULL 7
    (env_init POFCS_CHANNEL_RUN [true; false; true] [false; false]) = Some (r, e').
Proof.
  destruct (pofec_reply_error_returns (env_init POFCS_CHANNEL_RUN [true; false; true] [false; false])
    POFET_BAD_REQUEST POF_PTR_NULL 7) as (r & e' & E & _);
    [apply env_init_ok|reflexivity|by_decide|exists r, e'; exact E].
Defined.

Lemma error_report_message_witness :
  exists e', POF_ERROR_HANDLE_RETURN_UPWARD POFET_BAD_REQUEST POF_PTR_NULL 7
    (env_init POFCS_CHANNEL_RUN [] []) = Some (0xF0007010, e') /\ length (send_q e') = 1%nat.
Proof.
  destruct (error_report_message (env_init POFCS_CHANNEL_RUN [] []) POFET_BAD_REQUEST POF_PTR_NULL 7)
    as (e' & rest & E & S & _); [apply env_init_ok|repeat split|reflexivity|by_decide|].
  exists e'. split; [exact E|]. rewrite S. reflexivity.
Defined.

Lemma queue_write_read_witness :
  exists e1 e2, pofbf_queue_write [1; 2; 3; 4] 3 POF_WAIT_FOREVER (env_init POFCS_CHANNEL_RUN [] [])
      = Some (POF_OK, e1) /\
    pofbf_queue_read 2560 POF_WAIT_FOREVER e1 = Some ((POF_OK, [1; 2; 3]), e2).
Proof.
  destruct (queue_write_read (env_init POFCS_CHANNEL_RUN [] []) [1; 2; 3; 4] 3 2560)
    as (e1 & e2 & E1 & E2 & _);
    [apply env_init_ok|repeat split|reflexivity|lia|cbv; congruence|lia|].
  exists e1, e2. split; [exact E1|exact E2].
Defined.
