(* ===== verification/Hmap.v ===== *)
(** * The hash map of common/pof_hmap.c

    An intrusive chained hash map: the node is a member of the structure it
    indexes.  The structures of one kind live in a [heap] of [cell]s (the node's
    hash and next pointer, and the rest of the structure); a pointer is an
    [addr], [NULL] is [None], and following a pointer to a freed cell is
    [None].  Every loop over a chain takes fuel; [rep] relates the pointers to
    the lists of addresses of the buckets, and under [rep] the fuel used by the
    operations is enough. *)

From S2P Require Import Prelude Codec Env.

Definition addr := positive.

(** [struct hnode] and the structure around it. *)
Record cell (V : Type) := Cell { c_hash : Z; c_next : option addr; c_obj : V }.
Arguments Cell {V} _ _ _.
Arguments c_hash {V} _.
Arguments c_next {V} _.
Arguments c_obj {V} _.

Abbreviation heap V := (gmap addr (cell V)).

Record hmap := mkHmap { buckets : list (option addr); mask : Z; n : Z }.

Definition HMAP_BUCKETS_COUNT (m : hmap) : Z := u32 (mask m + 1).

(** ** Hash functions *)

Definition HASH_S : Z := 0x9E3779B9.

Definition hmap_hashForLinear (value : Z) : Z := value.

Definition hmap_hashForUint32 (value : Z) : Z :=
  let value := u32 (value + 3 * Z.shiftr value 8 + 7 * Z.shiftr value 16 + 13 * Z.shiftr value 24) in
  u32 (value * HASH_S).

(** [value] is read as little-endian 32-bit words, the last one zero-padded. *)
Fixpoint hash_words (l : list Z) (hash : Z) : Z :=
  match l with
  | b0 :: b1 :: b2 :: b3 :: l' =>
      hash_words l' (Z.lxor hash (hmap_hashForUint32 (unle [b0; b1; b2; b3])))
  | [] => hash
  | rest => Z.lxor hash (hmap_hashForUint32 (unle rest))
  end.

Definition hmap_hashForBytes (value : list Z) (n : Z) : option Z :=
  v ← sub_buf value 0 n; Some (hash_words v 0).

(** ** Creation *)

Definition bucketsNum (size : Z) : Z :=
  let size := Z.shiftr size 1 in
  let size := Z.lor size (Z.shiftr size 1) in
  let size := Z.lor size (Z.shiftr size 2) in
  let size := Z.lor size (Z.shiftr size 4) in
  let size := Z.lor size (Z.shiftr size 8) in
  let size := Z.lor size (Z.shiftr size 16) in
  u32 (size + 1).

(** [hmapInit]: [None] when the bucket array cannot be allocated. *)
Definition hmapInit (bktSize : Z) : St (option hmap) :=
  ok ← malloc;
  if negb ok then
    _ ← pofec_set_error POFET_SOFTWARE_FAILED POF_ALLOCATE_RESOURCE_FAILURE; mret None
  else mret (Some (mkHmap (replicate (Z.to_nat bktSize) None) (u32 (bktSize - 1)) 0)).

Definition hmap_create (size : Z) : St (option hmap) :=
  ok ← malloc;
  if negb ok then
    _ ← pofec_set_error POFET_SOFTWARE_FAILED POF_ALLOCATE_RESOURCE_FAILURE; mret None
  else hmapInit (bucketsNum size).

(** ** Traversal macros *)

Section ops.
Context {V : Type}.
Implicit Types (h : heap V) (m : hmap) (p q : addr).

Definition bucket m (i : Z) : option (option addr) :=
  if i <? 0 then None else buckets m !! Z.to_nat i.

(** [bucketWithHash], as an index into [map->buckets]. *)
Definition bucketWithHash m (hash : Z) : Z := Z.land (mask m) hash.

(** [NODES_TRAVERSE_IN_BUCKET] with a loop body that may leave with a result. *)
Fixpoint NODES_TRAVERSE {R S : Type} (fuel : nat) h (node : option addr)
    (body : addr -> cell V -> S -> R + S) (s : S) : option (R + S) :=
  match node, fuel with
  | None, _ => Some (inr s)
  | Some _, O => None
  | Some p, Datatypes.S fuel' =>
      c ← h !! p;
      match body p c s with
      | inl r => Some (inl r)
      | inr s' => NODES_TRAVERSE fuel' h (c_next c) body s'
      end
  end.

Definition chain_fuel h : nat := S (size h).

(** [BUCKETS_TRAVERSE] from [i], stopping at the first non-empty bucket. *)
Fixpoint first_bucket (fuel : nat) m (i : Z) : option (option addr) :=
  if i <? HMAP_BUCKETS_COUNT m then
    match fuel with
    | O => None
    | S fuel' =>
        b ← bucket m i;
        match b with Some p => Some (Some p) | None => first_bucket fuel' m (i + 1) end
    end
  else Some None.

Definition bkt_fuel m : nat := Z.to_nat (HMAP_BUCKETS_COUNT m).

(** ** Operations *)

Definition hmap_empty m : bool := n m =? 0.

Definition hmap_nodesCountMax m : Z := u32 (2 * mask m + 1).

Definition hmap_nodeGetWithHash h m (hash : Z) : option (option addr) :=
  b ← bucket m (bucketWithHash m hash);
  r ← NODES_TRAVERSE (chain_fuel h) h b
        (fun p c _ => if c_hash c =? hash then inl p else inr tt) tt;
  match r with inl p => Some (Some p) | inr _ => Some None end.

(** The comma in the loop condition discards the test of [node]. *)
Fixpoint next_with_hash (fuel : nat) h (node : option addr) (hash : Z) : option addr :=
  p ← node; c ← h !! p;
  if c_hash c =? hash then Some p
  else match fuel with O => None | S fuel' => next_with_hash fuel' h (c_next c) hash end.

Definition hmap_nodeGetWithHashNext h (node : option addr) (hash : Z) : option addr :=
  next_with_hash (chain_fuel h) h node hash.

Definition hmap_nodePosBktId h m (p : addr) : option Z :=
  c ← h !! p; Some (bucketWithHash m (c_hash c)).

Definition hmap_nodePosDeep h m (p : addr) : option Z :=
  c ← h !! p;
  b ← bucket m (bucketWithHash m (c_hash c));
  r ← NODES_TRAVERSE (chain_fuel h) h b
        (fun q _ deep => if decide (q = p) then inl deep else inr (u32 (deep + 1))) 0;
  match r with inl deep => Some deep | inr _ => Some POF_ERROR end.

Definition hmap_nodeContain h m (p : addr) : option bool :=
  c ← h !! p;
  b ← bucket m (bucketWithHash m (c_hash c));
  r ← NODES_TRAVERSE (chain_fuel h) h b
        (fun q _ _ => if decide (q = p) then inl tt else inr tt) tt;
  match r with inl _ => Some true | inr _ => Some false end.

Definition hmap_nodeFirst m : option (option addr) := first_bucket (bkt_fuel m) m 0.

Definition hmap_nodeNext h m (p : addr) : option (option addr) :=
  c ← h !! p;
  match c_next c with
  | Some q => Some (Some q)
  | None => first_bucket (bkt_fuel m) m (bucketWithHash m (c_hash c) + 1)
  end.

Definition hmap_nodeInsert h m (p : addr) : option (heap V * hmap) :=
  c ← h !! p;
  let i := bucketWithHash m (c_hash c) in
  b ← bucket m i;
  Some (<[p := Cell (c_hash c) b (c_obj c)]> h,
        mkHmap (<[Z.to_nat i := Some p]> (buckets m)) (mask m) (u32 (n m + 1))).

(** [pnode] of [hmap_nodeDelete]: a bucket, or the [next] member of a node. *)
Inductive slot := SBucket (i : Z) | SNext (q : addr).

Definition read_slot h m (s : slot) : option (option addr) :=
  match s with
  | SBucket i => bucket m i
  | SNext q => c ← h !! q; Some (c_next c)
  end.

Definition write_slot h m (s : slot) (v : option addr) : option (heap V * hmap) :=
  match s with
  | SBucket i =>
      _ ← bucket m i; Some (h, mkHmap (<[Z.to_nat i := v]> (buckets m)) (mask m) (n m))
  | SNext q => c ← h !! q; Some (<[q := Cell (c_hash c) v (c_obj c)]> h, m)
  end.

Fixpoint delete_loop (fuel : nat) h m (pnode : slot) (p : addr) : option (heap V * hmap) :=
  v ← read_slot h m pnode;
  match v with
  | None => Some (h, m)
  | Some q =>
      if decide (q = p) then
        c ← h !! p;
        '(h', m') ← write_slot h m pnode (c_next c);
        Some (h', mkHmap (buckets m') (mask m') (u32 (n m' - 1)))
      else
        match fuel with O => None | S fuel' => delete_loop fuel' h m (SNext q) p end
  end.

Definition hmap_nodeDelete h m (p : addr) : option (heap V * hmap) :=
  c ← h !! p;
  delete_loop (chain_fuel h) h m (SBucket (bucketWithHash m (c_hash c))) p.

Definition hmap_clear m : option hmap :=
  if HMAP_BUCKETS_COUNT m <=? Z.of_nat (length (buckets m))
  then Some (mkHmap (foldl (fun b i => <[i := None]> b) (buckets m) (seq 0 (bkt_fuel m))) (mask m) 0)
  else None.

(** [hmap_nodeTrav]: [func] is called once per node, with [arg] only. *)
Fixpoint trav_buckets {S : Type} (fuel : nat) h m (i : Z) (func : S -> Z * S) (arg : S) : option (Z * S) :=
  if i <? HMAP_BUCKETS_COUNT m then
    match fuel with
    | O => None
    | Datatypes.S fuel' =>
        b ← bucket m i;
        r ← NODES_TRAVERSE (chain_fuel h) h b
              (fun _ _ s => let '(ret, s') := func s in
                            if negb (ret =? POF_OK) then inl s' else inr s') arg;
        match r with
        | inl s => Some (POF_ERROR, s)
        | inr s => trav_buckets fuel' h m (i + 1) func s
        end
    end
  else Some (POF_OK, arg).

Definition hmap_nodeTrav {S : Type} h m (func : S -> Z * S) (arg : S) : option (Z * S) :=
  trav_buckets (bkt_fuel m) h m 0 func arg.

(** [HMAP_NODES_IN_STRUCT_TRAVERSE] (include/pof_hmap.h) over the map the
    state holds: the successor is read before the body runs, the body may
    leave the enclosing function with a result. *)
Fixpoint traverse_from {R S : Type} (hm : S -> option (heap V * hmap)) (body : addr -> S -> St (R + S))
    (fuel : nat) (obj : option addr) (s : S) : St (R + S) :=
  match obj, fuel with
  | None, _ => mret (inr s)
  | Some _, O => fault
  | Some p, Datatypes.S fuel' =>
      next ← lift ('(h, m) ← hm s; hmap_nodeNext h m p);
      r ← body p s;
      match r with
      | inl r => mret (inl r)
      | inr s' => traverse_from hm body fuel' next s'
      end
  end.

Definition HMAP_NODES_IN_STRUCT_TRAVERSE {R S : Type} (hm : S -> option (heap V * hmap))
    (body : addr -> S -> St (R + S)) (s : S) : St (R + S) :=
  '(h, m) ← lift (hm s);
  first ← lift (hmap_nodeFirst m);
  traverse_from hm body (chain_fuel h) first s.

(** ** Representation *)

(** The pointer [p] starts the list of nodes [l]. *)
Fixpoint chain h (p : option addr) (l : list addr) : Prop :=
  match l with
  | [] => p = None
  | q :: l' => p = Some q /\ exists c, h !! q = Some c /\ chain h (c_next c) l'
  end.

Record rep h m (cs : list (list addr)) : Prop := {
  rep_mask : exists k, 0 <= k <= 31 /\ mask m = 2 ^ k - 1;
  rep_len : Z.of_nat (length cs) = mask m + 1;
  rep_chains : Forall2 (chain h) (buckets m) cs;
  rep_nodup : NoDup (concat cs);
  rep_hash : forall i l q c, cs !! i = Some l -> q ∈ l -> h !! q = Some c ->
    Z.land (mask m) (c_hash c) = Z.of_nat i;
  rep_n : n m = u32 (Z.of_nat (length (concat cs)))
}.

End ops.

(** ** Lemmas *)

Section lemmas.
Context {V : Type}.
Implicit Types (h : heap V) (m : hmap) (q : addr) (l : list addr).

(** *** Chains *)

Lemma chain_length h p l : chain h p l -> NoDup l -> (length l <= size h)%nat.
Proof.
  intros Hc Hn. rewrite <- size_dom.
  assert (list_to_set l ⊆ dom h) as Hs.
  { clear Hn. revert p Hc. induction l as [|q l IH]; intros p; cbn; [set_solver|].
    intros (_ & c & Hq & Hc). apply IH in Hc. apply elem_of_dom_2 in Hq.
    apply union_subseteq; split; [now apply singleton_subseteq_l|done]. }
  apply subseteq_size in Hs. now rewrite size_list_to_set in Hs.
Qed.

Lemma chain_in h p l q : chain h p l -> q ∈ l -> exists c, h !! q = Some c.
Proof.
  revert p. induction l as [|x l IH]; intros p; cbn; [now intros _ ?%elem_of_nil|].
  intros (_ & c & Hq & Hc) [->|Hi]%elem_of_cons; eauto.
Qed.

Lemma chain_frame h h' p l : chain h p l ->
  (forall q, q ∈ l -> exists c c', h !! q = Some c /\ h' !! q = Some c' /\ c_next c' = c_next c) ->
  chain h' p l.
Proof.
  revert p. induction l as [|q l IH]; intros p; cbn; [done|].
  intros (-> & c & Hq & Hc) Hf. split; [done|].
  destruct (Hf q) as (c1 & c' & H1 & H2 & H3); [set_solver|].
  exists c'. split; [done|]. rewrite H3. assert (c1 = c) as -> by congruence.
  apply IH; [done|]. intros. apply Hf. set_solver.
Qed.

Lemma chain_app h p l1 q l2 : chain h p (l1 ++ q :: l2) ->
  exists c, h !! q = Some c /\ chain h (c_next c) l2.
Proof.
  revert p. induction l1 as [|x l1 IH]; intros p; cbn.
  - intros (_ & ?). done.
  - intros (_ & c & _ & ?). eauto.
Qed.

(** A traversal of a chain is a traversal of its list. *)
Fixpoint list_traverse {R S} h l (body : addr -> cell V -> S -> R + S) (s : S) : option (R + S) :=
  match l with
  | [] => Some (inr s)
  | q :: l' =>
      c ← h !! q;
      match body q c s with
      | inl r => Some (inl r)
      | inr s' => list_traverse h l' body s'
      end
  end.

Lemma traverse_list {R S} h body l : forall fuel p (s : S), chain h p l ->
  (length l <= fuel)%nat -> NODES_TRAVERSE (R:=R) fuel h p body s = list_traverse h l body s.
Proof.
  induction l as [|q l IH]; intros fuel p s; cbn [chain list_traverse length].
  - intros -> _. destruct fuel; reflexivity.
  - intros (-> & c & Hq & Hc) Hf. destruct fuel as [|fuel]; [lia|].
    cbn [NODES_TRAVERSE]. rewrite Hq. cbn [mbind option_bind].
    destruct (body q c s); [done|]. apply IH; [done|lia].
Qed.

(** *** Buckets *)

Lemma hash_bucket m cs hash : (exists k, 0 <= k <= 31 /\ mask m = 2 ^ k - 1) ->
  Z.of_nat (length cs) = mask m + 1 -> 0 <= hash ->
  0 <= Z.land (mask m) hash < Z.of_nat (length (A:=list addr) cs) /\
  HMAP_BUCKETS_COUNT m = Z.of_nat (length cs).
Proof.
  intros (k & Hk & Hm) Hl Hh. rewrite Hl.
  assert (0 < 2 ^ k <= 2 ^ 31) as Hp
    by (split; [apply Z.pow_pos_nonneg; lia|apply Z.pow_le_mono_r; lia]).
  split.
  - rewrite Hm, Z.land_comm. replace (2 ^ k - 1) with (Z.ones k) by (rewrite Z.ones_equiv; lia).
    rewrite Z.land_ones by lia.
    pose proof (Z.mod_pos_bound hash (2 ^ k) ltac:(lia)) as B. rewrite Z.ones_equiv.
    generalize dependent (hash mod 2 ^ k). lia.
  - unfold HMAP_BUCKETS_COUNT. apply u32_small. lia.
Qed.

Lemma rep_bucket h m cs i : rep h m cs -> 0 <= i < Z.of_nat (length cs) ->
  exists b l, bucket m i = Some b /\ cs !! Z.to_nat i = Some l /\ chain h b l /\
    NoDup l /\ (length l <= chain_fuel h)%nat.
Proof.
  intros R Hi. destruct (lookup_lt_is_Some_2 cs (Z.to_nat i)) as [l Hl]; [lia|].
  destruct (Forall2_lookup_r _ _ _ _ _ (rep_chains _ _ _ R) Hl) as (b & Hb & Hc).
  assert (NoDup l) as Nl.
  { pose proof (rep_nodup _ _ _ R) as N. rewrite <- (take_drop_middle _ _ _ Hl) in N.
    rewrite concat_app in N. apply NoDup_app in N as (_ & _ & N). cbn in N.
    now apply NoDup_app in N as (N & _ & _). }
  exists b, l. unfold bucket. zcases. do 4 (split; [done|]).
  pose proof (chain_length _ _ _ Hc Nl). unfold chain_fuel. lia.
Qed.

Lemma rep_hash_bucket h m cs hash : rep h m cs -> 0 <= hash ->
  exists b l, bucket m (bucketWithHash m hash) = Some b /\
    cs !! Z.to_nat (bucketWithHash m hash) = Some l /\ chain h b l /\
    NoDup l /\ (length l <= chain_fuel h)%nat.
Proof.
  intros R Hh. apply rep_bucket with (1 := R). unfold bucketWithHash.
  eapply hash_bucket; [apply R|apply R|done].
Qed.

Lemma in_concat_lookup (cs : list (list addr)) q : q ∈ concat cs <-> exists i l, cs !! i = Some l /\ q ∈ l.
Proof.
  rewrite list_elem_of_In, in_concat. setoid_rewrite <- list_elem_of_In. split.
  - intros (l & [i Hi]%list_elem_of_lookup & Hq). eauto.
  - intros (i & l & Hi & Hq). exists l. split; [|done]. apply list_elem_of_lookup. eauto.
Qed.

Lemma rep_in h m cs q : rep h m cs -> q ∈ concat cs -> exists c, h !! q = Some c.
Proof.
  intros R (i & l & Hi & Hq)%in_concat_lookup.
  destruct (Forall2_lookup_r _ _ _ _ _ (rep_chains _ _ _ R) Hi) as (b & _ & Hc).
  eauto using chain_in.
Qed.

(** A node of the map sits in the bucket of its hash. *)
Lemma rep_in_bucket h m cs q c : rep h m cs -> q ∈ concat cs -> h !! q = Some c ->
  exists l, cs !! Z.to_nat (bucketWithHash m (c_hash c)) = Some l /\ q ∈ l.
Proof.
  intros R (i & l & Hi & Hq)%in_concat_lookup Hc. exists l.
  unfold bucketWithHash. rewrite (rep_hash _ _ _ R i l q c Hi Hq Hc). rewrite Nat2Z.id. done.
Qed.

(** ** Lookup *)

Lemma traverse_find h l (f : addr -> cell V -> bool) :
  (forall q, q ∈ l -> exists c, h !! q = Some c) ->
  exists r, list_traverse h l (fun q c _ => if f q c then inl q else inr tt) tt = Some r /\
    match r with
    | inl q => q ∈ l /\ exists c, h !! q = Some c /\ f q c = true
    | inr _ => forall q c, q ∈ l -> h !! q = Some c -> f q c = false
    end.
Proof.
  induction l as [|x l IH]; intros Hl; cbn [list_traverse].
  - eexists; split; [done|]. intros q c []%elem_of_nil.
  - destruct (Hl x) as [c Hc]; [left|]. rewrite Hc. cbn [mbind option_bind].
    destruct (f x c) eqn:F.
    + eexists; split; [done|]. split; [left|eauto].
    + destruct IH as (r & E & H); [intros; apply Hl; now right|].
      exists r. split; [done|]. destruct r as [q|].
      * destruct H as [? ?]. split; [now right|done].
      * intros q c' [->|Hq]%elem_of_cons Hc'; [congruence|eauto].
Qed.

Lemma nodeGetWithHash_spec h m cs hash : rep h m cs -> 0 <= hash ->
  exists r, hmap_nodeGetWithHash h m hash = Some r /\
    match r with
    | Some q => q ∈ concat cs /\ exists c, h !! q = Some c /\ c_hash c = hash
    | None => forall q c, q ∈ concat cs -> h !! q = Some c -> c_hash c <> hash
    end.
Proof.
  intros R Hh. destruct (rep_hash_bucket h m cs hash R Hh) as (b & l & Hb & Hl & Hc & Nl & Lf).
  unfold hmap_nodeGetWithHash. rewrite Hb. cbn [mbind option_bind].
  rewrite (traverse_list _ _ l) by done.
  destruct (traverse_find h l (fun _ c => c_hash c =? hash)) as (r & E & H).
  { intros. eauto using chain_in. }
  rewrite E. cbn [mbind option_bind]. destruct r as [q|].
  - destruct H as (Hq & c & Hqc & F). eexists; split; [done|]. split.
    + apply in_concat_lookup. eauto.
    + exists c. split; [done|]. now apply Z.eqb_eq.
  - eexists; split; [done|]. intros q c Hq Hqc Heq.
    destruct (rep_in_bucket h m cs q c R Hq Hqc) as (l' & Hl' & Hql).
    rewrite Heq, Hl in Hl'. injection Hl' as <-. specialize (H q c Hql Hqc). zcases.
Qed.

Lemma nodeContain_spec h m cs p c : rep h m cs -> h !! p = Some c -> 0 <= c_hash c ->
  exists r, hmap_nodeContain h m p = Some r /\ (r = true <-> p ∈ concat cs).
Proof.
  intros R Hp Hh. destruct (rep_hash_bucket h m cs _ R Hh) as (b & l & Hb & Hl & Hc & Nl & Lf).
  unfold hmap_nodeContain. rewrite Hp. cbn [mbind option_bind]. rewrite Hb. cbn [mbind option_bind].
  rewrite (traverse_list _ _ l) by done.
  assert (forall l, list_traverse h l (fun q _ _ => if decide (q = p) then inl tt else inr tt) tt =
    (r ← list_traverse h l (fun q _ _ => if bool_decide (q = p) then inl q else inr tt) tt;
     Some (match r with inl _ => inl tt | inr x => inr x end))) as ->.
  { clear. induction l as [|x l IH]; [done|]. cbn [list_traverse].
    destruct (h !! x); [|done]. cbn [mbind option_bind]. rewrite <- decide_bool_decide.
    destruct (decide (x = p)); [done|]. exact IH. }
  destruct (traverse_find h l (fun q _ => bool_decide (q = p))) as (r & E & H).
  { intros. eauto using chain_in. }
  rewrite E. cbn [mbind option_bind]. destruct r as [q|]; eexists; (split; [done|]).
  - destruct H as (Hq & _ & _ & Hd%bool_decide_eq_true). subst q. split; [|done].
    intros _. apply in_concat_lookup. eauto.
  - split; [done|]. intros Hi. destruct (rep_in_bucket h m cs p c R Hi Hp) as (l' & Hl' & Hql).
    rewrite Hl in Hl'. injection Hl' as <-. specialize (H p c Hql Hp).
    now apply bool_decide_eq_false in H.
Qed.
End lemmas.

Section updates.
Context {V : Type}.
Implicit Types (h : heap V) (m : hmap) (q : addr) (l : list addr).

(** ** Insertion *)

Lemma concat_insert (cs : list (list addr)) i l l' : cs !! i = Some l ->
  exists a b, cs = a ++ l :: b /\ <[i := l']> cs = a ++ l' :: b /\ length a = i.
Proof.
  intros Hi. exists (take i cs), (drop (S i) cs).
  pose proof (lookup_lt_Some _ _ _ Hi). split; [now rewrite take_drop_middle|].
  split; [now apply insert_take_drop|]. rewrite length_take. lia.
Qed.

Lemma concat_insert_perm (cs : list (list addr)) i l l' x : cs !! i = Some l -> l' ≡ₚ x :: l ->
  concat (<[i := l']> cs) ≡ₚ x :: concat cs.
Proof.
  intros Hi Hp. destruct (concat_insert cs i l l' Hi) as (a & b & E1 & E2 & _).
  rewrite E2. rewrite E1 at 1. rewrite !concat_app. cbn [concat]. rewrite Hp. cbn.
  symmetry. apply Permutation_middle.
Qed.

Lemma nodeInsert_spec h m cs p c : rep h m cs -> h !! p = Some c -> 0 <= c_hash c ->
  p ∉ concat cs ->
  exists b m' l, let i := Z.to_nat (bucketWithHash m (c_hash c)) in
    cs !! i = Some l /\
    hmap_nodeInsert h m p = Some (<[p := Cell (c_hash c) b (c_obj c)]> h, m') /\
    rep (<[p := Cell (c_hash c) b (c_obj c)]> h) m' (<[i := p :: l]> cs) /\
    mask m' = mask m /\ concat (<[i := p :: l]> cs) ≡ₚ p :: concat cs.
Proof.
  intros R Hp Hh Hn. destruct (rep_hash_bucket h m cs _ R Hh) as (b & l & Hb & Hl & Hc & Nl & Lf).
  set (i := bucketWithHash m (c_hash c)) in *.
  assert (0 <= i < Z.of_nat (length cs)) as Hi by (eapply hash_bucket; [apply R|apply R|done]).
  eexists b, _, l. split; [exact Hl|]. split.
  { unfold hmap_nodeInsert. rewrite Hp. cbn [mbind option_bind]. fold i. rewrite Hb. reflexivity. }
  pose proof (concat_insert_perm cs (Z.to_nat i) l (p :: l) p Hl (reflexivity _)) as Pm.
  split; [|split; [reflexivity|exact Pm]].
  assert (forall q, q ∈ concat cs -> q <> p) as Hne by (intros q Hq ->; done).
  constructor; cbn [mask buckets n].
  - apply R.
  - rewrite length_insert. apply R.
  - apply Forall2_insert.
    + apply Forall2_same_length_lookup. split; [eapply Forall2_length, R|].
      intros j pb lj Hj Hlj. pose proof (Forall2_lookup_lr _ _ _ _ _ _ (rep_chains _ _ _ R) Hj Hlj) as Cj.
      eapply chain_frame; [exact Cj|]. intros q Hq. destruct (chain_in _ _ _ _ Cj Hq) as [cq Hcq].
      exists cq, cq. rewrite lookup_insert_ne; [done|].
      intros <-. apply Hn, in_concat_lookup. eauto.
    + cbn [chain]. split; [done|]. eexists. rewrite lookup_insert_eq. split; [done|]. cbn [c_next].
      eapply chain_frame; [exact Hc|]. intros q Hq. destruct (chain_in _ _ _ _ Hc Hq) as [cq Hcq].
      exists cq, cq. rewrite lookup_insert_ne; [done|].
      intros <-. apply Hn, in_concat_lookup. eauto.
  - rewrite Pm. constructor; [done|apply R].
  - intros j lj q cq Hj Hq Hcq. destruct (decide (j = Z.to_nat i)) as [->|Hji].
    + rewrite list_lookup_insert_eq in Hj by lia. injection Hj as <-.
      apply elem_of_cons in Hq as [->|Hq].
      * rewrite lookup_insert_eq in Hcq. injection Hcq as <-. cbn [c_hash].
        fold (bucketWithHash m (c_hash c)). fold i. lia.
      * rewrite lookup_insert_ne in Hcq by (intros <-; apply Hn, in_concat_lookup; eauto).
        rewrite (rep_hash _ _ _ R _ _ _ _ Hl Hq Hcq). lia.
    + rewrite list_lookup_insert_ne in Hj by done.
      rewrite lookup_insert_ne in Hcq by (intros <-; apply Hn, in_concat_lookup; eauto).
      now apply (rep_hash _ _ _ R _ _ _ _ Hj Hq Hcq).
  - rewrite (rep_n _ _ _ R), Pm. cbn [length]. unfold u32. lia.
Qed.

(** ** Deletion *)

(** Same structures, hashes included; only the links may differ. *)
Definition same_cells h h' : Prop := forall q,
  match h !! q, h' !! q with
  | Some c, Some c' => c_hash c = c_hash c' /\ c_obj c = c_obj c'
  | None, None => True
  | _, _ => False
  end.

Lemma same_cells_refl h : same_cells h h.
Proof. intros q. destruct (h !! q); auto. Qed.

Lemma delete_loop_absent h m p u : forall fuel s b, read_slot h m s = Some b -> chain h b u ->
  p ∉ u -> (length u <= fuel)%nat -> delete_loop fuel h m s p = Some (h, m).
Proof.
  induction u as [|q u IH]; intros fuel s b Hs Hc Hn Hf.
  - cbn in Hc. subst b. destruct fuel; cbn [delete_loop]; rewrite Hs; reflexivity.
  - destruct Hc as (-> & c & Hq & Hc). cbn in Hf. destruct fuel as [|fuel]; [lia|].
    cbn [delete_loop]. rewrite Hs. cbn [mbind option_bind].
    destruct (decide (q = p)) as [->|]; [set_solver|].
    apply IH with (b := c_next c); [|done|set_solver|lia].
    cbn [read_slot]. now rewrite Hq.
Qed.

(** The loop stops at the slot that points to [p]. *)
Lemma delete_loop_found h m p w : forall u fuel s b, read_slot h m s = Some b ->
  chain h b (u ++ p :: w) -> p ∉ u -> (length u <= fuel)%nat ->
  exists c, h !! p = Some c /\ chain h (c_next c) w /\
  delete_loop fuel h m s p =
    ('(h', m') ← write_slot h m (match last u with Some z => SNext z | None => s end) (c_next c);
     Some (h', mkHmap (buckets m') (mask m') (u32 (n m' - 1)))).
Proof.
  induction u as [|q u IH]; intros fuel s b Hs Hc Hn Hf.
  - destruct Hc as (-> & c & Hp & Hc). exists c. do 2 (split; [done|]).
    destruct fuel; cbn [delete_loop]; rewrite Hs; cbn [mbind option_bind];
      rewrite decide_True by done; rewrite Hp; reflexivity.
  - destruct Hc as (-> & cq & Hq & Hc). cbn in Hf. destruct fuel as [|fuel]; [lia|].
    destruct (IH fuel (SNext q) (c_next cq)) as (c & Hp & Hw & E); [|done|set_solver|lia|].
    { cbn [read_slot]. now rewrite Hq. }
    exists c. do 2 (split; [done|]). cbn [delete_loop]. rewrite Hs. cbn [mbind option_bind].
    rewrite decide_False by set_solver. rewrite E. destruct u as [|z u]; [done|].
    rewrite last_cons_cons. destruct (last (z :: u)) eqn:L; [done|].
    apply last_None in L. done.
Qed.

(** Unlinking [p] after [z]. *)
Lemma chain_unlink h z cz p c w : h !! z = Some cz -> c_next cz = Some p -> h !! p = Some c ->
  forall u b, chain h b (u ++ z :: p :: w) -> NoDup (u ++ z :: p :: w) ->
  chain (<[z := Cell (c_hash cz) (c_next c) (c_obj cz)]> h) b (u ++ z :: w).
Proof.
  intros Hz Nz Hp. induction u as [|x u IH]; intros b Hc Nd; cbn in Hc, Nd |- *.
  - destruct Hc as (-> & cz' & Hz' & Hn & c' & Hp' & Hw). split; [done|].
    eexists. rewrite lookup_insert_eq. split; [done|]. cbn [c_next].
    assert (c' = c) as -> by congruence.
    eapply chain_frame; [exact Hw|]. intros q Hq.
    destruct (chain_in _ _ _ _ Hw Hq) as [cq Hcq]. exists cq, cq.
    apply NoDup_cons in Nd as [Nd _]. rewrite lookup_insert_ne by set_solver. done.
  - destruct Hc as (-> & cx & Hx & Hc). split; [done|]. apply NoDup_cons in Nd as [Nx Nd].
    exists cx. rewrite lookup_insert_ne by set_solver. split; [done|]. now apply IH.
Qed.

Lemma rep_frame h h' m cs : rep h m cs ->
  (forall q, q ∈ concat cs -> exists c c', h !! q = Some c /\ h' !! q = Some c' /\
     c_next c' = c_next c /\ c_hash c' = c_hash c) -> rep h' m cs.
Proof.
  intros R Hf. constructor; try apply R.
  - apply Forall2_same_length_lookup. split; [eapply Forall2_length, R|].
    intros j pb lj Hj Hlj. pose proof (Forall2_lookup_lr _ _ _ _ _ _ (rep_chains _ _ _ R) Hj Hlj) as Cj.
    eapply chain_frame; [exact Cj|]. intros q Hq.
    destruct (Hf q) as (c & c' & ? & ? & ? & _); [apply in_concat_lookup; eauto|eauto].
  - intros j l q c Hj Hq Hc. destruct (Hf q) as (c0 & c' & H1 & H2 & _ & H3); [apply in_concat_lookup; eauto|].
    assert (c' = c) as -> by congruence. rewrite H3. eapply (rep_hash _ _ _ R); eauto.
Qed.

Lemma rep_free h m cs p : rep h m cs -> p ∉ concat cs -> rep (delete p h) m cs.
Proof.
  intros R Hp. eapply rep_frame; [exact R|]. intros q Hq. destruct (rep_in _ _ _ _ R Hq) as [c Hc].
  exists c, c. rewrite lookup_delete_ne by (intros ->; done). done.
Qed.

Lemma rep_alloc h m cs p c : rep h m cs -> h !! p = None -> rep (<[p := c]> h) m cs.
Proof.
  intros R Hp. eapply rep_frame; [exact R|]. intros q Hq. destruct (rep_in _ _ _ _ R Hq) as [c' Hc].
  exists c', c'. rewrite lookup_insert_ne by (intros ->; congruence). done.
Qed.

Lemma rep_store h m cs p c v : rep h m cs -> h !! p = Some c ->
  rep (<[p := Cell (c_hash c) (c_next c) v]> h) m cs.
Proof.
  intros R Hp. eapply rep_frame; [exact R|]. intros q Hq. destruct (rep_in _ _ _ _ R Hq) as [c' Hc].
  destruct (decide (q = p)) as [->|].
  - rewrite lookup_insert_eq. assert (c' = c) as -> by congruence. eauto 10.
  - rewrite lookup_insert_ne by done. eauto 10.
Qed.

Lemma same_cells_relink h z cz v : h !! z = Some cz ->
  same_cells h (<[z := Cell (c_hash cz) v (c_obj cz)]> h).
Proof.
  intros Hz q. destruct (decide (q = z)) as [->|].
  - now rewrite Hz, lookup_insert_eq.
  - rewrite lookup_insert_ne by done. apply same_cells_refl.
Qed.

(** Replacing the list of one bucket by a permutation of it less [p]. *)
Lemma rep_remove h h' m m' cs i p u w b' : rep h m cs ->
  cs !! i = Some (u ++ p :: w) -> same_cells h h' ->
  (forall q, q ∉ u ++ p :: w -> h' !! q = h !! q) ->
  buckets m' = <[i := b']> (buckets m) -> mask m' = mask m -> n m' = u32 (n m - 1) ->
  chain h' b' (u ++ w) -> rep h' m' (<[i := u ++ w]> cs).
Proof.
  intros R Hi Sc Fr Eb Em En Hc.
  assert (u ++ p :: w ≡ₚ p :: u ++ w) as Pm by (symmetry; apply Permutation_middle).
  assert (concat cs ≡ₚ p :: concat (<[i := u ++ w]> cs)) as Pc.
  { rewrite <- (list_insert_id cs i (u ++ p :: w) Hi) at 1.
    rewrite <- (list_insert_insert_eq cs i (u ++ p :: w) (u ++ w)).
    apply concat_insert_perm with (l := u ++ w); [|exact Pm].
    rewrite list_lookup_insert_eq; [done|]. now apply lookup_lt_Some in Hi. }
  pose proof (rep_nodup _ _ _ R) as Nd. rewrite Pc in Nd. apply NoDup_cons in Nd as [Np Nd].
  constructor.
  - rewrite Em. apply R.
  - rewrite length_insert, Em. apply R.
  - rewrite Eb. apply Forall2_same_length_lookup.
    split; [rewrite !length_insert; eapply Forall2_length, R|].
    intros j pb lj Hj Hlj. destruct (decide (j = i)) as [->|Hji].
    + apply lookup_lt_Some in Hi as Li. pose proof (Forall2_length _ _ _ (rep_chains _ _ _ R)).
      rewrite list_lookup_insert_eq in Hj by lia. rewrite list_lookup_insert_eq in Hlj by lia.
      congruence.
    + rewrite list_lookup_insert_ne in Hj by done. rewrite list_lookup_insert_ne in Hlj by done.
      pose proof (Forall2_lookup_lr _ _ _ _ _ _ (rep_chains _ _ _ R) Hj Hlj) as Cj.
      eapply chain_frame; [exact Cj|]. intros q Hq. destruct (chain_in _ _ _ _ Cj Hq) as [cq Hcq].
      exists cq, cq. rewrite Fr; [done|]. intros Hq'.
      pose proof (rep_hash _ _ _ R _ _ _ _ Hlj Hq Hcq) as E1.
      pose proof (rep_hash _ _ _ R _ _ _ _ Hi Hq' Hcq) as E2. lia.
  - exact Nd.
  - intros j l q c Hj Hq Hqc. rewrite Em. specialize (Sc q). rewrite Hqc in Sc.
    destruct (h !! q) as [cq|] eqn:Hcq; [|done]. destruct Sc as [<- _].
    destruct (decide (j = i)) as [->|Hji].
    + rewrite list_lookup_insert_eq in Hj by (now apply lookup_lt_Some in Hi). injection Hj as <-.
      eapply (rep_hash _ _ _ R); [exact Hi| |exact Hcq]. rewrite Pm. now right.
    + rewrite list_lookup_insert_ne in Hj by done. eapply (rep_hash _ _ _ R); eauto.
  - rewrite En, (rep_n _ _ _ R), Pc. cbn [length]. unfold u32. lia.
Qed.

Lemma nodeDelete_absent h m cs p c : rep h m cs -> h !! p = Some c -> 0 <= c_hash c ->
  p ∉ concat cs -> hmap_nodeDelete h m p = Some (h, m).
Proof.
  intros R Hp Hh Hn. destruct (rep_hash_bucket h m cs _ R Hh) as (b & l & Hb & Hl & Hc & Nl & Lf).
  unfold hmap_nodeDelete. rewrite Hp. cbn [mbind option_bind].
  apply delete_loop_absent with (u := l) (b := b); auto.
  intros Hi. apply Hn, in_concat_lookup. eauto.
Qed.

Lemma nodeDelete_spec h m cs p : rep h m cs -> p ∈ concat cs ->
  exists h' m' i u w, cs !! i = Some (u ++ p :: w) /\
    hmap_nodeDelete h m p = Some (h', m') /\ rep h' m' (<[i := u ++ w]> cs) /\
    same_cells h h' /\ mask m' = mask m /\ concat cs ≡ₚ p :: concat (<[i := u ++ w]> cs).
Proof.
  intros R Hin. destruct (rep_in _ _ _ _ R Hin) as [c Hp].
  destruct (rep_in_bucket _ _ _ _ _ R Hin Hp) as (l & Hl & Hpl).
  set (i := Z.to_nat (bucketWithHash m (c_hash c))) in *.
  destruct (list_elem_of_split _ _ Hpl) as (u & w & ->).
  destruct (Forall2_lookup_r _ _ _ _ _ (rep_chains _ _ _ R) Hl) as (b & Hb & Hc).
  assert (NoDup (u ++ p :: w)) as Nd.
  { pose proof (rep_nodup _ _ _ R) as N. rewrite <- (take_drop_middle _ _ _ Hl) in N.
    rewrite concat_app in N. apply NoDup_app in N as (_ & _ & N). cbn in N.
    now apply NoDup_app in N as (N & _ & _). }
  assert (Pc : concat cs ≡ₚ p :: concat (<[i := u ++ w]> cs)).
  { rewrite <- (list_insert_id cs i (u ++ p :: w) Hl) at 1.
    rewrite <- (list_insert_insert_eq cs i (u ++ p :: w) (u ++ w)).
    apply concat_insert_perm with (l := u ++ w); [|symmetry; apply Permutation_middle].
    rewrite list_lookup_insert_eq; [done|]. now apply lookup_lt_Some in Hl. }
  assert (0 <= bucketWithHash m (c_hash c)) as Hge.
  { unfold bucketWithHash. rewrite (rep_hash _ _ _ R _ _ _ _ Hl ltac:(set_solver) Hp). lia. }
  assert (bucket m (bucketWithHash m (c_hash c)) = Some b) as Hbk by (unfold bucket; zcases; exact Hb).
  destruct (delete_loop_found h m p w u (chain_fuel h) (SBucket (bucketWithHash m (c_hash c))) b)
    as (c' & Hp' & Hw & E); auto.
  { apply NoDup_app in Nd as (_ & Nd & _). intros Hu. apply (Nd p Hu). now left. }
  { pose proof (chain_length _ _ _ Hc Nd) as Lf. rewrite length_app in Lf. unfold chain_fuel. lia. }
  assert (c' = c) as -> by congruence. clear Hp'.
  unfold hmap_nodeDelete. rewrite Hp. cbn [mbind option_bind]. rewrite E. clear E.
  destruct (last u) as [z|] eqn:L.
  - apply last_Some in L as [u' ->]. rewrite <- app_assoc in Hc, Nd, Hl. cbn [app] in Hc, Nd, Hl.
    destruct (chain_app _ _ _ _ _ Hc) as (cz & Hz & Hn & Hcz).
    cbn [write_slot]. rewrite Hz. cbn [mbind option_bind].
    eexists _, _, i, (u' ++ [z]), w. rewrite <- !app_assoc. cbn [app]. split; [exact Hl|].
    split; [reflexivity|]. split; [|split; [now apply same_cells_relink|split; [done|]]].
    + change (u' ++ z :: w) with (u' ++ [z] ++ w). rewrite app_assoc.
      eapply rep_remove with (p := p); [exact R| |now apply same_cells_relink| | |reflexivity|reflexivity|].
      * rewrite <- app_assoc. exact Hl.
      * intros q Hq. rewrite lookup_insert_ne; [done|]. intros ->.
        apply Hq, elem_of_app. left. apply elem_of_app. right. left.
      * cbn [buckets]. symmetry. apply list_insert_id. exact Hb.
      * rewrite <- app_assoc. cbn [app]. eapply chain_unlink; eauto.
    + rewrite <- !app_assoc in Pc. exact Pc.
  - apply last_None in L. subst u. cbn [app] in *. cbn [write_slot]. rewrite Hbk.
    cbn [mbind option_bind]. eexists _, _, i, [], w. split; [exact Hl|]. split; [reflexivity|].
    split; [|split; [apply same_cells_refl|split; [done|exact Pc]]].
    eapply rep_remove with (p := p); [exact R|exact Hl|apply same_cells_refl|done|reflexivity|reflexivity|reflexivity|].
    exact Hw.
Qed.
End updates.

Section traversal.
Context {V : Type}.
Implicit Types (h : heap V) (m : hmap) (q : addr) (l : list addr).

(** ** Bucket count *)

(** [x] is [s] smeared over [w] positions to the right. *)
Definition smeared (w s x : Z) : Prop := 0 <= x /\ forall j, 0 <= j ->
  Z.testbit x j = true <-> exists i, 0 <= i < w /\ Z.testbit s (j + i) = true.

Lemma smear_step w s x : 0 <= w -> smeared w s x -> smeared (2 * w) s (Z.lor x (Z.shiftr x w)).
Proof.
  intros Hw [Hx H]. split.
  { apply Z.lor_nonneg. split; [done|]. now apply Z.shiftr_nonneg. }
  intros j Hj. rewrite Z.lor_spec, Z.shiftr_spec, orb_true_iff by lia. rewrite !H by lia. split.
  - intros [(i & Hi & T)|(i & Hi & T)]; [exists i|exists (i + w)]; (split; [lia|]); [done|].
    now replace (j + (i + w)) with (j + w + i) by lia.
  - intros (i & Hi & T). destruct (Z.ltb_spec i w); [left; now exists i; split; [lia|]|right].
    exists (i - w). split; [lia|]. now replace (j + w + (i - w)) with (j + i) by lia.
Qed.

Lemma smeared_all s x : 0 < s < 2 ^ 32 -> smeared 32 s x -> x = Z.ones (Z.log2 s + 1).
Proof.
  intros Hs [Hx H]. pose proof (Z.log2_nonneg s). apply Z.bits_inj'. intros j Hj.
  rewrite Z.testbit_ones_nonneg by lia. apply eq_true_iff_eq. rewrite H by lia.
  rewrite Z.ltb_lt. split.
  - intros (i & Hi & T). destruct (Z.ltb_spec (Z.log2 s) (j + i)); [|lia].
    rewrite Z.bits_above_log2 in T by lia. done.
  - intros Hl. assert (Z.log2 s < 32) by (apply Z.log2_lt_pow2; lia).
    exists (Z.log2 s - j). split; [lia|].
    replace (j + (Z.log2 s - j)) with (Z.log2 s) by lia. apply Z.bit_log2. lia.
Qed.

Lemma bucketsNum_pow2 size : 0 <= size < 4294967296 ->
  bucketsNum size = if size <? 2 then 1 else 2 ^ Z.log2 size.
Proof.
  intros Hs. destruct (Z.ltb_spec size 2).
  - assert (size = 0 \/ size = 1) as [-> | ->] by lia; reflexivity.
  - unfold bucketsNum. rewrite Z.shiftr_div_pow2, Z.pow_1_r by lia. set (s := size / 2).
    assert (0 < s < 2 ^ 31) as Hs' by (unfold s; lia).
    assert (smeared 1 s s) as S1.
    { split; [lia|]. intros j Hj. split; [intros T; exists 0; rewrite Z.add_0_r; auto with lia|].
      intros (i & Hi & T). assert (i = 0) as -> by lia. now rewrite Z.add_0_r in T. }
    apply smear_step in S1; [|lia]. change (2 * 1) with 2 in S1.
    apply smear_step in S1; [|lia]. change (2 * 2) with 4 in S1.
    apply smear_step in S1; [|lia]. change (2 * 4) with 8 in S1.
    apply smear_step in S1; [|lia]. change (2 * 8) with 16 in S1.
    apply smear_step in S1; [|lia]. change (2 * 16) with 32 in S1.
    apply smeared_all in S1; [|lia].
    rewrite S1, Z.ones_equiv.
    assert (Z.log2 size = Z.log2 s + 1) as ->.
    { assert (1 <= Z.log2 size) by (apply Z.log2_le_pow2; lia).
      assert (Z.log2 s = Z.pred (Z.log2 size)); [|lia].
      unfold s. rewrite <- Z.div2_div. rewrite Z.div2_spec, Z.log2_shiftr by lia. lia. }
    assert (Z.log2 s < 31) by (apply Z.log2_lt_pow2; lia). pose proof (Z.log2_nonneg s).
    assert (0 < 2 ^ (Z.log2 s + 1) <= 2 ^ 31)
      by (split; [apply Z.pow_pos_nonneg; lia|apply Z.pow_le_mono_r; lia]).
    rewrite u32_small; lia.
Qed.

(** A created map is empty and well formed. *)
Lemma rep_empty h k : 0 <= k <= 31 ->
  rep h (mkHmap (replicate (Z.to_nat (2 ^ k)) None) (u32 (2 ^ k - 1)) 0)
    (replicate (Z.to_nat (2 ^ k)) []).
Proof.
  intros Hk. assert (0 < 2 ^ k <= 2 ^ 31)
      by (split; [apply Z.pow_pos_nonneg; lia|apply Z.pow_le_mono_r; lia]).
  rewrite u32_small by lia.
  assert (forall n, concat (replicate n (@nil addr)) = []) as En by (induction n0; auto).
  constructor; cbn [buckets mask n]; rewrite ?En.
  - eauto.
  - rewrite length_replicate. lia.
  - apply Forall2_replicate. done.
  - constructor.
  - intros i l q c Hi Hq. apply lookup_replicate in Hi as [-> _]. now apply elem_of_nil in Hq.
  - reflexivity.
Qed.

(** ** Traversal *)

Lemma first_bucket_spec h m cs : rep h m cs -> forall fuel i, 0 <= i ->
  Z.of_nat (length cs) <= i + Z.of_nat fuel ->
  first_bucket fuel m i = Some (head (concat (drop (Z.to_nat i) cs))).
Proof.
  intros R. assert (HMAP_BUCKETS_COUNT m = Z.of_nat (length cs)) as Ec.
  { eapply (hash_bucket m cs 0); [apply R|apply R|lia]. }
  induction fuel as [|fuel IH]; intros i Hi Hf; cbn [first_bucket]; rewrite Ec; zcases.
  - rewrite drop_ge by lia. done.
  - assert (0 <= i < Z.of_nat (length cs)) as Hi' by lia.
    destruct (rep_bucket _ _ _ _ R Hi') as (b & l' & Hb & Hl & Hc & _).
    rewrite Hb. cbn [mbind option_bind]. rewrite (drop_S _ _ _ Hl). cbn [concat].
    destruct b as [p|], l' as [|x l']; cbn in Hc; try done.
    + destruct Hc as [[= ->] _]. done.
    + rewrite IH by lia. replace (Z.to_nat (i + 1)) with (S (Z.to_nat i)) by lia. done.
    + destruct Hc as [? _]. done.
  - rewrite drop_ge by lia. done.
Qed.

Lemma rep_count h m cs : rep h m cs -> HMAP_BUCKETS_COUNT m = Z.of_nat (length cs).
Proof. intros R. eapply (hash_bucket m cs 0); [apply R|apply R|lia]. Qed.

Lemma nodeFirst_spec h m cs : rep h m cs -> hmap_nodeFirst m = Some (head (concat cs)).
Proof.
  intros R. unfold hmap_nodeFirst. rewrite (first_bucket_spec h m cs R); [done|lia|].
  unfold bkt_fuel. rewrite (rep_count _ _ _ R). lia.
Qed.

Lemma split_nodup (a b a' b' : list addr) p : NoDup (a ++ p :: b) -> a ++ p :: b = a' ++ p :: b' ->
  a = a' /\ b = b'.
Proof.
  revert a'. induction a as [|x a IH]; intros [|x' a'] Nd E; cbn in *.
  - injection E as ->. done.
  - injection E as <- ->. apply NoDup_cons in Nd as [Nd _]. set_solver.
  - injection E as -> <-. apply NoDup_cons in Nd as [Nd _]. set_solver.
  - injection E as <- E. apply NoDup_cons in Nd as [_ Nd]. destruct (IH a' Nd E) as [-> ->]. done.
Qed.

Lemma nodeNext_spec h m cs p l1 l2 : rep h m cs -> concat cs = l1 ++ p :: l2 ->
  hmap_nodeNext h m p = Some (head l2).
Proof.
  intros R E. assert (p ∈ concat cs) as Hin by (rewrite E; set_solver).
  destruct (rep_in _ _ _ _ R Hin) as [c Hp].
  destruct (rep_in_bucket _ _ _ _ _ R Hin Hp) as (l & Hl & Hpl).
  destruct (list_elem_of_split _ _ Hpl) as (u & w & ->).
  destruct (Forall2_lookup_r _ _ _ _ _ (rep_chains _ _ _ R) Hl) as (b & Hb & Hc).
  destruct (chain_app _ _ _ _ _ Hc) as (c' & Hp' & Hw). assert (c' = c) as -> by congruence.
  assert (0 <= bucketWithHash m (c_hash c)) as Hge.
  { unfold bucketWithHash. rewrite (rep_hash _ _ _ R _ _ _ _ Hl Hpl Hp). lia. }
  pose proof (rep_nodup _ _ _ R) as Nd.
  assert (l2 = w ++ concat (drop (S (Z.to_nat (bucketWithHash m (c_hash c)))) cs)) as ->.
  { rewrite <- (take_drop_middle _ _ _ Hl) in E, Nd.
    rewrite concat_app in E, Nd. cbn [concat] in E, Nd. rewrite <- app_assoc in E, Nd.
    cbn [app] in E, Nd. rewrite app_assoc in E, Nd.
    destruct (split_nodup _ _ _ _ _ Nd E) as [_ <-]. done. }
  unfold hmap_nodeNext. rewrite Hp. cbn [mbind option_bind].
  destruct w as [|x w]; cbn in Hw.
  - rewrite Hw. rewrite (first_bucket_spec h m cs R) by (unfold bkt_fuel; rewrite ?(rep_count _ _ _ R); lia).
    replace (Z.to_nat (bucketWithHash m (c_hash c) + 1))
      with (S (Z.to_nat (bucketWithHash m (c_hash c)))) by lia. done.
  - destruct Hw as [-> _]. done.
Qed.

Lemma remove_concat (cs : list (list addr)) i p u w : cs !! i = Some (u ++ p :: w) ->
  exists a b, concat cs = a ++ p :: b /\ concat (<[i := u ++ w]> cs) = a ++ b.
Proof.
  intros Hi. destruct (concat_insert cs i (u ++ p :: w) (u ++ w) Hi) as (x & y & E1 & E2 & _).
  exists (concat x ++ u), (w ++ concat y). rewrite E2. rewrite E1.
  rewrite !concat_app. cbn [concat]. rewrite <- !app_assoc. done.
Qed.

Lemma rep_size h m cs : rep h m cs -> (length (concat cs) <= size h)%nat.
Proof.
  intros R. rewrite <- (size_dom (D := gset addr) h).
  rewrite <- (size_list_to_set (C := gset addr) (concat cs)) by apply R.
  apply subseteq_size. intros q Hq. apply elem_of_list_to_set in Hq.
  apply elem_of_dom. destruct (rep_in _ _ _ _ R Hq) as [c Hc]. now exists c.
Qed.

(** A traversal whose body keeps the map visits the nodes in order: the loop
    is the fold of its body. *)
Fixpoint fold_body {Res S} (body : addr -> S -> St (Res + S)) l (s : S) : St (Res + S) :=
  match l with
  | [] => mret (inr s)
  | p :: l' => r ← body p s;
      match r with inl r => mret (inl r) | inr s' => fold_body body l' s' end
  end.

Lemma traverse_from_fold {Res S} (hm : S -> option (heap V * hmap))
    (body : addr -> S -> St (Res + S)) (h : heap V) m cs l :
  (forall p s e s' e', hm s = Some (h, m) -> body p s e = Some (inr s', e') -> hm s' = Some (h, m)) ->
  rep h m cs -> forall l0 fuel s e, hm s = Some (h, m) -> concat cs = l0 ++ l ->
  (length l <= fuel)%nat ->
  traverse_from hm body fuel (head l) s e = fold_body body l s e.
Proof.
  intros Hb R. induction l as [|p l IH]; intros l0 fuel s e Es Ec Hf.
  - destruct fuel; reflexivity.
  - cbn in Hf. destruct fuel as [|fuel]; [lia|]. cbn [head traverse_from fold_body].
    rewrite !run_bind. rewrite Es. cbn [mbind option_bind].
    rewrite (nodeNext_spec _ _ _ _ _ _ R Ec). unfold lift at 1. rewrite !run_bind.
    destruct (body p s e) as [[[r|s'] e']|] eqn:E; [done| |done].
    apply (IH (l0 ++ [p])); [eapply Hb; eauto|rewrite <- app_assoc; exact Ec|lia].
Qed.

Lemma traverse_fold {Res S} (hm : S -> option (heap V * hmap))
    (body : addr -> S -> St (Res + S)) (s : S) (h : heap V) m cs e :
  hm s = Some (h, m) ->
  (forall p s e s' e', hm s = Some (h, m) -> body p s e = Some (inr s', e') -> hm s' = Some (h, m)) ->
  rep h m cs ->
  HMAP_NODES_IN_STRUCT_TRAVERSE hm body s e = fold_body body (concat cs) s e.
Proof.
  intros Es Hb R. unfold HMAP_NODES_IN_STRUCT_TRAVERSE. rewrite run_bind, Es. unfold lift at 1.
  rewrite run_bind, (nodeFirst_spec _ _ _ R). unfold lift at 1.
  apply (traverse_from_fold hm body h m cs (concat cs) Hb R []); auto.
  pose proof (rep_size _ _ _ R). unfold chain_fuel. lia.
Qed.

(** The general rule: an invariant indexed by the nodes already visited, under
    which the links stay as they are; [Q] holds if the body leaves early. *)
Lemma traverse_from_invariant {Res S} (hm : S -> option (heap V * hmap)) (body : addr -> S -> St (Res + S))
    (Inv : list addr -> S -> env -> Prop) (Q : Res -> env -> Prop) cs :
  (forall done s e, Inv done s e -> exists h m, hm s = Some (h, m) /\ rep h m cs) ->
  (forall done p rest s e, concat cs = done ++ p :: rest -> Inv done s e ->
     (exists s' e', body p s e = Some (inr s', e') /\ Inv (done ++ [p]) s' e') \/
     (exists r e', body p s e = Some (inl r, e') /\ Q r e')) ->
  forall rest fuel done s e, Inv done s e -> concat cs = done ++ rest -> (length rest <= fuel)%nat ->
  (exists s' e', traverse_from hm body fuel (head rest) s e = Some (inr s', e') /\ Inv (concat cs) s' e') \/
  (exists r e', traverse_from hm body fuel (head rest) s e = Some (inl r, e') /\ Q r e').
Proof.
  intros Hr Hb. induction rest as [|p rest IH]; intros fuel done s e Hi Ec Hf.
  - left. exists s, e. rewrite app_nil_r in Ec. rewrite Ec. destruct fuel; auto.
  - destruct fuel as [|fuel]; [cbn in Hf; lia|]. cbn [head traverse_from].
    destruct (Hr _ _ _ Hi) as (h1 & m1 & Es & R). rewrite run_bind, Es. cbn [mbind option_bind].
    rewrite (nodeNext_spec _ _ _ p done rest R Ec). cbn [lift]. rewrite run_bind.
    destruct (Hb done p rest s e Ec Hi) as [(s' & e' & -> & Hi')|(r & e' & -> & Hq)].
    + apply (IH fuel (done ++ [p])); [exact Hi'|rewrite <- app_assoc; exact Ec|cbn in Hf; lia].
    + right. exists r, e'. auto.
Qed.

Lemma traverse_invariant {Res S} (hm : S -> option (heap V * hmap)) (body : addr -> S -> St (Res + S))
    (Inv : list addr -> S -> env -> Prop) (Q : Res -> env -> Prop) cs :
  (forall done s e, Inv done s e -> exists h m, hm s = Some (h, m) /\ rep h m cs) ->
  (forall done p rest s e, concat cs = done ++ p :: rest -> Inv done s e ->
     (exists s' e', body p s e = Some (inr s', e') /\ Inv (done ++ [p]) s' e') \/
     (exists r e', body p s e = Some (inl r, e') /\ Q r e')) ->
  forall s e, Inv [] s e ->
  (exists s' e', HMAP_NODES_IN_STRUCT_TRAVERSE hm body s e = Some (inr s', e') /\ Inv (concat cs) s' e') \/
  (exists r e', HMAP_NODES_IN_STRUCT_TRAVERSE hm body s e = Some (inl r, e') /\ Q r e').
Proof.
  intros Hr Hb s e Hi. destruct (Hr _ _ _ Hi) as (h & m & Es & R).
  assert (HMAP_NODES_IN_STRUCT_TRAVERSE hm body s e = traverse_from hm body (chain_fuel h) (head (concat cs)) s e) as ->.
  { unfold HMAP_NODES_IN_STRUCT_TRAVERSE. rewrite run_bind, Es. cbn [lift].
    now rewrite run_bind, (nodeFirst_spec _ _ _ R). }
  apply (traverse_from_invariant hm body Inv Q cs Hr Hb (concat cs) (chain_fuel h) []); auto.
  pose proof (rep_size _ _ _ R). unfold chain_fuel. lia.
Qed.

(** A traversal whose body unlinks the node it is given visits the nodes in
    order and leaves an empty map. *)
Lemma traverse_deletes {Res S} (hm : S -> option (heap V * hmap)) (body : addr -> S -> St (Res + S))
    (Inv : S -> list (list addr) -> Prop) e :
  (forall s cs, Inv s cs -> exists h m, hm s = Some (h, m) /\ rep h m cs) ->
  (forall s cs p l, Inv s cs -> concat cs = p :: l ->
     exists s' cs', body p s e = Some (inr s', e) /\ Inv s' cs' /\ concat cs' = l) ->
  forall s cs, Inv s cs ->
  exists s' cs', HMAP_NODES_IN_STRUCT_TRAVERSE hm body s e = Some (inr s', e) /\ Inv s' cs' /\ concat cs' = [].
Proof.
  intros Hr Hb s cs Hi. destruct (Hr s cs Hi) as (h & m & Es & R).
  unfold HMAP_NODES_IN_STRUCT_TRAVERSE. rewrite run_bind, Es. unfold lift at 1.
  rewrite run_bind, (nodeFirst_spec _ _ _ R). unfold lift at 1.
  assert (length (concat cs) <= chain_fuel h)%nat as Hf
    by (pose proof (rep_size _ _ _ R); unfold chain_fuel; lia).
  clear Es R. revert Hf. generalize (chain_fuel h) as fuel. intros fuel. revert s cs Hi.
  induction fuel as [|fuel IH]; intros s cs Hi Hf;
    destruct (concat cs) as [|p l] eqn:Ec; cbn [length] in Hf; try lia; cbn [head traverse_from].
  1, 2: exists s, cs; auto.
  destruct (Hr s cs Hi) as (h1 & m1 & Es & R).
  destruct (Hb s cs p l Hi Ec) as (s' & cs' & Eb & Hi' & Ec').
  rewrite run_bind, Es. cbn [mbind option_bind]. rewrite (nodeNext_spec _ _ _ p [] l R Ec). unfold lift at 1.
  rewrite run_bind, Eb. cbv beta iota. rewrite <- Ec'. apply (IH s' cs' Hi'). rewrite Ec'. lia.
Qed.
(** The rule for a body that may unlink the node it is given: the invariant is
    indexed by the nodes still to come, which the map still holds at its end. *)
Lemma traverse_rest {Res S} (hm : S -> option (heap V * hmap)) (body : addr -> S -> St (Res + S))
    (Inv : list addr -> S -> env -> Prop) (Q : Res -> env -> Prop) :
  (forall rest s e, Inv rest s e -> exists h m cs done, hm s = Some (h, m) /\ rep h m cs /\ concat cs = done ++ rest) ->
  (forall p rest s e, Inv (p :: rest) s e ->
     exists r e', body p s e = Some (r, e') /\ match r with inl r => Q r e' | inr s' => Inv rest s' e' end) ->
  forall h m cs s e, hm s = Some (h, m) -> rep h m cs -> Inv (concat cs) s e ->
  exists r e', HMAP_NODES_IN_STRUCT_TRAVERSE hm body s e = Some (r, e') /\
    match r with inl r => Q r e' | inr s' => Inv [] s' e' end.
Proof.
  intros Hr Hb h m cs s e Es R Hi. unfold HMAP_NODES_IN_STRUCT_TRAVERSE. rewrite run_bind, Es. unfold lift at 1.
  rewrite run_bind, (nodeFirst_spec _ _ _ R). unfold lift at 1.
  assert (length (concat cs) <= chain_fuel h)%nat as Hf
    by (pose proof (rep_size _ _ _ R); unfold chain_fuel; lia).
  revert Hf Hi. generalize (chain_fuel h) as fuel. generalize (concat cs) as rest. clear Es R. intros rest.
  revert s e. induction rest as [|p rest IH]; intros s e fuel Hf Hi.
  - exists (inr s), e. split; [now destruct fuel|exact Hi].
  - cbn in Hf. destruct fuel as [|fuel]; [lia|]. destruct (Hr _ _ _ Hi) as (h1 & m1 & cs1 & l & Es & R & Ec).
    cbn [head traverse_from]. rewrite run_bind, Es. cbn [mbind option_bind].
    rewrite (nodeNext_spec _ _ _ _ _ _ R Ec). unfold lift at 1.
    destruct (Hb _ _ _ _ Hi) as (r & e' & E & Hr'). rewrite run_bind, E. destruct r as [r|s'].
    + exists (inl r), e'. auto.
    + apply IH; [lia|exact Hr'].
Qed.
End traversal.

(** Without allocation failure, creation gives an empty map. *)
Lemma hmap_create_quiet {V} (h : heap V) size e : 0 <= size < 4294967296 -> mallocs e = [] ->
  exists m cs, hmap_create size e = Some (Some m, e) /\ rep h m cs /\ concat cs = [].
Proof.
  intros Hs Q. set (N := if size <? 2 then 1 else 2 ^ Z.log2 size).
  assert (exists k, 0 <= k <= 31 /\ N = 2 ^ k) as (k & Hk & Ek).
  { unfold N. zcases; [now exists 0|]. exists (Z.log2 size). split; [|done].
    pose proof (Z.log2_nonneg size). assert (Z.log2 size < 32) by (apply Z.log2_lt_pow2; lia). lia. }
  pose proof (rep_empty h k Hk) as R. rewrite <- Ek in R.
  eexists _, _. split; [|split; [exact R|]].
  - unfold hmap_create, hmapInit. rewrite (bucketsNum_pow2 size Hs). fold N.
    st_unfold. unfold malloc. rewrite Q. cbn [negb]. rewrite Q. reflexivity.
  - clear. induction (Z.to_nat N) as [|j IH]; cbn; auto.
Qed.

(** ** Properties *)

Section properties.
Context {V : Type}.
Implicit Types (h : heap V) (m : hmap) (p q : addr).

(** C38. Insertion: a node that is not yet in the map is linked at the head of
    its bucket; the map stays well formed with that one node added, looking
    its hash up finds it, and no structure changes its hash or contents. *)
Theorem hmap_insert_lookup h m cs p c :
  rep h m cs -> h !! p = Some c -> 0 <= c_hash c -> p ∉ concat cs ->
  exists h' m' cs', hmap_nodeInsert h m p = Some (h', m') /\ rep h' m' cs' /\
    concat cs' ≡ₚ p :: concat cs /\ same_cells h h' /\
    hmap_nodeGetWithHash h' m' (c_hash c) = Some (Some p).
Proof.
  intros R Hp Hh Hn. destruct (nodeInsert_spec h m cs p c R Hp Hh Hn) as (b & m' & l & Hl & E & R' & Em & Pm).
  eexists _, _, _. split; [exact E|]. split; [exact R'|]. split; [exact Pm|].
  split; [now apply same_cells_relink|].
  destruct (rep_hash_bucket _ _ _ _ R' Hh) as (b' & l' & Hb & Hl' & Hc & _ & Lf).
  unfold bucketWithHash in Hl, Hl'. rewrite Em in Hl'.
  rewrite list_lookup_insert_eq in Hl' by (now apply lookup_lt_Some in Hl). injection Hl' as <-.
  unfold hmap_nodeGetWithHash. rewrite Hb. cbn [mbind option_bind].
  rewrite (traverse_list _ _ _ _ _ _ Hc Lf). cbn [list_traverse].
  rewrite lookup_insert_eq. cbn [mbind option_bind c_hash]. now rewrite Z.eqb_refl.
Qed.

(** [hmap_nodeContain] tells exactly the nodes of the map. *)
Lemma contain_ok h m cs p c : rep h m cs -> h !! p = Some c -> 0 <= c_hash c ->
  hmap_nodeContain h m p = Some (bool_decide (p ∈ concat cs)).
Proof.
  intros R Hp Hh. destruct (nodeContain_spec h m cs p c R Hp Hh) as (r & E & Hr). rewrite E. f_equal.
  case_bool_decide as Hin; [now apply Hr|]. destruct r; [|done]. destruct Hin. now apply Hr.
Qed.

(** C39. Deletion: a node of the map is unlinked, the other nodes keep their
    places, and no structure changes its hash or contents; deleting a node that
    is not in the map changes nothing.  [hmap_nodeContain] tells which of the two
    it was: true of the nodes of the map and of no other, before and after. *)
Theorem hmap_delete_unlinks h m cs p c :
  rep h m cs -> h !! p = Some c -> 0 <= c_hash c ->
  hmap_nodeContain h m p = Some (bool_decide (p ∈ concat cs)) /\
  if decide (p ∈ concat cs) then
    exists h' m' cs' l1 l2, hmap_nodeDelete h m p = Some (h', m') /\ rep h' m' cs' /\
      concat cs = l1 ++ p :: l2 /\ concat cs' = l1 ++ l2 /\ same_cells h h' /\
      hmap_nodeContain h' m' p = Some false /\
      forall q d, q <> p -> h !! q = Some d -> 0 <= c_hash d ->
        hmap_nodeContain h' m' q = Some (bool_decide (q ∈ concat cs))
  else hmap_nodeDelete h m p = Some (h, m).
Proof.
  intros R Hp Hh. split; [eapply contain_ok; eauto|].
  case_decide as Hin; [|now apply nodeDelete_absent with (cs := cs) (c := c)].
  destruct (nodeDelete_spec h m cs p R Hin) as (h' & m' & i & u & w & Hi & E & R' & Sc & Em & Pm).
  destruct (remove_concat cs i p u w Hi) as (a & b & E1 & E2).
  assert (forall q d, h !! q = Some d -> 0 <= c_hash d ->
    hmap_nodeContain h' m' q = Some (bool_decide (q ∈ concat (<[i := u ++ w]> cs)))) as Hc.
  { intros q d Hq Hd. pose proof (Sc q) as Sq. rewrite Hq in Sq. destruct (h' !! q) as [d'|] eqn:Hq'; [|done].
    eapply contain_ok; [exact R'|exact Hq'|]. destruct Sq as [Sh _]. now rewrite <- Sh. }
  exists h', m', (<[i := u ++ w]> cs), a, b. do 5 (split; [done|]). split.
  - rewrite (Hc p c Hp Hh), bool_decide_eq_false_2; [done|].
    pose proof (rep_nodup _ _ _ R) as Nd. rewrite Pm in Nd. now apply NoDup_cons in Nd as [Nd _].
  - intros q d Hne Hq Hd. rewrite (Hc q d Hq Hd). f_equal. apply bool_decide_ext.
    rewrite E1, E2, !elem_of_app, elem_of_cons. naive_solver.
Qed.

(** Traversal: the macro, with a body that records the node it is given,
    visits every node of the map exactly once, bucket by bucket. *)
Theorem hmap_traverse_visits h m cs e :
  rep h m cs ->
  exists visited, HMAP_NODES_IN_STRUCT_TRAVERSE (R := Empty_set) (fun _ => Some (h, m))
      (fun p (seen : list addr) => mret (inr (seen ++ [p]))) [] e = Some (inr visited, e) /\
    NoDup visited /\ (forall p, p ∈ visited <-> p ∈ concat cs).
Proof.
  intros R. exists (concat cs). split; [|split; [apply R|done]].
  rewrite traverse_fold with (h := h) (m := m) (cs := cs); [|done|done|exact R].
  assert (forall l acc, fold_body (Res := Empty_set)
    (fun p (seen : list addr) => mret (inr (seen ++ [p]))) l acc e = Some (inr (acc ++ l), e)) as F.
  { induction l as [|x l IH]; intros acc; cbn [fold_body]; [now rewrite app_nil_r|].
    rewrite run_bind. unfold mret at 1, St_ret. cbv beta iota. rewrite IH.
    now rewrite <- app_assoc. }
  now rewrite F.
Qed.
End properties.

(** Creation: [hmap_create] gives an empty well-formed map whose bucket
    count is the largest power of two not above the requested size (one bucket
    for sizes 0 and 1), or [NULL] with the allocation failure recorded. *)
Theorem hmap_create_empty (V : Type) (h : heap V) size e : 0 <= size < 4294967296 ->
  let N := if size <? 2 then 1 else 2 ^ Z.log2 size in
  match hmap_create size e with
  | Some (Some m, e') => Z.of_nat (length (buckets m)) = N /\
      rep h m (replicate (Z.to_nat N) []) /\ hmap_empty m = true
  | Some (None, e') => false ∈ mallocs e /\
      g_pofec_error e' = (POFET_SOFTWARE_FAILED, POF_ALLOCATE_RESOURCE_FAILURE)
  | None => False
  end.
Proof.
  intros Hs N. assert (exists k, 0 <= k <= 31 /\ N = 2 ^ k) as (k & Hk & Ek).
  { unfold N. zcases; [now exists 0|]. exists (Z.log2 size). split; [|done].
    pose proof (Z.log2_nonneg size). assert (Z.log2 size < 32) by (apply Z.log2_lt_pow2; lia). lia. }
  pose proof (rep_empty h k Hk) as R. rewrite <- Ek in R.
  assert (0 < N) by (rewrite Ek; apply Z.pow_pos_nonneg; lia).
  unfold hmap_create, hmapInit. rewrite (bucketsNum_pow2 size Hs). fold N.
  st_unfold. unfold malloc.
  destruct (mallocs e) as [|[] [|[] l]] eqn:Em; cbn [negb mallocs set_mallocs]; rewrite ?Em.
  all: cbn [negb g_pofec_error set_error]; try (split; [|split; [exact R|reflexivity]];
    cbn [buckets]; rewrite length_replicate; lia).
  all: split; [set_solver|reflexivity].
Qed.

(** [hmap_nodeGetWithHashNext] dereferences [NULL] when no node of the
    chain has the hash, instead of returning it. *)
Theorem hmap_get_next_null_deref (V : Type) (h : heap V) p l hash : chain h p l ->
  (forall q c, q ∈ l -> h !! q = Some c -> c_hash c <> hash) ->
  hmap_nodeGetWithHashNext h p hash = None.
Proof.
  intros Hc Hn. unfold hmap_nodeGetWithHashNext. generalize (chain_fuel h) as fuel.
  revert p Hc. induction l as [|q l IH]; intros p Hc fuel.
  - cbn in Hc. subst p. now destruct fuel.
  - destruct Hc as (-> & c & Hq & Hc).
    assert (c_hash c <> hash) as Hd by (eapply Hn; [left|done]). apply Z.eqb_neq in Hd.
    destruct fuel as [|fuel]; cbn [next_with_hash mbind option_bind]; rewrite Hq;
      cbn [mbind option_bind]; rewrite Hd; [done|].
    apply IH; [|done]. intros. eapply Hn; [right|]; eauto.
Qed.

(** ** Witnesses *)

Lemma rep_single {V} p hash (v : V) : 
  rep {[p := Cell hash None v]} (mkHmap [Some p] 0 1) [[p]].
Proof.
  constructor; cbn [buckets mask n concat app length].
  - now exists 0.
  - done.
  - constructor; [|constructor]. split; [done|]. exists (Cell hash None v).
    now rewrite lookup_singleton_eq.
  - apply NoDup_singleton.
  - intros [|[|i]] l q c Hi Hq Hc; [|done..]. now rewrite Z.land_0_l.
  - reflexivity.
Qed.

Lemma hmap_insert_lookup_witness :
  exists h' m', hmap_nodeInsert {[1%positive := Cell 5 None tt]} (mkHmap [None; None] 1 0) 1%positive
    = Some (h', m') /\ hmap_nodeGetWithHash h' m' 5 = Some (Some 1%positive).
Proof.
  destruct (hmap_insert_lookup {[1%positive := Cell 5 None tt]} (mkHmap [None; None] 1 0) [[]; []]
    1%positive (Cell 5 None tt)) as (h' & m' & cs' & E & _ & _ & _ & G).
  - exact (rep_empty _ 1 ltac:(lia)).
  - reflexivity.
  - cbn. lia.
  - by_decide.
  - exists h', m'. split; [exact E|exact G].
Defined.

Lemma hmap_delete_unlinks_witness :
  exists h' m', hmap_nodeDelete {[1%positive := Cell 5 None tt]} (mkHmap [Some 1%positive] 0 1) 1%positive
    = Some (h', m') /\ hmap_nodeContain h' m' 1%positive = Some false.
Proof.
  pose proof (hmap_delete_unlinks {[1%positive := Cell 5 None tt]} (mkHmap [Some 1%positive] 0 1)
    [[1%positive]] 1%positive (Cell 5 None tt) (rep_single _ _ _) eq_refl ltac:(cbn; lia)) as H.
  destruct H as (_ & h' & m' & cs' & l1 & l2 & E & _ & _ & _ & _ & G & _).
  exists h', m'. split; [exact E|exact G].
Defined.

Lemma hmap_traverse_visits_witness :
  exists v, HMAP_NODES_IN_STRUCT_TRAVERSE (R := Empty_set)
    (fun _ => Some ({[1%positive := Cell 5 None tt]}, mkHmap [Some 1%positive] 0 1))
    (fun p (seen : list addr) => mret (inr (seen ++ [p]))) [] (env_init POFCS_HELLO [] [])
    = Some (inr v, env_init POFCS_HELLO [] []) /\ NoDup v.
Proof.
  destruct (hmap_traverse_visits {[1%positive := Cell 5 None tt]} (mkHmap [Some 1%positive] 0 1)
    [[1%positive]] (env_init POFCS_HELLO [] []) (rep_single _ _ _)) as (v & E & N & _).
  exists v. split; [exact E|exact N].
Defined.

Lemma hmap_create_empty_witness :
  0 <= 512 < 4294967296 /\
  match hmap_create 512 (env_init POFCS_HELLO [] []) with
  | Some (Some m, _) => Z.of_nat (length (buckets m)) = 512
  | _ => False
  end.
Proof.
  split; [lia|]. pose proof (hmap_create_empty unit ∅ 512 (env_init POFCS_HELLO [] []) ltac:(lia)) as H.
  exact (proj1 H).
Defined.

Lemma hmap_get_next_null_deref_witness :
  hmap_nodeGetWithHashNext {[1%positive := Cell 5 None tt]} (Some 1%positive) 6 = None.
Proof.
  apply (hmap_get_next_null_deref unit _ _ [1%positive]).
  - split; [done|]. exists (Cell 5 None tt). split; reflexivity.
  - intros q c Hq. apply list_elem_of_singleton in Hq. subst q. intros Hc. vm_compute in Hc.
    injection Hc as <-. discriminate.
Defined.
