(* ===== verification/IdMap.v ===== *)
(** * Resources indexed by id

    Counters, meters, groups and flow tables are all kept the same way
    (local_resource/pof_counter.c, pof_meter.c, pof_group.c, pof_flow_table.c):
    structures allocated one by one, linked in a hash map under the hash
    [hmap_hashForLinear(id) = id], and counted.  [resource] is that part of
    [struct pof_local_resource] for one kind of structure.  The interface the
    components are proved against is [res_ok] (the map is well formed, exactly
    the live structures are linked, ids are unique, the count is right) and the
    finite map [contents]. *)

From S2P Require Import Prelude Env Hmap.

Record resource (V : Type) := Res {
  r_heap : heap V;            (* the live structures *)
  r_map : option hmap;        (* lr->xMap, NULL before initialisation *)
  r_num : Z;                  (* lr->xNum *)
  r_max : Z                   (* lr->xNumMax *)
}.
Arguments Res {V} _ _ _ _.
Arguments r_heap {V} _.
Arguments r_map {V} _.
Arguments r_num {V} _.
Arguments r_max {V} _.

(** What a structure kept in a resource provides: its id, its all-zero value,
    and the width of the member that counts it. *)
Class Resource (V : Type) := {
  res_id : V -> Z;
  res_zero : V;
  res_wrap : Z -> Z;
  res_wrap_wrap : forall x y, res_wrap (res_wrap x + y) = res_wrap (x + y)
}.

(** The state of a loop whose body never leaves early. *)
Definition loop_end {A} (r : Empty_set + A) : A :=
  match r with inl x => match x : Empty_set with end | inr a => a end.

Section ops.
Context {V : Type}.
Implicit Types (r : resource V) (p : addr).

Definition with_heap r h : resource V := Res h (r_map r) (r_num r) (r_max r).

(** An address not in use. *)
Definition fresh_addr (h : heap V) : addr := Pos.succ (foldr Pos.max 1%positive (map_to_list h).*1).

(** [map_xCreate]: allocate and zero a structure; [NULL] on failure. *)
Definition res_create (zero : V) r : St (option addr * resource V) :=
  ok ← malloc;
  if negb ok then
    _ ← pofec_set_error POFET_SOFTWARE_FAILED POF_ALLOCATE_RESOURCE_FAILURE; mret (None, r)
  else
    let p := fresh_addr (r_heap r) in
    mret (Some p, with_heap r (<[p := Cell 0 None zero]> (r_heap r))).

(** [map_xInsert]. *)
Definition res_insert (wrap : Z -> Z) p r : option (resource V) :=
  m ← r_map r;
  '(h', m') ← hmap_nodeInsert (r_heap r) m p;
  Some (Res h' (Some m') (wrap (r_num r + 1)) (r_max r)).

(** [map_xDelete]: unlink, count and free. *)
Definition res_delete (wrap : Z -> Z) p r : option (resource V) :=
  m ← r_map r;
  '(h', m') ← hmap_nodeDelete (r_heap r) m p;
  Some (Res (delete p h') (Some m') (wrap (r_num r - 1)) (r_max r)).

(** Reads and writes through a structure pointer. *)
Definition res_load p r : option V := c ← r_heap r !! p; Some (c_obj c).
Definition res_store p (v : V) r : option (resource V) :=
  c ← r_heap r !! p; Some (with_heap r (<[p := Cell (c_hash c) (c_next c) v]> (r_heap r))).
Definition res_set_hash p (hash : Z) r : option (resource V) :=
  c ← r_heap r !! p; Some (with_heap r (<[p := Cell hash (c_next c) (c_obj c)]> (r_heap r))).

(** [HMAP_STRUCT_GET] by hash. *)
Definition res_get (hash : Z) r : option (option addr) :=
  m ← r_map r; hmap_nodeGetWithHash (r_heap r) m hash.

(** The macro [HMAP_NODES_IN_STRUCT_TRAVERSE] over this resource. *)
Definition res_hm r : option (heap V * hmap) := m ← r_map r; Some (r_heap r, m).

(** The loop of [poflr_empty_x]: delete every structure. *)
Definition res_delete_all (wrap : Z -> Z) r : St (resource V) :=
  res ← HMAP_NODES_IN_STRUCT_TRAVERSE (R := Empty_set) res_hm
    (fun p r => r' ← lift (res_delete wrap p r); mret (inr r')) r;
  mret (loop_end res).

(** [poflr_init_x]: create the map. *)
Definition res_init r : St (Z * resource V) :=
  m ← hmap_create (r_max r);
  let r' := Res (r_heap r) m (r_num r) (r_max r) in
  match m with
  | None => ret ← POF_ERROR_HANDLE_RETURN_NO_UPWARD POFET_SOFTWARE_FAILED POF_ALLOCATE_RESOURCE_FAILURE;
            mret (ret, r')
  | Some _ => mret (POF_OK, r')
  end.
End ops.

(** ** The interface *)

Section interface.
Context {V : Type} `{Resource V}.
Implicit Types (r : resource V) (p : addr) (v : V) (k : Z).

Record res_repr r m cs : Prop := {
  rr_map : r_map r = Some m;
  rr_rep : rep (r_heap r) m cs;
  rr_live : forall p, is_Some (r_heap r !! p) -> p ∈ concat cs;
  rr_hash : forall p c, r_heap r !! p = Some c -> c_hash c = res_id (c_obj c) /\ 0 <= c_hash c;
  rr_uniq : forall p q c d, r_heap r !! p = Some c -> r_heap r !! q = Some d ->
    res_id (c_obj c) = res_id (c_obj d) -> p = q;
  rr_num : r_num r = res_wrap (Z.of_nat (size (r_heap r)))
}.

Definition res_ok r : Prop := exists m cs, res_repr r m cs.

(** The resource as a finite map from ids. *)
Definition contents r : gmap Z V :=
  list_to_map ((fun pc => (res_id (c_obj pc.2), c_obj pc.2)) <$> map_to_list (r_heap r)).

Lemma contents_lookup r k v : res_ok r ->
  contents r !! k = Some v <-> exists p c, r_heap r !! p = Some c /\ res_id (c_obj c) = k /\ c_obj c = v.
Proof.
  intros (m & cs & R). unfold contents. rewrite <- elem_of_list_to_map.
  - rewrite list_elem_of_fmap. split.
    + intros ([p c] & [= -> ->] & Hp%elem_of_map_to_list). eauto.
    + intros (p & c & Hp & <- & <-). exists (p, c). split; [done|]. now apply elem_of_map_to_list.
  - rewrite <- list_fmap_compose. apply NoDup_fmap_2_strong; [|apply NoDup_map_to_list].
    intros [p c] [q d] Hp%elem_of_map_to_list Hq%elem_of_map_to_list E. cbn in E.
    assert (p = q) as -> by (eapply (rr_uniq _ _ _ R); eauto). congruence.
Qed.

(** A characterisation of the contents by its entries determines them. *)
Lemma contents_eq r (a : gmap Z V) : res_ok r ->
  (forall k v, a !! k = Some v <-> exists p c, r_heap r !! p = Some c /\ res_id (c_obj c) = k /\ c_obj c = v) ->
  contents r = a.
Proof.
  intros Ok Ha. apply map_eq. intros k. apply option_eq. intros v.
  now rewrite contents_lookup, Ha.
Qed.

(** *** Lookup *)

Lemma res_get_ok r k : res_ok r -> 0 <= k ->
  exists o, res_get k r = Some o /\
    match o with
    | Some p => exists c, r_heap r !! p = Some c /\ c_hash c = k /\ res_id (c_obj c) = k /\
                          contents r !! k = Some (c_obj c)
    | None => contents r !! k = None
    end.
Proof.
  intros Ok Hk. pose proof Ok as (m & cs & R). unfold res_get. rewrite (rr_map _ _ _ R). cbn [mbind option_bind].
  destruct (nodeGetWithHash_spec _ _ _ k (rr_rep _ _ _ R) Hk) as (o & E & Ho).
  exists o. split; [exact E|]. destruct o as [p|].
  - destruct Ho as (Hp & c & Hc & Hh). destruct (rr_hash _ _ _ R p c Hc) as [Hi _].
    exists c. split; [done|]. split; [done|]. split; [congruence|].
    apply contents_lookup; [done|]. exists p, c. split; [done|]. split; congruence.
  - destruct (contents r !! k) as [v|] eqn:Ec; [|done]. exfalso.
    apply contents_lookup in Ec as (p & c & Hc & Hi & _); [|done].
    destruct (rr_hash _ _ _ R p c Hc) as [Hi' _].
    apply (Ho p c); [eapply rr_live; eauto|done|congruence].
Qed.

(** *** Allocation and insertion *)

Lemma fresh_addr_spec (h : heap V) : h !! fresh_addr h = None.
Proof.
  destruct (h !! fresh_addr h) as [c|] eqn:E; [|done]. exfalso.
  assert (fresh_addr h ∈ (map_to_list h).*1) as Hin.
  { apply list_elem_of_fmap. exists (fresh_addr h, c). split; [done|]. now apply elem_of_map_to_list. }
  assert (forall (l : list positive) q, q ∈ l -> (q <= foldr Pos.max 1 l)%positive) as Hq;
    [|apply Hq in Hin; exact (Pos.lt_irrefl _ (proj1 (Pos.le_succ_l _ _) Hin))].
  clear. induction l as [|x l IH]; intros q; cbn; [now intros ?%elem_of_nil|].
  intros [->|Hq]%elem_of_cons; [apply Pos.le_max_l|]. apply IH in Hq.
  etrans; [exact Hq|apply Pos.le_max_r].
Qed.

(** Linking a fresh structure whose id is not in use. *)
Lemma res_insert_ok r p v : res_ok r -> r_heap r !! p = None -> 0 <= res_id v ->
  contents r !! res_id v = None ->
  exists r', res_insert res_wrap p (with_heap r (<[p := Cell (res_id v) None v]> (r_heap r))) = Some r' /\
    res_ok r' /\ contents r' = <[res_id v := v]> (contents r) /\ r_max r' = r_max r.
Proof.
  intros Ok Hp Hv Hn. pose proof Ok as (m & cs & R).
  pose proof (rep_alloc _ _ _ p (Cell (res_id v) None v) (rr_rep _ _ _ R) Hp) as R1.
  assert (p ∉ concat cs) as Hpc.
  { intros Hin. destruct (rep_in _ _ _ _ (rr_rep _ _ _ R) Hin). congruence. }
  destruct (nodeInsert_spec _ _ _ p (Cell (res_id v) None v) R1 (lookup_insert_eq _ _ _) Hv Hpc)
    as (b & m' & l & Hl & E & R2 & _ & Pm).
  unfold res_insert, with_heap. cbn [r_map r_heap]. rewrite (rr_map _ _ _ R). cbn [mbind option_bind].
  rewrite E. cbn [mbind option_bind]. rewrite insert_insert_eq in R2 |- *. cbn [c_hash c_obj] in *.
  eexists. split; [reflexivity|].
  assert (forall q c, <[p := Cell (res_id v) b v]> (r_heap r) !! q = Some c ->
    q = p /\ c = Cell (res_id v) b v \/ q <> p /\ r_heap r !! q = Some c) as Hcase.
  { intros q c. rewrite lookup_insert. case_decide; [left|right]; split; congruence. }
  assert (forall q c, r_heap r !! q = Some c -> res_id (c_obj c) <> res_id v) as Hfr.
  { intros q c Hq Hi. assert (contents r !! res_id v = Some (c_obj c)); [|congruence].
    apply contents_lookup; eauto. }
  assert (res_repr (Res (<[p := Cell (res_id v) b v]> (r_heap r)) (Some m') (res_wrap (r_num r + 1)) (r_max r))
    m' (<[Z.to_nat (bucketWithHash m (res_id v)) := p :: l]> cs)) as R'.
  { constructor; cbn [r_map r_heap r_num]; auto.
    - intros q [c Hq]. rewrite Pm. apply Hcase in Hq as [[-> _]|[_ Hq]]; [left|right].
      eapply rr_live; eauto.
    - intros q c [[-> ->]|[_ Hq]]%Hcase; [done|]. eapply rr_hash; eauto.
    - intros q q' c c' [[-> ->]|[_ Hq]]%Hcase [[-> ->]|[_ Hq']]%Hcase Hi; cbn in Hi; auto.
      + symmetry in Hi. now apply (Hfr _ _ Hq') in Hi.
      + now apply (Hfr _ _ Hq) in Hi.
      + eapply rr_uniq; eauto.
    - rewrite (rr_num _ _ _ R), map_size_insert_None by done.
      rewrite res_wrap_wrap. f_equal. lia. }
  split; [eexists _, _; exact R'|]. split; [|done].
  apply contents_eq; [eexists _, _; exact R'|]. intros k w. cbn [r_heap]. rewrite lookup_insert. split.
  - case_decide as Hk.
    + intros [= ->]. exists p. eexists. rewrite lookup_insert_eq. eauto.
    + intros (q & c & Hq & Hi & Hw)%contents_lookup; [|done]. exists q, c.
      rewrite lookup_insert_ne by congruence. auto.
  - intros (q & c & [[-> ->]|[_ Hq]]%Hcase & Hi & Hw); cbn in Hi, Hw.
    + rewrite decide_True by done. now f_equal.
    + rewrite decide_False by (intros <-; now apply (Hfr _ _ Hq) in Hi).
      apply contents_lookup; eauto.
Qed.

(** *** Update in place *)

(** Rehashing a linked structure under its own id changes nothing. *)
Lemma res_rehash_ok r p c : res_ok r -> r_heap r !! p = Some c ->
  res_set_hash p (res_id (c_obj c)) r = Some r.
Proof.
  intros (m & cs & R) Hp. unfold res_set_hash. rewrite Hp. cbn [mbind option_bind].
  destruct (rr_hash _ _ _ R p c Hp) as [<- _]. destruct c as [h n v]. cbn [c_hash c_next c_obj].
  unfold with_heap. rewrite insert_id by exact Hp. now destruct r.
Qed.

Lemma res_store_repr r m cs p c v : res_repr r m cs -> r_heap r !! p = Some c -> res_id v = res_id (c_obj c) ->
  exists r', res_store p v r = Some r' /\ res_repr r' m cs /\ r_max r' = r_max r /\
    r_heap r' = <[p := Cell (c_hash c) (c_next c) v]> (r_heap r).
Proof.
  intros R Hp Hi. unfold res_store. rewrite Hp. cbn [mbind option_bind].
  eexists. split; [reflexivity|]. unfold with_heap. split; [|done].
  assert (forall q d, <[p := Cell (c_hash c) (c_next c) v]> (r_heap r) !! q = Some d ->
    exists d0, r_heap r !! q = Some d0 /\ c_hash d = c_hash d0 /\ res_id (c_obj d) = res_id (c_obj d0)) as Hcase.
  { intros q d. rewrite lookup_insert. case_decide as Hq; [|eauto].
    intros [= <-]. subst q. exists c. auto. }
  constructor; cbn [r_map r_heap r_num].
  - apply R.
  - apply rep_store; [apply R|done].
  - intros q [d Hq]. apply Hcase in Hq as (d0 & Hq & _). eapply rr_live; eauto.
  - intros q d (d0 & Hq & -> & ->)%Hcase. eapply rr_hash; eauto.
  - intros q q' d d' (d0 & Hq & _ & E1)%Hcase (d1 & Hq' & _ & E2)%Hcase E.
    eapply rr_uniq; eauto. congruence.
  - rewrite map_size_insert_Some by eauto. apply R.
Qed.

Lemma res_store_ok r p c v : res_ok r -> r_heap r !! p = Some c -> res_id v = res_id (c_obj c) ->
  exists r', res_store p v r = Some r' /\ res_ok r' /\
    contents r' = <[res_id v := v]> (contents r) /\ r_max r' = r_max r /\
    r_heap r' = <[p := Cell (c_hash c) (c_next c) v]> (r_heap r).
Proof.
  intros Ok Hp Hi. pose proof Ok as (m & cs & R).
  destruct (res_store_repr r m cs p c v R Hp Hi) as (r' & E & R' & M & Hh).
  exists r'. split; [exact E|]. split; [eexists _, _; exact R'|]. split; [|auto].
  apply contents_eq; [eexists _, _; exact R'|]. intros k w. rewrite Hh, lookup_insert. split.
  - case_decide as Hk.
    + intros [= ->]. exists p. eexists. rewrite lookup_insert_eq. eauto.
    + intros (q & d & Hq & Hd & Hw)%contents_lookup; [|done]. exists q, d.
      rewrite lookup_insert_ne; [auto|]. intros <-. congruence.
  - intros (q & d & Hq & Hd & Hw). rewrite lookup_insert in Hq. case_decide as Hqp.
    + injection Hq as <-. cbn [c_obj] in *. rewrite decide_True by congruence. congruence.
    + rewrite decide_False; [apply contents_lookup; eauto|]. intros Hk.
      apply Hqp. symmetry. apply (rr_uniq _ _ _ R q p _ _ Hq Hp). congruence.
Qed.

(** *** Loops that work on every structure *)

(** A structure before and after; its id stays. *)
Definition reworked (Q : V -> V -> Prop) (o o' : option (cell V)) : Prop :=
  match o, o' with
  | Some c, Some c' => Q (c_obj c) (c_obj c') /\ res_id (c_obj c') = res_id (c_obj c)
  | None, None => True
  | _, _ => False
  end.

(** The map is a part [get s] of a state [s]; [J] is what the body relies on. *)
Lemma traverse_reworks {S R} (get : S -> resource V) (body : addr -> S -> St (R + S)) (J : S -> Prop) (Q : V -> V -> Prop) s e :
  res_ok (get s) -> J s ->
  (forall p c s', J s' -> r_heap (get s) !! p = Some c -> c_obj <$> r_heap (get s') !! p = Some (c_obj c) ->
     exists s'' v', body p s' e = Some (inr s'', e) /\ J s'' /\ Q (c_obj c) v' /\ res_id v' = res_id (c_obj c) /\
       res_store p v' (get s') = Some (get s'')) ->
  exists s', HMAP_NODES_IN_STRUCT_TRAVERSE (fun s => res_hm (get s)) body s e = Some (inr s', e) /\ J s' /\
    res_ok (get s') /\ forall q, reworked Q (r_heap (get s) !! q) (r_heap (get s') !! q).
Proof.
  intros (m & cs & R0) HJ Hb.
  destruct (traverse_invariant (Res := R) (fun s => res_hm (get s)) body
    (fun done s' e' => e' = e /\ J s' /\ res_repr (get s') m cs /\ forall q,
       if decide (q ∈ done) then reworked Q (r_heap (get s) !! q) (r_heap (get s') !! q)
       else c_obj <$> r_heap (get s') !! q = c_obj <$> r_heap (get s) !! q) (fun _ _ => False) cs) with (s := s) (e := e)
    as [(s' & e' & E & -> & J' & R' & Hq0)|(? & ? & _ & [])].
  - intros done s1 e1 (_ & _ & R1 & _). exists (r_heap (get s1)), m. split; [|apply R1]. unfold res_hm. now rewrite (rr_map _ _ _ R1).
  - intros done p rest s1 e1 Ec (-> & J1 & R1 & Hq0). left.
    assert (p ∉ done) as Hnp.
    { pose proof (rep_nodup _ _ _ (rr_rep _ _ _ R0)) as Nd. rewrite Ec in Nd. apply NoDup_app in Nd as (_ & Nd & _). intros Hv. apply (Nd p Hv). left. }
    assert (p ∈ concat cs) as Hin by (rewrite Ec; apply elem_of_app; right; left).
    destruct (rep_in _ _ _ p (rr_rep _ _ _ R1) Hin) as [c Hp]. destruct (rep_in _ _ _ p (rr_rep _ _ _ R0) Hin) as [c0 Hp0].
    pose proof (Hq0 p) as Hq. rewrite decide_False in Hq by done. rewrite Hp0 in Hq.
    destruct (Hb p c0 s1 J1 Hp0 Hq) as (s2 & v & E2 & J2 & HQ & Hid & Es). rewrite Hp in Hq. injection Hq as Eo.
    destruct (res_store_repr (get s1) m cs p c v R1 Hp) as (r2 & E3 & R2 & _ & H2); [congruence|].
    rewrite Es in E3. injection E3 as <-. exists s2, e. split; [exact E2|]. split; [done|]. split; [exact J2|]. split; [exact R2|].
    intros q. rewrite H2, lookup_insert. destruct (decide (p = q)) as [<-|Hne].
    + rewrite decide_True by (apply elem_of_app; right; left). rewrite Hp0. split; assumption.
    + specialize (Hq0 q). destruct (decide (q ∈ done)) as [Hd|Hd].
      * now rewrite decide_True by (apply elem_of_app; now left).
      * rewrite decide_False; [exact Hq0|]. rewrite elem_of_app, list_elem_of_singleton. naive_solver.
  - split; [done|]. split; [exact HJ|]. split; [exact R0|]. intros q. now rewrite decide_False by apply not_elem_of_nil.
  - exists s'. split; [exact E|]. split; [exact J'|]. split; [eexists _, _; exact R'|]. intros q. specialize (Hq0 q).
    case_decide as Hd; [exact Hq0|]. destruct (r_heap (get s) !! q) as [c|] eqn:E0; [|now destruct (r_heap (get s') !! q)].
    destruct Hd. apply (rr_live _ _ _ R0). eauto.
Qed.

Lemma contents_reworked {T} (r r' : resource V) (F : V -> T) (G : T -> T) : res_ok r -> res_ok r' ->
  (forall q, reworked (fun v v' => F v' = G (F v)) (r_heap r !! q) (r_heap r' !! q)) -> F <$> contents r' = G <$> (F <$> contents r).
Proof.
  intros Or Or' Hr. apply map_eq. intros k. rewrite !lookup_fmap. apply option_eq. intros v. rewrite !fmap_Some. split.
  - intros (v' & Hl & ->). apply contents_lookup in Hl as (q & c' & Hq & Hk & <-); [|exact Or']. specialize (Hr q). rewrite Hq in Hr.
    destruct (r_heap r !! q) as [c|] eqn:E; [|done]. destruct Hr as [-> Hid]. exists (F (c_obj c)). split; [|done].
    apply fmap_Some. exists (c_obj c). split; [|done]. apply contents_lookup; [exact Or|]. exists q, c. split; [done|]. split; [congruence|done].
  - intros (t & (w & Hl & ->)%fmap_Some & ->). apply contents_lookup in Hl as (q & c & Hq & Hk & <-); [|exact Or]. specialize (Hr q). rewrite Hq in Hr.
    destruct (r_heap r' !! q) as [c'|] eqn:E; [|done]. destruct Hr as [E' Hid]. exists (c_obj c'). split; [|done].
    apply contents_lookup; [exact Or'|]. exists q, c'. split; [done|]. split; [congruence|done].
Qed.

(** A loop that overwrites every structure. *)
Lemma res_update_all (f : V -> V) r e : (forall v, res_id (f v) = res_id v) -> res_ok r ->
  exists r', HMAP_NODES_IN_STRUCT_TRAVERSE (R := Empty_set) res_hm
      (fun p r => v ← lift (res_load p r); r ← lift (res_store p (f v) r); mret (inr r)) r e =
      Some (inr r', e) /\ res_ok r' /\ contents r' = f <$> contents r /\ r_max r' = r_max r /\
    forall q, c_obj <$> r_heap r' !! q = f <$> (c_obj <$> r_heap r !! q).
Proof.
  intros Hf Ok. destruct (traverse_reworks (R := Empty_set) (S := resource V) id
    (fun p r => v ← lift (res_load p r); r ← lift (res_store p (f v) r); mret (inr r)) (fun r' => r_max r' = r_max r) (fun v v' => v' = f v) r e Ok eq_refl)
    as (r' & E & M & Ok' & Hr).
  - intros p c r1 M1 _ Hp. cbn [id] in *. destruct (r_heap r1 !! p) as [c1|] eqn:Hp1; [|done]. injection Hp as Eo.
    eexists _, (f (c_obj c)). rewrite run_bind. unfold res_load, res_store. rewrite Hp1. cbn [mbind option_bind]. unfold lift at 1. rewrite run_bind.
    rewrite Eo. split; [reflexivity|]. auto.
  - exists r'. split; [exact E|]. split; [exact Ok'|]. split; [|split; [exact M|]].
    + rewrite <- (map_fmap_id (contents r')). rewrite (contents_reworked r r' id f Ok Ok' Hr). now rewrite map_fmap_id.
    + intros q. specialize (Hr q). cbn [id] in Hr. destruct (r_heap r !! q), (r_heap r' !! q); try done. destruct Hr as [Hr _]. cbn. now rewrite Hr.
Qed.

(** *** Deletion *)

Lemma same_cells_size (h h' : heap V) : same_cells h h' -> size h' = size h.
Proof.
  intros Sc. rewrite <- !(size_dom (D := gset addr)). f_equal. apply set_eq. intros q.
  rewrite !elem_of_dom. specialize (Sc q). unfold is_Some.
  destruct (h !! q), (h' !! q); try done; split; intros [x Hx]; (discriminate || eauto).
Qed.

Lemma res_delete_ok r m cs p c : res_repr r m cs -> r_heap r !! p = Some c ->
  exists r' m' cs', res_delete res_wrap p r = Some r' /\ res_repr r' m' cs' /\
    contents r' = delete (res_id (c_obj c)) (contents r) /\ r_max r' = r_max r /\
    exists l1 l2, concat cs = l1 ++ p :: l2 /\ concat cs' = l1 ++ l2.
Proof.
  intros R Hp. assert (res_ok r) as Ok by (eexists _, _; exact R).
  assert (p ∈ concat cs) as Hin by (eapply rr_live; eauto).
  destruct (nodeDelete_spec _ _ _ p (rr_rep _ _ _ R) Hin) as (h' & m' & i & u & w & Hi & E & R' & Sc & _ & Pm).
  destruct (remove_concat cs i p u w Hi) as (a & b & E1 & E2).
  unfold res_delete. rewrite (rr_map _ _ _ R). cbn [mbind option_bind]. rewrite E. cbn [mbind option_bind].
  assert (p ∉ concat (<[i := u ++ w]> cs)) as Hnp.
  { pose proof (rep_nodup _ _ _ (rr_rep _ _ _ R)) as Nd. rewrite Pm in Nd.
    now apply NoDup_cons in Nd as [Nd _]. }
  assert (forall q d, delete p h' !! q = Some d -> exists d0, r_heap r !! q = Some d0 /\ q <> p /\
    c_hash d = c_hash d0 /\ c_obj d = c_obj d0) as Hcase.
  { intros q d [Hqp Hd]%lookup_delete_Some. specialize (Sc q). rewrite Hd in Sc.
    destruct (r_heap r !! q) as [d0|]; [|done]. destruct Sc. exists d0. auto. }
  eexists _, m', (<[i := u ++ w]> cs). split; [reflexivity|].
  set (r' := Res _ _ _ _).
  assert (res_repr r' m' (<[i := u ++ w]> cs)) as RR.
  { constructor; cbn [r' r_map r_heap r_num].
    - done.
    - now apply rep_free.
    - intros q [d Hq]. apply Hcase in Hq as (d0 & Hq & Hqp & _).
      assert (q ∈ concat cs) as Hqc by (eapply rr_live; eauto).
      rewrite Pm in Hqc. now apply elem_of_cons in Hqc as [->|?].
    - intros q d (d0 & Hq & _ & -> & ->)%Hcase. eapply rr_hash; eauto.
    - intros q q' d d' (d0 & Hq & _ & _ & E3)%Hcase (d1 & Hq' & _ & _ & E4)%Hcase E5.
      apply (rr_uniq _ _ _ R q q' d0 d1 Hq Hq'). congruence.
    - rewrite (rr_num _ _ _ R), <- Z.add_opp_r, res_wrap_wrap. f_equal.
      rewrite map_size_delete_Some by (specialize (Sc p); rewrite Hp in Sc; destruct (h' !! p); [eauto|done]).
      rewrite (same_cells_size _ _ Sc).
      assert (size (r_heap r) <> 0%nat) by (apply (map_size_ne_0_lookup_2 _ p); eauto). lia. }
  split; [exact RR|]. split; [|split; [done|eauto]].
  apply contents_eq; [eexists _, _; exact RR|]. intros k v. rewrite lookup_delete_Some. split.
  - intros (Hk & Hv). apply contents_lookup in Hv as (q & d & Hq & Hd & Hw); [|done].
    assert (q <> p) by (intros ->; congruence). specialize (Sc q). rewrite Hq in Sc.
    destruct (h' !! q) as [d'|] eqn:Hq'; [|done]. destruct Sc as [_ So]. exists q, d'.
    cbn [r' r_heap]. rewrite lookup_delete_ne by done. split; [done|]. split; congruence.
  - intros (q & d & (d0 & Hq & Hqp & _ & Eo)%Hcase & Hd & Hw). split.
    + intros Hk. apply Hqp. apply (rr_uniq _ _ _ R q p _ _ Hq Hp). congruence.
    + apply contents_lookup; [done|]. exists q, d0. split; [done|]. split; congruence.
Qed.

(** What the operations do to the structures, whatever the links. *)
Lemma res_insert_objs r r' p : res_insert res_wrap p r = Some r' ->
  forall q, c_obj <$> r_heap r' !! q = c_obj <$> r_heap r !! q.
Proof.
  unfold res_insert, hmap_nodeInsert. intros E q. destruct (r_map r) as [m|]; [|discriminate]. cbn [mbind option_bind] in E.
  destruct (r_heap r !! p) as [c|] eqn:Hp; [|discriminate]. cbn [mbind option_bind] in E.
  destruct (bucket m _) as [b|]; [|discriminate]. injection E as <-. cbn [r_heap].
  rewrite lookup_insert. case_decide as Hq; [subst q; now rewrite Hp|done].
Qed.

Lemma res_delete_objs r r' m cs p : res_repr r m cs -> is_Some (r_heap r !! p) -> res_delete res_wrap p r = Some r' ->
  forall q, c_obj <$> r_heap r' !! q = if decide (q = p) then None else c_obj <$> r_heap r !! q.
Proof.
  intros R Hp E q. destruct (nodeDelete_spec _ _ _ p (rr_rep _ _ _ R)) as (h' & m' & _ & _ & _ & _ & E' & _ & Sc & _); [eapply rr_live; eauto|].
  unfold res_delete in E. rewrite (rr_map _ _ _ R) in E. cbn [mbind option_bind] in E. rewrite E' in E. cbn [mbind option_bind] in E.
  injection E as <-. cbn [r_heap]. rewrite lookup_delete. destruct (decide (q = p)) as [->|Hq]; [now rewrite decide_True|].
  rewrite decide_False by congruence. specialize (Sc q). destruct (r_heap r !! q), (h' !! q); try done. destruct Sc as [_ Sc]. cbn. now rewrite Sc.
Qed.

Lemma res_delete_all_ok r e : res_ok r ->
  exists r', res_delete_all res_wrap r e = Some (r', e) /\ res_ok r' /\ contents r' = ∅ /\
    r_max r' = r_max r /\ r_heap r' = ∅.
Proof.
  intros (m & cs & R). unfold res_delete_all. rewrite run_bind.
  destruct (traverse_deletes (Res := Empty_set) res_hm
    (fun p r => r' ← lift (res_delete res_wrap p r); mret (inr r'))
    (fun r' cs => (exists m, res_repr r' m cs) /\ r_max r' = r_max r) e) with (s := r) (cs := cs)
    as (r2 & cs2 & E & [(m2 & R2) M2] & Ec); [| |split; eauto|].
  - intros r1 cs1 [(m1 & R1) _]. exists (r_heap r1), m1. split; [|apply R1].
    unfold res_hm. now rewrite (rr_map _ _ _ R1).
  - intros r1 cs1 p l [(m1 & R1) M1] Ec.
    destruct (rep_in _ _ _ p (rr_rep _ _ _ R1)) as [c Hp]; [rewrite Ec; left|].
    destruct (res_delete_ok r1 m1 cs1 p c R1 Hp) as (r2 & m2 & cs2 & E & R2 & _ & Em & l1 & l2 & E1 & E2).
    assert (l1 = [] /\ l2 = l) as [-> ->].
    { pose proof (rep_nodup _ _ _ (rr_rep _ _ _ R1)) as Nd. rewrite E1 in Nd, Ec.
      destruct (split_nodup l1 l2 [] l p Nd Ec) as [-> ->]. done. }
    exists r2, cs2. rewrite run_bind, E. split; [reflexivity|]. split; [split; [eauto|congruence]|exact E2].
  - rewrite E. exists r2. split; [reflexivity|]. split; [eexists _, _; exact R2|].
    assert (r_heap r2 = ∅) as Eh by
      (apply map_empty; intros q; destruct (r_heap r2 !! q) eqn:Hq; [|done];
       assert (q ∈ concat cs2) as Hq' by (eapply rr_live; eauto); rewrite Ec in Hq'; now apply elem_of_nil in Hq').
    split; [unfold contents; now rewrite Eh, map_to_list_empty|done].
Qed.
(** *** Initialisation *)

Lemma res_init_ok r e : 0 <= r_max r < 4294967296 -> mallocs e = [] ->
  r_heap r = ∅ -> r_num r = res_wrap 0 ->
  exists r', res_init r e = Some ((POF_OK, r'), e) /\ res_ok r' /\ contents r' = ∅ /\ r_max r' = r_max r.
Proof.
  intros Hm Q Eh En. destruct (hmap_create_quiet (r_heap r) (r_max r) e Hm Q) as (m & cs & E & R & Ec).
  exists (Res (r_heap r) (Some m) (r_num r) (r_max r)). unfold res_init. rewrite run_bind, E.
  split; [reflexivity|]. split; [|split; [unfold contents; cbn [r_heap]; now rewrite Eh, map_to_list_empty|done]].
  exists m, cs. constructor; cbn [r_map r_heap r_num]; auto; rewrite Eh.
  - intros p [c Hp]. now rewrite lookup_empty in Hp.
  - intros p c Hp. now rewrite lookup_empty in Hp.
  - intros p q c d Hp. now rewrite lookup_empty in Hp.
  - rewrite En. reflexivity.
Qed.

(** *** Small resources, used as examples *)

Definition res_none (max : Z) : resource V := Res ∅ (Some (mkHmap [None] 0 0)) (res_wrap 0) max.
Definition res_one (v : V) (max : Z) : resource V :=
  Res {[1%positive := Cell (res_id v) None v]} (Some (mkHmap [Some 1%positive] 0 1)) (res_wrap 1) max.

Lemma res_none_ok max : res_ok (res_none max).
Proof.
  exists (mkHmap [None] 0 0), [[]]. constructor; cbn [res_none r_map r_heap r_num].
  - done.
  - exact (rep_empty ∅ 0 ltac:(lia)).
  - intros p [c Hp]. now rewrite lookup_empty in Hp.
  - intros p c Hp. now rewrite lookup_empty in Hp.
  - intros p q c d Hp. now rewrite lookup_empty in Hp.
  - reflexivity.
Qed.

Lemma res_one_ok v max : 0 <= res_id v -> res_ok (res_one v max).
Proof.
  intros Hv. exists (mkHmap [Some 1%positive] 0 1), [[1%positive]]. constructor; cbn [res_one r_map r_heap r_num].
  - done.
  - apply rep_single.
  - intros p [c [<- _]%lookup_singleton_Some]. left.
  - intros p c [<- <-]%lookup_singleton_Some. done.
  - intros p q c d [<- _]%lookup_singleton_Some [<- _]%lookup_singleton_Some. done.
  - now rewrite map_size_singleton.
Qed.
End interface.
