(* ===== verification/DList.v ===== *)
(** * The doubly linked list of common/pof_list.c

    An intrusive circular list: the list itself holds the node [nil] between
    the last node and the first, and each structure of the list holds a node.
    The structures live in a map from addresses; a pointer to a node is [LNil],
    the node of the list, [LAt p], the node of the structure at [p], or [LNull].
    [lrep] relates the pointers to the sequence of addresses; every operation
    is the operation on sequences it stands for. *)

From S2P Require Import Prelude Env Hmap IdMap.

(** ** Data *)

Inductive lptr := LNull | LNil | LAt (p : addr).
#[export] Instance lptr_eq_dec : EqDecision lptr.
Proof. solve_decision. Defined.

(** [struct listNode] and the structure around it. *)
Record lnode (V : Type) := LNode { l_prev : lptr; l_next : lptr; l_obj : V }.
Arguments LNode {V} _ _ _.
Arguments l_prev {V} _.
Arguments l_next {V} _.
Arguments l_obj {V} _.

(** [struct list] with the structures allocated for it. *)
Record dlist (V : Type) := DList { nil_prev : lptr; nil_next : lptr; l_count : Z; l_nodes : gmap addr (lnode V) }.
Arguments DList {V} _ _ _ _.
Arguments nil_prev {V} _.
Arguments nil_next {V} _.
Arguments l_count {V} _.
Arguments l_nodes {V} _.

Section ops.
Context {V : Type}.
Implicit Types (l : dlist V) (x y : lptr) (p : addr).

(** [x->next] and [x->prev], read and written. *)
Definition get_next l x : option lptr :=
  match x with LNull => None | LNil => Some (nil_next l) | LAt p => n ← l_nodes l !! p; Some (l_next n) end.
Definition get_prev l x : option lptr :=
  match x with LNull => None | LNil => Some (nil_prev l) | LAt p => n ← l_nodes l !! p; Some (l_prev n) end.
Definition set_next x y l : option (dlist V) :=
  match x with
  | LNull => None
  | LNil => Some (DList (nil_prev l) y (l_count l) (l_nodes l))
  | LAt p => n ← l_nodes l !! p;
      Some (DList (nil_prev l) (nil_next l) (l_count l) (<[p := LNode (l_prev n) y (l_obj n)]> (l_nodes l)))
  end.
Definition set_prev x y l : option (dlist V) :=
  match x with
  | LNull => None
  | LNil => Some (DList y (nil_next l) (l_count l) (l_nodes l))
  | LAt p => n ← l_nodes l !! p;
      Some (DList (nil_prev l) (nil_next l) (l_count l) (<[p := LNode y (l_next n) (l_obj n)]> (l_nodes l)))
  end.
Definition set_count c l : dlist V := DList (nil_prev l) (nil_next l) c (l_nodes l).

(** ** Operations *)

Definition list_create : St (option (dlist V)) :=
  ok ← malloc;
  if negb ok then
    _ ← pofec_set_error POFET_SOFTWARE_FAILED POF_ALLOCATE_RESOURCE_FAILURE; mret None
  else mret (Some (DList LNil LNil 0 ∅)).

Definition list_clear l : dlist V := DList LNil LNil 0 (l_nodes l).

Definition list_nodeInsertTail p l : option (dlist V) :=
  l ← set_next (nil_prev l) (LAt p) l;
  l ← set_prev (LAt p) (nil_prev l) l;
  l ← set_next (LAt p) LNil l;
  l ← set_prev LNil (LAt p) l;
  Some (set_count (u32 (l_count l + 1)) l).

Definition list_nodeInsertHead p l : option (dlist V) :=
  l ← set_prev (nil_next l) (LAt p) l;
  l ← set_prev (LAt p) LNil l;
  l ← set_next (LAt p) (nil_next l) l;
  l ← set_next LNil (LAt p) l;
  Some (set_count (u32 (l_count l + 1)) l).

Definition list_nodeDelete p l : option (dlist V) :=
  pr ← get_prev l (LAt p); nx ← get_next l (LAt p);
  l ← set_next pr nx l;
  pr ← get_prev l (LAt p); nx ← get_next l (LAt p);
  l ← set_prev nx pr l;
  Some (set_count (u32 (l_count l - 1)) l).

(** [LIST_NODES_IN_STRUCT_TRAVERSE] of a list that is part of the state of the
    loop: [next] is read before the body runs, which may free [obj]. *)
Fixpoint list_traverse_from {R S : Type} (fuel : nat) (dl : S -> dlist V) (x : lptr)
    (body : addr -> S -> St (R + S)) (s : S) : St (R + S) :=
  match x with
  | LNull => fault
  | LNil => mret (inr s)
  | LAt p =>
      match fuel with
      | O => fault
      | Datatypes.S fuel' =>
          next ← lift (get_next (dl s) (LAt p));
          r ← body p s;
          match r with inl r => mret (inl r) | inr s => list_traverse_from fuel' dl next body s end
      end
  end.

Definition LIST_NODES_IN_STRUCT_TRAVERSE {R S : Type} (dl : S -> dlist V) (body : addr -> S -> St (R + S)) (s : S)
  : St (R + S) :=
  list_traverse_from (Datatypes.S (size (l_nodes (dl s)))) dl (nil_next (dl s)) body s.

(** A structure is allocated for the list, or freed. *)
Definition l_alloc p (v : V) l : dlist V := DList (nil_prev l) (nil_next l) (l_count l) (<[p := LNode LNull LNull v]> (l_nodes l)).
Definition l_free p l : dlist V := DList (nil_prev l) (nil_next l) (l_count l) (delete p (l_nodes l)).

(** [LIST_CLEAR_ALL]. *)
Definition LIST_CLEAR_ALL l : St (dlist V) :=
  r ← LIST_NODES_IN_STRUCT_TRAVERSE (R := Empty_set) id (fun p l => mret (inr (l_free p l))) l;
  mret (list_clear (loop_end r)).

(** ** The sequence of a list *)

Definition edges {A} (xs : list A) : list (A * A) := zip xs (tail xs).

Definition linked l (xs : list lptr) : Prop :=
  Forall (fun e => get_next l e.1 = Some e.2 /\ get_prev l e.2 = Some e.1) (edges xs).

Definition ring (ps : list addr) : list lptr := LNil :: (LAt <$> ps) ++ [LNil].

Record lrep l (ps : list addr) : Prop := {
  lr_linked : linked l (ring ps);
  lr_nodup : NoDup ps;
  lr_count : l_count l = u32 (Z.of_nat (length ps))
}.

(** The structures in their order. *)
Definition l_objs l (ps : list addr) : list V := omap (fun p => l_obj <$> l_nodes l !! p) ps.

End ops.

(** ** Lemmas *)

Section lemmas.
Context {V : Type}.
Implicit Types (l : dlist V) (x y : lptr) (p : addr) (ps : list addr).

Lemma edges_app {A} (a : list A) s t b : edges ((a ++ [s]) ++ t :: b) = edges (a ++ [s]) ++ (s, t) :: edges (t :: b).
Proof.
  induction a as [|z a IH]; [reflexivity|]. destruct a as [|w a]; [reflexivity|].
  change (edges ((z :: (w :: a)) ++ [s])) with ((z, w) :: edges ((w :: a) ++ [s])).
  change (edges (((z :: (w :: a)) ++ [s]) ++ t :: b)) with ((z, w) :: edges (((w :: a) ++ [s]) ++ t :: b)).
  now rewrite IH.
Qed.

(** Every edge starts before the last element and ends after the first. *)
Lemma edges_in {A} (a : list A) s t z : (s, t) ∈ edges (a ++ [z]) -> s ∈ a /\ t ∈ tail (a ++ [z]).
Proof.
  induction a as [|w a IH]; [now intros ?%not_elem_of_nil|]. destruct a as [|w' a].
  - intros [= -> ->]%list_elem_of_singleton. split; constructor.
  - change (edges ((w :: w' :: a) ++ [z])) with ((w, w') :: edges ((w' :: a) ++ [z])). intros [[= -> ->]|H]%elem_of_cons.
    + split; cbn; constructor.
    + destruct (IH H) as [H1 H2]. split; [now constructor|]. cbn in *. now constructor.
Qed.

Definition live l x : Prop := match x with LNull => False | LNil => True | LAt p => is_Some (l_nodes l !! p) end.

Lemma live_next l x : live l x -> exists y, get_next l x = Some y.
Proof. destruct x as [| |p]; cbn; [done|eauto|intros [n ->]]. cbn. eauto. Qed.
Lemma live_prev l x : live l x -> exists y, get_prev l x = Some y.
Proof. destruct x as [| |p]; cbn; [done|eauto|intros [n ->]]. cbn. eauto. Qed.
Lemma next_live l x y : get_next l x = Some y -> live l x.
Proof. destruct x as [| |p]; cbn; [done|eauto|]. destruct (l_nodes l !! p); [eauto|done]. Qed.
Lemma prev_live l x y : get_prev l x = Some y -> live l x.
Proof. destruct x as [| |p]; cbn; [done|eauto|]. destruct (l_nodes l !! p); [eauto|done]. Qed.

(** What a write through a pointer changes. *)
Record written l l' : Prop := {
  wr_live : forall z, live l' z <-> live l z;
  wr_objs : forall p, l_obj <$> l_nodes l' !! p = l_obj <$> l_nodes l !! p;
  wr_count : l_count l' = l_count l
}.
#[local] Instance written_preorder : PreOrder written.
Proof.
  split; [now split|]. intros a b c [A1 A2 A3] [B1 B2 B3]. split; [|congruence..]. intros z. now rewrite B1, A1.
Qed.

(** The cases of a write to the node at [p]. *)
Ltac write_node E :=
  first
    [ done
    | intros [| |?q]; cbn; try done; repeat case_decide; simplify_eq; try done
    | intros ?q; cbn ];
  rewrite ?lookup_insert_eq;
  try match goal with |- context [<[?p := _]> _ !! ?q] =>
    destruct (decide (p = q)) as [->|?Hq]; [rewrite lookup_insert_eq, ?E|rewrite lookup_insert_ne by congruence] end;
  cbn; try done; try (split; eauto; fail); try congruence.

Lemma set_next_ok x y l : live l x -> exists l', set_next x y l = Some l' /\ written l l' /\
  (forall z, get_next l' z = if decide (z = x) then Some y else get_next l z) /\ (forall z, get_prev l' z = get_prev l z).
Proof.
  destruct x as [| |p]; cbn [live]; [done| |intros [n E]; cbn [set_next]; rewrite E; cbn [mbind option_bind]].
  - eexists. split; [reflexivity|]. split; [split; write_node E|split; write_node E].
  - eexists. split; [reflexivity|]. split; [split; write_node E|split; write_node E].
Qed.

Lemma set_prev_ok x y l : live l x -> exists l', set_prev x y l = Some l' /\ written l l' /\
  (forall z, get_prev l' z = if decide (z = x) then Some y else get_prev l z) /\ (forall z, get_next l' z = get_next l z).
Proof.
  destruct x as [| |p]; cbn [live]; [done| |intros [n E]; cbn [set_prev]; rewrite E; cbn [mbind option_bind]].
  - eexists. split; [reflexivity|]. split; [split; write_node E|split; write_node E].
  - eexists. split; [reflexivity|]. split; [split; write_node E|split; write_node E].
Qed.

Lemma linked_ext l l' xs : linked l xs ->
  (forall s t, (s, t) ∈ edges xs -> get_next l' s = get_next l s /\ get_prev l' t = get_prev l t) -> linked l' xs.
Proof.
  unfold linked. rewrite !Forall_forall. intros H E [s t] He. destruct (H _ He) as [H1 H2], (E _ _ He) as [E1 E2]. cbn in *. split; congruence.
Qed.

Lemma linked_app l a s t b : linked l ((a ++ [s]) ++ t :: b) <->
  linked l (a ++ [s]) /\ (get_next l s = Some t /\ get_prev l t = Some s) /\ linked l (t :: b).
Proof. unfold linked. now rewrite edges_app, Forall_app, Forall_cons. Qed.

(** A new node between two neighbours. *)
Lemma linked_insert l l' a s t b z p : t :: b = z ++ [LNil] ->
  linked l ((a ++ [s]) ++ t :: b) -> NoDup (a ++ s :: z) -> NoDup (tail (a ++ [s]) ++ t :: b) ->
  LAt p ∉ a ++ s :: z ->
  (forall x, get_next l' x = if decide (x = s) then Some (LAt p) else if decide (x = LAt p) then Some t else get_next l x) ->
  (forall x, get_prev l' x = if decide (x = t) then Some (LAt p) else if decide (x = LAt p) then Some s else get_prev l x) ->
  linked l' ((a ++ [s]) ++ LAt p :: t :: b).
Proof.
  intros Ez L Ns Nt Hp Hn Hv. apply linked_app in L as (L1 & _ & L2).
  assert (LAt p ∉ tail (a ++ [s]) ++ t :: b) as Hp'.
  { intros H. apply Hp. rewrite Ez, elem_of_app in H. destruct H as [H|H].
    - assert (LAt p ∈ a ++ [s]) as H' by (destruct (a ++ [s]); [exact H|now right]).
      rewrite elem_of_app, list_elem_of_singleton in H'. rewrite elem_of_app, elem_of_cons. tauto.
    - rewrite elem_of_app, list_elem_of_singleton in H. rewrite elem_of_app, elem_of_cons. destruct H as [H|]; [tauto|discriminate]. }
  assert (s <> LAt p /\ t <> LAt p) as [Hsp Htp].
  { split; intros ->; [apply Hp, elem_of_app; right; constructor|apply Hp', elem_of_app; right; constructor]. }
  apply linked_app. split; [|split].
  - eapply linked_ext; [exact L1|]. intros x y He. apply edges_in in He as [Hx Hy]. rewrite Hn, Hv.
    rewrite !decide_False; [done|..]; intros ->.
    + apply Hp', elem_of_app. now left.
    + apply NoDup_app in Nt as (_ & Nt & _). apply (Nt _ Hy). constructor.
    + apply Hp, elem_of_app. now left.
    + apply NoDup_app in Ns as (_ & Ns & _). apply (Ns _ Hx). constructor.
  - now rewrite Hn, Hv, decide_True, decide_False, decide_True by congruence.
  - change (LAt p :: t :: b) with ((@nil lptr ++ [LAt p]) ++ t :: b). apply linked_app. split; [constructor|]. split.
    + now rewrite Hn, Hv, decide_False, decide_True, decide_True by congruence.
    + eapply linked_ext; [exact L2|]. intros x y He. rewrite Ez in He. apply edges_in in He as [Hx Hy]. rewrite <- Ez in Hy. cbn in Hy. rewrite Hn, Hv.
      rewrite !decide_False; [done|..]; intros ->.
      * apply Hp', elem_of_app. right. now right.
      * apply NoDup_app in Nt as (_ & _ & Nt). apply NoDup_cons in Nt as [Nt _]. now apply Nt.
      * apply Hp, elem_of_app. right. now right.
      * apply NoDup_app in Ns as (_ & _ & Ns). apply NoDup_cons in Ns as [Ns _]. now apply Ns.
Qed.

(** Two neighbours without the node between them. *)
Lemma linked_remove l l' a s t b z p : t :: b = z ++ [LNil] ->
  linked l ((a ++ [s]) ++ LAt p :: t :: b) -> NoDup (a ++ s :: z) -> NoDup (tail (a ++ [s]) ++ t :: b) ->
  (forall x, get_next l' x = if decide (x = s) then Some t else get_next l x) ->
  (forall x, get_prev l' x = if decide (x = t) then Some s else get_prev l x) ->
  linked l' ((a ++ [s]) ++ t :: b).
Proof.
  intros Ez L Ns Nt Hn Hv. apply linked_app in L as (L1 & _ & L2).
  change (LAt p :: t :: b) with ((@nil lptr ++ [LAt p]) ++ t :: b) in L2. apply linked_app in L2 as (_ & _ & L2).
  apply linked_app. split; [|split].
  - eapply linked_ext; [exact L1|]. intros x y He. apply edges_in in He as [Hx Hy]. rewrite Hn, Hv.
    rewrite !decide_False; [done|..]; intros ->.
    + apply NoDup_app in Nt as (_ & Nt & _). apply (Nt _ Hy). constructor.
    + apply NoDup_app in Ns as (_ & Ns & _). apply (Ns _ Hx). constructor.
  - now rewrite Hn, Hv, !decide_True.
  - eapply linked_ext; [exact L2|]. intros x y He. rewrite Ez in He. apply edges_in in He as [Hx Hy]. rewrite <- Ez in Hy. cbn in Hy. rewrite Hn, Hv.
    rewrite !decide_False; [done|..]; intros ->.
    * apply NoDup_app in Nt as (_ & _ & Nt). apply NoDup_cons in Nt as [Nt _]. now apply Nt.
    * apply NoDup_app in Ns as (_ & _ & Ns). apply NoDup_cons in Ns as [Ns _]. now apply Ns.
Qed.

(** ** The neighbours in a ring *)

Lemma ring_split qs ws : exists a s t b z, LNil :: (LAt <$> qs) = a ++ [s] /\ (LAt <$> ws) ++ [LNil] = t :: b /\ t :: b = z ++ [LNil] /\
  ring (qs ++ ws) = (a ++ [s]) ++ t :: b /\
  (NoDup (qs ++ ws) -> NoDup (a ++ s :: z) /\ NoDup (tail (a ++ [s]) ++ t :: b)).
Proof.
  destruct (exists_last (l := LNil :: (LAt <$> qs))) as (a & s & Ea); [done|].
  assert (exists t b, (LAt <$> ws) ++ [LNil] = t :: b) as (t & b & Eb) by (destruct ws; cbn; eauto).
  exists a, s, t, b, (LAt <$> ws). split; [exact Ea|]. split; [exact Eb|]. split; [now rewrite <- Eb|]. split.
  - unfold ring. rewrite fmap_app, <- app_assoc, Eb. now rewrite <- Ea.
  - intros N. replace (a ++ s :: (LAt <$> ws)) with (LNil :: (LAt <$> (qs ++ ws))).
    + split.
      * constructor; [rewrite list_elem_of_fmap; now intros (? & ? & _)|]. apply NoDup_fmap_2; [intros ? ? [= ->]; done|done].
      * rewrite <- Ea, <- Eb. cbn [tail]. rewrite app_assoc, <- fmap_app. apply NoDup_app. split; [|split; [|apply NoDup_singleton]].
        -- apply NoDup_fmap_2; [intros ? ? [= ->]; done|done].
        -- intros x Hx ->%list_elem_of_singleton. apply list_elem_of_fmap in Hx as (? & ? & _). done.
    + replace (a ++ s :: (LAt <$> ws)) with ((a ++ [s]) ++ (LAt <$> ws)) by now rewrite <- app_assoc. rewrite <- Ea. cbn. now rewrite fmap_app.
Qed.

Lemma edges_next (xs : list lptr) (a b : list lptr) s t l : linked l xs -> xs = (a ++ [s]) ++ t :: b ->
  get_next l s = Some t /\ get_prev l t = Some s.
Proof. intros L ->. now apply linked_app in L as (_ & H & _). Qed.

Lemma lrep_live l ps p : lrep l ps -> p ∈ ps -> is_Some (l_nodes l !! p).
Proof.
  intros [L N C] (qs & ws & ->)%list_elem_of_split. destruct (ring_split qs (p :: ws)) as (a & s & t & b & z & _ & Eb & _ & E & _).
  destruct (edges_next _ _ _ _ _ _ L E) as [_ H]. cbn in Eb. injection Eb as <- <-. now apply prev_live in H.
Qed.

(** ** What the operations do *)

(** [list_nodeInsertTail] appends. *)
Lemma insert_tail_spec l ps p : lrep l ps -> is_Some (l_nodes l !! p) -> p ∉ ps ->
  exists l', list_nodeInsertTail p l = Some l' /\ lrep l' (ps ++ [p]) /\ (forall q, l_obj <$> l_nodes l' !! q = l_obj <$> l_nodes l !! q).
Proof.
  intros [L N C] Hp Hn. destruct (ring_split ps []) as (a & s & t & b & z & Ea & Eb & Ez & E & D). rewrite app_nil_r in E, D.
  cbn in Eb. injection Eb as <- <-. destruct (D N) as [Ns Nt]. rewrite E in L. destruct (edges_next _ _ _ _ _ _ L eq_refl) as [Hs Hl].
  assert (z = []) as -> by (destruct z as [|? [|]]; [done|discriminate..]).
  cbn [get_prev] in Hl. injection Hl as Hl. unfold list_nodeInsertTail. rewrite Hl.
  destruct (set_next_ok s (LAt p) l (next_live _ _ _ Hs)) as (l1 & -> & W1 & N1 & P1). cbn [mbind option_bind].
  assert (nil_prev l1 = s) as Hl1 by (specialize (P1 LNil); cbn in P1; congruence). rewrite Hl1.
  destruct (set_prev_ok (LAt p) s l1) as (l2 & -> & W2 & P2 & N2); [apply W1, Hp|]. cbn [mbind option_bind].
  destruct (set_next_ok (LAt p) LNil l2) as (l3 & -> & W3 & N3 & P3); [now apply W2, W1|]. cbn [mbind option_bind].
  destruct (set_prev_ok LNil (LAt p) l3) as (l4 & -> & W4 & P4 & N4); [exact I|]. cbn [mbind option_bind].
  eexists. split; [reflexivity|]. assert (written l l4) as W by (etrans; [exact W1|etrans; [exact W2|etrans; [exact W3|exact W4]]]).
  assert (LAt p ∉ a ++ [s]) as Hpa.
  { rewrite <- Ea. rewrite elem_of_cons, list_elem_of_fmap. intros [|(q & [= <-] & Hq)]; [discriminate|now apply Hn]. }
  split; [|apply W]. split; cbn [l_count set_count].
  - unfold ring. rewrite fmap_app, <- app_assoc. change (linked l4 (LNil :: (LAt <$> ps) ++ [LAt p] ++ [LNil])).
    rewrite app_comm_cons, Ea. change ([LAt p] ++ [LNil]) with (LAt p :: LNil :: @nil lptr).
    apply (linked_insert l l4 a s LNil [] [] p); auto.
    + intros x. rewrite N4, N3, N2, N1. destruct (decide (x = LAt p)) as [->|]; [|done].
      rewrite decide_False; [done|]. intros <-. apply Hpa, elem_of_app. right. constructor.
    + intros x. now rewrite P4, P3, P2, P1.
  - apply NoDup_app. split; [done|]. split; [intros q Hq ->%list_elem_of_singleton; now apply Hn|apply NoDup_singleton].
  - rewrite (wr_count _ _ W), C, length_app. cbn [length]. mod_lia.
Qed.

(** [list_nodeInsertHead] puts in front. *)
Lemma insert_head_spec l ps p : lrep l ps -> is_Some (l_nodes l !! p) -> p ∉ ps ->
  exists l', list_nodeInsertHead p l = Some l' /\ lrep l' (p :: ps) /\ (forall q, l_obj <$> l_nodes l' !! q = l_obj <$> l_nodes l !! q).
Proof.
  intros [L N C] Hp Hn. destruct (ring_split [] ps) as (a & s & t & b & z & Ea & Eb & Ez & E & D). cbn [app] in E, D.
  assert (a = [] /\ s = LNil) as [-> ->] by (destruct a as [|? [|]]; [now injection Ea as <-|discriminate..]).
  destruct (D N) as [Ns Nt]. rewrite E in L. destruct (edges_next _ [] _ _ _ _ L eq_refl) as [Hs Hl].
  cbn [get_next] in Hs. injection Hs as Hs. unfold list_nodeInsertHead. rewrite Hs.
  destruct (set_prev_ok t (LAt p) l (prev_live _ _ _ Hl)) as (l1 & -> & W1 & P1 & N1). cbn [mbind option_bind].
  destruct (set_prev_ok (LAt p) LNil l1) as (l2 & -> & W2 & P2 & N2); [apply W1, Hp|]. cbn [mbind option_bind].
  assert (nil_next l2 = t) as Hl2 by (specialize (N2 LNil); specialize (N1 LNil); cbn in N1, N2; congruence). rewrite Hl2.
  destruct (set_next_ok (LAt p) t l2) as (l3 & -> & W3 & N3 & P3); [now apply W2, W1|]. cbn [mbind option_bind].
  destruct (set_next_ok LNil (LAt p) l3) as (l4 & -> & W4 & N4 & P4); [exact I|]. cbn [mbind option_bind].
  eexists. split; [reflexivity|]. assert (written l l4) as W by (etrans; [exact W1|etrans; [exact W2|etrans; [exact W3|exact W4]]]).
  assert (LAt p ∉ t :: b) as Hpb.
  { rewrite <- Eb, elem_of_app, list_elem_of_fmap, list_elem_of_singleton. intros [(q & [= <-] & Hq)|]; [now apply Hn|discriminate]. }
  split; [|apply W]. split; cbn [l_count set_count].
  - change (ring (p :: ps)) with (([] ++ [LNil]) ++ LAt p :: ((LAt <$> ps) ++ [LNil])). rewrite Eb.
    apply (linked_insert l l4 [] LNil t b z p); auto.
    + cbn. rewrite elem_of_cons. intros [|H]; [discriminate|]. apply Hpb. rewrite Ez, elem_of_app. now left.
    + intros x. now rewrite N4, N3, N2, N1.
    + intros x. rewrite P4, P3, P2, P1. destruct (decide (x = LAt p)) as [->|]; [|done].
      rewrite decide_False; [done|]. intros <-. apply Hpb. constructor.
  - now apply NoDup_cons.
  - rewrite (wr_count _ _ W), C. cbn [length]. mod_lia.
Qed.

(** [list_nodeDelete] takes the node out and leaves the others in order. *)
Lemma delete_spec l qs p ws : lrep l (qs ++ p :: ws) ->
  exists l', list_nodeDelete p l = Some l' /\ lrep l' (qs ++ ws) /\ (forall q, l_obj <$> l_nodes l' !! q = l_obj <$> l_nodes l !! q).
Proof.
  intros [L N C]. destruct (ring_split qs ws) as (a & s & t & b & z & Ea & Eb & Ez & E & D).
  assert (ring (qs ++ p :: ws) = (a ++ [s]) ++ LAt p :: t :: b) as Er.
  { unfold ring. rewrite fmap_app, <- app_assoc. cbn. rewrite Eb. now rewrite <- Ea. }
  assert (NoDup (qs ++ ws)) as N' by (apply NoDup_app in N as (N1 & N2 & N3); apply NoDup_cons in N3 as [_ N3]; apply NoDup_app;
    split; [done|split; [|done]]; intros x Hx Hw; apply (N2 x Hx); now right).
  destruct (D N') as [Ns Nt]. rewrite Er in L. pose proof L as L'. apply linked_app in L' as (_ & [Hs Hp] & L2).
  change (LAt p :: t :: b) with ((@nil lptr ++ [LAt p]) ++ t :: b) in L2. apply linked_app in L2 as (_ & [Hn Ht] & _).
  assert (s <> LAt p) as Hsp.
  { intros ->. assert (LAt p ∈ LNil :: (LAt <$> qs)) as H by (rewrite Ea; apply elem_of_app; right; constructor).
    rewrite elem_of_cons, list_elem_of_fmap in H. destruct H as [|(q & [= <-] & Hq)]; [discriminate|].
    apply NoDup_app in N as (_ & N2 & _). apply (N2 p Hq). constructor. }
  unfold list_nodeDelete. rewrite Hp, Hn. cbn [mbind option_bind].
  destruct (set_next_ok s t l (next_live _ _ _ Hs)) as (l1 & -> & W1 & N1 & P1). cbn [mbind option_bind].
  rewrite P1, Hp, N1, decide_False, Hn by congruence. cbn [mbind option_bind].
  destruct (set_prev_ok t s l1) as (l2 & -> & W2 & P2 & N2); [apply W1; eapply prev_live, Ht|]. cbn [mbind option_bind].
  eexists. split; [reflexivity|]. assert (written l l2) as W by (etrans; [exact W1|exact W2]).
  split; [|apply W]. split; cbn [l_count set_count]; [|done|].
  - rewrite E. apply (linked_remove l l2 a s t b z p); auto.
    + intros x. now rewrite N2, N1.
    + intros x. now rewrite P2, P1.
  - rewrite (wr_count _ _ W), C, !length_app. cbn [length]. mod_lia.
Qed.

(** ** Traversal *)

Definition head_ptr ps : lptr := match ps with [] => LNil | p :: _ => LAt p end.

Lemma lrep_first l ps : lrep l ps -> nil_next l = head_ptr ps.
Proof.
  intros [L _ _]. unfold ring in L. destruct ps as [|p ps]; cbn in L; inversion L as [|? ? [H _] _]; cbn in H; now injection H as H.
Qed.
Lemma lrep_next l qs p ws : lrep l (qs ++ p :: ws) -> get_next l (LAt p) = Some (head_ptr ws).
Proof.
  intros [L _ _]. destruct (ring_split (qs ++ [p]) ws) as (a & s & t & b & z & Ea & Eb & _ & E & _).
  rewrite <- app_assoc in E. cbn in E. destruct (edges_next _ _ _ _ _ _ L E) as [H _].
  assert (s = LAt p) as ->.
  { rewrite fmap_app in Ea. cbn in Ea. rewrite app_comm_cons in Ea. now apply app_inj_tail in Ea as [_ <-]. }
  rewrite H. destruct ws; cbn in Eb; now injection Eb as <- _.
Qed.

Lemma lrep_size l ps : lrep l ps -> (length ps <= size (l_nodes l))%nat.
Proof.
  intros H. assert (list_to_set ps ⊆ dom (l_nodes l)) as S.
  { intros p Hp%elem_of_list_to_set. apply elem_of_dom. now apply (lrep_live l ps). }
  apply subseteq_size in S. rewrite size_dom in S. rewrite size_list_to_set in S by apply H. exact S.
Qed.

(** A loop over the nodes still to come: the body may leave, or go on with the
    rest, whose first node is the one read before the body ran. *)
Lemma list_traverse_from_spec {R S} (dl : S -> dlist V) (body : addr -> S -> St (R + S))
    (Inv : list addr -> S -> env -> Prop) (Post : R + S -> env -> Prop) :
  (forall p ws s e, Inv (p :: ws) s e -> get_next (dl s) (LAt p) = Some (head_ptr ws) /\
    exists r e', body p s e = Some (r, e') /\ match r with inl _ => Post r e' | inr s' => Inv ws s' e' end) ->
  (forall s e, Inv [] s e -> Post (inr s) e) ->
  forall ws fuel s e, (length ws < fuel)%nat -> Inv ws s e ->
  exists r e', list_traverse_from fuel dl (head_ptr ws) body s e = Some (r, e') /\ Post r e'.
Proof.
  intros Hb He ws. induction ws as [|p ws IH]; intros fuel s e Hf HI; (destruct fuel as [|fuel]; [cbn in Hf; lia|]).
  - exists (inr s), e. split; [reflexivity|now apply He].
  - destruct (Hb _ _ _ _ HI) as (Hn & r & e' & E & Hr). cbn [head_ptr list_traverse_from]. rewrite run_bind, Hn. cbn [lift].
    rewrite run_bind, E. destruct r as [r|s'].
    + exists (inl r), e'. split; [reflexivity|exact Hr].
    + apply IH; [cbn in Hf; lia|exact Hr].
Qed.

Lemma list_traverse_spec {R S} (dl : S -> dlist V) (body : addr -> S -> St (R + S))
    (Inv : list addr -> S -> env -> Prop) (Post : R + S -> env -> Prop) ps s e :
  lrep (dl s) ps -> Inv ps s e ->
  (forall p ws s e, Inv (p :: ws) s e -> get_next (dl s) (LAt p) = Some (head_ptr ws) /\
    exists r e', body p s e = Some (r, e') /\ match r with inl _ => Post r e' | inr s' => Inv ws s' e' end) ->
  (forall s e, Inv [] s e -> Post (inr s) e) ->
  exists r e', LIST_NODES_IN_STRUCT_TRAVERSE dl body s e = Some (r, e') /\ Post r e'.
Proof.
  intros L HI Hb He. unfold LIST_NODES_IN_STRUCT_TRAVERSE. rewrite (lrep_first _ _ L).
  eapply list_traverse_from_spec; eauto. pose proof (lrep_size _ _ L). lia.
Qed.

Lemma lrep_alloc l ps p v : lrep l ps -> l_nodes l !! p = None -> lrep (l_alloc p v l) ps.
Proof.
  intros H Hp. split; [|apply H|apply H]. eapply linked_ext; [apply H|].
  intros s t He. destruct (proj1 (Forall_forall _ _) (lr_linked _ _ H) _ He) as [Hs Ht]. cbn in Hs, Ht.
  split; [destruct s as [| |q]|destruct t as [| |q]]; cbn in *; try done.
  all: destruct (decide (p = q)) as [->|]; [rewrite Hp in *; discriminate|now rewrite lookup_insert_ne].
Qed.

(** A node out of the list may be freed. *)
Lemma lrep_free l ps p : lrep l ps -> p ∉ ps -> lrep (l_free p l) ps.
Proof.
  intros H Hp. split; [|apply H|apply H]. eapply linked_ext; [apply H|].
  intros s t He. assert (s <> LAt p /\ t <> LAt p) as [Hs Ht].
  { unfold ring in He. rewrite app_comm_cons in He. apply edges_in in He as [H1 H2]. split; intros ->.
    - rewrite elem_of_cons, list_elem_of_fmap in H1. destruct H1 as [|(q & [= <-] & Hq)]; [discriminate|now apply Hp].
    - cbn in H2. rewrite elem_of_app, list_elem_of_singleton, list_elem_of_fmap in H2. destruct H2 as [(q & [= <-] & Hq)|]; [now apply Hp|discriminate]. }
  split; [destruct s as [| |q]|destruct t as [| |q]]; cbn in *; try done; rewrite lookup_delete_ne by congruence; done.
Qed.

(** [LIST_CLEAR_ALL] frees every structure and leaves an empty list. *)
Lemma clear_all_spec l ps e : lrep l ps -> exists l', LIST_CLEAR_ALL l e = Some (l', e) /\ lrep l' [] /\
  forall p, l_nodes l' !! p = if decide (p ∈ ps) then None else l_nodes l !! p.
Proof.
  intros L. unfold LIST_CLEAR_ALL.
  destruct (list_traverse_spec (R := Empty_set) (S := dlist V) id (fun p l => mret (inr (l_free p l)))
    (fun ws m e' => e' = e /\ exists qs, ps = qs ++ ws /\ (forall p, p ∈ ws -> l_nodes m !! p = l_nodes l !! p) /\
       forall p, l_nodes m !! p = if decide (p ∈ qs) then None else l_nodes l !! p)
    (fun r e' => e' = e /\ match r with inl _ => False | inr m => forall p, l_nodes m !! p = if decide (p ∈ ps) then None else l_nodes l !! p end)
    ps l e L) as (r & e' & E & -> & Hr).
  - split; [done|]. exists []. split; [done|]. split; [done|]. intros p. now rewrite decide_False by apply not_elem_of_nil.
  - intros p ws m e1 (-> & qs & Eq & Hw & Hm). split.
    + rewrite Eq in L. pose proof (lrep_next _ _ _ _ L) as Hn. cbn in Hn |- *. rewrite Hw by constructor. exact Hn.
    + do 2 eexists. split; [reflexivity|]. split; [done|]. exists (qs ++ [p]). split; [rewrite <- app_assoc; exact Eq|].
      assert ((p ∉ qs) /\ (p ∉ ws)) as [Hq Hp].
      { pose proof (lr_nodup _ _ L) as N. rewrite Eq in N. apply NoDup_app in N as (_ & N1 & N2). apply NoDup_cons in N2 as [N2 _].
        split; [intros H; apply (N1 _ H); constructor|exact N2]. }
      split.
      * intros q Hq'. cbn. destruct (decide (p = q)) as [->|]; [done|]. rewrite lookup_delete_ne by done. apply Hw. now right.
      * intros q. cbn. destruct (decide (p = q)) as [->|Hne].
        -- rewrite lookup_delete_eq, decide_True; [done|]. apply elem_of_app. right. constructor.
        -- rewrite lookup_delete_ne, Hm by done. apply decide_ext. rewrite elem_of_app, list_elem_of_singleton. split; [auto|intros [|]; [done|congruence]].
  - intros m e1 (-> & qs & Eq & _ & Hm). rewrite app_nil_r in Eq. subst qs. auto.
  - destruct r as [[]|m]. eexists. rewrite run_bind, E. split; [reflexivity|]. split; [|exact Hr].
    split; [repeat constructor|constructor|reflexivity].
Qed.
End lemmas.

(** ** Refinement *)

(** A program on one list, and on the sequence it stands for. *)
Inductive lop := InsertTail (p : addr) | InsertHead (p : addr) | Delete (p : addr) | Clear.

Definition run_lop {V} (o : lop) (l : dlist V) : option (dlist V) :=
  match o with
  | InsertTail p => list_nodeInsertTail p l
  | InsertHead p => list_nodeInsertHead p l
  | Delete p => list_nodeDelete p l
  | Clear => Some (list_clear l)
  end.

Definition spec_lop (o : lop) (ps : list addr) : list addr :=
  match o with
  | InsertTail p => ps ++ [p]
  | InsertHead p => p :: ps
  | Delete p => filter (fun q => q <> p) ps
  | Clear => []
  end.

(** A node is inserted when it is in no list and deleted when it is in this one. *)
Definition allowed (nodes : gset addr) (o : lop) (ps : list addr) : Prop :=
  match o with
  | InsertTail p | InsertHead p => p ∈ nodes /\ p ∉ ps
  | Delete p => p ∈ ps
  | Clear => True
  end.
Fixpoint all_allowed (nodes : gset addr) (os : list lop) (ps : list addr) : Prop :=
  match os with [] => True | o :: os => allowed nodes o ps /\ all_allowed nodes os (spec_lop o ps) end.

Lemma filter_out (qs ws : list addr) p : NoDup (qs ++ p :: ws) -> filter (fun q => q <> p) (qs ++ p :: ws) = qs ++ ws.
Proof.
  intros N. apply NoDup_app in N as (_ & N1 & N2). apply NoDup_cons in N2 as [N2 _].
  assert (forall l : list addr, p ∉ l -> filter (fun q => q <> p) l = l) as Hf.
  { induction l as [|q l IH]; [done|]. intros [Hq Hl]%not_elem_of_cons. rewrite filter_cons_True, IH; auto. }
  rewrite filter_app, filter_cons_False by naive_solver. rewrite !Hf; [done|done|]. intros H. apply (N1 _ H). constructor.
Qed.

Lemma run_lop_spec {V} o (l : dlist V) ps : lrep l ps -> allowed (dom (l_nodes l)) o ps ->
  exists l', run_lop o l = Some l' /\ lrep l' (spec_lop o ps) /\ dom (l_nodes l') = dom (l_nodes l).
Proof.
  assert (forall l' : dlist V, (forall q, l_obj <$> l_nodes l' !! q = l_obj <$> l_nodes l !! q) -> dom (l_nodes l') = dom (l_nodes l)) as Hd.
  { intros l' H. apply set_eq. intros q. rewrite !elem_of_dom. specialize (H q). destruct (l_nodes l' !! q), (l_nodes l !! q); try discriminate; naive_solver. }
  intros L A. destruct o as [p|p|p|]; cbn in A |- *.
  - destruct A as [Hp Hn]. apply elem_of_dom in Hp. destruct (insert_tail_spec l ps p L Hp Hn) as (l' & E & L' & H). eauto.
  - destruct A as [Hp Hn]. apply elem_of_dom in Hp. destruct (insert_head_spec l ps p L Hp Hn) as (l' & E & L' & H). eauto.
  - apply list_elem_of_split in A as (qs & ws & ->). rewrite filter_out by apply L.
    destruct (delete_spec l qs p ws L) as (l' & E & L' & H). eauto.
  - eexists. split; [reflexivity|]. split; [|done]. split; [repeat constructor|constructor|reflexivity].
Qed.

(** C31. The list of pof_list.c is a sequence: any program of insertions at
    either end, deletions and clearings that inserts nodes of no list and
    deletes nodes of this one runs without a fault, and the nodes it leaves,
    followed forwards or backwards, are those the program leaves on sequences;
    the count is their number. *)
Theorem list_refines {V} os (l : dlist V) ps : lrep l ps -> all_allowed (dom (l_nodes l)) os ps ->
  exists l', foldl (fun m o => m ≫= run_lop o) (Some l) os = Some l' /\ lrep l' (foldl (flip spec_lop) ps os).
Proof.
  revert l ps. induction os as [|o os IH]; intros l ps L A; [now exists l|]. destruct A as [A1 A2].
  destruct (run_lop_spec o l ps L A1) as (l1 & E & L1 & D). cbn [foldl]. rewrite <- D in A2.
  destruct (IH l1 (spec_lop o ps) L1 A2) as (l' & E' & L'). exists l'. split; [|exact L'].
  cbn [mbind option_bind]. now rewrite E.
Qed.

Lemma list_refines_witness : exists l' : dlist Z,
  foldl (fun m o => m ≫= run_lop o) (Some (l_alloc 1%positive 10 (l_alloc 2%positive 20 (l_alloc 3%positive 30 (DList LNil LNil 0 ∅)))))
    [InsertTail 1%positive; InsertHead 2%positive; InsertTail 3%positive; Delete 1%positive] = Some l' /\ lrep l' [2; 3]%positive.
Proof.
  apply (list_refines [InsertTail 1%positive; InsertHead 2%positive; InsertTail 3%positive; Delete 1%positive] (l_alloc 1%positive 10 (l_alloc 2%positive 20 (l_alloc 3%positive 30 (DList LNil LNil 0 ∅)))) []).
  - split; [repeat constructor|constructor|reflexivity].
  - cbn [allowed all_allowed spec_lop app]. repeat (split; [first [by_decide|split; by_decide]|]). exact I.
Defined.
