(* ===== verification/Memory.v ===== *)
(** * Memory bookkeeping (common/pof_memory.c)

    With MALLOC_DEBUG the switch allocates through [memory_malloc] and
    [memory_free], which keep a list of the blocks in use and their total size.
    Each is a step here, as when one task allocates at a time: [memory_free] walks
    the list before it takes the mutex, which does not protect that walk from a
    [memory_malloc] or [memory_free] of another task. *)

From S2P Require Import Prelude Env Hmap IdMap DList.

Definition MEMORY_DIS_STR_LEN : Z := 100.

Record memoryNode := mkMemNode { mn_ptr : addr; mn_size : Z; mn_dis : list Z }.

(** [memoryList], and the blocks the callers hold. *)
Record memoryList := mkMem { ml_list : dlist memoryNode; ml_total : Z; ml_blocks : gset addr }.
Implicit Types (ml : memoryList) (os : list memoryNode).

Definition memory_start : memoryList := mkMem (DList LNil LNil 0 ∅) 0 ∅.

(** [dis] is the text "%s:%d" of the caller's file and line.  The first block is
    not given back when the second cannot be had. *)
Definition memory_malloc (size : Z) (dis : list Z) ml : St (option addr * memoryList) :=
  ok ← malloc;
  if negb ok then mret (None, ml)
  else
    let memory := fresh (dom (l_nodes (ml_list ml))) in
    ok ← malloc;
    if negb ok then mret (None, mkMem (l_alloc memory (mkMemNode 1%positive 0 []) (ml_list ml)) (ml_total ml) (ml_blocks ml))
    else
      let ptr := fresh (ml_blocks ml) in
      let node := mkMemNode ptr size (take (Z.to_nat (MEMORY_DIS_STR_LEN - 2)) dis) in
      l ← lift (list_nodeInsertHead memory (l_alloc memory node (ml_list ml)));
      mret (Some ptr, mkMem l (u64 (ml_total ml + size)) ({[ptr]} ∪ ml_blocks ml)).

(** The body of the loop of [memory_free]. *)
Definition memory_free_one (ptr : addr) (p : addr) ml : St (memoryList + memoryList) :=
  n ← lift (l_nodes (ml_list ml) !! p);
  let memory := l_obj n in
  if decide (mn_ptr memory = ptr) then
    l ← lift (list_nodeDelete p (ml_list ml));
    mret (inl (mkMem (l_free p l) (u64 (ml_total ml - mn_size memory)) (ml_blocks ml ∖ {[ptr]})))
  else mret (inr ml).

Definition memory_free (ptr : addr) ml : St memoryList :=
  r ← LIST_NODES_IN_STRUCT_TRAVERSE ml_list (memory_free_one ptr) ml;
  mret (match r with inl ml => ml | inr ml => ml end).

Definition memory_totalSize ml : Z := ml_total ml.
Definition memory_count ml : Z := l_count (ml_list ml).

(** ** The blocks in use *)

Definition sizes os : Z := foldr (fun o s => mn_size o + s) 0 os.

(** [os]: the blocks in use, the newest first. *)
Record mem_repr ml os : Prop := {
  mr_list : exists ps, lrep (ml_list ml) ps /\ Forall2 (fun p o => l_obj <$> l_nodes (ml_list ml) !! p = Some o) ps os;
  mr_ptrs : NoDup (mn_ptr <$> os);
  mr_blocks : ml_blocks ml = list_to_set (mn_ptr <$> os);
  mr_total : ml_total ml = u64 (sizes os)
}.

Lemma mem_start_ok : mem_repr memory_start [].
Proof.
  split; [|constructor|reflexivity|reflexivity]. exists []. split; [|constructor]. split; [repeat constructor|constructor|reflexivity].
Qed.

Lemma mem_count ml os : mem_repr ml os -> memory_count ml = u32 (Z.of_nat (length os)).
Proof. intros [(ps & L & F) _ _ _]. unfold memory_count. rewrite (lr_count _ _ L). now rewrite (Forall2_length _ _ _ F). Qed.

Lemma memory_malloc_ok size dis ml os e : mem_repr ml os -> mallocs e = [] ->
  exists ml', memory_malloc size dis ml e = Some ((Some (fresh (ml_blocks ml)), ml'), e) /\
    mem_repr ml' (mkMemNode (fresh (ml_blocks ml)) size (take 98 dis) :: os).
Proof.
  intros [(ps & L & F) N B T] Q. unfold memory_malloc. rewrite run_bind. unfold malloc at 1. rewrite Q. cbn [negb].
  rewrite run_bind. unfold malloc at 1. rewrite Q. cbn [negb].
  set (p := fresh (dom (l_nodes (ml_list ml)))). set (ptr := fresh (ml_blocks ml)).
  assert (l_nodes (ml_list ml) !! p = None) as Hp by (apply not_elem_of_dom, is_fresh).
  assert (p ∉ ps) as Hps by (intros H; apply (lrep_live _ _ _ L) in H as [n H]; congruence).
  change (Z.to_nat (MEMORY_DIS_STR_LEN - 2)) with 98%nat. set (o := mkMemNode ptr size (take 98 dis)).
  destruct (insert_head_spec (l_alloc p o (ml_list ml)) ps p (lrep_alloc _ _ _ _ L Hp)) as (l' & E & L' & H); [cbn; rewrite lookup_insert_eq; eauto|exact Hps|].
  rewrite run_bind, E. cbn [lift]. eexists. split; [reflexivity|]. split; cbn.
  - exists (p :: ps). split; [exact L'|]. constructor.
    + rewrite H. cbn. now rewrite lookup_insert_eq.
    + eapply Forall2_impl; [exact F|]. intros q o' Hq. rewrite H. cbn. destruct (decide (q = p)) as [->|]; [rewrite Hp in Hq; discriminate|].
      now rewrite lookup_insert_ne.
  - constructor; [|exact N]. intros Hi. apply (is_fresh (ml_blocks ml)). rewrite B at 2. now apply elem_of_list_to_set.
  - now rewrite B.
  - rewrite T. fold (sizes os). mod_lia.
Qed.

(** ** Freeing *)

(** The nodes are the list's, one block each. *)
Lemma forall2_split {A B} (R : A -> B -> Prop) xs (ys zs : list B) b : Forall2 R xs (ys ++ b :: zs) ->
  exists us a vs, xs = us ++ a :: vs /\ Forall2 R us ys /\ R a b /\ Forall2 R vs zs.
Proof.
  intros F. apply Forall2_app_inv_r in F as (us & ws & F1 & F2 & ->).
  apply Forall2_cons_inv_r in F2 as (a & vs & Ha & F2 & ->). eauto 10.
Qed.

Lemma sizes_app os os' : sizes (os ++ os') = sizes os + sizes os'.
Proof. unfold sizes. induction os as [|o os IH]; cbn; lia. Qed.

Lemma next_at_head {V} (l : dlist V) ps qs p ws : lrep l ps -> ps = qs ++ p :: ws -> get_next l (LAt p) = Some (head_ptr ws).
Proof. intros L ->. now apply (lrep_next l qs). Qed.

(** The loop of [memory_free] up to the block, or to the end. *)
Lemma memory_free_loop ml ps os ptr e : lrep (ml_list ml) ps ->
  Forall2 (fun p o => l_obj <$> l_nodes (ml_list ml) !! p = Some o) ps os ->
  exists ml', memory_free ptr ml e = Some (ml', e) /\
    ((Forall (fun o => mn_ptr o <> ptr) os /\ ml' = ml) \/
     exists qs p ws os1 o os2 l', ps = qs ++ p :: ws /\ os = os1 ++ o :: os2 /\ length qs = length os1 /\ mn_ptr o = ptr /\
       list_nodeDelete p (ml_list ml) = Some l' /\
       ml' = mkMem (l_free p l') (u64 (ml_total ml - mn_size o)) (ml_blocks ml ∖ {[ptr]})).
Proof.
  intros L F. unfold memory_free. rewrite run_bind.
  destruct (list_traverse_spec ml_list (memory_free_one ptr)) with
    (Inv := fun ws m e' => e' = e /\ m = ml /\ exists qs os1 os2, ps = qs ++ ws /\ os = os1 ++ os2 /\ length qs = length os1 /\ Forall (fun o => mn_ptr o <> ptr) os1 /\
       Forall2 (fun p o => l_obj <$> l_nodes (ml_list ml) !! p = Some o) ws os2)
    (Post := fun r e' => e' = e /\ match r with
       | inr m => m = ml /\ Forall (fun o => mn_ptr o <> ptr) os
       | inl m => exists qs p ws os1 o os2 l', ps = qs ++ p :: ws /\ os = os1 ++ o :: os2 /\ length qs = length os1 /\ mn_ptr o = ptr /\
           list_nodeDelete p (ml_list ml) = Some l' /\ m = mkMem (l_free p l') (u64 (ml_total ml - mn_size o)) (ml_blocks ml ∖ {[ptr]}) end)
    (ps := ps) (s := ml) (e := e) as (r & e' & E & -> & Hr).
  - exact L.
  - split; [done|]. split; [done|]. exists [], [], os. auto.
  - intros p ws m e1 (-> & -> & qs & os1 & os2 & E1 & E2 & El & Hn & F2). split; [now apply (next_at_head _ ps qs)|].
    apply Forall2_cons_inv_l in F2 as (o & os3 & Ho & F2 & ->). destruct (l_nodes (ml_list ml) !! p) as [n|] eqn:En; [|discriminate].
    injection Ho as Ho. unfold memory_free_one. rewrite run_bind, En. cbn [lift]. rewrite Ho. destruct (decide (mn_ptr o = ptr)) as [Hp|Hp].
    + rewrite E1 in L. destruct (delete_spec _ _ _ _ L) as (l' & E & _). rewrite run_bind, E. cbn [lift].
      do 2 eexists. split; [reflexivity|]. split; [done|]. exists qs, p, ws, os1, o, os3, l'. auto 10.
    + do 2 eexists. split; [reflexivity|]. split; [done|]. split; [done|]. exists (qs ++ [p]), (os1 ++ [o]), os3.
      rewrite <- !app_assoc, !length_app. cbn. split; [done|]. split; [done|]. split; [lia|]. split; [|done]. apply Forall_app. auto.
  - intros m e1 (-> & -> & qs & os1 & os2 & E1 & E2 & El & Hn & F2). split; [done|]. split; [done|].
    apply Forall2_nil_inv_l in F2 as ->. rewrite app_nil_r in E2. now subst os1.
  - rewrite E. destruct r as [m|m]; eexists; (split; [reflexivity|]).
    + right. exact Hr.
    + left. destruct Hr as [-> H]. auto.
Qed.

Lemma filter_keep {A} (P : A -> Prop) `{!forall x, Decision (P x)} (l : list A) : Forall P l -> filter P l = l.
Proof. induction 1 as [|x l Hx _ IH]; [done|]. now rewrite filter_cons_True, IH. Qed.

Lemma forall2_in {A B} (R Q : A -> B -> Prop) xs (ys : list B) : Forall2 R xs ys ->
  (forall x y, x ∈ xs -> R x y -> Q x y) -> Forall2 Q xs ys.
Proof. induction 1 as [|x y xs ys Hxy _ IH]; intros Hi; constructor; [apply Hi; [constructor|done]|apply IH; intros; apply Hi; [now right|done]]. Qed.

(** [memory_free] of a block in use takes it off the list and off the total;
    of any other pointer it changes nothing. *)
Lemma memory_free_ok ml os ptr e : mem_repr ml os ->
  exists ml', memory_free ptr ml e = Some (ml', e) /\ mem_repr ml' (filter (fun o => mn_ptr o <> ptr) os).
Proof.
  intros [(ps & L & F) N B T].
  destruct (memory_free_loop ml ps os ptr e L F) as (ml' & E & [[H ->]|(qs & p & ws & os1 & o & os2 & l' & Ep & Eo & El & Ho & D & ->)]).
  - exists ml. split; [exact E|]. rewrite filter_keep; [|exact H]. split; eauto.
  - eexists. split; [exact E|]. subst ps os. destruct (delete_spec _ _ _ _ L) as (l2 & D2 & L2 & H2). rewrite D in D2. injection D2 as <-.
    pose proof (lr_nodup _ _ L) as Np. rewrite fmap_app in N. cbn in N. rewrite Ho in N.
    assert (Forall (fun o => mn_ptr o <> ptr) os1 /\ Forall (fun o => mn_ptr o <> ptr) os2) as [H1 H3].
    { apply NoDup_app in N as (_ & N1 & N2). apply NoDup_cons in N2 as [N2 _].
      split; apply Forall_forall; intros o' Ho' Eq; [apply (N1 ptr)|apply N2].
      - apply list_elem_of_fmap. eauto.
      - constructor.
      - apply list_elem_of_fmap. eauto. }
    rewrite filter_app, filter_cons_False by naive_solver. rewrite !filter_keep by assumption.
    split; cbn [ml_list ml_total ml_blocks].
    + exists (qs ++ ws). split.
      * apply lrep_free; [exact L2|]. apply NoDup_app in Np as (_ & N1 & N2). apply NoDup_cons in N2 as [N2 _].
        rewrite elem_of_app. intros [Hq|Hw]; [|done]. apply (N1 _ Hq). constructor.
      * apply Forall2_app_inv in F; [|exact El]. destruct F as [F1 F2]. apply Forall2_cons in F2 as [_ F2].
        assert (Forall2 (fun q o => q <> p /\ l_obj <$> l_nodes (ml_list ml) !! q = Some o) (qs ++ ws) (os1 ++ os2)) as F3.
        { apply NoDup_app in Np as (_ & N1 & N2). apply NoDup_cons in N2 as [N2 _]. apply Forall2_app.
          - eapply forall2_in; [exact F1|]. intros q o' Hq Hf. split; [|exact Hf]. intros ->. apply (N1 _ Hq). constructor.
          - eapply forall2_in; [exact F2|]. intros q o' Hq Hf. split; [|exact Hf]. now intros ->. }
        eapply Forall2_impl; [exact F3|]. intros q o' [Hq Hf]. cbn. rewrite lookup_delete_ne by congruence. now rewrite H2.
    + rewrite fmap_app. apply NoDup_app in N as (N0 & N1 & N2). apply NoDup_cons in N2 as [_ N2].
      apply NoDup_app. split; [done|split; [|done]]. intros x Hx Hw. apply (N1 x Hx). now right.
    + rewrite B, !fmap_app. cbn. rewrite Ho. rewrite !list_to_set_app_L. cbn.
      apply NoDup_app in N as (_ & N1 & N2). apply NoDup_cons in N2 as [N2 _].
      apply set_eq. intros x. rewrite !elem_of_difference, !elem_of_union, !elem_of_singleton, !elem_of_list_to_set.
      split; [naive_solver|]. intros [H|H]; (split; [tauto|]); intros ->; [apply (N1 _ H); constructor|done].
    + rewrite T, !sizes_app. cbn. fold (sizes os2). mod_lia.
Qed.

(** ** Programs *)

Inductive mem_op := MMalloc (size : Z) (dis : list Z) | MFree (ptr : addr).

Fixpoint run_mem (ops : list mem_op) ml : St memoryList :=
  match ops with
  | [] => mret ml
  | MMalloc size dis :: ops => r ← memory_malloc size dis ml; run_mem ops r.2
  | MFree ptr :: ops => ml ← memory_free ptr ml; run_mem ops ml
  end.

(** The blocks in use, the newest first. *)
Definition spec_mem (os : list memoryNode) (o : mem_op) : list memoryNode :=
  match o with
  | MMalloc size dis => mkMemNode (fresh (list_to_set (mn_ptr <$> os) : gset addr)) size (take 98 dis) :: os
  | MFree ptr => filter (fun o => mn_ptr o <> ptr) os
  end.

Lemma run_mem_ok ops ml os e : mem_repr ml os -> mallocs e = [] ->
  exists ml', run_mem ops ml e = Some (ml', e) /\ mem_repr ml' (foldl spec_mem os ops).
Proof.
  intros R Q. revert ml os R. induction ops as [|[size dis|ptr] ops IH]; intros ml os R; cbn [run_mem foldl].
  - exists ml. auto.
  - destruct (memory_malloc_ok size dis ml os e R Q) as (ml1 & E & R1). rewrite run_bind, E. cbn [snd].
    rewrite (mr_blocks _ _ R) in R1. exact (IH _ _ R1).
  - destruct (memory_free_ok ml os ptr e R) as (ml1 & E & R1). rewrite run_bind, E. exact (IH _ _ R1).
Qed.

(** C32. From the list the program starts with, any sequence of [memory_malloc]s
    and [memory_free]s, frees of pointers that were never given out or twice
    given back included, ends without a fault; the list then holds the blocks
    given out and not given back, the newest first, no two at one address, and
    [memory_totalSize] and [memory_count] are the sum of their sizes and their
    number. *)
Theorem memory_accounts ops e : mallocs e = [] ->
  exists ml ps, let os := foldl spec_mem [] ops in
    run_mem ops memory_start e = Some (ml, e) /\
    lrep (ml_list ml) ps /\ Forall2 (fun p o => l_obj <$> l_nodes (ml_list ml) !! p = Some o) ps os /\
    NoDup (mn_ptr <$> os) /\ ml_blocks ml = list_to_set (mn_ptr <$> os) /\
    memory_totalSize ml = u64 (sizes os) /\ memory_count ml = u32 (Z.of_nat (length os)).
Proof.
  intros Q. destruct (run_mem_ok ops _ _ e mem_start_ok Q) as (ml & E & R).
  destruct (mr_list _ _ R) as (ps & L & F). exists ml, ps. cbv zeta.
  split; [exact E|]. split; [exact L|]. split; [exact F|]. split; [apply R|]. split; [apply R|]. split; [apply R|].
  now apply mem_count.
Qed.

Definition mem_ops : list mem_op := [MMalloc 16 []; MMalloc 32 []; MMalloc 8 []; MFree 2%positive; MFree 9%positive].

Lemma memory_accounts_witness : exists e ml ps, let os := foldl spec_mem [] mem_ops in
    mallocs e = [] /\ run_mem mem_ops memory_start e = Some (ml, e) /\
    lrep (ml_list ml) ps /\ Forall2 (fun p o => l_obj <$> l_nodes (ml_list ml) !! p = Some o) ps os /\
    NoDup (mn_ptr <$> os) /\ ml_blocks ml = list_to_set (mn_ptr <$> os) /\
    memory_totalSize ml = u64 (sizes os) /\ memory_count ml = u32 (Z.of_nat (length os)).
Proof.
  exists (mkEnv 0 0 (POFET_HELLO_FAILED, POFET_HELLO_FAILED) 0 POFCS_CHANNEL_INVALID [] false [] [] [] []).
  edestruct (memory_accounts mem_ops (mkEnv 0 0 (POFET_HELLO_FAILED, POFET_HELLO_FAILED) 0 POFCS_CHANNEL_INVALID [] false [] [] [] [])) as (ml & ps & H); [reflexivity|].
  exists ml, ps. split; [reflexivity|exact H].
Defined.
