(* ===== verification/Tree.v ===== *)
(** * The binary prefix tree of common/pof_tree.c

    LPM tables keep their entries in a binary tree walked bit by bit, most
    significant bit first.  A node is owned by its parent, so a pointer to a
    node is the node itself ([TNull] is [NULL]).  The functions shift the key in
    place; its bits are those of [bit_at]. *)

From S2P Require Import Prelude Env Hmap.

(** [struct treeNode]; [ptr] points to the structure stored at the node. *)
Inductive treeNode :=
| TNull
| TNode (ptr : option addr) (leftSon rightSon : treeNode).

Record tree := mkTree { root : treeNode; count : Z }.

(** [tree_nodeCreate]: [TNull] when the allocation fails. *)
Definition tree_nodeCreate : St treeNode :=
  ok ← malloc;
  if negb ok then
    _ ← pofec_set_error POFET_SOFTWARE_FAILED POF_ALLOCATE_RESOURCE_FAILURE; mret TNull
  else mret (TNode None TNull TNull).

Definition tree_create : St (option tree) :=
  ok ← malloc;
  if negb ok then
    _ ← pofec_set_error POFET_SOFTWARE_FAILED POF_ALLOCATE_RESOURCE_FAILURE; mret None
  else
    r ← tree_nodeCreate;
    match r with
    | TNull => _ ← pofec_set_error POFET_SOFTWARE_FAILED POF_ALLOCATE_RESOURCE_FAILURE; mret None
    | _ => mret (Some (mkTree r 0))
    end.

(** Destroying dereferences the node: a [NULL] root faults. *)
Definition tree_nodeDestroy (node : treeNode) : option treeNode :=
  match node with TNull => None | TNode _ _ _ => Some TNull end.

Definition tree_clear (t : tree) : option tree :=
  r ← tree_nodeDestroy (root t); Some (mkTree r 0).

(** [moveLeft]: shift the first [bitNum] bits of [value] left by one. *)
Fixpoint moveLeft_loop (fuel : nat) (value : list Z) (i last : Z) : option (list Z) :=
  if i <? last then
    match fuel with
    | O => None
    | S fuel' =>
        a ← rd value i; b ← rd value (i + 1);
        value' ← wr value i (u8 (Z.lor (Z.shiftl a 1) (Z.shiftr b 7)));
        moveLeft_loop fuel' value' (i + 1) last
    end
  else a ← rd value i; wr value i (u8 (Z.shiftl a 1)).

Definition moveLeft (value : list Z) (bitNum : Z) : option (list Z) :=
  if bitNum =? 0 then Some value
  else
    let last := u32 (u32 (bitNum + 7) / 8 - 1) in
    moveLeft_loop (length value) value 0 last.

Definition toLeft (value : list Z) : option bool :=
  v ← rd value 0; Some (negb (Z.land v 0x80 =? 0x80)).

Definition isLeaf (node : treeNode) : bool :=
  match node with TNode _ TNull TNull => true | _ => false end.

(** [tree_nodeInsert] below the node [t]; the result holds the return code and
    the tree as left behind, also when an allocation fails on the way. *)
Fixpoint insert_loop (bitNum : nat) (t : treeNode) (value : list Z) (ptr : addr) : St (Z * treeNode) :=
  match t with
  | TNull => fault
  | TNode p l r =>
      match bitNum with
      | O => mret (POF_OK, TNode (Some ptr) l r)
      | S b =>
          left ← lift (toLeft value);
          value' ← lift (moveLeft value (Z.of_nat bitNum));
          let son := if (left : bool) then l else r in
          let put s := if (left : bool) then TNode p s r else TNode p l s in
          match son with
          | TNull =>
              s ← tree_nodeCreate;
              match s with
              | TNull =>
                  ret ← POF_ERROR_HANDLE_RETURN_NO_UPWARD POFET_SOFTWARE_FAILED POF_ALLOCATE_RESOURCE_FAILURE;
                  mret (ret, put TNull)
              | _ => '(ret, s') ← insert_loop b s value' ptr; mret (ret, put s')
              end
          | _ => '(ret, s') ← insert_loop b son value' ptr; mret (ret, put s')
          end
      end
  end.

Definition tree_nodeInsert (t : tree) (ptr : addr) (value : list Z) (bitNum : Z) : St (Z * tree) :=
  '(ret, r) ← insert_loop (Z.to_nat bitNum) (root t) value ptr;
  mret (ret, mkTree r (if ret =? POF_OK then u32 (count t + 1) else count t)).

(** [tree_nodeDelete] below [t]; [top] says that [t] is the root. *)
Fixpoint delete_loop (bitNum : nat) (top : bool) (t : treeNode) (value : list Z) : option (Z * treeNode) :=
  match t with
  | TNull => None
  | TNode p l r =>
      match bitNum with
      | O => if isLeaf (TNode None l r) && negb top
             then Some (POF_OK, TNull) else Some (POF_OK, TNode None l r)
      | S b =>
          left ← toLeft value;
          value' ← moveLeft value (Z.of_nat bitNum);
          let son := if (left : bool) then l else r in
          let put s := if (left : bool) then TNode p s r else TNode p l s in
          match son with
          | TNull => Some (POF_ERROR, t)
          | _ => '(ret, s') ← delete_loop b false son value'; Some (ret, put s')
          end
      end
  end.

Definition tree_nodeDelete (t : tree) (value : list Z) (bitNum : Z) : option (Z * tree) :=
  '(ret, r) ← delete_loop (Z.to_nat bitNum) true (root t) value;
  Some (ret, mkTree r (if ret =? POF_OK then u32 (count t - 1) else count t)).

(** [tree_nodeLookup]: walks as long as there is a node, [bitNum] wraps below
    zero. *)
Fixpoint lookup_loop (t : treeNode) (value : list Z) (bitNum : Z) (ptr : option addr)
  : option (option addr) :=
  match t with
  | TNull => Some ptr
  | TNode p l r =>
      let ptr' := match p with Some _ => p | None => ptr end in
      left ← toLeft value;
      value' ← moveLeft value bitNum;
      if (left : bool) then lookup_loop l value' (u32 (bitNum - 1)) ptr'
      else lookup_loop r value' (u32 (bitNum - 1)) ptr'
  end.

Definition tree_nodeLookup (t : tree) (value : list Z) (bitNum : Z) : option (option addr) :=
  lookup_loop (root t) value bitNum None.

(** [nodeTrav]: post-order, [func] sees the nodes that hold a pointer. *)
Fixpoint nodeTrav {S : Type} (t : treeNode) (func : addr -> S -> Z * S) (arg : S) : Z * S :=
  match t with
  | TNull => (POF_OK, arg)
  | TNode p l r =>
      let '(r1, s1) := nodeTrav l func arg in
      if negb (r1 =? POF_OK) then (POF_ERROR, s1)
      else
        let '(r2, s2) := nodeTrav r func s1 in
        if negb (r2 =? POF_OK) then (POF_ERROR, s2)
        else match p with Some a => func a s2 | None => (POF_OK, s2) end
  end.

Definition tree_nodeTrav {S : Type} (t : tree) (func : addr -> S -> Z * S) (arg : S) : Z * S :=
  nodeTrav (root t) func arg.

(** ** Specification: a partial map from bit strings *)

(** What the tree stores under a bit string ([false] is left). *)
Fixpoint tree_ptr (t : treeNode) (path : list bool) : option addr :=
  match t, path with
  | TNull, _ => None
  | TNode p _ _, [] => p
  | TNode _ l r, b :: path' => tree_ptr (if b then r else l) path'
  end.

(** Longest prefix of [path] that stores something. *)
Fixpoint longest_prefix (f : list bool -> option addr) (path : list bool) : option addr :=
  match path with
  | [] => f []
  | b :: path' =>
      match longest_prefix (fun q => f (b :: q)) path' with
      | Some a => Some a
      | None => f []
      end
  end.

(** The first [n] bits of a buffer. *)
Fixpoint bits_from (value : list Z) (i : Z) (n : nat) : list bool :=
  match n with O => [] | S n' => bit_at value i :: bits_from value (i + 1) n' end.
Definition prefix_bits (value : list Z) (n : Z) : list bool := bits_from value 0 (Z.to_nat n).

Fixpoint depth (t : treeNode) : nat :=
  match t with TNull => 0 | TNode _ l r => S (Nat.max (depth l) (depth r)) end.

(** ** Lemmas *)

(** *** Shifting the key *)

Section shift.
Context (v0 : list Z) (last : Z).
Hypothesis Hlast : 0 <= last < blen v0.

(** The first [i] bytes are shifted, the others not yet. *)
Definition shifted (v : list Z) (i : Z) : Prop :=
  length v = length v0 /\ bytes_ok v /\
  forall j, 0 <= j -> bit_at v j = if j <? 8 * i then bit_at v0 (j + 1) else bit_at v0 j.

Lemma shift_byte v i b w : shifted v i -> 0 <= i < blen v0 -> 
  (forall m, 0 <= m < 8 -> Z.testbit (u8 w) m = if m =? 0 then b else Z.testbit (byte_at v i) (m - 1)) ->
  b = bit_at v0 (8 * i + 8) \/ i = last -> 
  length (<[Z.to_nat i := u8 w]> v) = length v0 /\ bytes_ok (<[Z.to_nat i := u8 w]> v) /\
  forall j, 0 <= j -> j <> 8 * i + 7 \/ b = bit_at v0 (8 * i + 8) ->
    bit_at (<[Z.to_nat i := u8 w]> v) j = if j <? 8 * (i + 1) then bit_at v0 (j + 1) else bit_at v0 j.
Proof.
  intros (L & B & S) Hi Hw Hb. assert (blen v = blen v0) as Lb by (unfold blen; lia).
  split; [now rewrite length_insert|]. split; [auto with pof|].
  intros j Hj Hn. rewrite bit_at_insert by lia.
  destruct (Z.leb_spec (8 * i) j); [destruct (Z.ltb_spec j (8 * i + 8))|]; cbn [andb].
  - zcases. rewrite Hw by lia. destruct (Z.eqb_spec (7 - (j - 8 * i)) 0).
    + destruct Hn as [?| ->]; [lia|]. f_equal. lia.
    + assert (bit_at v (j + 1) = bit_at v0 (j + 1)) as <- by (rewrite S by lia; zcases; done).
      replace (j + 1) with (8 * i + (j + 1 - 8 * i)) by lia. rewrite bit_at_byte by lia. f_equal. lia.
  - rewrite S by lia. zcases; done.
  - rewrite S by lia. zcases; done.
Qed.

Lemma moveLeft_loop_ok fuel : forall v i, shifted v i -> 0 <= i <= last ->
  last - i <= Z.of_nat fuel ->
  exists v', moveLeft_loop fuel v i last = Some v' /\ length v' = length v0 /\ bytes_ok v' /\
    forall j, 0 <= j < 8 * last + 7 -> bit_at v' j = bit_at v0 (j + 1).
Proof.
  induction fuel as [|fuel IH]; intros v i Sh Hi Hf; pose proof Sh as (L & B & S);
    assert (blen v = blen v0) as Lb by (unfold blen; lia); cbn [moveLeft_loop].
  all: destruct (Z.ltb_spec i last); [try lia|].
  - assert (i = last) as -> by lia. rewrite rd_in by lia. cbn [mbind option_bind].
    rewrite wr_in by lia. eexists. split; [reflexivity|].
    destruct (shift_byte v last false (Z.shiftl (byte_at v last) 1) Sh) as (L' & B' & S'); [lia| |auto|].
    { intros m Hm. rewrite testbit_u8, Z.shiftl_spec by lia. zcases; [|done].
      now rewrite Z.testbit_neg_r by lia. }
    split; [done|]. split; [done|]. intros j Hj. rewrite S' by lia. zcases. done.
  - rewrite !rd_in by lia. cbn [mbind option_bind]. rewrite wr_in by lia. cbn [mbind option_bind].
    destruct (shift_byte v i (bit_at v0 (8 * i + 8))
      (Z.lor (Z.shiftl (byte_at v i) 1) (Z.shiftr (byte_at v (i + 1)) 7)) Sh) as (L' & B' & S'); [lia| |auto|].
    { intros m Hm. rewrite testbit_u8, Z.lor_spec, Z.shiftl_spec, Z.shiftr_spec by lia.
      zcases.
      - subst m. rewrite (Z.testbit_neg_r _ (0 - 1)) by lia. cbn [orb].
        assert (bit_at v (8 * (i + 1) + 0) = bit_at v0 (8 * i + 8)) as <-
          by (rewrite S by lia; zcases; f_equal; lia).
        rewrite bit_at_byte by lia. done.
      - rewrite (byte_testbit_high (byte_at v (i + 1)) (m + 7)) by (auto with pof; lia).
        now rewrite orb_false_r. }
    apply IH; [|lia|lia]. split; [done|]. split; [done|]. intros j Hj. rewrite S' by auto. done.
  - assert (i = last) as -> by lia. rewrite rd_in by lia. cbn [mbind option_bind].
    rewrite wr_in by lia. eexists. split; [reflexivity|].
    destruct (shift_byte v last false (Z.shiftl (byte_at v last) 1) Sh) as (L' & B' & S'); [lia| |auto|].
    { intros m Hm. rewrite testbit_u8, Z.shiftl_spec by lia. zcases; [|done].
      now rewrite Z.testbit_neg_r by lia. }
    split; [done|]. split; [done|]. intros j Hj. rewrite S' by lia. zcases. done.
Qed.
End shift.

Lemma moveLeft_ok value bitNum : bytes_ok value -> 1 <= bitNum <= 8 * blen value ->
  bitNum < 2147483648 ->
  exists v', moveLeft value bitNum = Some v' /\ blen v' = blen value /\ bytes_ok v' /\
    forall j, 0 <= j < bitNum - 1 -> bit_at v' j = bit_at value (j + 1).
Proof.
  intros Hv Hb Hm. unfold moveLeft. zcases.
  replace (u32 (u32 (bitNum + 7) / 8 - 1)) with ((bitNum + 7) / 8 - 1) by mod_lia.
  destruct (moveLeft_loop_ok value ((bitNum + 7) / 8 - 1) ltac:(lia) (length value) value 0)
    as (v' & E & L & B & S); [| |unfold blen in *; lia|].
  - split; [done|]. split; [done|]. intros j Hj. zcases. done.
  - lia.
  - exists v'. split; [done|]. split; [unfold blen; lia|]. split; [done|]. intros j Hj. apply S. lia.
Qed.

Lemma toLeft_ok value : bytes_ok value -> 1 <= blen value -> toLeft value = Some (negb (bit_at value 0)).
Proof.
  intros Hv Hl. unfold toLeft. rewrite rd_in by lia. cbn [mbind option_bind]. do 2 f_equal.
  replace (bit_at value 0) with (Z.testbit (byte_at value 0) 7) by reflexivity.
  pose proof (bytes_ok_at _ 0 Hv) as Hb. revert Hb. generalize (byte_at value 0) as b.
  intros b Hb. change 0x80 with (Z.shiftl 1 7). destruct (Z.testbit b 7) eqn:T.
  - apply Z.eqb_eq, Z.bits_inj'. intros j Hj. rewrite Z.land_spec, Z.shiftl_spec by lia.
    destruct (Z.eqb_spec j 7) as [->|]; [now rewrite T|].
    replace (Z.testbit 1 (j - 7)) with false; [apply andb_false_r|].
    destruct (Z.ltb_spec j 7); [now rewrite Z.testbit_neg_r by lia|].
    symmetry. apply Z.bits_above_log2; cbn; lia.
  - apply Z.eqb_neq. intros E. assert (Z.testbit (Z.land b (Z.shiftl 1 7)) 7 = Z.testbit (Z.shiftl 1 7) 7)
      as F by now rewrite E. rewrite Z.land_spec, T in F. discriminate.
Qed.

(** *** Bit strings *)

Lemma bits_from_shift v v' n : forall i, 0 <= i ->
  (forall j, i <= j < i + Z.of_nat n -> bit_at v' j = bit_at v (j + 1)) ->
  bits_from v' i n = bits_from v (i + 1) n.
Proof.
  induction n as [|n IH]; intros i Hi H; cbn [bits_from]; [done|].
  f_equal; [apply H; lia|]. apply IH; [lia|]. intros j Hj. apply H. lia.
Qed.

(** One step of the walk: the first bit of the key selects the son, the shifted
    key holds the remaining bits. *)
Lemma prefix_bits_step value v' bitNum : 1 <= bitNum ->
  (forall j, 0 <= j < bitNum - 1 -> bit_at v' j = bit_at value (j + 1)) ->
  prefix_bits value bitNum = bit_at value 0 :: prefix_bits v' (bitNum - 1).
Proof.
  intros Hb H. unfold prefix_bits. replace (Z.to_nat bitNum) with (S (Z.to_nat (bitNum - 1))) by lia.
  cbn [bits_from]. f_equal. symmetry. apply bits_from_shift; [lia|]. intros j Hj. apply H. lia.
Qed.

Lemma length_prefix_bits value n : length (prefix_bits value n) = Z.to_nat n.
Proof.
  unfold prefix_bits. generalize (Z.to_nat n) as k. intros k. generalize 0.
  induction k; intros; cbn; auto.
Qed.

Lemma longest_prefix_none path : longest_prefix (fun _ => None) path = None.
Proof. induction path; cbn; [done|]. now rewrite IHpath. Qed.

Lemma longest_prefix_ext f g path : (forall q, f q = g q) -> longest_prefix f path = longest_prefix g path.
Proof.
  revert f g. induction path as [|b path IH]; intros f g H; cbn; [auto|].
  rewrite (IH _ (fun q => g (b :: q))) by auto. now rewrite H.
Qed.

(** *** Lookup *)

Lemma lookup_loop_ok t : forall value bitNum ptr, bytes_ok value -> 1 <= blen value ->
  0 <= bitNum <= 8 * blen value -> bitNum < 2147483648 -> (depth t <= S (Z.to_nat bitNum))%nat ->
  lookup_loop t value bitNum ptr =
  Some (match longest_prefix (tree_ptr t) (prefix_bits value bitNum) with
        | Some a => Some a | None => ptr end).
Proof.
  induction t as [|p l IHl r IHr]; intros value bitNum ptr Hv Hl Hb Hm Hd; cbn [lookup_loop].
  - rewrite (longest_prefix_ext _ (fun _ => None)) by (intros [|? ?]; done).
    now rewrite longest_prefix_none.
  - rewrite toLeft_ok by done. cbn [mbind option_bind]. cbn [depth] in Hd.
    destruct (Z.eqb_spec bitNum 0) as [->|Hn].
    + assert (l = TNull) as -> by (destruct l; [done|cbn [depth] in Hd; lia]).
      assert (r = TNull) as -> by (destruct r; [done|cbn [depth] in Hd; lia]).
      unfold moveLeft. cbn. destruct (bit_at value 0), p; done.
    + destruct (moveLeft_ok value bitNum) as (v' & E & L & B & S); [done|lia|done|].
      rewrite E. cbn [mbind option_bind]. rewrite u32_small by lia.
      rewrite (prefix_bits_step value v' bitNum) by (lia || done). cbn [longest_prefix].
      destruct (bit_at value 0); cbn [negb].
      * rewrite IHr by (try done; lia). cbn [tree_ptr].
        destruct (longest_prefix (tree_ptr r) _); [done|]. destruct p; done.
      * rewrite IHl by (try done; lia). cbn [tree_ptr].
        destruct (longest_prefix (tree_ptr l) _); [done|]. destruct p; done.
Qed.

(** *** Insertion *)

Lemma insert_loop_ok n : forall t value ptr e, t <> TNull -> bytes_ok value ->
  Z.of_nat n <= 8 * blen value -> Z.of_nat n < 2147483648 ->
  exists ret t' e', insert_loop n t value ptr e = Some ((ret, t'), e') /\ t' <> TNull /\
    (depth t' <= Nat.max (depth t) (S n))%nat /\
    (forall q, tree_ptr t' q =
       if decide (ret = POF_OK /\ q = prefix_bits value (Z.of_nat n)) then Some ptr else tree_ptr t q) /\
    (mallocs e = [] -> ret = POF_OK /\ e' = e).
Proof.
  induction n as [|n IH]; intros [|p l r] value ptr e Ht Hv Hb Hm; try done; cbn [insert_loop].
  - exists POF_OK, (TNode (Some ptr) l r), e. split; [reflexivity|]. split; [done|].
    split; [cbn; lia|]. split; [|done]. intros [|b q].
    + rewrite decide_True; done.
    + rewrite decide_False; [done|]. intros [_ ?]. done.
  - rewrite !run_bind, toLeft_ok by (done || lia). unfold lift at 1. rewrite run_bind.
    destruct (moveLeft_ok value (Z.of_nat (S n))) as (v' & E & L & B & Sh); [done|lia|lia|].
    rewrite E. unfold lift at 1.
    assert (prefix_bits value (Z.of_nat (S n)) = bit_at value 0 :: prefix_bits v' (Z.of_nat n)) as Ep.
    { rewrite (prefix_bits_step value v') by (lia || done). do 2 f_equal. lia. }
    rewrite Ep. clear E Sh Ep. generalize (bit_at value 0) as b. intros b.
    set (put s := if negb b then TNode p s r else TNode p l s).
    set (son := if negb b then l else r).
    assert (forall s e, s <> TNull -> exists ret t' e',
      ('(ret, s') ← insert_loop n s v' ptr; mret (ret, put s')) e = Some ((ret, t'), e') /\
      (exists s', t' = put s' /\ (depth s' <= Nat.max (depth s) (S n))%nat /\
        (forall q, tree_ptr s' q = if decide (ret = POF_OK /\ q = prefix_bits v' (Z.of_nat n))
                                   then Some ptr else tree_ptr s q)) /\
      (mallocs e = [] -> ret = POF_OK /\ e' = e)) as Go.
    { clear e. intros s e Hs. destruct (IH s v' ptr e Hs B ltac:(lia) ltac:(lia))
        as (ret & s' & e' & E & _ & D & T & M).
      exists ret, (put s'), e'. rewrite run_bind, E. split; [reflexivity|]. eauto. }
    assert (forall ret s s', (forall q, tree_ptr s' q = if decide (ret = POF_OK /\ q = prefix_bits v' (Z.of_nat n))
         then Some ptr else tree_ptr s q) -> (forall q, tree_ptr s q = tree_ptr son q) ->
      forall q, tree_ptr (put s') q =
        if decide (ret = POF_OK /\ q = b :: prefix_bits v' (Z.of_nat n)) then Some ptr
        else tree_ptr (TNode p l r) q) as Put.
    { intros ret s s' Hs Hss q. destruct q as [|b' q].
      - rewrite decide_False by (intros [_ ?]; done). unfold put. destruct b; done.
      - unfold put, son in *. destruct b, b'; cbn [negb tree_ptr] in *; rewrite ?Hs, ?Hss.
        + apply decide_ext. split; intros [-> ?]; (split; [done|congruence]).
        + rewrite decide_False; [done|]. intros [_ ?]. congruence.
        + rewrite decide_False; [done|]. intros [_ ?]. congruence.
        + apply decide_ext. split; intros [-> ?]; (split; [done|congruence]). }
    assert (forall s', (depth s' <= Nat.max (depth son) (S n))%nat ->
      (depth (put s') <= Nat.max (depth (TNode p l r)) (S (S n)))%nat) as Dp.
    { intros s'. unfold put, son. destruct b; cbn [negb depth]; lia. }
    assert (forall s', put s' <> TNull) as Np by (intros s'; unfold put; destruct b; done).
    destruct son as [|sp sl sr] eqn:Es.
    + rewrite run_bind. unfold tree_nodeCreate. rewrite run_bind. unfold malloc.
      assert (forall e1, mallocs e <> [] -> exists ret t' e',
        (ret ← POF_ERROR_HANDLE_RETURN_NO_UPWARD POFET_SOFTWARE_FAILED POF_ALLOCATE_RESOURCE_FAILURE;
         mret (ret, put TNull)) e1 = Some ((ret, t'), e') /\ t' <> TNull /\
        (depth t' <= Nat.max (depth (TNode p l r)) (S (S n)))%nat /\
        (forall q, tree_ptr t' q =
          if decide (ret = POF_OK /\ q = b :: prefix_bits v' (Z.of_nat n)) then Some ptr
          else tree_ptr (TNode p l r) q) /\ (mallocs e = [] -> ret = POF_OK /\ e' = e)) as Fail.
      { intros e1 Hne. eexists _, _, _. split; [reflexivity|]. split; [apply Np|].
        split; [apply Dp; cbn; lia|]. split; [|done].
        apply (Put _ TNull); [|done]. intros q. rewrite decide_False; [done|]. intros [? _]. done. }
      destruct (mallocs e) as [|[] ml] eqn:Em.
      * destruct (Go (TNode None TNull TNull) e) as (ret & t' & e' & E & (s' & -> & D & T) & M); [done|].
        exists ret, (put s'), e'. split; [exact E|]. split; [apply Np|].
        split; [apply Dp; cbn [depth] in *; lia|]. split; [|intros _; now apply M].
        apply (Put _ (TNode None TNull TNull)); [exact T|]. intros [|[] q]; done.
      * destruct (Go (TNode None TNull TNull) (set_mallocs ml e)) as (ret & t' & e' & E & (s' & -> & D & T) & _); [done|].
        exists ret, (put s'), e'. split; [exact E|]. split; [apply Np|].
        split; [apply Dp; cbn [depth] in *; lia|]. split; [|done].
        apply (Put _ (TNode None TNull TNull)); [exact T|]. intros [|[] q]; done.
      * cbn [negb]. rewrite run_bind. apply Fail. done.
    + destruct (Go (TNode sp sl sr) e) as (ret & t' & e' & E & (s' & -> & D & T) & M); [done|].
      exists ret, (put s'), e'. split; [exact E|]. split; [apply Np|].
      split; [apply Dp; lia|]. split; [|exact M].
      apply (Put _ (TNode sp sl sr)); [exact T|done].
Qed.

(** *** Deletion *)

Lemma delete_loop_ok n : forall top t value, t <> TNull -> bytes_ok value ->
  Z.of_nat n <= 8 * blen value -> Z.of_nat n < 2147483648 ->
  exists ret t', delete_loop n top t value = Some (ret, t') /\ (top = true -> t' <> TNull) /\
    (depth t' <= depth t)%nat /\
    (ret = POF_OK /\ (forall q, tree_ptr t' q =
       if decide (q = prefix_bits value (Z.of_nat n)) then None else tree_ptr t q) \/
     ret = POF_ERROR /\ t' = t /\ tree_ptr t (prefix_bits value (Z.of_nat n)) = None).
Proof.
  induction n as [|n IH]; intros top [|p l r] value Ht Hv Hb Hm; try done; cbn [delete_loop].
  - destruct (isLeaf (TNode None l r) && negb top) eqn:Lf.
    + exists POF_OK, TNull. split; [done|]. split; [intros ->; now rewrite andb_false_r in Lf|].
      split; [cbn; lia|]. left. split; [done|]. intros q. cbn [tree_ptr].
      apply andb_true_iff in Lf as [Lf _]. destruct l, r; try done. destruct q as [|[] q]; cbn; done.
    + exists POF_OK, (TNode None l r). split; [done|]. split; [done|]. split; [cbn; lia|].
      left. split; [done|]. intros [|b q]; done.
  - rewrite toLeft_ok by (done || lia). cbn [mbind option_bind].
    destruct (moveLeft_ok value (Z.of_nat (S n))) as (v' & E & L & B & Sh); [done|lia|lia|].
    rewrite E. cbn [mbind option_bind].
    assert (prefix_bits value (Z.of_nat (S n)) = bit_at value 0 :: prefix_bits v' (Z.of_nat n)) as Ep.
    { rewrite (prefix_bits_step value v') by (lia || done). do 2 f_equal. lia. }
    rewrite Ep. clear E Sh Ep. generalize (bit_at value 0) as b. intros b.
    assert (forall s, s <> TNull -> s = (if negb b then l else r) -> exists ret t',
      ('(ret, s') ← delete_loop n false s v';
       Some (ret, if negb b then TNode p s' r else TNode p l s')) = Some (ret, t') /\
      (top = true -> t' <> TNull) /\ (depth t' <= depth (TNode p l r))%nat /\
      (ret = POF_OK /\ (forall q, tree_ptr t' q =
         if decide (q = b :: prefix_bits v' (Z.of_nat n)) then None else tree_ptr (TNode p l r) q) \/
       ret = POF_ERROR /\ t' = TNode p l r /\
         tree_ptr (TNode p l r) (b :: prefix_bits v' (Z.of_nat n)) = None)) as Go.
    { intros s Hs Es. destruct (IH false s v' Hs B ltac:(lia) ltac:(lia)) as (ret & s' & E & _ & D & T).
      rewrite E. cbn [mbind option_bind]. eexists _, _. split; [reflexivity|].
      split; [intros _; destruct b; done|].
      split; [destruct b; cbn [negb depth] in *; subst s; lia|].
      destruct T as [[-> T]|(-> & -> & T)]; [left|right]; (split; [done|]).
      - intros [|b' q]; [destruct b; done|].
        destruct b, b'; cbn [negb tree_ptr] in *; subst s; rewrite ?T; try done.
        all: apply decide_ext; split; congruence.
      - destruct b; cbn [negb tree_ptr] in *; subst s; done. }
    destruct (if negb b then l else r) as [|sp sl sr] eqn:Es.
    + exists POF_ERROR, (TNode p l r). split; [done|]. split; [done|]. split; [lia|]. right.
      do 2 (split; [done|]). destruct b; cbn [negb tree_ptr] in *; subst; done.
    + apply Go; done.
Qed.

(** ** Properties *)

(** C40. LPM lookup: in a tree no deeper than the key is long,
    [tree_nodeLookup] stays inside the key buffer and returns what is stored
    under the longest prefix of the key that stores anything. *)
Theorem tree_lookup_longest_prefix t value bitNum :
  bytes_ok value -> 1 <= blen value -> 0 <= bitNum <= 8 * blen value -> bitNum < 2147483648 ->
  (depth (root t) <= S (Z.to_nat bitNum))%nat ->
  tree_nodeLookup t value bitNum = Some (longest_prefix (tree_ptr (root t)) (prefix_bits value bitNum)).
Proof.
  intros Hv Hl Hb Hm Hd. unfold tree_nodeLookup. rewrite lookup_loop_ok by done.
  now destruct (longest_prefix _ _).
Qed.

(** Insertion: storing a pointer under the first [bitNum] bits of a key
    changes the tree's map at that prefix only (and nothing when a node cannot
    be allocated), and without allocation failure it succeeds. *)
Theorem tree_insert_updates t ptr value bitNum e :
  root t <> TNull -> bytes_ok value -> 0 <= bitNum <= 8 * blen value -> bitNum < 2147483648 ->
  exists ret t' e', tree_nodeInsert t ptr value bitNum e = Some ((ret, t'), e') /\
    root t' <> TNull /\ (depth (root t') <= Nat.max (depth (root t)) (S (Z.to_nat bitNum)))%nat /\
    (forall q, tree_ptr (root t') q =
       if decide (ret = POF_OK /\ q = prefix_bits value bitNum) then Some ptr else tree_ptr (root t) q) /\
    (mallocs e = [] -> ret = POF_OK /\ e' = e).
Proof.
  intros Ht Hv Hb Hm. unfold tree_nodeInsert. rewrite run_bind.
  destruct (insert_loop_ok (Z.to_nat bitNum) (root t) value ptr e) as (ret & t' & e' & E & N & D & T & M);
    [done|done|lia|lia|].
  rewrite E. eexists _, _, _. split; [reflexivity|]. cbn [root].
  rewrite Z2Nat.id in T by lia. auto.
Qed.

(** Deletion: removing a prefix clears the tree's map at that prefix only;
    it fails, leaving the tree as it was, only when nothing is stored there. *)
Theorem tree_delete_updates t value bitNum :
  root t <> TNull -> bytes_ok value -> 0 <= bitNum <= 8 * blen value -> bitNum < 2147483648 ->
  exists ret t', tree_nodeDelete t value bitNum = Some (ret, t') /\ root t' <> TNull /\
    (forall q, tree_ptr (root t') q =
       if decide (q = prefix_bits value bitNum) then None else tree_ptr (root t) q) /\
    (ret <> POF_OK -> t' = t).
Proof.
  intros Ht Hv Hb Hm. unfold tree_nodeDelete.
  destruct (delete_loop_ok (Z.to_nat bitNum) true (root t) value) as (ret & t' & E & N & _ & T);
    [done|done|lia|lia|].
  rewrite Z2Nat.id in T by lia. rewrite E. cbn [mbind option_bind].
  eexists _, _. split; [reflexivity|]. cbn [root]. split; [now apply N|].
  destruct T as [[-> T]|(-> & -> & T)].
  - split; [exact T|]. intros []. done.
  - split; [|intros _; now destruct t]. intros q. case_decide as Hq; [now subst q|done].
Qed.

(** ** Witnesses *)

(** Two stored prefixes: 1 and 101. *)
Definition tree_example : tree :=
  mkTree (TNode None TNull (TNode (Some 7%positive)
    (TNode None TNull (TNode (Some 9%positive) TNull TNull)) TNull)) 2.

Lemma tree_lookup_longest_prefix_witness :
  tree_nodeLookup tree_example [0xA0] 8 = Some (Some 9%positive) /\
  tree_nodeLookup tree_example [0xC0] 8 = Some (Some 7%positive).
Proof.
  split; rewrite tree_lookup_longest_prefix; first [reflexivity | by_decide].
Defined.

Lemma tree_insert_updates_witness : exists t e',
  tree_nodeInsert tree_example 5%positive [0xC0] 2 (env_init POFCS_HELLO [] []) = Some ((POF_OK, t), e') /\
  tree_ptr (root t) [true; true] = Some 5%positive.
Proof.
  destruct (tree_insert_updates tree_example 5%positive [0xC0] 2 (env_init POFCS_HELLO [] []))
    as (ret & t' & e' & E & _ & _ & T & M); [done|by_decide|by_decide|lia|].
  destruct (M eq_refl) as [-> _]. exists t', e'. split; [exact E|]. rewrite T. reflexivity.
Defined.

Lemma tree_delete_updates_witness : exists ret t,
  tree_nodeDelete tree_example [0xA0] 3 = Some (ret, t) /\ tree_ptr (root t) [true; false; true] = None.
Proof.
  destruct (tree_delete_updates tree_example [0xA0] 3) as (ret & t' & E & _ & T & _);
    [done|by_decide|by_decide|lia|].
  exists ret, t'. split; [exact E|]. rewrite T. reflexivity.
Defined.
