(* ===== verification/LocalRes.v ===== *)
(** * The structures of the local resource

    The structs of include/pof_local_resource.h and of the messages that fill
    them (include/pof_global.h), the fresh values [malloc] and [memset] give
    them, and [struct pof_local_resource] itself.  An array member is a list of
    its own; reading past it is a fault. *)

From S2P Require Import Prelude Codec Env Hmap IdMap Tree.

(** ** Sizes *)

Definition POF_MAX_FIELD_LENGTH_IN_BYTE : Z := 16.
Definition POF_MAX_MATCH_FIELD_NUM : Z := 8.
Definition POF_MAX_INSTRUCTION_NUM : Z := 6.
Definition POF_MAX_ACTION_NUMBER_PER_INSTRUCTION : Z := 6.
Definition POF_MAX_ACTION_NUMBER_PER_GROUP : Z := 4.
Definition POF_MAX_ACTION_LENGTH : Z := 44.
Definition POF_MAX_INSTRUCTION_LENGTH : Z :=
  8 + POF_MAX_ACTION_NUMBER_PER_INSTRUCTION * (POF_MAX_ACTION_LENGTH + 4).

(** [pof_table_type]. *)
Definition POF_MM_TABLE : Z := 0.
Definition POF_LPM_TABLE : Z := 1.
Definition POF_EM_TABLE : Z := 2.
Definition POF_LINEAR_TABLE : Z := 3.
Definition POF_MAX_TABLE_TYPE : Z := 4.

(** ** Matches, actions, instructions *)

Record pof_match := mkMatch { m_field_id : Z; m_offset : Z; m_len : Z }.

Record pof_match_x := mkMatchX {
  mx_field_id : Z; mx_offset : Z; mx_len : Z;
  mx_value : list Z;                      (* 16 bytes *)
  mx_mask : list Z                        (* 16 bytes *)
}.

Record pof_action := mkAction { act_type : Z; act_len : Z; action_data : list Z (* 44 bytes *) }.

Record pof_instruction := mkInstruction {
  ins_type : Z; ins_len : Z; instruction_data : list Z (* 296 bytes *)
}.

Definition zeros (n : nat) : list Z := replicate n 0.
(** [strncpy(dst, src, n)] into an array of [n] bytes. *)
Fixpoint strncpy (src : list Z) (n : nat) : list Z :=
  match n, src with
  | O, _ => []
  | S n', c :: src' => if c =? 0 then zeros n else c :: strncpy src' n'
  | S _, [] => zeros n
  end.

Definition match_zero := mkMatch 0 0 0.
Definition match_x_zero := mkMatchX 0 0 0 (zeros 16) (zeros 16).
Definition action_zero := mkAction 0 0 (zeros 44).
Definition instruction_zero := mkInstruction 0 0 (zeros 296).

(** ** Messages that modify the resource *)

Record pof_flow_table := mkFlowTable {
  ft_command : Z; ft_tid : Z; ft_type : Z; ft_match_field_num : Z; ft_size : Z; ft_key_len : Z;
  ft_slotID : Z; ft_table_name : list Z; ft_match : list pof_match
}.

Record pof_flow_entry := mkFlowEntry {
  fe_command : Z; fe_match_field_num : Z; fe_instruction_num : Z; fe_counter_id : Z;
  fe_cookie : Z; fe_cookie_mask : Z; fe_table_id : Z; fe_table_type : Z;
  fe_idle_timeout : Z; fe_hard_timeout : Z; fe_priority : Z; fe_index : Z; fe_slotID : Z;
  fe_match : list pof_match_x;            (* 8 *)
  fe_instruction : list pof_instruction   (* 6 *)
}.

Record pof_meter := mkMeter { pm_command : Z; pm_slotID : Z; pm_meter_id : Z; pm_rate : Z }.

Record pof_group := mkGroup {
  pg_command : Z; pg_type : Z; pg_action_number : Z; pg_group_id : Z; pg_counter_id : Z;
  pg_slotID : Z; pg_action : list pof_action   (* 4 *)
}.

Record pof_counter := mkCounter {
  pc_command : Z; pc_slotID : Z; pc_counter_id : Z; pc_value : Z; pc_byte_value : Z
}.

(** ** Resource structures *)

Record counterInfo := mkCounterInfo { co_id : Z; co_value : Z; co_byte_value : Z }.

Record meterInfo := mkMeterInfo { me_rate : Z; me_id : Z }.

Record groupInfo := mkGroupInfo {
  gr_type : Z; gr_action_number : Z; gr_id : Z; gr_counter_id : Z; gr_action : list pof_action
}.

Record entryInfo := mkEntryInfo {
  en_index : Z; en_counter_id : Z; en_instruction_num : Z; en_instruction : list pof_instruction;
  en_priority : Z; en_keyLen : Z; en_match_field_num : Z; en_match : list pof_match_x;
  en_value : list Z; en_mask : list Z     (* 128 bytes each *)
}.

(** The entries of a table are a resource of their own: [entryMap], [entryNum]
    and [size]. *)
Record tableInfo := mkTableInfo {
  tb_id : Z; tb_type : Z; tb_name : list Z;
  tb_entries : resource entryInfo;
  tb_keyLen : Z; tb_tree : option tree;
  tb_match_field_num : Z; tb_match : list pof_match
}.
Definition tb_size (t : tableInfo) : Z := r_max (tb_entries t).

(** [struct portInfo]; [pofIndexNode] is the cell around it, [nameNode] a
    structure of its own at the same address. *)
Record portInfo := mkPortInfo {
  po_pofIndex : Z; po_sysIndex : Z; po_pofState : Z; po_slotID : Z; po_of_enable : Z; po_config : Z;
  po_hwaddr : list Z (* 6 *); po_name : list Z (* 64 *);
  po_ip : list Z (* 20 *); po_taskID : Z; po_queue_fd : list Z (* 9 *); po_num_queues : Z
}.

(** [portInfo.nameNode], a node of [portNameMap]: it holds nothing but its hash. *)
Record nameNode := mkNameNode { nn_hash : Z }.

Definition counter_zero := mkCounterInfo 0 0 0.
Definition meter_zero := mkMeterInfo 0 0.
Definition group_zero := mkGroupInfo 0 0 0 0 (replicate 4 action_zero).
Definition entry_zero := mkEntryInfo 0 0 0 (replicate 6 instruction_zero) 0 0 0
  (replicate 8 match_x_zero) (zeros 128) (zeros 128).
Definition table_zero := mkTableInfo 0 0 (zeros 64) (Res ∅ None 0 0) 0 None 0 (replicate 8 match_zero).
Definition port_zero := mkPortInfo 0 0 0 0 0 0 (zeros 6) (zeros 64) (zeros 20) 0 (replicate 9 0) 0.

(** ** The resource interface of each structure *)

Lemma u32_add x y : u32 (u32 x + y) = u32 (x + y).
Proof. unfold u32. apply Z.add_mod_idemp_l. lia. Qed.
Lemma u16_add x y : u16 (u16 x + y) = u16 (x + y).
Proof. unfold u16. apply Z.add_mod_idemp_l. lia. Qed.

#[export] Instance counter_resource : Resource counterInfo :=
  { res_id := co_id; res_zero := counter_zero; res_wrap := u32; res_wrap_wrap := u32_add }.
#[export] Instance meter_resource : Resource meterInfo :=
  { res_id := me_id; res_zero := meter_zero; res_wrap := u32; res_wrap_wrap := u32_add }.
#[export] Instance group_resource : Resource groupInfo :=
  { res_id := gr_id; res_zero := group_zero; res_wrap := u32; res_wrap_wrap := u32_add }.
#[export] Instance table_resource : Resource tableInfo :=
  { res_id := tb_id; res_zero := table_zero; res_wrap := u16; res_wrap_wrap := u16_add }.
#[export] Instance port_resource : Resource portInfo :=
  { res_id := po_pofIndex; res_zero := port_zero; res_wrap := u16; res_wrap_wrap := u16_add }.
#[export] Instance name_resource : Resource nameNode :=
  { res_id := nn_hash; res_zero := mkNameNode 0; res_wrap := u16; res_wrap_wrap := u16_add }.

(** ** [struct pof_local_resource] *)

Record pof_local_resource := mkLR {
  lr_slotID : Z;
  lr_ports : resource portInfo;
  lr_tables : resource tableInfo;
  tableNumMaxEachType : list Z;           (* 4 *)
  tableSizeMax : Z;
  poflr_key_len_each_type : list Z;       (* 4; a global of pof_flow_table.c *)
  lr_groups : resource groupInfo;
  lr_meters : resource meterInfo;
  lr_counters : resource counterInfo;
  lr_names : resource nameNode;           (* portNameMap *)
  lr_portFlag : Z
}.

Definition set_tables t lr := mkLR (lr_slotID lr) (lr_ports lr) t (tableNumMaxEachType lr)
  (tableSizeMax lr) (poflr_key_len_each_type lr) (lr_groups lr) (lr_meters lr) (lr_counters lr) (lr_names lr) (lr_portFlag lr).
Definition set_groups g lr := mkLR (lr_slotID lr) (lr_ports lr) (lr_tables lr) (tableNumMaxEachType lr)
  (tableSizeMax lr) (poflr_key_len_each_type lr) g (lr_meters lr) (lr_counters lr) (lr_names lr) (lr_portFlag lr).
Definition set_meters m lr := mkLR (lr_slotID lr) (lr_ports lr) (lr_tables lr) (tableNumMaxEachType lr)
  (tableSizeMax lr) (poflr_key_len_each_type lr) (lr_groups lr) m (lr_counters lr) (lr_names lr) (lr_portFlag lr).
Definition set_counters c lr := mkLR (lr_slotID lr) (lr_ports lr) (lr_tables lr) (tableNumMaxEachType lr)
  (tableSizeMax lr) (poflr_key_len_each_type lr) (lr_groups lr) (lr_meters lr) c (lr_names lr) (lr_portFlag lr).
Definition set_key_lens k lr := mkLR (lr_slotID lr) (lr_ports lr) (lr_tables lr) (tableNumMaxEachType lr)
  (tableSizeMax lr) k (lr_groups lr) (lr_meters lr) (lr_counters lr) (lr_names lr) (lr_portFlag lr).

(** A handler returns its code and the resource. *)
Definition ret_err (type code : ecode) (xid : St Z) (lr : pof_local_resource)
  : St (Z * pof_local_resource) :=
  x ← xid; r ← POF_ERROR_HANDLE_RETURN_UPWARD type code x; mret (r, lr).

Definition recv_xid : St Z := e ← get_env; mret (g_recv_xid e).

(** A reply whose failure is reported: the common end of the request handlers. *)
Definition reply_checked (type : Z) (xid : St Z) (len : Z) (body : option (list Z)) : St Z :=
  x ← xid;
  ret ← pofec_reply_msg type x len body;
  if negb (ret =? POF_OK) then
    x ← recv_xid; POF_ERROR_HANDLE_RETURN_UPWARD POFET_SOFTWARE_FAILED POF_WRITE_MSG_QUEUE_FAILURE x
  else mret POF_OK.

(** ** Abstract outcomes of a handler

    A handler either faults, refuses with an error type and code (the resource
    is left as it was and the error is reported), or is done. *)
Inductive outcome (A : Type) := Fault | Refuse (type code : ecode) | Done (a : A).
Arguments Fault {A}.
Arguments Refuse {A} _ _.
Arguments Done {A} _.

(** What an error report does to the environment when no service fails. *)
Definition reports (type code : ecode) (xid : Z) (e e' : env) : Prop :=
  reported e e' /\ g_pofec_error e' = (type, code) /\
  send_q e' = send_q e ++ (if sending e then [error_message e type code xid] else []).

(** Reporting under the id of the request, then going on with [k]. *)
Lemma recv_then {A} (k : Z -> St A) e type code : env_ok e -> quiet e -> ecode_ok code ->
  exists e', (x ← recv_xid; ret ← POF_ERROR_HANDLE_RETURN_UPWARD type code x; k ret) e = k (err_ret code) e' /\
    reports type code (g_recv_xid e) e e'.
Proof.
  intros Ok Q Hc. rewrite run_bind. unfold recv_xid. rewrite run_bind.
  unfold get_env, mret at 1, St_ret. cbv beta iota. rewrite run_bind.
  destruct (error_upward_spec e type code (g_recv_xid e) Ok (proj2 (proj2 Q)) Hc)
    as (e' & E & R & H1 & H2 & H3).
  rewrite E. exists e'. split; [reflexivity|]. split; [done|]. split; [now apply H1|].
  destruct (sending e) eqn:S; [now apply H2|]. rewrite app_nil_r. now apply H3.
Qed.

Lemma ret_err_recv e type code lr : env_ok e -> quiet e -> ecode_ok code ->
  exists e', ret_err type code recv_xid lr e = Some ((err_ret code, lr), e') /\
    reports type code (g_recv_xid e) e e'.
Proof. apply recv_then. Qed.

(** Reporting under an id of the switch's own, then going on with [k]. *)
Lemma upward_then {A} (k : Z -> St A) e type code : env_ok e -> quiet e -> ecode_ok code ->
  exists e', (x ← upward_xid_pp; ret ← POF_ERROR_HANDLE_RETURN_UPWARD type code x; k ret) e = k (err_ret code) e' /\
    reports type code (g_upward_xid e) e e'.
Proof.
  intros Ok Q Hc. rewrite run_bind. unfold upward_xid_pp.
  set (e1 := set_upward_xid _ e). assert (reported e e1) as R1 by (apply reported_set_upward_xid, Ok).
  destruct (error_upward_spec e1 type code (g_upward_xid e) (rp_ok _ _ R1) (proj2 (proj2 Q)) Hc)
    as (e' & E & R & H1 & H2 & H3).
  rewrite run_bind, E. exists e'. split; [reflexivity|]. split; [now trans e1|]. split; [now apply H1|].
  destruct (sending e) eqn:S; [now apply H2|]. rewrite app_nil_r. now apply H3.
Qed.

Lemma ret_err_upward e type code lr : env_ok e -> quiet e -> ecode_ok code ->
  exists e', ret_err type code upward_xid_pp lr e = Some ((err_ret code, lr), e') /\
    reports type code (g_upward_xid e) e e'.
Proof. apply upward_then. Qed.

(** The request was refused and reported, under some transaction id. *)
Definition refused (type code : ecode) (e e' : env) : Prop := exists xid, reports type code xid e e'.

(** The errors told to the controller one after the other, and nothing else. *)
Inductive told : list (ecode * ecode) -> env -> env -> Prop :=
  | told_nothing e : told [] e e
  | told_more type code r e e1 e2 : refused type code e e1 -> told r e1 e2 -> told ((type, code) :: r) e e2.

Lemma told_one type code e e' : refused type code e e' -> told [(type, code)] e e'.
Proof. intros H. eapply told_more; [exact H|constructor]. Qed.

(** The error record is not part of a message. *)
Lemma reports_set_error e type code xid type0 code0 e' : env_ok e ->
  reports type code xid (set_error type0 code0 e) e' -> reports type code xid e e'.
Proof.
  intros Ok (R & G & Sq). split; [|split; [exact G|exact Sq]]. trans (set_error type0 code0 e); [|exact R].
  now apply reported_set_error.
Qed.

Lemma told_app r1 r2 e e1 e2 : told r1 e e1 -> told r2 e1 e2 -> told (r1 ++ r2) e e2.
Proof. induction 1; intros H2; [exact H2|]. cbn. eapply told_more; eauto. Qed.

Lemma told_reported r e e' : env_ok e -> told r e e' -> reported e e'.
Proof.
  intros Ok H. induction H as [e|type code r e e1 e2 (x & R & _) _ IH]; [now apply reported_refl|].
  trans e1; [exact R|]. apply IH, R.
Qed.
#[export] Hint Resolve told_one told_nothing told_reported : pof.

(** A structure that is allocated, filled, hashed and inserted: the common end
    of the handlers that create one. *)
Lemma res_create_quiet {V} `{Resource V} (r : resource V) e : mallocs e = [] ->
  res_create res_zero r e =
    Some ((Some (fresh_addr (r_heap r)),
           with_heap r (<[fresh_addr (r_heap r) := Cell 0 None res_zero]> (r_heap r))), e).
Proof. intros M. unfold res_create. rewrite run_bind. unfold malloc. rewrite M. reflexivity. Qed.

Lemma res_fill {V} (r : resource V) p h n z v : r_heap r !! p = None ->
  res_store p v (with_heap r (<[p := Cell h n z]> (r_heap r))) =
  Some (with_heap r (<[p := Cell h n v]> (r_heap r))).
Proof.
  intros Hp. unfold res_store, with_heap. cbn [r_heap]. rewrite lookup_insert_eq.
  cbn [mbind option_bind c_hash c_next r_map r_num r_max]. now rewrite insert_insert_eq.
Qed.

Lemma res_hash {V} (r : resource V) p h h' n v : r_heap r !! p = None ->
  res_set_hash p h' (with_heap r (<[p := Cell h n v]> (r_heap r))) =
  Some (with_heap r (<[p := Cell h' n v]> (r_heap r))).
Proof.
  intros Hp. unfold res_set_hash, with_heap. cbn [r_heap]. rewrite lookup_insert_eq.
  cbn [mbind option_bind c_obj c_next r_map r_num r_max]. now rewrite insert_insert_eq.
Qed.

Lemma reply_checked_quiet type len body x e : env_ok e -> quiet e -> sending e = true ->
  body_fits len (Some body) ->
  exists e', reply_checked type (mret x) len (Some body) e = Some (POF_OK, e') /\ reported e e' /\
    send_q e' = send_q e ++ [header_bytes type x (len + 8) ++ take (Z.to_nat len) body ++ q_residue e].
Proof.
  intros Ok Q S Hb. unfold reply_checked. rewrite run_bind. unfold mret at 1, St_ret. cbv beta iota.
  rewrite run_bind.
  destruct (reply_msg_spec e type x len (Some body) Ok (proj2 (proj2 Q)) S) as (r & e' & E & R & H); auto.
  destruct H as [(-> & _ & Sq)|(_ & _ & M)].
  - exists e'. rewrite E. split; [reflexivity|]. split; [exact R|]. rewrite Sq. reflexivity.
  - destruct Q as (Q1 & Q2 & _). rewrite Q1, Q2 in M. cbn in M. lia.
Qed.

(** A small resource for the examples. *)
Definition lr_example (ts : resource tableInfo) (gs : resource groupInfo) (ms : resource meterInfo)
    (cs : resource counterInfo) : pof_local_resource :=
  mkLR 0 (res_none 8) ts [10; 10; 10; 10] 1000 [160; 160; 160; 160] gs ms cs (res_none 8) 0.
