(* ===== verification/ByteTransfer.v ===== *)
(** * Byte order of the messages (common/pof_byte_transfer.c)

    Every function converts a struct in place; the model takes the memory from
    the struct's first byte on and gives the converted memory, [None] when a
    field lies outside of it.  The fields are converted in the order of the
    source.  [pof_NtoH_transfer_header], [pof_HtoN_transfer_header] and
    [pof_NtoH_transfer_error] are in Env.v, the meter's and the counter's in
    their own files. *)

From S2P Require Import Prelude Codec Env LocalRes.

Definition POFVT_IMMEDIATE_NUM : Z := 0.

(** [POFIT_*] and [POFAT_*]. *)
Definition POFIT_GOTO_TABLE : Z := 1.
Definition POFIT_WRITE_METADATA : Z := 2.
Definition POFIT_WRITE_ACTIONS : Z := 3.
Definition POFIT_APPLY_ACTIONS : Z := 4.
Definition POFIT_CLEAR_ACTIONS : Z := 5.
Definition POFIT_METER : Z := 6.
Definition POFIT_WRITE_METADATA_FROM_PACKET : Z := 7.
Definition POFIT_GOTO_DIRECT_TABLE : Z := 8.
Definition POFIT_CONDITIONAL_JMP : Z := 9.
Definition POFIT_CALCULATE_FIELD : Z := 10.
Definition POFIT_MOVE_PACKET_OFFSET : Z := 11.
Definition POFIT_EXPERIMENTER : Z := 0xFFFF.

Definition POFAT_OUTPUT : Z := 0.
Definition POFAT_SET_FIELD : Z := 1.
Definition POFAT_SET_FIELD_FROM_METADATA : Z := 2.
Definition POFAT_MODIFY_FIELD : Z := 3.
Definition POFAT_ADD_FIELD : Z := 4.
Definition POFAT_DELETE_FIELD : Z := 5.
Definition POFAT_CALCULATE_CHECKSUM : Z := 6.
Definition POFAT_GROUP : Z := 7.
Definition POFAT_DROP : Z := 8.
Definition POFAT_PACKET_IN : Z := 9.
Definition POFAT_COUNTER : Z := 10.
Definition POFAT_EXPERIMENTER : Z := 0xFFFF.

Abbreviation mem := (list Z).
Implicit Types (off : nat) (m : mem).

(** [f (p + off)]: the fields of a nested struct. *)
Definition shift_fields off (fs : list (nat * nat)) : list (nat * nat) :=
  (fun '(o, n) => ((off + o)%nat, n)) <$> fs.

(** The fields [fs] of the struct at [off]. *)
Definition ntoh_at off (fs : list (nat * nat)) m : option mem := ntoh_fields (shift_fields off fs) m.

Definition POF_MATCH_FIELDS : list (nat * nat) := [(0, 2); (2, 2); (4, 2)]%nat.

Definition match_ off m : option mem := ntoh_at off POF_MATCH_FIELDS m.
Definition match_x off m : option mem := ntoh_at off POF_MATCH_FIELDS m.

(** An immediate 32-bit value or a field description. *)
Definition value (type : Z) off m : option mem :=
  if type =? POFVT_IMMEDIATE_NUM then ntoh_at off [(0, 4)]%nat m else match_ off m.

(** [for(i=0; i<n; i++) f(base + i * size)]. *)
Fixpoint each (f : nat -> mem -> option mem) (size n base : nat) m : option mem :=
  match n with
  | O => Some m
  | S n' => m ← f base m; each f size n' (base + size) m
  end.

(** ** Actions: [off] is the offset of [action_data] *)

Definition action_OUTPUT off m : option mem :=
  m ← value (fld m off 1) (off + 8) m;
  ntoh_at off [(2, 2); (4, 2); (6, 2)]%nat m.

Definition action_ADD_FIELD off m : option mem :=
  ntoh_at off [(2, 2); (0, 2); (4, 4)]%nat m.

Definition action_DROP off m : option mem := ntoh_at off [(0, 4)]%nat m.
Definition action_PACKET_IN off m : option mem := ntoh_at off [(0, 4)]%nat m.

Definition action_DELETE_FIELD off m : option mem :=
  m ← ntoh_at off [(0, 2)]%nat m; value (fld m (off + 2) 1) (off + 8) m.

Definition action_CALCULATE_CHECKSUM off m : option mem :=
  ntoh_at off [(2, 2); (4, 2); (6, 2); (8, 2)]%nat m.

Definition action_SET_FIELD off m : option mem := match_x off m.

Definition action_SET_FIELD_FROM_METADATA off m : option mem :=
  m ← match_ off m; ntoh_at off [(8, 2)]%nat m.

Definition action_MODIFY_FIELD off m : option mem :=
  m ← match_ off m; ntoh_at off [(8, 4)]%nat m.

Definition action_COUNTER off m : option mem := ntoh_at off [(0, 4)]%nat m.
Definition action_GROUP off m : option mem := ntoh_at off [(0, 4)]%nat m.

(** Only prints and returns [POF_ERROR], which no caller looks at. *)
Definition action_EXPERIMENTER off m : option mem := Some m.

(** The [switch(p->type)] of [action]; the default only prints. *)
Definition action_switch (type : Z) off m : option mem :=
  if type =? POFAT_OUTPUT then action_OUTPUT off m
  else if type =? POFAT_SET_FIELD then action_SET_FIELD off m
  else if type =? POFAT_SET_FIELD_FROM_METADATA then action_SET_FIELD_FROM_METADATA off m
  else if type =? POFAT_MODIFY_FIELD then action_MODIFY_FIELD off m
  else if type =? POFAT_ADD_FIELD then action_ADD_FIELD off m
  else if type =? POFAT_DELETE_FIELD then action_DELETE_FIELD off m
  else if type =? POFAT_CALCULATE_CHECKSUM then action_CALCULATE_CHECKSUM off m
  else if type =? POFAT_GROUP then action_GROUP off m
  else if type =? POFAT_DROP then action_DROP off m
  else if type =? POFAT_PACKET_IN then action_PACKET_IN off m
  else if type =? POFAT_COUNTER then action_COUNTER off m
  else if type =? POFAT_EXPERIMENTER then action_EXPERIMENTER off m
  else Some m.

(** [action(p)] with [p] at [off]: the direction of the conversion is guessed
    from the length. *)
Definition action off m : option mem :=
  if 0x00FF <? fld m (off + 2) 2 then
    m ← ntoh_at off [(0, 2); (2, 2)]%nat m;
    action_switch (fld m off 2) (off + 4) m
  else
    m ← action_switch (fld m off 2) (off + 4) m;
    ntoh_at off [(0, 2); (2, 2)]%nat m.

(** ** Instructions: [off] is the offset of [instruction_data] *)

Definition instruction_WRITE_ACTIONS off m : option mem := Some m.
Definition instruction_CLEAR_ACTIONS off m : option mem := Some m.
Definition instruction_EXPERIMENTER off m : option mem := Some m.

Definition instruction_GOTO_DIRECT_TABLE off m : option mem :=
  m ← value (fld m (off + 1) 1) (off + 8) m; ntoh_at off [(2, 2)]%nat m.

Definition instruction_METER off m : option mem := ntoh_at off [(0, 4)]%nat m.

Definition instruction_WRITE_METADATA off m : option mem :=
  ntoh_at off [(0, 2); (2, 2)]%nat m.

Definition instruction_WRITE_METADATA_FROM_PACKET off m : option mem :=
  ntoh_at off [(0, 2); (2, 2); (4, 2)]%nat m.

Definition instruction_GOTO_TABLE off m : option mem :=
  m ← ntoh_at off [(2, 2)]%nat m; each match_ 8 8 (off + 8) m.

(** [action_num] is read again for every test of the loop; [action] is only
    given memory behind it. *)
Definition instruction_APPLY_ACTIONS off m : option mem :=
  each action 48 (Z.to_nat (fld m off 1)) (off + 8) m.

Definition instruction_CONDITIONAL_JMP off m : option mem :=
  m ← match_ (off + 8) m;
  m ← value (fld m off 1) (off + 16) m;
  m ← value (fld m (off + 2) 1) (off + 24) m;
  m ← value (fld m (off + 4) 1) (off + 32) m;
  value (fld m (off + 6) 1) (off + 40) m.

Definition instruction_CALCULATE_FIELD off m : option mem :=
  m ← ntoh_at off [(0, 2)]%nat m;
  m ← match_ (off + 8) m;
  value (fld m (off + 2) 1) (off + 16) m.

Definition instruction_MOVE_PACKET_OFFSET off m : option mem :=
  value (fld m (off + 1) 1) (off + 8) m.

(** The [switch(p->type)] shared by the two directions; [None] in the second
    place: the default, which returns [POF_ERROR]. *)
Definition instruction_switch (type : Z) off m : option (option mem) :=
  if type =? POFIT_GOTO_TABLE then m ← instruction_GOTO_TABLE off m; Some (Some m)
  else if type =? POFIT_WRITE_METADATA then m ← instruction_WRITE_METADATA off m; Some (Some m)
  else if type =? POFIT_WRITE_ACTIONS then m ← instruction_WRITE_ACTIONS off m; Some (Some m)
  else if type =? POFIT_APPLY_ACTIONS then m ← instruction_APPLY_ACTIONS off m; Some (Some m)
  else if type =? POFIT_CLEAR_ACTIONS then m ← instruction_CLEAR_ACTIONS off m; Some (Some m)
  else if type =? POFIT_METER then m ← instruction_METER off m; Some (Some m)
  else if type =? POFIT_WRITE_METADATA_FROM_PACKET then
    m ← instruction_WRITE_METADATA_FROM_PACKET off m; Some (Some m)
  else if type =? POFIT_GOTO_DIRECT_TABLE then m ← instruction_GOTO_DIRECT_TABLE off m; Some (Some m)
  else if type =? POFIT_CONDITIONAL_JMP then m ← instruction_CONDITIONAL_JMP off m; Some (Some m)
  else if type =? POFIT_CALCULATE_FIELD then m ← instruction_CALCULATE_FIELD off m; Some (Some m)
  else if type =? POFIT_MOVE_PACKET_OFFSET then m ← instruction_MOVE_PACKET_OFFSET off m; Some (Some m)
  else if type =? POFIT_EXPERIMENTER then m ← instruction_EXPERIMENTER off m; Some (Some m)
  else Some None.

Definition instruction_HtoN off m : option mem :=
  r ← instruction_switch (fld m off 2) (off + 8) m;
  match r with
  | None => Some m
  | Some m => ntoh_at off [(0, 2); (2, 2)]%nat m
  end.

Definition instruction_NtoH off m : option mem :=
  m ← ntoh_at off [(0, 2); (2, 2)]%nat m;
  r ← instruction_switch (fld m off 2) (off + 8) m;
  match r with None => Some m | Some m => Some m end.

(** ** Messages *)

Definition pof_NtoH_transfer_packet_in m : option mem :=
  ntoh_fields [(0, 4); (4, 2); (8, 8); (16, 4); (20, 2); (22, 2)]%nat m.

Definition POF_PORT_FIELDS : list (nat * nat) :=
  [(0, 2); (2, 2); (4, 4); (80, 4); (84, 4); (88, 4); (92, 4); (96, 4); (100, 4); (104, 4); (108, 4)]%nat.

Definition pof_NtoH_transfer_port m : option mem := ntoh_fields POF_PORT_FIELDS m.
Definition port off m : option mem := ntoh_at off POF_PORT_FIELDS m.
Definition pof_HtoN_transfer_port_status m : option mem := port 8 m.

Definition pof_NtoH_transfer_flow_table m : option mem :=
  m ← ntoh_fields [(4, 4); (8, 2); (10, 2)]%nat m; each match_ 8 8 80 m.

Definition pof_HtoN_transfer_switch_features m : option mem :=
  ntoh_fields [(0, 4); (4, 2); (6, 2); (8, 2); (12, 4)]%nat m.

Definition pof_HtoN_transfer_table_resource_desc off m : option mem :=
  ntoh_at off [(0, 4); (6, 2); (8, 4)]%nat m.

Definition pof_HtoN_transfer_flow_table_resource m : option mem :=
  m ← ntoh_fields [(2, 2); (4, 4); (8, 4); (12, 4)]%nat m;
  each pof_HtoN_transfer_table_resource_desc 16 (Z.to_nat POF_MAX_TABLE_TYPE) 16 m.

Definition pof_HtoN_transfer_switch_config m : option mem :=
  ntoh_fields [(0, 4); (4, 2); (6, 2)]%nat m.

Definition pof_HtoN_transfer_queryall_request m : option mem := POF_NTOH_FUNC 0 2 m.

Definition pof_NtoH_transfer_packet_out m : option mem :=
  m ← ntoh_fields [(0, 4); (4, 4); (12, 4)]%nat m;
  each action 48 (Z.to_nat (fld m 8 1)) 16 m.

Definition POF_FLOW_ENTRY_FIELDS : list (nat * nat) :=
  [(4, 4); (8, 8); (16, 8); (26, 2); (28, 2); (30, 2); (32, 4); (36, 2)]%nat.

(** [match_field_num] and [instruction_num] are bytes in front of the arrays. *)
Definition pof_HtoN_transfer_flow_entry m : option mem :=
  m ← ntoh_fields POF_FLOW_ENTRY_FIELDS m;
  m ← each match_x 40 (Z.to_nat (fld m 1 1)) 40 m;
  each instruction_HtoN 304 (Z.to_nat (fld m 2 1)) 360 m.

Definition pof_NtoH_transfer_flow_entry m : option mem :=
  m ← ntoh_fields POF_FLOW_ENTRY_FIELDS m;
  m ← each match_x 40 (Z.to_nat (fld m 1 1)) 40 m;
  each instruction_NtoH 304 (Z.to_nat (fld m 2 1)) 360 m.

Definition pof_NtoH_transfer_group m : option mem :=
  m ← ntoh_fields [(4, 4); (8, 4); (12, 2)]%nat m;
  each action 48 (Z.to_nat POF_MAX_ACTION_NUMBER_PER_GROUP) 16 m.
