(* ===== verification/ByteRoundtrip.v ===== *)
(** * Round trips of the byte-order conversions

    The conversions of ByteTransfer.v are local: each changes only the bytes of
    the struct it is given ([framed], [conv]).  From that and one computation
    per kind of action and instruction follows that a whole flow entry is
    converted to network order and back to itself. *)

From S2P Require Import Prelude Codec Env LocalRes ByteTransfer.

Implicit Types (off : nat) (m : mem).

(** ** Framing

    Every conversion at offset [k] only looks at, and only changes, the [w]
    bytes from there on; [Frame f w] says so by putting the memory between two
    others. *)

Definition framed (f : nat -> mem -> option mem) (w : nat) : Prop :=
  forall a s b k, (k + w <= length s)%nat ->
    f (length a + k)%nat (a ++ s ++ b) = (fun s' => a ++ s' ++ b) <$> f k s /\
    (forall s', f k s = Some s' -> length s' = length s).

Lemma fld_frame a s b k n : (k + n <= length s)%nat ->
  fld (a ++ s ++ b) (length a + k) n = fld s k n.
Proof.
  intros. rewrite fld_skip by lia. replace (length a + k - length a)%nat with k by lia.
  unfold fld. rewrite drop_app_le by lia. rewrite take_app_le by (rewrite length_drop; lia). done.
Qed.

Lemma patch_frame a s b k t : (k + length t <= length s)%nat ->
  patch (a ++ s ++ b) (length a + k) t = a ++ patch s k t ++ b.
Proof.
  intros. unfold patch.
  rewrite take_app_add, take_app_le by lia.
  rewrite <- Nat.add_assoc, drop_app_add, drop_app_le by lia.
  now rewrite <- !app_assoc.
Qed.

Lemma set_fld_frame a s b k n v : (k + n <= length s)%nat ->
  set_fld (a ++ s ++ b) (length a + k) n v = (fun s' => a ++ s' ++ b) <$> set_fld s k n v /\
  (forall s', set_fld s k n v = Some s' -> length s' = length s).
Proof.
  intros. unfold set_fld. rewrite !length_app.
  rewrite !(proj2 (Nat.leb_le _ _)) by lia. cbn [fmap option_fmap option_map].
  rewrite patch_frame by (rewrite length_le; lia). split; [done|].
  intros s' [= <-]. apply length_patch. rewrite length_le. lia.
Qed.

Lemma ntoh_func_frame a s b k n : (k + n <= length s)%nat ->
  POF_NTOH_FUNC (length a + k) n (a ++ s ++ b) = (fun s' => a ++ s' ++ b) <$> POF_NTOH_FUNC k n s /\
  (forall s', POF_NTOH_FUNC k n s = Some s' -> length s' = length s).
Proof.
  intros. unfold POF_NTOH_FUNC. rewrite fld_frame by done.
  destruct n as [|[|[|[|[|[|[|[|[|]]]]]]]]]; try (now split); now apply set_fld_frame.
Qed.

Lemma ntoh_fields_frame fs a s b : Forall (fun f => (f.1 + f.2 <= length s)%nat) fs ->
  ntoh_fields (shift_fields (length a) fs) (a ++ s ++ b) = (fun s' => a ++ s' ++ b) <$> ntoh_fields fs s /\
  (forall s', ntoh_fields fs s = Some s' -> length s' = length s).
Proof.
  revert s. induction fs as [|[o n] fs IH]; intros s H; cbn [shift_fields fmap list_fmap ntoh_fields].
  - split; [done|]. now intros s' [= <-].
  - apply Forall_cons in H. destruct H as [H1 H2]. cbn in H1.
    destruct (ntoh_func_frame a s b o n H1) as [E L]. rewrite E.
    destruct (POF_NTOH_FUNC o n s) as [s1|]; cbn [fmap option_fmap option_map mbind option_bind];
      [|now split].
    specialize (L s1 eq_refl). destruct (IH s1) as [E1 L1]; [now rewrite L|].
    split; [exact E1|]. intros s' Hs. rewrite (L1 s' Hs). done.
Qed.

Lemma frame_fields fs w : Forall (fun f => (f.1 + f.2 <= w)%nat) fs ->
  framed (fun off => ntoh_at off fs) w.
Proof.
  intros H a s b k Hk.
  unfold ntoh_at. assert (shift_fields (length a + k) fs = shift_fields (length a) (shift_fields k fs)) as ->.
  { unfold shift_fields. rewrite <- list_fmap_compose. apply list_fmap_ext. intros _ [o n] _. cbn.
    f_equal. lia. }
  apply ntoh_fields_frame. unfold shift_fields. rewrite Forall_fmap. eapply Forall_impl; [exact H|].
  intros [o n] Hn. cbn in *. lia.
Qed.

Lemma frame_some w : framed (fun _ m => Some m) w.
Proof. intros a s b k Hk. split; [done|]. now intros s' [= <-]. Qed.

(** A conversion followed by another that may look at the memory. *)
Lemma frame_bind f (g : nat -> mem -> mem -> option mem) w : framed f w ->
  (forall a s b k, (k + w <= length s)%nat ->
     g (length a + k)%nat (a ++ s ++ b) (a ++ s ++ b) = (fun s' => a ++ s' ++ b) <$> g k s s /\
     (forall s', g k s s = Some s' -> length s' = length s)) ->
  framed (fun off m => m' ← f off m; g off m' m') w.
Proof.
  intros Hf Hg a s b k Hk. destruct (Hf a s b k Hk) as [E L]. rewrite E.
  destruct (f k s) as [s1|]; cbn [fmap option_fmap option_map mbind option_bind]; [|now split].
  specialize (L s1 eq_refl). destruct (Hg a s1 b k) as [E1 L1]; [lia|].
  split; [exact E1|]. intros s' Hs. rewrite (L1 s' Hs). done.
Qed.

Lemma frame_seq f g w : framed f w -> framed g w -> framed (fun off m => m' ← f off m; g off m') w.
Proof. intros Hf Hg. apply (frame_bind f (fun off m _ => g off m)); [done|]. exact Hg. Qed.

(** A choice by a byte of the memory. *)
Lemma frame_read {A} (rd : nat -> mem -> A) (g : A -> nat -> mem -> option mem) w :
  (forall a s b k, (k + w <= length s)%nat -> rd (length a + k)%nat (a ++ s ++ b) = rd k s) ->
  (forall t, framed (g t) w) -> framed (fun off m => g (rd off m) off m) w.
Proof. intros Hr Hg a s b k Hk. rewrite Hr by done. now apply Hg. Qed.

Lemma read_fld c n w : (c + n <= w)%nat -> forall a s b k, (k + w <= length s)%nat ->
  fld (a ++ s ++ b) (length a + k + c) n = fld s (k + c) n.
Proof. intros H a s b k Hk. rewrite <- Nat.add_assoc. apply fld_frame. lia. Qed.

Lemma read_fld0 n w : (n <= w)%nat -> forall a s b k, (k + w <= length s)%nat ->
  fld (a ++ s ++ b) (length a + k) n = fld s k n.
Proof. intros H a s b k Hk. apply fld_frame. lia. Qed.

Lemma frame_if (c : bool) f g w : framed f w -> framed g w ->
  framed (fun off m => if c then f off m else g off m) w.
Proof. destruct c; auto. Qed.

Lemma frame_at c f w w' : framed f w -> (c + w <= w')%nat -> framed (fun off => f (off + c)%nat) w'.
Proof. intros Hf Hc a s b k Hk. rewrite <- Nat.add_assoc. apply Hf. lia. Qed.

Lemma frame_weaken f w w' : framed f w -> (w <= w')%nat -> framed f w'.
Proof. intros Hf Hw a s b k Hk. apply Hf. lia. Qed.

Lemma frame_ext f g w : (forall off m, f off m = g off m) -> framed f w -> framed g w.
Proof. intros E Hf a s b k Hk. rewrite <- !E. now apply Hf. Qed.

Lemma frame_each f size n w : framed f size -> (n * size <= w)%nat -> framed (each f size n) w.
Proof.
  intros Hf. revert w. induction n as [|n IH]; intros w Hw; [apply frame_some|].
  apply frame_seq; [eapply frame_weaken; [exact Hf|lia]|].
  apply (frame_at size (each f size n) (n * size)); [now apply IH|lia].
Qed.

Ltac frame_step :=
  first
    [ apply frame_some
    | apply frame_fields; repeat constructor; cbn; lia
    | assumption ].

Lemma frame_match w : (8 <= w)%nat -> framed match_ w.
Proof. intros. apply frame_fields. repeat constructor; cbn; lia. Qed.

Lemma frame_value t w : (8 <= w)%nat -> framed (value t) w.
Proof. intros. apply frame_if; [apply frame_fields; repeat constructor; cbn; lia|now apply frame_match]. Qed.

(** [value] at [off + c], the kind read from the byte at [off + s]. *)
Lemma frame_value_sel s c w : (s + 1 <= w)%nat -> (c + 8 <= w)%nat ->
  framed (fun off m => value (fld m (off + s) 1) (off + c) m) w.
Proof.
  intros. apply (frame_read (fun off m => fld m (off + s) 1) (fun t off => value t (off + c)%nat)).
  - now apply read_fld.
  - intros t. apply (frame_at c (value t) 8); [now apply frame_value|lia].
Qed.

Lemma frame_value_sel0 c w : (1 <= w)%nat -> (c + 8 <= w)%nat ->
  framed (fun off m => value (fld m off 1) (off + c) m) w.
Proof.
  intros. apply (frame_read (fun off m => fld m off 1) (fun t off => value t (off + c)%nat)).
  - now apply read_fld0.
  - intros t. apply (frame_at c (value t) 8); [now apply frame_value|lia].
Qed.

Lemma frame_action_switch t : framed (action_switch t) 16.
Proof.
  unfold action_switch. repeat apply frame_if; try frame_step.
  - apply (frame_seq (fun off m => value (fld m off 1) (off + 8) m)
      (fun off => ntoh_at off [(2, 2); (4, 2); (6, 2)]%nat)); [apply frame_value_sel0; lia|frame_step].
  - apply (frame_seq match_ (fun off => ntoh_at off [(8, 2)]%nat)); [apply frame_match; lia|frame_step].
  - apply (frame_seq match_ (fun off => ntoh_at off [(8, 4)]%nat)); [apply frame_match; lia|frame_step].
  - apply (frame_seq (fun off => ntoh_at off [(0, 2)]%nat)
      (fun off m => value (fld m (off + 2) 1) (off + 8) m)); [frame_step|apply frame_value_sel; lia].
Qed.

(** ** Round trips of single structs

    [conv f s s']: wherever [s] stands in memory, [f] turns it into [s']. *)
Definition conv (f : nat -> mem -> option mem) (s s' : mem) : Prop :=
  forall a b, f (length a) (a ++ s ++ b) = Some (a ++ s' ++ b).

Lemma conv_framed f w s s' : framed f w -> (w <= length s)%nat -> f 0%nat s = Some s' -> conv f s s'.
Proof.
  intros Hf Hw E a b. destruct (Hf a s b 0%nat) as [E1 _]; [lia|].
  rewrite Nat.add_0_r in E1. rewrite E1, E. done.
Qed.

(** Arrays of structs. *)
Lemma conv_each f size ss ss' :
  Forall2 (fun s s' => length s = size /\ length s' = size /\ conv f s s') ss ss' ->
  conv (each f size (length ss)) (concat ss) (concat ss').
Proof.
  induction 1 as [|s s' ss ss' (L & L' & Hc) _ IH]; intros a b; [done|].
  cbn [length each concat]. rewrite <- app_assoc, (Hc a (concat ss ++ b)). cbn [mbind option_bind].
  rewrite (app_assoc a s'). replace (length a + size)%nat with (length (a ++ s')) by (rewrite length_app; lia).
  rewrite IH. now rewrite <- !app_assoc.
Qed.

(** Reversing the bytes of a field, the effect of one conversion. *)
Definition rev_at m (f : nat * nat) : mem := patch m f.1 (rev (take f.2 (drop f.1 m))).

Lemma ntoh_fields_rev fs m :
  Forall (fun f => f.2 ∈ [2; 4; 8]%nat /\ (f.1 + f.2 <= length m)%nat) fs -> bytes_ok m ->
  ntoh_fields fs m = Some (foldl rev_at m fs) /\ bytes_ok (foldl rev_at m fs) /\
  length (foldl rev_at m fs) = length m.
Proof.
  revert m. induction fs as [|[o n] fs IH]; intros m H Hb; cbn [ntoh_fields foldl]; [done|].
  apply Forall_cons in H as [[Hn Hl] H]. cbn [fst snd] in *.
  rewrite POF_NTOH_FUNC_rev by done. cbn [mbind option_bind]. change (patch _ _ _) with (rev_at m (o, n)).
  assert (length (rev_at m (o, n)) = length m) as L.
  { unfold rev_at. cbn [fst snd]. rewrite length_patch; [done|]. rewrite length_rev, length_take, length_drop. lia. }
  destruct (IH (rev_at m (o, n))) as (E & B & L1).
  - now rewrite L.
  - unfold rev_at. apply bytes_ok_patch; [done|]. now apply bytes_ok_rev, Forall_take, Forall_drop.
  - repeat split; [exact E|exact B|congruence].
Qed.

(** What a conversion and its inverse do to one struct. *)
Definition inverse_at (f g : nat -> mem -> option mem) (s : mem) : Prop :=
  exists s', f 0%nat s = Some s' /\ g 0%nat s' = Some s /\ bytes_ok s' /\ length s' = length s.

(** Take the first [n] bytes of a struct apart. *)
Tactic Notation "explicit" ident(s) ident(Hl) ident(Hb) int_or_var(n) :=
  do n (destruct s as [|? s]; [cbn in Hl; lia|]; apply Forall_cons in Hb as [? Hb]).

Ltac run_fields :=
  match goal with
  | |- context[ntoh_fields ?fs ?m] =>
      let E := fresh in
      destruct (ntoh_fields_rev fs m) as (E & _);
      [repeat (apply Forall_cons; split;
         [split; cbn [fst snd length]; [rewrite list_elem_of_In; cbn; lia|lia]|]); now apply Forall_nil
      |repeat (apply Forall_cons; split; [assumption|]); assumption
      |rewrite E; clear E; cbn [foldl rev_at patch take drop app rev plus length fst snd mbind option_bind]]
  end.

Ltac fld_lia := unfold fld; cbn [unle take drop plus]; rewrite ?take_0; cbn [unle]; lia.

Ltac bytes_done := repeat (apply Forall_cons; split; [assumption|]); assumption.

Ltac reads := cbn [fld unle take drop fmap list_fmap option_fmap plus mbind option_bind each].

(** Runs the conversion and its inverse on a struct written out byte by byte,
    for either kind of every value it holds. *)
Ltac run_inverse :=
  reads;
  repeat first
    [ run_fields; reads
    | match goal with |- context[if ?c then _ else _] => destruct c eqn:?; reads end ];
  (eexists; split; [reflexivity|]; reads;
   repeat first
     [ run_fields; reads
     | match goal with E : ?c = _ |- context[if ?c then _ else _] => rewrite E; reads end ];
   split; [reflexivity|]; split; [bytes_done|reflexivity]).

Lemma action_switch_inverse t s : (16 <= length s)%nat -> bytes_ok s ->
  inverse_at (action_switch t) (action_switch t) s.
Proof.
  intros Hl Hb. unfold inverse_at, action_switch.
  explicit s Hl Hb 16.
  repeat match goal with |- context[if t =? ?c then _ else _] => destruct (t =? c) end.
  all: unfold action_OUTPUT, action_SET_FIELD, action_SET_FIELD_FROM_METADATA, action_MODIFY_FIELD,
    action_ADD_FIELD, action_DELETE_FIELD, action_CALCULATE_CHECKSUM, action_GROUP, action_DROP,
    action_PACKET_IN, action_COUNTER, action_EXPERIMENTER, value, match_x, match_, ntoh_at,
    shift_fields, POF_MATCH_FIELDS.
  all: run_inverse.
Qed.

Definition TYPE_LEN : list (nat * nat) := [(0, 2); (2, 2)]%nat.

Lemma frame_action : framed action 20.
Proof.
  apply (frame_read (fun off m => 0x00FF <? fld m (off + 2) 2)
    (fun c off m => if c then m ← ntoh_at off TYPE_LEN m; action_switch (fld m off 2) (off + 4) m
                    else m ← action_switch (fld m off 2) (off + 4) m; ntoh_at off TYPE_LEN m)).
  { intros a s b k Hk. f_equal. apply (read_fld 2 2 20); lia. }
  assert (framed (fun off m => action_switch (fld m off 2) (off + 4) m) 20).
  { apply (frame_read (fun off m => fld m off 2) (fun t off => action_switch t (off + 4)%nat)).
    - apply read_fld0. lia.
    - intros t. apply (frame_at 4 (action_switch t) 16); [apply frame_action_switch|lia]. }
  assert (framed (fun off => ntoh_at off TYPE_LEN) 20) by (apply frame_fields; repeat constructor; cbn; lia).
  intros c. apply frame_if; apply frame_seq; assumption.
Qed.

(** A struct converted and back, wherever it stands. *)
Definition inverse_conv (f g : nat -> mem -> option mem) (s : mem) : Prop :=
  exists s', conv f s s' /\ conv g s' s /\ bytes_ok s' /\ length s' = length s.

Lemma inverse_framed f g w s : framed f w -> framed g w -> (w <= length s)%nat ->
  inverse_at f g s -> inverse_conv f g s.
Proof.
  intros Hf Hg Hw (s' & E & E' & B & L). exists s'.
  split; [eapply conv_framed; eauto|]. split; [eapply conv_framed; [exact Hg|lia|done]|done].
Qed.

(** A conversion at the end of a header. *)
Lemma at_header f (h d : mem) w d' : framed f w -> (w <= length d)%nat ->
  f 0%nat d = Some d' -> f (length h) (h ++ d) = Some (h ++ d').
Proof.
  intros Hf Hw E. pose proof (conv_framed f w d d' Hf Hw E h []) as C. now rewrite !app_nil_r in C.
Qed.

(** An action in host order, its length set and below 256, is converted to
    network order and recognised as such on the way back. *)
Lemma action_inverse s : (20 <= length s)%nat -> bytes_ok s -> 0 < fld s 2 2 <= 255 ->
  inverse_conv action action s.
Proof.
  intros Hl Hb Hn. apply (inverse_framed _ _ 20); try apply frame_action; [done|].
  explicit s Hl Hb 4. cbn [length] in Hl. rename z into b0, z0 into b1, z1 into b2, z2 into b3.
  assert (fld (b0 :: b1 :: b2 :: b3 :: s) 2 2 = b2 + 256 * b3) as E by fld_lia.
  rewrite E in Hn. assert (b3 = 0) as -> by (unfold byte_ok in *; lia).
  set (t := b0 + 256 * (b1 + 256 * 0)).
  destruct (action_switch_inverse t s) as (s' & Es & Es' & B & L); [lia|done|].
  exists (b1 :: b0 :: 0 :: b2 :: s').
  split; [|split; [|split; [repeat (apply Forall_cons; split; [assumption|]); assumption|cbn; lia]]].
  - unfold action. change (0 + 2)%nat with 2%nat. rewrite E, (proj2 (Z.ltb_ge _ _)) by lia.
    change (fld _ 0 2) with t.
    match goal with |- context[action_switch ?u ?k ?m] =>
      change (action_switch u k m) with (action_switch t (length [b0; b1; b2; 0]) ([b0; b1; b2; 0] ++ s)) end.
    rewrite (at_header _ _ s 16 s') by (apply frame_action_switch || lia || done).
    cbn [mbind option_bind app]. unfold ntoh_at, shift_fields. reads. run_fields. reflexivity.
  - unfold action.
    assert (fld (b1 :: b0 :: 0 :: b2 :: s') (0 + 2) 2 = 256 * b2) as -> by fld_lia.
    rewrite (proj2 (Z.ltb_lt _ _)) by lia. unfold ntoh_at, shift_fields. reads. run_fields. reads.
    change (unle [b0; b1]) with t.
    match goal with |- context[action_switch ?u ?k ?m] =>
      change (action_switch u k m) with (action_switch t (length [b0; b1; b2; 0]) ([b0; b1; b2; 0] ++ s')) end.
    rewrite (at_header _ _ s' 16 s) by (apply frame_action_switch || lia || done). reflexivity.
Qed.

(** ** Arrays in memory *)

(** The [n] structs of [size] bytes at the start of [m]. *)
Fixpoint chunks (size n : nat) m : list mem :=
  match n with O => [] | S n' => take size m :: chunks size n' (drop size m) end.

Lemma concat_chunks size n m : concat (chunks size n m) = take (n * size) m.
Proof.
  revert m. induction n as [|n IH]; intros m; [done|]. cbn [chunks concat Nat.mul]. rewrite IH.
  now rewrite take_take_drop.
Qed.

Lemma length_chunks size n m : length (chunks size n m) = n.
Proof. revert m. induction n; intros; cbn; auto. Qed.

Lemma chunks_lookup size n m i : (i < n)%nat -> chunks size n m !! i = Some (take size (drop (i * size) m)).
Proof.
  revert m i. induction n as [|n IH]; intros m i Hi; [lia|]. cbn [chunks].
  destruct i as [|i]; [done|]. cbn [lookup list_lookup]. rewrite IH by lia. now rewrite drop_drop.
Qed.

(** The inverse of an array conversion, element by element. *)
Lemma inverse_each f g size n m : (n * size <= length m)%nat -> bytes_ok m ->
  (forall i, (i < n)%nat -> inverse_conv f g (take size (drop (i * size) m))) ->
  inverse_conv (each f size n) (each g size n) (take (n * size) m).
Proof.
  intros Hl Hb Hi.
  assert (exists ss', Forall2 (fun s s' => conv f s s' /\ conv g s' s /\ bytes_ok s' /\ length s' = size /\
      length s = size) (chunks size n m) ss') as (ss' & F).
  { assert (Forall (fun s => inverse_conv f g s /\ length s = size) (chunks size n m)) as F.
    { apply Forall_lookup_2. intros i s Hs.
      assert (i < n)%nat as Hin by (apply lookup_lt_Some in Hs; now rewrite length_chunks in Hs).
      rewrite chunks_lookup in Hs by done. apply (inj Some) in Hs. subst s. split; [auto|].
      rewrite length_take, length_drop. nia. }
    clear Hi. induction F as [|s ss [(s' & C1 & C2 & B & L) Ls] _ (ss' & IH)]; [by exists []|].
    exists (s' :: ss'). constructor; [|done]. repeat split; [done..| |done]. congruence. }
  exists (concat ss'). rewrite <- concat_chunks.
  assert (length ss' = n) as Ln by (apply Forall2_length in F; now rewrite length_chunks in F).
  split; [|split; [|split]].
  - pose proof (conv_each f size (chunks size n m) ss') as C. rewrite length_chunks in C. apply C.
    eapply Forall2_impl; [exact F|]. intros s s' (? & ? & ? & ? & ?). auto.
  - pose proof (conv_each g size ss' (chunks size n m)) as C. rewrite Ln in C. apply C.
    apply Forall2_flip. eapply Forall2_impl; [exact F|]. intros s s' (? & ? & ? & ? & ?). auto.
  - unfold bytes_ok. clear -F. induction F as [|s s' ss ss' (_ & _ & B & _) _ IH]; cbn; [constructor|].
    apply Forall_app; auto.
  - clear -F. induction F as [|s s' ss ss' (_ & _ & _ & L1 & L2) _ IH]; cbn; [done|].
    rewrite !length_app, IH. lia.
Qed.

(** A conversion keeps what stands behind the struct. *)
Lemma inverse_app f g s r : bytes_ok r -> inverse_conv f g s -> inverse_conv f g (s ++ r).
Proof.
  intros Hr (s' & C & C' & B & L). exists (s' ++ r). split; [|split; [|split]].
  - intros a b. specialize (C a (r ++ b)). rewrite <- app_assoc, C. now rewrite <- app_assoc.
  - intros a b. specialize (C' a (r ++ b)). rewrite <- app_assoc, C'. now rewrite <- app_assoc.
  - now apply Forall_app.
  - rewrite !length_app. lia.
Qed.

(** ** Instructions *)

(** Instructions the conversion knows. *)
Definition instruction_known (type : Z) : Prop := 1 <= type <= 11 \/ type = POFIT_EXPERIMENTER.

(** The actions of an [APPLY_ACTIONS] instruction ([m] is its [instruction_data]). *)
Definition actions_host m : Prop :=
  fld m 0 1 <= POF_MAX_ACTION_NUMBER_PER_INSTRUCTION /\
  forall i, (i < Z.to_nat (fld m 0 1))%nat -> 0 < fld m (8 + i * 48 + 2) 2 <= 255.

Lemma fld_take_drop m k w c n : (c + n <= w)%nat ->
  fld (take w (drop k m)) c n = fld m (k + c) n.
Proof.
  intros. unfold fld. rewrite take_drop_commute, take_take, Nat.min_l by lia.
  now rewrite <- take_drop_commute, drop_drop.
Qed.




Lemma apply_actions_inverse d : length d = 296%nat -> bytes_ok d -> actions_host d ->
  inverse_conv instruction_APPLY_ACTIONS instruction_APPLY_ACTIONS d.
Proof.
  intros Hl Hb [Hn Ha]. set (n := Z.to_nat (fld d 0 1)) in *.
  unfold POF_MAX_ACTION_NUMBER_PER_INSTRUCTION in Hn. assert (n <= 6)%nat as Hn' by lia.
  pose proof (inverse_each action action 48 n (drop 8 d)) as I.
  destruct (inverse_app (each action 48 n) (each action 48 n) (take (n * 48) (drop 8 d))
    (drop (n * 48) (drop 8 d))) as (s' & C & C' & B & L).
  - now apply bytes_ok_drop, bytes_ok_drop.
  - apply I; [rewrite length_drop; lia|now apply bytes_ok_drop|].
    intros i Hi. apply action_inverse.
    + rewrite length_take, !length_drop. lia.
    + now apply bytes_ok_take, bytes_ok_drop, bytes_ok_drop.
    + rewrite drop_drop, fld_take_drop by lia. now apply Ha.
  - rewrite take_drop in C, C', L.
    assert (forall x a b, length x = length (drop 8 d) ->
      fld (a ++ (take 8 d ++ x) ++ b) (length a) 1 = fld d 0 1) as Sel.
    { intros x a b Lx. rewrite <- (Nat.add_0_r (length a)), fld_frame
        by (rewrite length_app, length_take; lia).
      rewrite <- (take_drop 8 d) at 2. unfold fld. rewrite !drop_0, !take_app_le by (rewrite length_take; lia).
      done. }
    exists (take 8 d ++ s'). split; [|split; [|split]].
    + intros a b. rewrite <- (take_drop 8 d) at 1. unfold instruction_APPLY_ACTIONS. rewrite Sel by done. fold n.
      specialize (C (a ++ take 8 d) b). rewrite length_app, length_take, Nat.min_l in C by lia.
      rewrite <- !app_assoc in C |- *. exact C.
    + intros a b. unfold instruction_APPLY_ACTIONS. rewrite Sel by done. fold n.
      specialize (C' (a ++ take 8 d) b). rewrite length_app, length_take, Nat.min_l in C' by lia.
      rewrite <- (take_drop 8 d) at 2. rewrite <- !app_assoc in C' |- *. exact C'.
    + apply Forall_app. split; [now apply bytes_ok_take|done].
    + rewrite length_app, length_take, L, length_drop. lia.
Qed.

(** Every known instruction other than [APPLY_ACTIONS] is a conversion of the
    first 72 bytes of its data. *)
Definition plain_instruction (f : nat -> mem -> option mem) : Prop :=
  framed f 72 /\ forall s, (72 <= length s)%nat -> bytes_ok s -> inverse_at f f s.

Tactic Notation "plain_explicit" int_or_var(n) :=
  let s := fresh in let Hl := fresh in let Hb := fresh in
  intros s Hl Hb; unfold inverse_at; explicit s Hl Hb n;
  unfold value, match_x, match_, ntoh_at, shift_fields, POF_MATCH_FIELDS; run_inverse.

Lemma plain_skip : plain_instruction (fun _ m => Some m).
Proof. split; [apply frame_some|]. intros s Hl Hb. exists s. auto. Qed.

Lemma plain_GOTO_TABLE : plain_instruction instruction_GOTO_TABLE.
Proof.
  split.
  - apply (frame_seq (fun off => ntoh_at off [(2, 2)]%nat) (fun off m => each match_ 8 8 (off + 8) m)).
    + frame_step.
    + apply (frame_at 8 (each match_ 8 8) 64); [|lia]. apply frame_each; [apply frame_match|]; lia.
  - unfold instruction_GOTO_TABLE. plain_explicit 72.
Qed.

Lemma plain_METER : plain_instruction instruction_METER.
Proof. split; [frame_step|]. unfold instruction_METER. plain_explicit 5. Qed.
Lemma plain_WRITE_METADATA : plain_instruction instruction_WRITE_METADATA.
Proof. split; [frame_step|]. unfold instruction_WRITE_METADATA. plain_explicit 5. Qed.
Lemma plain_WRITE_METADATA_FROM_PACKET : plain_instruction instruction_WRITE_METADATA_FROM_PACKET.
Proof. split; [frame_step|]. unfold instruction_WRITE_METADATA_FROM_PACKET. plain_explicit 7. Qed.

Lemma plain_GOTO_DIRECT_TABLE : plain_instruction instruction_GOTO_DIRECT_TABLE.
Proof.
  split.
  - apply (frame_seq (fun off m => value (fld m (off + 1) 1) (off + 8) m) (fun off => ntoh_at off [(2, 2)]%nat)).
    + apply frame_value_sel; lia.
    + frame_step.
  - unfold instruction_GOTO_DIRECT_TABLE. plain_explicit 16.
Qed.

Lemma plain_CONDITIONAL_JMP : plain_instruction instruction_CONDITIONAL_JMP.
Proof.
  split.
  - unfold instruction_CONDITIONAL_JMP.
    apply (frame_seq (fun off => match_ (off + 8)) (fun off m =>
      m ← value (fld m off 1) (off + 16) m; m ← value (fld m (off + 2) 1) (off + 24) m;
      m ← value (fld m (off + 4) 1) (off + 32) m; value (fld m (off + 6) 1) (off + 40) m)).
    { apply (frame_at 8 match_ 8); [apply frame_match|]; lia. }
    apply (frame_seq (fun off m => value (fld m off 1) (off + 16) m) (fun off m =>
      m ← value (fld m (off + 2) 1) (off + 24) m;
      m ← value (fld m (off + 4) 1) (off + 32) m; value (fld m (off + 6) 1) (off + 40) m)).
    { apply frame_value_sel0; lia. }
    apply (frame_seq (fun off m => value (fld m (off + 2) 1) (off + 24) m) (fun off m =>
      m ← value (fld m (off + 4) 1) (off + 32) m; value (fld m (off + 6) 1) (off + 40) m)).
    { apply frame_value_sel; lia. }
    apply (frame_seq (fun off m => value (fld m (off + 4) 1) (off + 32) m)
      (fun off m => value (fld m (off + 6) 1) (off + 40) m)); apply frame_value_sel; lia.
  - unfold instruction_CONDITIONAL_JMP. plain_explicit 48.
Qed.

Lemma plain_CALCULATE_FIELD : plain_instruction instruction_CALCULATE_FIELD.
Proof.
  split.
  - apply (frame_seq (fun off => ntoh_at off [(0, 2)]%nat)
      (fun off m => m ← match_ (off + 8) m; value (fld m (off + 2) 1) (off + 16) m)); [frame_step|].
    apply (frame_seq (fun off => match_ (off + 8)) (fun off m => value (fld m (off + 2) 1) (off + 16) m)).
    + apply (frame_at 8 match_ 8); [apply frame_match|]; lia.
    + apply frame_value_sel; lia.
  - unfold instruction_CALCULATE_FIELD. plain_explicit 24.
Qed.

Lemma plain_MOVE_PACKET_OFFSET : plain_instruction instruction_MOVE_PACKET_OFFSET.
Proof.
  split; [apply frame_value_sel; lia|]. unfold instruction_MOVE_PACKET_OFFSET. plain_explicit 16.
Qed.

Lemma instruction_cases t : instruction_known t ->
  exists f, (forall off m, instruction_switch t off m = m ← f off m; Some (Some m)) /\
    (t = POFIT_APPLY_ACTIONS /\ f = instruction_APPLY_ACTIONS \/
     t <> POFIT_APPLY_ACTIONS /\ plain_instruction f).
Proof.
  intros Ht.
  assert (t = 1 \/ t = 2 \/ t = 3 \/ t = 4 \/ t = 5 \/ t = 6 \/ t = 7 \/ t = 8 \/ t = 9 \/ t = 10 \/
    t = 11 \/ t = 0xFFFF) as C by (unfold instruction_known, POFIT_EXPERIMENTER in Ht; lia).
  destruct C as [-> | [-> | [-> | [-> | [-> | [-> | [-> | [-> | [-> | [-> | [-> | ->]]]]]]]]]]];
    [exists instruction_GOTO_TABLE|exists instruction_WRITE_METADATA|exists instruction_WRITE_ACTIONS
    |exists instruction_APPLY_ACTIONS|exists instruction_CLEAR_ACTIONS|exists instruction_METER
    |exists instruction_WRITE_METADATA_FROM_PACKET|exists instruction_GOTO_DIRECT_TABLE
    |exists instruction_CONDITIONAL_JMP|exists instruction_CALCULATE_FIELD
    |exists instruction_MOVE_PACKET_OFFSET|exists instruction_EXPERIMENTER];
    (split; [intros; reflexivity|]).
  4: now left.
  all: right; split; [done|].
  all: first [ apply plain_GOTO_TABLE | apply plain_WRITE_METADATA | apply plain_METER
    | apply plain_WRITE_METADATA_FROM_PACKET | apply plain_GOTO_DIRECT_TABLE | apply plain_CONDITIONAL_JMP
    | apply plain_CALCULATE_FIELD | apply plain_MOVE_PACKET_OFFSET | apply plain_skip ].
Qed.

(** An instruction in host order that can be converted: of a known type, and
    with well-formed actions. *)
Definition instruction_host m : Prop :=
  instruction_known (fld m 0 2) /\ (fld m 0 2 = POFIT_APPLY_ACTIONS -> actions_host (drop 8 m)).

Lemma conv_at f (h d d' : mem) b : conv f d d' -> f (length h) (h ++ d ++ b) = Some (h ++ d' ++ b).
Proof. intros C. apply C. Qed.

(** The conversion of a struct's [type] and [len]. *)
Lemma type_len_frame a b0 b1 b2 b3 r b :
  byte_ok b0 -> byte_ok b1 -> byte_ok b2 -> byte_ok b3 -> bytes_ok r ->
  ntoh_at (length a) TYPE_LEN (a ++ (b0 :: b1 :: b2 :: b3 :: r) ++ b) =
  Some (a ++ (b1 :: b0 :: b3 :: b2 :: r) ++ b).
Proof.
  intros. unfold ntoh_at.
  rewrite (proj1 (ntoh_fields_frame TYPE_LEN a (b0 :: b1 :: b2 :: b3 :: r) b
    ltac:(repeat (apply Forall_cons; split; [cbn; lia|]); now apply Forall_nil))).
  unfold TYPE_LEN. destruct r as [|b4 r]; [|apply Forall_cons in H3 as [? H3]]; run_fields; reflexivity.
Qed.

Lemma instruction_inverse m : length m = 304%nat -> bytes_ok m -> instruction_host m ->
  inverse_conv instruction_HtoN instruction_NtoH m.
Proof.
  intros Hl Hb [Ht Ha].
  destruct (instruction_cases _ Ht) as (f & Sw & Hf).
  assert (inverse_conv f f (drop 8 m)) as (d' & C & C' & B & L).
  { destruct Hf as [[Et ->]|[_ [F I]]].
    - apply apply_actions_inverse; [rewrite length_drop; lia|now apply bytes_ok_drop|auto].
    - apply (inverse_framed f f 72); auto; [rewrite length_drop; lia|].
      apply I; [rewrite length_drop; lia|now apply bytes_ok_drop]. }
  clear Ha. set (t := fld m 0 2) in *.
  revert Hl Hb C C' L. subst t. revert Ht Sw.
  do 8 (destruct m as [|? m]; [discriminate|]). cbn [drop]. rewrite ?drop_0.
  rename z into b0, z0 into b1, z1 into b2, z2 into b3, z3 into b4, z4 into b5, z5 into b6, z6 into b7.
  assert (forall x y b, fld (x :: y :: b) 0 2 = x + 256 * y) as R2 by (intros; fld_lia).
  rewrite !R2. intros _ Sw Hl Hb C C' L.
  do 8 (apply Forall_cons in Hb as [? Hb]).
  exists (b1 :: b0 :: b3 :: b2 :: b4 :: b5 :: b6 :: b7 :: d').
  split; [|split; [|split; [repeat (apply Forall_cons; split; [assumption|]); assumption|cbn; lia]]].
  - intros a b. unfold instruction_HtoN.
    assert (fld (a ++ (b0 :: b1 :: b2 :: b3 :: b4 :: b5 :: b6 :: b7 :: m) ++ b) (length a) 2 = b0 + 256 * b1) as ->.
    { rewrite <- (Nat.add_0_r (length a)), fld_frame by (cbn; lia). apply R2. }
    rewrite Sw. pose proof (C (a ++ [b0; b1; b2; b3; b4; b5; b6; b7]) b) as E.
    rewrite length_app in E. rewrite <- !app_assoc in E. cbn [length app] in E |- *. rewrite E.
    cbn [mbind option_bind]. change (ntoh_at _ _ _) with (ntoh_at (length a) TYPE_LEN
      (a ++ (b0 :: b1 :: b2 :: b3 :: (b4 :: b5 :: b6 :: b7 :: d')) ++ b)).
    rewrite type_len_frame by (assumption || (repeat (apply Forall_cons; split; [assumption|]); assumption)).
    reflexivity.
  - intros a b. unfold instruction_NtoH.
    rewrite type_len_frame by (assumption || (repeat (apply Forall_cons; split; [assumption|]); assumption)).
    cbn [mbind option_bind].
    assert (fld (a ++ (b0 :: b1 :: b2 :: b3 :: b4 :: b5 :: b6 :: b7 :: d') ++ b) (length a) 2 = b0 + 256 * b1) as ->.
    { rewrite <- (Nat.add_0_r (length a)), fld_frame by (cbn; lia). apply R2. }
    rewrite Sw. pose proof (C' (a ++ [b0; b1; b2; b3; b4; b5; b6; b7]) b) as E.
    rewrite length_app in E. rewrite <- !app_assoc in E. cbn [length app] in E |- *. rewrite E. reflexivity.
Qed.

Lemma match_x_inverse s : length s = 40%nat -> bytes_ok s -> inverse_conv match_x match_x s.
Proof.
  intros Hl Hb. apply (inverse_framed _ _ 8); try (apply frame_match; lia); [lia|].
  assert (8 <= length s)%nat as H8 by lia. clear Hl. unfold inverse_at.
  explicit s H8 Hb 7. unfold match_x, ntoh_at, shift_fields, POF_MATCH_FIELDS. run_inverse.
Qed.

Lemma inverse_array f g size n m : (n * size <= length m)%nat -> bytes_ok m ->
  (forall i, (i < n)%nat -> inverse_conv f g (take size (drop (i * size) m))) ->
  inverse_conv (each f size n) (each g size n) m.
Proof.
  intros. rewrite <- (take_drop (n * size) m). apply inverse_app; [now apply bytes_ok_drop|].
  now apply inverse_each.
Qed.

Lemma flow_entry_header h h' r : length h = 40%nat -> bytes_ok h -> foldl rev_at h POF_FLOW_ENTRY_FIELDS = h' ->
  ntoh_fields POF_FLOW_ENTRY_FIELDS (h ++ r) = Some (h' ++ r).
Proof.
  intros Lh Hb Hh.
  pose proof (proj1 (ntoh_fields_frame POF_FLOW_ENTRY_FIELDS [] h r
    ltac:(unfold POF_FLOW_ENTRY_FIELDS; repeat (apply Forall_cons; split; [cbn; lia|]); now apply Forall_nil))) as F.
  cbn [length app] in F. change (shift_fields 0 POF_FLOW_ENTRY_FIELDS) with POF_FLOW_ENTRY_FIELDS in F.
  rewrite F.
  destruct (ntoh_fields_rev POF_FLOW_ENTRY_FIELDS h) as (E & _); [|done|].
  - unfold POF_FLOW_ENTRY_FIELDS. repeat (apply Forall_cons; split;
      [split; cbn [fst snd]; [rewrite list_elem_of_In; cbn; lia|lia]|]). now apply Forall_nil.
  - rewrite E, Hh. reflexivity.
Qed.

(** ** Properties *)

(** C29. A flow entry in host order (with room for all its members, known
    instruction types and well-formed action lists) is converted to network
    order and back to itself. *)
Theorem flow_entry_roundtrip m : (2184 <= length m)%nat -> bytes_ok m ->
  fld m 1 1 <= POF_MAX_MATCH_FIELD_NUM -> fld m 2 1 <= POF_MAX_INSTRUCTION_NUM ->
  (forall i, (i < Z.to_nat (fld m 2 1))%nat -> instruction_host (take 304 (drop (360 + i * 304) m))) ->
  exists m', pof_HtoN_transfer_flow_entry m = Some m' /\ pof_NtoH_transfer_flow_entry m' = Some m.
Proof.
  intros Hl Hb Hm Hi Hh. unfold POF_MAX_MATCH_FIELD_NUM, POF_MAX_INSTRUCTION_NUM in *.
  revert Hm Hi Hh. explicit m Hl Hb 40. intros Hm Hi Hh. cbn [length] in Hl.
  set (h := [z; z0; z1; z2; z3; z4; z5; z6; z7; z8; z9; z10; z11; z12; z13; z14; z15; z16; z17; z18; z19;
    z20; z21; z22; z23; z24; z25; z26; z27; z28; z29; z30; z31; z32; z33; z34; z35; z36; z37; z38]).
  match type of Hh with forall i, (i < Z.to_nat ?x)%nat -> _ => set (k := Z.to_nat x) in *; assert (k <= 6)%nat by (subst k; lia) end.
  match type of Hm with ?x <= _ => set (n := Z.to_nat x); assert (n <= 8)%nat by (subst n; lia) end.
  assert (exists ms ins, m = ms ++ ins /\ length ms = 320%nat /\ (1824 <= length ins)%nat) as (ms & ins & -> & Lm & Li).
  { exists (take 320 m), (drop 320 m). rewrite take_drop, length_take, length_drop. repeat split; lia. }
  apply Forall_app in Hb as [Bm Bi].
  destruct (inverse_array match_x match_x 40 n ms) as (ms' & Cm & Cm' & Bm' & Lm'); [lia|done| |].
  { intros i Hin. apply match_x_inverse; [rewrite length_take, length_drop; nia|].
    now apply bytes_ok_take, bytes_ok_drop. }
  destruct (inverse_array instruction_HtoN instruction_NtoH 304 k ins) as (ins' & Ci & Ci' & Bi' & Li');
    [lia|done| |].
  { intros i Hin. apply instruction_inverse.
    - rewrite length_take, length_drop. nia.
    - now apply bytes_ok_take, bytes_ok_drop.
    - specialize (Hh i Hin). change (_ :: _) with (h ++ ms ++ ins) in Hh.
      rewrite app_assoc, drop_app_ge in Hh by (rewrite length_app, Lm; cbn [length h]; lia).
      rewrite length_app, Lm in Hh. change (length h) with 40%nat in Hh.
      now replace (360 + i * 304 - (40 + 320))%nat with (i * 304)%nat in Hh by lia. }
  set (h' := [z; z0; z1; z2; z6; z5; z4; z3; z14; z13; z12; z11; z10; z9; z8; z7; z22; z21; z20; z19; z18; z17; z16; z15; z23; z24; z26; z25; z28; z27; z30; z29; z34; z33; z32; z31; z36; z35; z37; z38]).
  assert (length h = 40%nat) as Lh by reflexivity. assert (length h' = 40%nat) as Lh' by reflexivity.
  assert (bytes_ok h) as Bh by (unfold h; repeat (apply Forall_cons; split; [assumption|]); apply Forall_nil; exact I).
  assert (bytes_ok h') as Bh' by (unfold h'; repeat (apply Forall_cons; split; [assumption|]); apply Forall_nil; exact I).
  exists (h' ++ ms' ++ ins').
  change (_ :: _) with (h ++ ms ++ ins).
  unfold pof_HtoN_transfer_flow_entry, pof_NtoH_transfer_flow_entry.
  rewrite (flow_entry_header h h' (ms ++ ins)), (flow_entry_header h' h (ms' ++ ins')) by (done || reflexivity).
  cbn [mbind option_bind].
  change (Z.to_nat (fld (h' ++ ms ++ ins) 1 1)) with n. change (Z.to_nat (fld (h ++ ms' ++ ins') 1 1)) with n.
  pose proof (Cm h' ins) as Em. pose proof (Cm' h ins') as Em'. rewrite Lh' in Em. rewrite Lh in Em'.
  rewrite Em, Em'. cbn [mbind option_bind].
  change (Z.to_nat (fld (h' ++ ms' ++ ins) 2 1)) with k. change (Z.to_nat (fld (h ++ ms ++ ins') 2 1)) with k.
  pose proof (Ci (h' ++ ms') []) as E. pose proof (Ci' (h ++ ms) []) as E'.
  rewrite !app_nil_r, <- !app_assoc, length_app in E, E'. rewrite Lh', Lm', Lm in E. rewrite Lh, Lm in E'.
  split; assumption.
Qed.

(** The direction of an action's conversion is guessed from its length: with
    a length of 0 the conversion done on receipt dispatches on the unconverted
    type, so it leaves the fields of the action in network order. *)
Theorem action_zero_length_misread :
  let dropped := be 2 POFAT_DROP ++ be 2 0 ++ be 4 7 ++ zeros 40 in
  exists m, action 0 dropped = Some m /\ fld m 0 2 = POFAT_DROP /\ fld m 4 4 <> 7 /\
    action 0 (be 2 POFAT_DROP ++ be 2 8 ++ be 4 7 ++ zeros 40) =
      Some (le 2 POFAT_DROP ++ le 2 8 ++ le 4 7 ++ zeros 40).
Proof. eexists. split; [vm_compute; reflexivity|]. repeat split; by_decide. Qed.

(** ** Witness *)

(** One match field and one [APPLY_ACTIONS] instruction with a single [DROP]. *)
Definition entry_example : list Z :=
  [0; 1; 1; 0] ++ le 4 7 ++ zeros 16 ++ [0; 2] ++ le 2 10 ++ le 2 20 ++ le 2 1 ++ le 4 5 ++ le 2 3 ++ zeros 2 ++
  (le 2 0 ++ le 2 96 ++ le 2 48 ++ zeros 2 ++ replicate 16 10 ++ replicate 16 255) ++ zeros 280 ++
  (le 2 POFIT_APPLY_ACTIONS ++ le 2 64 ++ zeros 4 ++ [1] ++ zeros 7 ++
   (le 2 POFAT_DROP ++ le 2 12 ++ le 4 1 ++ zeros 40)) ++ zeros 240 ++ zeros 1520.

Lemma flow_entry_roundtrip_witness :
  exists m', pof_HtoN_transfer_flow_entry entry_example = Some m' /\
    pof_NtoH_transfer_flow_entry m' = Some entry_example.
Proof.
  apply (flow_entry_roundtrip entry_example); try by_decide.
  intros i Hi. assert (i = 0%nat) as -> by (vm_compute in Hi; lia).
  split; [left; vm_compute; split; discriminate|]. intros _. split; [by_decide|].
  intros j Hj. assert (j = 0%nat) as -> by (vm_compute in Hj; lia). by_decide.
Defined.
