(* ===== verification/Counter.v ===== *)
(** * Counters (local_resource/pof_counter.c)

    The counter table: initialise, delete, clear, query and count.  The
    handlers are refined to an abstract machine on a finite map from counter
    ids. *)

From S2P Require Import Prelude Codec Env Hmap IdMap Tree LocalRes.
From Stdlib Require String.
Import String.StringSyntax.
#[local] Open Scope string_scope.

(** [pof_counter_mod_failed_code]. *)
Definition POFCMFC_UNKNOWN := EC 0 "POFCMFC_UNKNOWN".
Definition POFCMFC_BAD_COUNTER_ID := EC 1 "POFCMFC_BAD_COUNTER_ID".
Definition POFCMFC_BAD_COMMAND := EC 2 "POFCMFC_BAD_COMMAND".
Definition POFCMFC_COUNTER_UNEXIST := EC 3 "POFCMFC_COUNTER_UNEXIST".

Definition POFCC_QUERY_RESULT : Z := 4.

Implicit Types (lr : pof_local_resource).

(** ** Data structure helpers *)

Definition map_counterCreate lr : St (option addr * pof_local_resource) :=
  '(p, cs) ← res_create counter_zero (lr_counters lr); mret (p, set_counters cs lr).
Definition map_counterDelete (counter : addr) lr : option pof_local_resource :=
  cs ← res_delete u32 counter (lr_counters lr); Some (set_counters cs lr).
Definition map_counterInsert (counter : addr) lr : option pof_local_resource :=
  cs ← res_insert u32 counter (lr_counters lr); Some (set_counters cs lr).
Definition map_counterHashByID (id : Z) : Z := hmap_hashForLinear id.

Definition poflr_get_counter_with_ID (id : Z) lr : option (option addr) :=
  res_get (map_counterHashByID id) (lr_counters lr).

(** [counter->...]. *)
Definition load_counter (p : addr) lr : option counterInfo := res_load p (lr_counters lr).
Definition store_counter (p : addr) (c : counterInfo) lr : option pof_local_resource :=
  cs ← res_store p c (lr_counters lr); Some (set_counters cs lr).
Definition hash_counter (p : addr) (hash : Z) lr : option pof_local_resource :=
  cs ← res_set_hash p hash (lr_counters lr); Some (set_counters cs lr).

(** ** Handlers *)

Definition poflr_counter_init (counter_id : Z) lr : St (Z * pof_local_resource) :=
  if counter_id =? 0 then mret (POF_OK, lr)
  else if r_max (lr_counters lr) <=? counter_id then
    ret_err POFET_COUNTER_MOD_FAILED POFCMFC_BAD_COUNTER_ID recv_xid lr
  else
    found ← lift (poflr_get_counter_with_ID counter_id lr);
    match found with
    | Some _ => mret (POF_OK, lr)
    | None =>
        '(counter, lr) ← map_counterCreate lr;
        match counter with
        | None => ret_err POFET_SOFTWARE_FAILED POF_ALLOCATE_RESOURCE_FAILURE upward_xid_pp lr
        | Some counter =>
            c ← lift (load_counter counter lr);
            lr ← lift (store_counter counter (mkCounterInfo counter_id (co_value c) (co_byte_value c)) lr);
            lr ← lift (hash_counter counter (map_counterHashByID counter_id) lr);
            lr ← lift (map_counterInsert counter lr);
            mret (POF_OK, lr)
        end
    end.

Definition poflr_counter_delete (counter_id : Z) lr : St (Z * pof_local_resource) :=
  if counter_id =? 0 then mret (POF_OK, lr)
  else if r_max (lr_counters lr) <=? counter_id then
    ret_err POFET_COUNTER_MOD_FAILED POFCMFC_BAD_COUNTER_ID recv_xid lr
  else
    found ← lift (poflr_get_counter_with_ID counter_id lr);
    match found with
    | None => ret_err POFET_COUNTER_MOD_FAILED POFCMFC_COUNTER_UNEXIST recv_xid lr
    | Some counter => lr ← lift (map_counterDelete counter lr); mret (POF_OK, lr)
    end.

Definition poflr_counter_clear (counter_id : Z) lr : St (Z * pof_local_resource) :=
  if counter_id =? 0 then mret (POF_OK, lr)
  else if r_max (lr_counters lr) <=? counter_id then
    ret_err POFET_COUNTER_MOD_FAILED POFCMFC_BAD_COUNTER_ID recv_xid lr
  else
    found ← lift (poflr_get_counter_with_ID counter_id lr);
    match found with
    | None => ret_err POFET_COUNTER_MOD_FAILED POFCMFC_COUNTER_UNEXIST recv_xid lr
    | Some counter =>
        c ← lift (load_counter counter lr);
        lr ← lift (store_counter counter (mkCounterInfo (co_id c) 0 0) lr);
        mret (POF_OK, lr)
    end.

(** [struct pof_counter] in memory, and its conversion. *)
Definition counter_bytes (c : pof_counter) : list Z :=
  le 1 (pc_command c) ++ zeros 1 ++ le 2 (pc_slotID c) ++ le 4 (pc_counter_id c) ++
  le 8 (pc_value c) ++ le 8 (pc_byte_value c).
Definition sizeof_pof_counter : Z := 24.

Definition pof_NtoH_transfer_counter (p : list Z) : option (list Z) :=
  ntoh_fields [(4, 4); (2, 2); (8, 8); (16, 8)]%nat p.

(** Build the reply for one counter and send it. *)
Definition send_counter (c : counterInfo) (counter_id : Z) lr : St Z :=
  body ← lift (pof_NtoH_transfer_counter (counter_bytes
    (mkCounter POFCC_QUERY_RESULT (lr_slotID lr) counter_id (co_value c) (co_byte_value c))));
  x ← recv_xid;
  pofec_reply_msg POFT_COUNTER_REPLY x sizeof_pof_counter (Some body).

Definition poflr_get_counter_value (counter_id : Z) lr : St (Z * pof_local_resource) :=
  if (counter_id =? 0) || (r_max (lr_counters lr) <=? counter_id) then
    ret_err POFET_COUNTER_MOD_FAILED POFCMFC_BAD_COUNTER_ID recv_xid lr
  else
    found ← lift (poflr_get_counter_with_ID counter_id lr);
    match found with
    | None => ret_err POFET_COUNTER_MOD_FAILED POFCMFC_COUNTER_UNEXIST recv_xid lr
    | Some counter =>
        c ← lift (load_counter counter lr);
        ret ← send_counter c counter_id lr;
        if negb (ret =? POF_OK) then
          ret_err POFET_SOFTWARE_FAILED POF_WRITE_MSG_QUEUE_FAILURE recv_xid lr
        else mret (POF_OK, lr)
    end.

(** The function has no [return] after its loop: when every reply is sent, its
    value is the [unspecified] one. *)
Definition poflr_reply_counter_all (unspecified : Z) lr : St (Z * pof_local_resource) :=
  res ← HMAP_NODES_IN_STRUCT_TRAVERSE (R := Z) res_hm
    (fun p cs =>
       c ← lift (res_load p cs);
       ret ← send_counter c (co_id c) lr;
       if negb (ret =? POF_OK) then
         x ← recv_xid;
         r ← POF_ERROR_HANDLE_RETURN_UPWARD POFET_SOFTWARE_FAILED POF_WRITE_MSG_QUEUE_FAILURE x;
         mret (inl r)
       else mret (inr cs)) (lr_counters lr);
  match res with inl r => mret (r, lr) | inr _ => mret (unspecified, lr) end.

(** A missing counter is created, but the pointer found before stays [NULL]. *)
Definition poflr_counter_increace (counter_id byte_len : Z) lr : St (Z * pof_local_resource) :=
  if counter_id =? 0 then mret (POF_OK, lr)
  else if r_max (lr_counters lr) <=? counter_id then
    ret_err POFET_COUNTER_MOD_FAILED POFCMFC_BAD_COUNTER_ID upward_xid_pp lr
  else
    counter ← lift (poflr_get_counter_with_ID counter_id lr);
    '(_, lr) ← match counter with
               | None => poflr_counter_init counter_id lr
               | Some _ => mret (POF_OK, lr)
               end;
    p ← lift counter;
    c ← lift (load_counter p lr);
    lr ← lift (store_counter p
      (mkCounterInfo (co_id c) (u64 (co_value c + 1)) (u64 (co_byte_value c + byte_len))) lr);
    mret (POF_OK, lr).

Definition poflr_init_counter lr : St (Z * pof_local_resource) :=
  '(ret, cs) ← res_init (lr_counters lr); mret (ret, set_counters cs lr).

Definition poflr_empty_counter lr : St (Z * pof_local_resource) :=
  match r_map (lr_counters lr) with
  | None => mret (POF_OK, lr)
  | Some _ => cs ← res_delete_all u32 (lr_counters lr); mret (POF_OK, set_counters cs lr)
  end.

(** ** Abstract machine *)

Inductive counter_op := CInit (id : Z) | CDelete (id : Z) | CClear (id : Z) | CCount (id byte_len : Z).

Definition counter_run (op : counter_op) : pof_local_resource -> St (Z * pof_local_resource) :=
  match op with
  | CInit id => poflr_counter_init id
  | CDelete id => poflr_counter_delete id
  | CClear id => poflr_counter_clear id
  | CCount id len => poflr_counter_increace id len
  end.

Definition counter_id_of (op : counter_op) : Z :=
  match op with CInit id | CDelete id | CClear id | CCount id _ => id end.

(** Counter 0 means "no counter". *)
Definition counter_step (max : Z) (a : gmap Z counterInfo) (op : counter_op) : outcome (gmap Z counterInfo) :=
  let id := counter_id_of op in
  if id =? 0 then Done a
  else if max <=? id then Refuse POFET_COUNTER_MOD_FAILED POFCMFC_BAD_COUNTER_ID
  else
    match op, a !! id with
    | CInit _, Some _ => Done a
    | CInit _, None => Done (<[id := mkCounterInfo id 0 0]> a)
    | CCount _ len, Some c =>
        Done (<[id := mkCounterInfo id (u64 (co_value c + 1)) (u64 (co_byte_value c + len))]> a)
    | CCount _ _, None => Fault
    | CDelete _, Some _ => Done (delete id a)
    | CClear _, Some _ => Done (<[id := mkCounterInfo id 0 0]> a)
    | _, None => Refuse POFET_COUNTER_MOD_FAILED POFCMFC_COUNTER_UNEXIST
    end.

(** ** Lemmas *)

Section counter_lemmas.
Context (lr : pof_local_resource) (e : env).
Hypothesis Hc : res_ok (lr_counters lr).
Hypothesis Ok : env_ok e.
Hypothesis Q : quiet e.

Definition done_with (lr' : pof_local_resource) (a : gmap Z counterInfo) : Prop :=
  res_ok (lr_counters lr') /\ contents (lr_counters lr') = a /\
  r_max (lr_counters lr') = r_max (lr_counters lr) /\ lr' = set_counters (lr_counters lr') lr.

Lemma done_same : done_with lr (contents (lr_counters lr)).
Proof. repeat split; auto. now destruct lr. Qed.

Lemma counter_found id : 0 <= id -> exists o, poflr_get_counter_with_ID id lr = Some o /\
  match o with
  | Some p => exists c, r_heap (lr_counters lr) !! p = Some c /\ co_id (c_obj c) = id /\
      contents (lr_counters lr) !! id = Some (c_obj c)
  | None => contents (lr_counters lr) !! id = None
  end.
Proof.
  intros Hi. destruct (res_get_ok (lr_counters lr) id Hc Hi) as (o & E & Ho).
  exists o. split; [exact E|]. destruct o; [|done]. destruct Ho as (c & ? & _ & ? & ?). eauto.
Qed.

(** The creation branch of [poflr_counter_init]. *)
Lemma counter_init_creates id : 0 < id < r_max (lr_counters lr) -> contents (lr_counters lr) !! id = None ->
  exists lr', poflr_counter_init id lr e = Some ((POF_OK, lr'), e) /\
    done_with lr' (<[id := mkCounterInfo id 0 0]> (contents (lr_counters lr))).
Proof.
  intros Hi Hn. unfold poflr_counter_init. zcases.
  destruct (counter_found id) as (o & E & Ho); [lia|]. rewrite run_bind, E. unfold lift at 1.
  destruct o as [p|]; [destruct Ho as (c & _ & _ & ?); congruence|].
  set (p := fresh_addr (r_heap (lr_counters lr))).
  assert (r_heap (lr_counters lr) !! p = None) as Hp by apply fresh_addr_spec.
  destruct (res_insert_ok (lr_counters lr) p (mkCounterInfo id 0 0) Hc Hp) as (r' & Ei & Ok' & C & M);
    [cbn; lia|exact Hn|]. cbn [res_id counter_resource co_id] in *.
  exists (set_counters r' lr). split; [|repeat split; auto].
  rewrite run_bind. unfold map_counterCreate. rewrite run_bind.
  change counter_zero with (res_zero (V := counterInfo)). rewrite res_create_quiet by apply Q.
  unfold mret at 1, St_ret. cbv beta iota. fold p.
  rewrite run_bind. unfold load_counter, res_load. cbn [lr_counters set_counters with_heap r_heap].
  rewrite lookup_insert_eq. cbn [mbind option_bind c_obj res_zero counter_resource]. unfold lift at 1.
  cbn [co_value co_byte_value counter_zero].
  rewrite run_bind. unfold store_counter. cbn [lr_counters set_counters].
  rewrite res_fill by exact Hp. cbn [mbind option_bind]. unfold lift at 1.
  rewrite run_bind. unfold hash_counter. cbn [lr_counters set_counters].
  rewrite res_hash by exact Hp. cbn [mbind option_bind]. unfold lift at 1.
  rewrite run_bind. unfold map_counterInsert. cbn [lr_counters set_counters].
  unfold map_counterHashByID, hmap_hashForLinear.
  change (res_wrap (V := counterInfo)) with u32 in Ei.
  rewrite Ei. reflexivity.
Qed.

Lemma counter_stores p c v : r_heap (lr_counters lr) !! p = Some c -> co_id v = co_id (c_obj c) ->
  exists lr', store_counter p v lr = Some lr' /\
    done_with lr' (<[co_id v := v]> (contents (lr_counters lr))).
Proof.
  intros Hp Hv. destruct (res_store_ok (lr_counters lr) p c v Hc Hp Hv) as (r' & E & Ok' & C & M & _).
  exists (set_counters r' lr). unfold store_counter. rewrite E. split; [reflexivity|].
  repeat split; auto.
Qed.
End counter_lemmas.

(** What a handler owes when the abstract machine gives [o]. *)
Definition counter_meets lr e (out : option (Z * pof_local_resource * env))
    (o : outcome (gmap Z counterInfo)) : Prop :=
  match o with
  | Fault => out = None
  | Refuse t c => exists e', out = Some ((err_ret c, lr), e') /\ refused t c e e'
  | Done a => exists lr', out = Some ((POF_OK, lr'), e) /\ done_with lr lr' a
  end.

Section meets.
Context (lr : pof_local_resource) (e : env).
Hypothesis Hc : res_ok (lr_counters lr).
Hypothesis Ok : env_ok e.
Hypothesis Q : quiet e.

Lemma counter_refused code : ecode_ok code ->
  counter_meets lr e (ret_err POFET_COUNTER_MOD_FAILED code recv_xid lr e) (Refuse POFET_COUNTER_MOD_FAILED code).
Proof.
  intros Hcode. destruct (ret_err_recv e POFET_COUNTER_MOD_FAILED code lr Ok Q Hcode) as (e' & E & R).
  exists e'. split; [exact E|eexists; exact R].
Qed.

(** The checks every handler starts with. *)
Lemma counter_guards id (bad : St (Z * pof_local_resource)) k op :
  counter_id_of op = id -> 0 <= id ->
  counter_meets lr e (bad e) (Refuse POFET_COUNTER_MOD_FAILED POFCMFC_BAD_COUNTER_ID) ->
  (0 < id < r_max (lr_counters lr) -> forall o, match o with
     | Some p => exists c, r_heap (lr_counters lr) !! p = Some c /\ co_id (c_obj c) = id /\
         contents (lr_counters lr) !! id = Some (c_obj c)
     | None => contents (lr_counters lr) !! id = None
     end -> counter_meets lr e (k o e)
              (counter_step (r_max (lr_counters lr)) (contents (lr_counters lr)) op)) ->
  counter_meets lr e
    ((if id =? 0 then mret (POF_OK, lr)
      else if r_max (lr_counters lr) <=? id then bad
      else found ← lift (poflr_get_counter_with_ID id lr); k found) e)
    (counter_step (r_max (lr_counters lr)) (contents (lr_counters lr)) op).
Proof.
  intros Hop Hi Hbad Hk. unfold counter_step at 1. rewrite Hop.
  destruct (Z.eqb_spec id 0) as [H0|H0]; [exists lr; split; [done|now apply done_same]|].
  destruct (Z.leb_spec (r_max (lr_counters lr)) id) as [Hm|Hm]; [exact Hbad|].
  destruct (counter_found lr Hc id Hi) as (o & E & Ho).
  rewrite run_bind, E. specialize (Hk ltac:(lia) o Ho). unfold counter_step in Hk.
  rewrite Hop, (proj2 (Z.eqb_neq id 0)), (proj2 (Z.leb_gt _ id)) in Hk by lia. exact Hk.
Qed.

Ltac step_counter :=
  unfold counter_step; cbn [counter_id_of];
  rewrite (proj2 (Z.eqb_neq _ 0)), (proj2 (Z.leb_gt _ _)) by lia.

Lemma counter_init_meets id : 0 <= id ->
  counter_meets lr e (poflr_counter_init id lr e)
    (counter_step (r_max (lr_counters lr)) (contents (lr_counters lr)) (CInit id)).
Proof.
  intros Hi. destruct (decide (0 < id < r_max (lr_counters lr) /\ contents (lr_counters lr) !! id = None)) as [[Hr Hn]|Hn].
  - step_counter. rewrite Hn. apply counter_init_creates; auto.
  - unfold poflr_counter_init. apply counter_guards; [done|done|now apply counter_refused; by_decide|].
    intros Hr o Ho. step_counter. destruct o as [p|]; [|tauto].
    destruct Ho as (c & _ & _ & ->). exists lr. split; [done|now apply done_same].
Qed.

Lemma counter_delete_meets id : 0 <= id ->
  counter_meets lr e (poflr_counter_delete id lr e)
    (counter_step (r_max (lr_counters lr)) (contents (lr_counters lr)) (CDelete id)).
Proof.
  intros Hi. unfold poflr_counter_delete. apply counter_guards; [done|done|now apply counter_refused; by_decide|].
  intros Hr o Ho. step_counter. destruct o as [p|]; [|rewrite Ho; now apply counter_refused; by_decide].
  destruct Ho as (c & Hp & Hid & ->). destruct Hc as (m & cs & R0).
  destruct (res_delete_ok _ m cs p c R0 Hp) as (r' & m' & cs' & Ed & R' & C & M & _).
  change (res_wrap (V := counterInfo)) with u32 in Ed.
  exists (set_counters r' lr). rewrite run_bind. unfold map_counterDelete. rewrite Ed.
  split; [reflexivity|]. change (res_id (c_obj c)) with (co_id (c_obj c)) in C.
  rewrite Hid in C. split; [eexists m', cs'; exact R'|]. repeat split; auto.
Qed.

(** Overwriting a counter that was found. *)
Lemma counter_overwrites p c v : r_heap (lr_counters lr) !! p = Some c -> co_id v = co_id (c_obj c) ->
  counter_meets lr e ((lr' ← lift (store_counter p v lr); mret (POF_OK, lr')) e)
    (Done (<[co_id (c_obj c) := v]> (contents (lr_counters lr)))).
Proof.
  intros Hp Hv. destruct (counter_stores lr Hc p c v Hp Hv) as (lr' & Es & D). rewrite Hv in D.
  exists lr'. split; [|exact D]. rewrite run_bind, Es. reflexivity.
Qed.

Lemma counter_clear_meets id : 0 <= id ->
  counter_meets lr e (poflr_counter_clear id lr e)
    (counter_step (r_max (lr_counters lr)) (contents (lr_counters lr)) (CClear id)).
Proof.
  intros Hi. unfold poflr_counter_clear. apply counter_guards; [done|done|now apply counter_refused; by_decide|].
  intros Hr o Ho. step_counter. destruct o as [p|]; [|rewrite Ho; now apply counter_refused; by_decide].
  destruct Ho as (c & Hp & Hid & ->). rewrite run_bind. unfold load_counter, res_load.
  rewrite Hp. cbn [mbind option_bind]. unfold lift at 1. rewrite <- Hid.
  now apply counter_overwrites.
Qed.

Lemma counter_increace_meets id len : 0 <= id ->
  counter_meets lr e (poflr_counter_increace id len lr e)
    (counter_step (r_max (lr_counters lr)) (contents (lr_counters lr)) (CCount id len)).
Proof.
  intros Hi. unfold poflr_counter_increace. apply counter_guards; [done|done| |].
  { destruct (ret_err_upward e POFET_COUNTER_MOD_FAILED POFCMFC_BAD_COUNTER_ID lr Ok Q ltac:(by_decide)) as (e' & E & R).
    exists e'. split; [exact E|eexists; exact R]. }
  intros Hr o Ho. step_counter. destruct o as [p|].
  - destruct Ho as (c & Hp & Hid & ->). rewrite run_bind. unfold mret at 1, St_ret. cbv beta iota.
    rewrite run_bind. unfold lift at 1. rewrite run_bind. unfold load_counter, res_load.
    rewrite Hp. cbn [mbind option_bind]. unfold lift at 1. rewrite <- Hid. now apply counter_overwrites.
  - rewrite Ho, run_bind. destruct (counter_init_creates lr e Hc Q id Hr Ho) as (lr' & Ei & _).
    rewrite Ei. reflexivity.
Qed.
End meets.

(** ** Properties *)

(** C34. The counter handlers implement the abstract counter table: on every
    branch (no counter, id out of range, counter present or absent) they
    return, change the table and report exactly as [counter_step] says; a count
    on a missing counter dereferences [NULL]. *)
Theorem counter_refines op lr e :
  res_ok (lr_counters lr) -> env_ok e -> quiet e -> 0 <= counter_id_of op ->
  match counter_step (r_max (lr_counters lr)) (contents (lr_counters lr)) op with
  | Fault => counter_run op lr e = None
  | Refuse t c => exists e', counter_run op lr e = Some ((err_ret c, lr), e') /\ refused t c e e'
  | Done a => exists lr', counter_run op lr e = Some ((POF_OK, lr'), e) /\ done_with lr lr' a
  end.
Proof.
  intros Hc Ok Q Hi. destruct op; [apply counter_init_meets|apply counter_delete_meets
    |apply counter_clear_meets|apply counter_increace_meets]; done.
Qed.

Lemma transfer_counter c : pof_NtoH_transfer_counter (counter_bytes c) =
  Some ([u8 (pc_command c); 0] ++ be 2 (pc_slotID c) ++ be 4 (pc_counter_id c) ++
        be 8 (pc_value c) ++ be 8 (pc_byte_value c)).
Proof.
  unfold pof_NtoH_transfer_counter, counter_bytes, ntoh_fields. cbn [le app zeros replicate].
  do 4 ntoh_step. reflexivity.
Qed.

(** What a counter reply carries, in network order. *)
Definition counter_reply (slot : Z) (id : Z) (c : counterInfo) : list Z :=
  [POFCC_QUERY_RESULT; 0] ++ be 2 slot ++ be 4 id ++ be 8 (co_value c) ++ be 8 (co_byte_value c).

Lemma send_counter_quiet c id lr e : env_ok e -> quiet e -> sending e = true ->
  exists e', send_counter c id lr e = Some (POF_OK, e') /\ reported e e' /\
    send_q e' = send_q e ++ [header_bytes POFT_COUNTER_REPLY (g_recv_xid e) 32 ++
                             counter_reply (lr_slotID lr) id c ++ q_residue e].
Proof.
  intros Ok Q S. unfold send_counter. rewrite run_bind, transfer_counter. unfold lift.
  cbn [pc_command pc_slotID pc_counter_id pc_value pc_byte_value].
  rewrite run_bind. unfold recv_xid. rewrite run_bind. unfold get_env, mret at 1, St_ret. cbv beta iota.
  change ([u8 POFCC_QUERY_RESULT; 0] ++ _) with (counter_reply (lr_slotID lr) id c).
  assert (length (counter_reply (lr_slotID lr) id c) = 24%nat) as L
    by (unfold counter_reply; rewrite !length_app, !length_be; done).
  destruct (reply_msg_spec e POFT_COUNTER_REPLY (g_recv_xid e) 24 (Some (counter_reply (lr_slotID lr) id c))
    Ok (proj2 (proj2 Q)) S) as (r & e' & E & R & [(-> & _ & Sq)|(_ & _ & M)]).
  - split; [lia|]. split; [unfold blen; lia|]. unfold counter_reply.
    apply bytes_ok_app; [by_decide|auto 10 with pof].
  - exists e'. unfold sizeof_pof_counter. split; [exact E|]. split; [exact R|].
    rewrite Sq. cbn [body_of]. rewrite take_ge by lia. reflexivity.
  - destruct Q as (Q1 & Q2 & _). rewrite Q1, Q2 in M. cbn in M. lia.
Qed.

(** A counter query answers with the counter's current packet and byte
    counts: one [POFT_COUNTER_REPLY] with the request's xid, fields in network
    order, and the resource unchanged. *)
Theorem counter_query_reply lr e id c :
  res_ok (lr_counters lr) -> env_ok e -> quiet e -> sending e = true ->
  0 < id < r_max (lr_counters lr) -> contents (lr_counters lr) !! id = Some c ->
  exists e', poflr_get_counter_value id lr e = Some ((POF_OK, lr), e') /\
    send_q e' = send_q e ++ [header_bytes POFT_COUNTER_REPLY (g_recv_xid e) 32 ++
      ([POFCC_QUERY_RESULT; 0] ++ be 2 (lr_slotID lr) ++ be 4 id ++ be 8 (co_value c) ++
       be 8 (co_byte_value c)) ++ q_residue e].
Proof.
  intros Hc Ok Q S Hi Hl. unfold poflr_get_counter_value. zcases.
  destruct (counter_found lr Hc id) as (o & E & Ho); [lia|]. rewrite run_bind, E. unfold lift at 1.
  destruct o as [p|]; [|congruence]. destruct Ho as (cl & Hp & _ & El).
  rewrite run_bind. unfold load_counter, res_load. rewrite Hp. cbn [mbind option_bind]. unfold lift.
  rewrite run_bind. destruct (send_counter_quiet (c_obj cl) id lr e Ok Q S) as (e' & Es & R & Sq).
  rewrite Es. exists e'. split; [reflexivity|]. rewrite Sq. unfold counter_reply.
  do 5 f_equal. all: congruence.
Qed.

(** The query-all path: [poflr_reply_counter_all] sends one reply per
    counter and leaves the resource alone, but falls off the end of the
    function: its return value, which [poflr_reply_queryall] tests, is
    unspecified. *)
Theorem counter_reply_all_unspecified lr e v w :
  res_ok (lr_counters lr) -> env_ok e -> quiet e -> sending e = true ->
  exists e1, poflr_reply_counter_all v lr e = Some ((v, lr), e1) /\
             poflr_reply_counter_all w lr e = Some ((w, lr), e1) /\
    length (send_q e1) = (length (send_q e) + size (r_heap (lr_counters lr)))%nat.
Proof.
  intros (m & cs & R) Ok Q S. unfold poflr_reply_counter_all.
  set (body := fun p r => _).
  assert (exists e1, HMAP_NODES_IN_STRUCT_TRAVERSE (R := Z) res_hm body (lr_counters lr) e =
    Some (inr (lr_counters lr), e1) /\
    length (send_q e1) = (length (send_q e) + length (concat cs))%nat) as (e1 & E & L).
  { assert (res_hm (lr_counters lr) = Some (r_heap (lr_counters lr), m)) as Hm
      by (unfold res_hm; now rewrite (rr_map _ _ _ R)).
    rewrite traverse_fold with (h := r_heap (lr_counters lr)) (m := m) (cs := cs);
      [|exact Hm| |exact (rr_rep _ _ _ R)].
    - assert (forall p, p ∈ concat cs -> is_Some (r_heap (lr_counters lr) !! p)) as Hl
        by (intros p Hp; destruct (rep_in _ _ _ _ (rr_rep _ _ _ R) Hp); eauto).
      revert e Ok Q S Hl. induction (concat cs) as [|p l IH]; intros e Ok Q S Hl; cbn [fold_body].
      + exists e. split; [reflexivity|cbn; lia].
      + destruct (Hl p) as [c Hp]; [left|]. rewrite run_bind. unfold body at 1.
        unfold res_load. rewrite run_bind, Hp. cbn [mbind option_bind]. unfold lift at 1.
        rewrite run_bind.
        destruct (send_counter_quiet (c_obj c) (co_id (c_obj c)) lr e Ok Q S) as (e2 & Es & R2 & Sq).
        rewrite Es. cbn [negb]. change (POF_OK =? POF_OK) with true. cbn [negb].
        unfold mret at 1, St_ret. cbv beta iota.
        destruct (IH e2 (rp_ok _ _ R2) (quiet_reported _ _ Q R2)) as (e3 & E3 & L3).
        { unfold sending in *. now rewrite (rp_conn _ _ R2). }
        { intros. apply Hl. now right. }
        exists e3. split; [exact E3|]. rewrite L3, Sq, length_app. cbn [length]. lia.
    - intros p s e0 s' e' Hs Eb. unfold body in Eb. rewrite run_bind in Eb.
      unfold lift at 1 in Eb. destruct (res_load p s); [|discriminate]. rewrite run_bind in Eb.
      destruct (send_counter _ _ lr e0) as [[ret e2]|]; [|discriminate].
      destruct (negb (ret =? POF_OK)).
      + rewrite !run_bind in Eb. destruct (recv_xid e2) as [[x e3]|]; [|discriminate].
        rewrite run_bind in Eb. destruct (POF_ERROR_HANDLE_RETURN_UPWARD _ _ _ _) as [[? ?]|]; discriminate.
      + unfold mret, St_ret in Eb. now injection Eb as <- <-. }
  assert (length (concat cs) = size (r_heap (lr_counters lr))) as Es.
  { rewrite <- (size_dom (D := gset addr)).
    rewrite <- (size_list_to_set (C := gset addr) (concat cs)) by apply (rr_rep _ _ _ R).
    f_equal. apply set_eq. intros q. rewrite elem_of_list_to_set, elem_of_dom. split.
    - intros Hq. destruct (rep_in _ _ _ _ (rr_rep _ _ _ R) Hq). eauto.
    - apply (rr_live _ _ _ R). }
  exists e1. rewrite !run_bind, E. split; [reflexivity|]. split; [reflexivity|]. lia.
Qed.

(** ** Witnesses *)

Definition lr_counter7 : pof_local_resource :=
  lr_example (res_none 40) (res_none 8) (res_none 8) (res_one (mkCounterInfo 7 41 1000) 512).

Lemma counter_refines_witness :
  exists lr', poflr_counter_increace 7 60 lr_counter7 (env_init POFCS_CHANNEL_RUN [] []) =
      Some ((POF_OK, lr'), env_init POFCS_CHANNEL_RUN [] []) /\
    contents (lr_counters lr') !! 7 = Some (mkCounterInfo 7 42 1060).
Proof.
  destruct (counter_refines (CCount 7 60) lr_counter7 (env_init POFCS_CHANNEL_RUN [] [])
    (res_one_ok (mkCounterInfo 7 41 1000) 512 ltac:(by_decide)) (env_init_ok _ _ _) ltac:(repeat split) ltac:(cbn; lia))
    as (lr' & E & _ & C & _).
  exists lr'. split; [exact E|]. rewrite C. reflexivity.
Defined.

Lemma counter_query_reply_witness :
  exists e', poflr_get_counter_value 7 lr_counter7 (env_init POFCS_CHANNEL_RUN [] []) =
      Some ((POF_OK, lr_counter7), e') /\ length (send_q e') = 1%nat.
Proof.
  destruct (counter_query_reply lr_counter7 (env_init POFCS_CHANNEL_RUN [] []) 7 (mkCounterInfo 7 41 1000)
    (res_one_ok (mkCounterInfo 7 41 1000) 512 ltac:(by_decide)) (env_init_ok _ _ _) ltac:(repeat split) eq_refl
    ltac:(by_decide) eq_refl) as (e' & E & Sq).
  exists e'. split; [exact E|]. rewrite Sq. reflexivity.
Defined.

Lemma counter_reply_all_unspecified_witness :
  exists e1, poflr_reply_counter_all 0 lr_counter7 (env_init POFCS_CHANNEL_RUN [] []) =
      Some ((0, lr_counter7), e1) /\
    poflr_reply_counter_all 99 lr_counter7 (env_init POFCS_CHANNEL_RUN [] []) =
      Some ((99, lr_counter7), e1).
Proof.
  destruct (counter_reply_all_unspecified lr_counter7 (env_init POFCS_CHANNEL_RUN [] []) 0 99
    (res_one_ok (mkCounterInfo 7 41 1000) 512 ltac:(by_decide)) (env_init_ok _ _ _) ltac:(repeat split) eq_refl)
    as (e1 & E1 & E2 & _).
  exists e1. split; [exact E1|exact E2].
Defined.
