(* ===== verification/Meter.v ===== *)
(** * Meters (local_resource/pof_meter.c) *)

From S2P Require Import Prelude Codec Env Hmap IdMap Tree LocalRes.
From Stdlib Require String.
Import String.StringSyntax.
#[local] Open Scope string_scope.

(** [pof_meter_mod_failed_code]. *)
Definition POFMMFC_UNKNOWN := EC 0 "POFMMFC_UNKNOWN".
Definition POFMMFC_METER_EXISTS := EC 1 "POFMMFC_METER_EXISTS".
Definition POFMMFC_INVALID_METER := EC 2 "POFMMFC_INVALID_METER".
Definition POFMMFC_UNKNOWN_METER := EC 3 "POFMMFC_UNKNOWN_METER".
Definition POFMMFC_BAD_COMMAND := EC 4 "POFMMFC_BAD_COMMAND".

Definition POFMC_QUERY_RESULT : Z := 4.

Implicit Types (lr : pof_local_resource).

(** ** Data structure helpers *)

Definition map_meterCreate lr : St (option addr * pof_local_resource) :=
  '(p, ms) ← res_create meter_zero (lr_meters lr); mret (p, set_meters ms lr).
Definition map_meterDelete (meter : addr) lr : option pof_local_resource :=
  ms ← res_delete u32 meter (lr_meters lr); Some (set_meters ms lr).
Definition map_meterInsert (meter : addr) lr : option pof_local_resource :=
  ms ← res_insert u32 meter (lr_meters lr); Some (set_meters ms lr).
Definition map_meterHashByID (id : Z) : Z := hmap_hashForLinear id.

Definition poflr_get_meter_with_ID (id : Z) lr : option (option addr) :=
  res_get (map_meterHashByID id) (lr_meters lr).

Definition load_meter (p : addr) lr : option meterInfo := res_load p (lr_meters lr).
Definition store_meter (p : addr) (m : meterInfo) lr : option pof_local_resource :=
  ms ← res_store p m (lr_meters lr); Some (set_meters ms lr).
Definition hash_meter (p : addr) (hash : Z) lr : option pof_local_resource :=
  ms ← res_set_hash p hash (lr_meters lr); Some (set_meters ms lr).

(** ** Handlers *)

Definition poflr_add_meter_entry (meter_id rate : Z) lr : St (Z * pof_local_resource) :=
  if r_max (lr_meters lr) <=? meter_id then
    ret_err POFET_METER_MOD_FAILED POFMMFC_INVALID_METER recv_xid lr
  else
    found ← lift (poflr_get_meter_with_ID meter_id lr);
    match found with
    | Some _ => ret_err POFET_METER_MOD_FAILED POFMMFC_METER_EXISTS recv_xid lr
    | None =>
        '(meter, lr) ← map_meterCreate lr;
        match meter with
        | None => ret_err POFET_SOFTWARE_FAILED POF_ALLOCATE_RESOURCE_FAILURE upward_xid_pp lr
        | Some meter =>
            lr ← lift (store_meter meter (mkMeterInfo rate meter_id) lr);
            lr ← lift (hash_meter meter (map_meterHashByID meter_id) lr);
            lr ← lift (map_meterInsert meter lr);
            mret (POF_OK, lr)
        end
    end.

Definition poflr_modify_meter_entry (meter_id rate : Z) lr : St (Z * pof_local_resource) :=
  if r_max (lr_meters lr) <=? meter_id then
    ret_err POFET_METER_MOD_FAILED POFMMFC_INVALID_METER recv_xid lr
  else
    found ← lift (poflr_get_meter_with_ID meter_id lr);
    match found with
    | None => ret_err POFET_METER_MOD_FAILED POFMMFC_UNKNOWN_METER recv_xid lr
    | Some meter =>
        m ← lift (load_meter meter lr);
        lr ← lift (store_meter meter (mkMeterInfo rate (me_id m)) lr);
        mret (POF_OK, lr)
    end.

Definition poflr_delete_meter_entry (meter_id rate : Z) lr : St (Z * pof_local_resource) :=
  if r_max (lr_meters lr) <=? meter_id then
    ret_err POFET_METER_MOD_FAILED POFMMFC_INVALID_METER recv_xid lr
  else
    found ← lift (poflr_get_meter_with_ID meter_id lr);
    match found with
    | None => ret_err POFET_METER_MOD_FAILED POFMMFC_UNKNOWN_METER recv_xid lr
    | Some meter => lr ← lift (map_meterDelete meter lr); mret (POF_OK, lr)
    end.

Definition poflr_init_meter lr : St (Z * pof_local_resource) :=
  '(ret, ms) ← res_init (lr_meters lr); mret (ret, set_meters ms lr).

Definition poflr_empty_meter lr : St (Z * pof_local_resource) :=
  match r_map (lr_meters lr) with
  | None => mret (POF_OK, lr)
  | Some _ => ms ← res_delete_all u32 (lr_meters lr); mret (POF_OK, set_meters ms lr)
  end.

(** [struct pof_meter] in memory, and its conversion. *)
Definition meter_bytes (m : pof_meter) : list Z :=
  le 1 (pm_command m) ++ zeros 1 ++ le 2 (pm_slotID m) ++ le 4 (pm_meter_id m) ++
  le 4 (pm_rate m) ++ zeros 4.
Definition sizeof_pof_meter : Z := 16.

Definition pof_NtoH_transfer_meter (p : list Z) : option (list Z) :=
  ntoh_fields [(2, 2); (8, 4); (4, 4)]%nat p.

Definition reply_meter (m : meterInfo) lr : St Z :=
  body ← lift (pof_NtoH_transfer_meter (meter_bytes
    (mkMeter POFMC_QUERY_RESULT (lr_slotID lr) (me_id m) (me_rate m))));
  x ← recv_xid;
  ret ← pofec_reply_msg POFT_METER_MOD x sizeof_pof_meter (Some body);
  if negb (ret =? POF_OK) then
    x ← recv_xid;
    POF_ERROR_HANDLE_RETURN_UPWARD POFET_SOFTWARE_FAILED POF_WRITE_MSG_QUEUE_FAILURE x
  else mret POF_OK.

Definition poflr_reply_meter (meterID : Z) lr : St (Z * pof_local_resource) :=
  found ← lift (poflr_get_meter_with_ID meterID lr);
  match found with
  | None => ret_err POFET_METER_MOD_FAILED POFMMFC_UNKNOWN_METER recv_xid lr
  | Some meter =>
      m ← lift (load_meter meter lr);
      ret ← reply_meter m lr;
      mret (ret, lr)
  end.

Definition poflr_reply_meter_all lr : St (Z * pof_local_resource) :=
  res ← HMAP_NODES_IN_STRUCT_TRAVERSE (R := Z) res_hm
    (fun p ms =>
       m ← lift (res_load p ms);
       ret ← reply_meter m lr;
       if negb (ret =? POF_OK) then mret (inl ret) else mret (inr ms)) (lr_meters lr);
  match res with inl r => mret (r, lr) | inr _ => mret (POF_OK, lr) end.

(** ** Abstract machine *)

Inductive meter_op := MAdd (id rate : Z) | MModify (id rate : Z) | MDelete (id rate : Z).

Definition meter_run (op : meter_op) : pof_local_resource -> St (Z * pof_local_resource) :=
  match op with
  | MAdd id rate => poflr_add_meter_entry id rate
  | MModify id rate => poflr_modify_meter_entry id rate
  | MDelete id rate => poflr_delete_meter_entry id rate
  end.

Definition meter_id_of (op : meter_op) : Z :=
  match op with MAdd id _ | MModify id _ | MDelete id _ => id end.

(** The meter table as a map from ids to rates. *)
Definition meter_step (max : Z) (a : gmap Z meterInfo) (op : meter_op) : outcome (gmap Z meterInfo) :=
  let id := meter_id_of op in
  if max <=? id then Refuse POFET_METER_MOD_FAILED POFMMFC_INVALID_METER
  else
    match op, a !! id with
    | MAdd _ _, Some _ => Refuse POFET_METER_MOD_FAILED POFMMFC_METER_EXISTS
    | MAdd _ rate, None => Done (<[id := mkMeterInfo rate id]> a)
    | MModify _ rate, Some _ => Done (<[id := mkMeterInfo rate id]> a)
    | MDelete _ _, Some _ => Done (delete id a)
    | _, None => Refuse POFET_METER_MOD_FAILED POFMMFC_UNKNOWN_METER
    end.

(** ** Lemmas *)

Definition meters_done lr lr' (a : gmap Z meterInfo) : Prop :=
  res_ok (lr_meters lr') /\ contents (lr_meters lr') = a /\
  r_max (lr_meters lr') = r_max (lr_meters lr) /\ lr' = set_meters (lr_meters lr') lr.

Lemma meter_found lr id : res_ok (lr_meters lr) -> 0 <= id ->
  exists o, poflr_get_meter_with_ID id lr = Some o /\
  match o with
  | Some p => exists c, r_heap (lr_meters lr) !! p = Some c /\ me_id (c_obj c) = id /\
      contents (lr_meters lr) !! id = Some (c_obj c)
  | None => contents (lr_meters lr) !! id = None
  end.
Proof.
  intros Hc Hi. destruct (res_get_ok (lr_meters lr) id Hc Hi) as (o & E & Ho).
  exists o. split; [exact E|]. destruct o; [|done]. destruct Ho as (c & ? & _ & ? & ?). eauto.
Qed.

Lemma transfer_meter m : pof_NtoH_transfer_meter (meter_bytes m) =
  Some ([u8 (pm_command m); 0] ++ be 2 (pm_slotID m) ++ be 4 (pm_meter_id m) ++ be 4 (pm_rate m) ++ zeros 4).
Proof.
  unfold pof_NtoH_transfer_meter, meter_bytes, ntoh_fields. cbn [le app zeros replicate].
  do 3 ntoh_step. reflexivity.
Qed.

Lemma meter_run_meets op lr e :
  res_ok (lr_meters lr) -> env_ok e -> quiet e -> 0 <= meter_id_of op ->
  match meter_step (r_max (lr_meters lr)) (contents (lr_meters lr)) op with
  | Fault => meter_run op lr e = None
  | Refuse t c => exists e', meter_run op lr e = Some ((err_ret c, lr), e') /\ refused t c e e'
  | Done a => exists lr', meter_run op lr e = Some ((POF_OK, lr'), e) /\ meters_done lr lr' a
  end.
Proof.
  intros Hc Ok Q Hi. unfold meter_step. set (id := meter_id_of op) in *.
  assert (forall code, ecode_ok code -> exists e',
    ret_err POFET_METER_MOD_FAILED code recv_xid lr e = Some ((err_ret code, lr), e') /\
    refused POFET_METER_MOD_FAILED code e e') as Er.
  { intros code Hcode. destruct (ret_err_recv e POFET_METER_MOD_FAILED code lr Ok Q Hcode) as (e' & E & R).
    exists e'. split; [exact E|eexists; exact R]. }
  destruct (meter_found lr id Hc Hi) as (o & E & Ho).
  assert (forall A (k : _ -> St A), (found ← lift (poflr_get_meter_with_ID id lr); k found) e = k o e)
    as Get by (intros; rewrite run_bind, E; reflexivity).
  destruct op as [i rate|i rate|i rate]; cbn in id; subst id; cbn [meter_run];
    unfold poflr_add_meter_entry, poflr_modify_meter_entry, poflr_delete_meter_entry;
    destruct (Z.leb_spec (r_max (lr_meters lr)) i); try (apply Er; by_decide); rewrite Get;
    (destruct o as [p|]; [destruct Ho as (c & Hp & Hid & Ec); rewrite Ec|rewrite Ho]);
    try (apply Er; by_decide).
  - set (p := fresh_addr (r_heap (lr_meters lr))).
    assert (r_heap (lr_meters lr) !! p = None) as Hp by apply fresh_addr_spec.
    destruct (res_insert_ok (lr_meters lr) p (mkMeterInfo rate i) Hc Hp Hi Ho) as (r' & Ei & Ok' & C & M).
    cbn [res_id meter_resource me_id] in *. change (res_wrap (V := meterInfo)) with u32 in Ei.
    exists (set_meters r' lr). split; [|repeat split; auto].
    rewrite run_bind. unfold map_meterCreate. rewrite run_bind.
    change meter_zero with (res_zero (V := meterInfo)). rewrite res_create_quiet by apply Q.
    unfold mret at 1, St_ret. cbv beta iota. fold p.
    rewrite run_bind. unfold store_meter. cbn [lr_meters set_meters].
    rewrite res_fill by exact Hp. cbn [mbind option_bind]. unfold lift at 1.
    rewrite run_bind. unfold hash_meter. cbn [lr_meters set_meters].
    rewrite res_hash by exact Hp. cbn [mbind option_bind]. unfold lift at 1.
    rewrite run_bind. unfold map_meterInsert. cbn [lr_meters set_meters].
    unfold map_meterHashByID, hmap_hashForLinear. rewrite Ei. reflexivity.
  - destruct (res_store_ok (lr_meters lr) p c (mkMeterInfo rate (me_id (c_obj c))) Hc Hp eq_refl)
      as (r' & Es & Ok' & C & M & _). cbn [res_id meter_resource me_id] in C. rewrite Hid in C.
    exists (set_meters r' lr). split; [|repeat split; auto].
    rewrite run_bind. unfold load_meter, res_load. rewrite Hp. cbn [mbind option_bind]. unfold lift at 1.
    rewrite run_bind. unfold store_meter. rewrite Es. reflexivity.
  - destruct Hc as (m & cs & R0).
    destruct (res_delete_ok _ m cs p c R0 Hp) as (r' & m' & cs' & Ed & R' & C & M & _).
    change (res_wrap (V := meterInfo)) with u32 in Ed.
    change (res_id (c_obj c)) with (me_id (c_obj c)) in C. rewrite Hid in C.
    exists (set_meters r' lr). rewrite run_bind. unfold map_meterDelete. rewrite Ed.
    split; [reflexivity|]. split; [eexists m', cs'; exact R'|]. repeat split; auto.
Qed.

(** ** Properties *)

(** The meter handlers implement the abstract meter table: adding needs a
    valid free id, modifying and deleting an existing one; every other request
    is refused with the matching code and leaves the table as it was. *)
Theorem meter_refines op lr e :
  res_ok (lr_meters lr) -> env_ok e -> quiet e -> 0 <= meter_id_of op ->
  match meter_step (r_max (lr_meters lr)) (contents (lr_meters lr)) op with
  | Fault => meter_run op lr e = None
  | Refuse t c => exists e', meter_run op lr e = Some ((err_ret c, lr), e') /\ refused t c e e'
  | Done a => exists lr', meter_run op lr e = Some ((POF_OK, lr'), e) /\ meters_done lr lr' a
  end.
Proof. exact (meter_run_meets op lr e). Qed.

(** A meter query answers with the meter's rate in one [POFT_METER_MOD]
    message in network order, under the request's xid. *)
Theorem meter_query_reply lr e id m :
  res_ok (lr_meters lr) -> env_ok e -> quiet e -> sending e = true -> 0 <= id ->
  contents (lr_meters lr) !! id = Some m ->
  exists e', poflr_reply_meter id lr e = Some ((POF_OK, lr), e') /\
    send_q e' = send_q e ++ [header_bytes POFT_METER_MOD (g_recv_xid e) 24 ++
      ([POFMC_QUERY_RESULT; 0] ++ be 2 (lr_slotID lr) ++ be 4 id ++ be 4 (me_rate m) ++ zeros 4) ++
      q_residue e].
Proof.
  intros Hc Ok Q S Hi Hl. unfold poflr_reply_meter.
  destruct (meter_found lr id Hc Hi) as (o & E & Ho). rewrite run_bind, E. unfold lift at 1.
  destruct o as [p|]; [|congruence]. destruct Ho as (c & Hp & Hid & El).
  assert (c_obj c = m) as Em by congruence.
  rewrite run_bind. unfold load_meter, res_load. rewrite Hp. cbn [mbind option_bind]. unfold lift at 1.
  rewrite run_bind. unfold reply_meter. rewrite run_bind, transfer_meter. unfold lift at 1.
  cbn [pm_command pm_slotID pm_meter_id pm_rate].
  rewrite run_bind. unfold recv_xid at 1. rewrite run_bind. unfold get_env, mret at 1, St_ret. cbv beta iota.
  rewrite Em in *. rewrite Hid.
  set (body := _ ++ _).
  assert (length body = 16%nat) as L by (unfold body; rewrite !length_app, !length_be; done).
  rewrite run_bind.
  destruct (reply_msg_spec e POFT_METER_MOD (g_recv_xid e) 16 (Some body)
    Ok (proj2 (proj2 Q)) S) as (r & e' & Es & R & [(-> & _ & Sq)|(_ & _ & M)]).
  - split; [lia|]. split; [unfold blen; lia|]. unfold body.
    apply bytes_ok_app; [by_decide|]. apply bytes_ok_app; [auto with pof|]. apply bytes_ok_app; [auto with pof|].
    apply bytes_ok_app; [auto with pof|by_decide].
  - unfold sizeof_pof_meter. rewrite Es. exists e'. split; [reflexivity|].
    rewrite Sq. cbn [body_of]. rewrite take_ge by lia. reflexivity.
  - destruct Q as (Q1 & Q2 & _). rewrite Q1, Q2 in M. cbn in M. lia.
Qed.

(** ** Witnesses *)

Definition lr_meter3 : pof_local_resource :=
  lr_example (res_none 40) (res_none 8) (res_one (mkMeterInfo 500 3) 16) (res_none 512).

Lemma meter_refines_witness :
  exists lr', poflr_modify_meter_entry 3 900 lr_meter3 (env_init POFCS_CHANNEL_RUN [] []) =
      Some ((POF_OK, lr'), env_init POFCS_CHANNEL_RUN [] []) /\
    contents (lr_meters lr') !! 3 = Some (mkMeterInfo 900 3).
Proof.
  destruct (meter_refines (MModify 3 900) lr_meter3 (env_init POFCS_CHANNEL_RUN [] [])
    (res_one_ok (mkMeterInfo 500 3) 16 ltac:(by_decide)) (env_init_ok _ _ _) ltac:(repeat split) ltac:(cbn; lia))
    as (lr' & E & _ & C & _).
  exists lr'. split; [exact E|]. rewrite C. reflexivity.
Defined.

Lemma meter_query_reply_witness :
  exists e', poflr_reply_meter 3 lr_meter3 (env_init POFCS_CHANNEL_RUN [] []) =
      Some ((POF_OK, lr_meter3), e') /\ length (send_q e') = 1%nat.
Proof.
  destruct (meter_query_reply lr_meter3 (env_init POFCS_CHANNEL_RUN [] []) 3 (mkMeterInfo 500 3)
    (res_one_ok (mkMeterInfo 500 3) 16 ltac:(by_decide)) (env_init_ok _ _ _) ltac:(repeat split) eq_refl
    ltac:(lia) eq_refl) as (e' & E & Sq).
  exists e'. split; [exact E|]. rewrite Sq. reflexivity.
Defined.
