(* ===== verification/Group.v ===== *)
(** * Groups (local_resource/pof_group.c)

    Groups own a counter: adding a group starts its counter and deleting one
    deletes a counter, so the handlers are refined to an abstract machine on
    two maps, the groups and the counters. *)

From S2P Require Import Prelude Codec Env Hmap IdMap Tree LocalRes ByteTransfer Counter.
From Stdlib Require String.
Import String.StringSyntax.
#[local] Open Scope string_scope.

(** [pof_group_mod_failed_code]. *)
Definition POFGMFC_GROUP_EXISTS := EC 0 "POFGMFC_GROUP_EXISTS".
Definition POFGMFC_INVALID_GROUP := EC 1 "POFGMFC_INVALID_GROUP".
Definition POFGMFC_UNKNOWN_GROUP := EC 8 "POFGMFC_UNKNOWN_GROUP".
Definition POFGMFC_BAD_COUNTER_ID := EC 15 "POFGMFC_BAD_COUNTER_ID".

Definition POFGC_QUERY_RESULT : Z := 4.

Implicit Types (lr : pof_local_resource) (g : pof_group).

(** ** Data structure helpers *)

Definition map_groupCreate lr : St (option addr * pof_local_resource) :=
  '(p, gs) ← res_create group_zero (lr_groups lr); mret (p, set_groups gs lr).
Definition map_groupDelete (group : addr) lr : option pof_local_resource :=
  gs ← res_delete u32 group (lr_groups lr); Some (set_groups gs lr).
Definition map_groupInsert (group : addr) lr : option pof_local_resource :=
  gs ← res_insert u32 group (lr_groups lr); Some (set_groups gs lr).
Definition map_groupHashByID (id : Z) : Z := hmap_hashForLinear id.

Definition poflr_get_group_with_ID (id : Z) lr : option (option addr) :=
  res_get (map_groupHashByID id) (lr_groups lr).

Definition load_group (p : addr) lr : option groupInfo := res_load p (lr_groups lr).

(** [memcpy(dst, src, n * sizeof(struct pof_action))] between two arrays of
    [POF_MAX_ACTION_NUMBER_PER_GROUP] actions. *)
Definition copy_actions (dst src : list pof_action) (n : Z) : option (list pof_action) :=
  if POF_MAX_ACTION_NUMBER_PER_GROUP <? n then None
  else Some (take (Z.to_nat n) src ++ drop (Z.to_nat n) dst).

Definition groupFill g (group : addr) lr : option pof_local_resource :=
  old ← load_group group lr;
  acts ← copy_actions (gr_action old) (pg_action g) (pg_action_number g);
  gs ← res_store group
    (mkGroupInfo (pg_type g) (pg_action_number g) (pg_group_id g) (pg_counter_id g) acts) (lr_groups lr);
  gs ← res_set_hash group (map_groupHashByID (pg_group_id g)) gs;
  Some (set_groups gs lr).

(** ** Handlers *)

Definition poflr_add_group_entry g lr : St (Z * pof_local_resource) :=
  if r_max (lr_groups lr) <=? pg_group_id g then
    ret_err POFET_GROUP_MOD_FAILED POFGMFC_INVALID_GROUP recv_xid lr
  else
    found ← lift (poflr_get_group_with_ID (pg_group_id g) lr);
    match found with
    | Some _ => ret_err POFET_GROUP_MOD_FAILED POFGMFC_GROUP_EXISTS recv_xid lr
    | None =>
        '(ret, lr) ← poflr_counter_init (pg_counter_id g) lr;
        if negb (ret =? POF_OK) then mret (ret, lr)
        else
          '(group, lr) ← map_groupCreate lr;
          match group with
          | None => ret_err POFET_SOFTWARE_FAILED POF_ALLOCATE_RESOURCE_FAILURE upward_xid_pp lr
          | Some group =>
              lr ← lift (groupFill g group lr);
              lr ← lift (map_groupInsert group lr);
              mret (POF_OK, lr)
          end
    end.

Definition poflr_modify_group_entry g lr : St (Z * pof_local_resource) :=
  if r_max (lr_groups lr) <=? pg_group_id g then
    ret_err POFET_GROUP_MOD_FAILED POFGMFC_INVALID_GROUP recv_xid lr
  else
    found ← lift (poflr_get_group_with_ID (pg_group_id g) lr);
    match found with
    | None => ret_err POFET_GROUP_MOD_FAILED POFGMFC_UNKNOWN_GROUP recv_xid lr
    | Some group =>
        old ← lift (load_group group lr);
        if negb (pg_counter_id g =? gr_counter_id old) then
          ret_err POFET_GROUP_MOD_FAILED POFGMFC_BAD_COUNTER_ID recv_xid lr
        else
          lr ← lift (groupFill g group lr);
          mret (POF_OK, lr)
    end.

(** The counter deleted is the one the message names. *)
Definition poflr_delete_group_entry g lr : St (Z * pof_local_resource) :=
  if r_max (lr_groups lr) <=? pg_group_id g then
    ret_err POFET_GROUP_MOD_FAILED POFGMFC_INVALID_GROUP recv_xid lr
  else
    found ← lift (poflr_get_group_with_ID (pg_group_id g) lr);
    match found with
    | None => ret_err POFET_GROUP_MOD_FAILED POFGMFC_UNKNOWN_GROUP recv_xid lr
    | Some group =>
        '(ret, lr) ← poflr_counter_delete (pg_counter_id g) lr;
        if negb (ret =? POF_OK) then mret (ret, lr)
        else
          lr ← lift (map_groupDelete group lr);
          mret (POF_OK, lr)
    end.

Definition poflr_init_group lr : St (Z * pof_local_resource) :=
  '(ret, gs) ← res_init (lr_groups lr); mret (ret, set_groups gs lr).

Definition poflr_empty_group lr : St (Z * pof_local_resource) :=
  match r_map (lr_groups lr) with
  | None => mret (POF_OK, lr)
  | Some _ => gs ← res_delete_all u32 (lr_groups lr); mret (POF_OK, set_groups gs lr)
  end.

(** [struct pof_group] in memory. *)
Definition action_bytes (a : pof_action) : list Z :=
  le 2 (act_type a) ++ le 2 (act_len a) ++ action_data a.
Definition group_bytes g : list Z :=
  le 1 (pg_command g) ++ le 1 (pg_type g) ++ le 1 (pg_action_number g) ++ zeros 1 ++
  le 4 (pg_group_id g) ++ le 4 (pg_counter_id g) ++ le 2 (pg_slotID g) ++ zeros 2 ++
  concat (action_bytes <$> pg_action g).
Definition sizeof_pof_group : Z := 208.

(** The static function [reply] of pof_group.c. *)
Definition group_reply (group : groupInfo) lr : St Z :=
  body ← lift (pof_NtoH_transfer_group (group_bytes
    (mkGroup POFGC_QUERY_RESULT (gr_type group) (gr_action_number group) (gr_id group) (gr_counter_id group)
       (lr_slotID lr) (gr_action group))));
  x ← recv_xid;
  ret ← pofec_reply_msg POFT_GROUP_MOD x sizeof_pof_group (Some body);
  if negb (ret =? POF_OK) then
    x ← recv_xid;
    POF_ERROR_HANDLE_RETURN_UPWARD POFET_SOFTWARE_FAILED POF_WRITE_MSG_QUEUE_FAILURE x
  else mret POF_OK.

Definition poflr_reply_group (groupID : Z) lr : St (Z * pof_local_resource) :=
  found ← lift (poflr_get_group_with_ID groupID lr);
  match found with
  | None => ret_err POFET_METER_MOD_FAILED POFGMFC_UNKNOWN_GROUP recv_xid lr
  | Some group =>
      g ← lift (load_group group lr);
      ret ← group_reply g lr;
      if negb (ret =? POF_OK) then mret (ret, lr) else mret (POF_OK, lr)
  end.

Definition poflr_reply_group_all lr : St (Z * pof_local_resource) :=
  res ← HMAP_NODES_IN_STRUCT_TRAVERSE (R := Z) res_hm
    (fun p gs =>
       g ← lift (res_load p gs);
       ret ← group_reply g lr;
       if negb (ret =? POF_OK) then mret (inl ret) else mret (inr gs)) (lr_groups lr);
  match res with inl r => mret (r, lr) | inr _ => mret (POF_OK, lr) end.

(** ** Abstract machine *)

Inductive group_op := GAdd (g : pof_group) | GModify (g : pof_group) | GDelete (g : pof_group).

Definition group_run (op : group_op) : pof_local_resource -> St (Z * pof_local_resource) :=
  match op with
  | GAdd g => poflr_add_group_entry g
  | GModify g => poflr_modify_group_entry g
  | GDelete g => poflr_delete_group_entry g
  end.

Definition group_of (op : group_op) : pof_group :=
  match op with GAdd g | GModify g | GDelete g => g end.

(** A group filled from a message over the actions it had. *)
Definition group_filled g (old : list pof_action) : groupInfo :=
  mkGroupInfo (pg_type g) (pg_action_number g) (pg_group_id g) (pg_counter_id g)
    (take (Z.to_nat (pg_action_number g)) (pg_action g) ++ drop (Z.to_nat (pg_action_number g)) old).

Definition group_step (gmax cmax : Z) (s : gmap Z groupInfo * gmap Z counterInfo) (op : group_op)
  : outcome (gmap Z groupInfo * gmap Z counterInfo) :=
  let '(gs, cs) := s in
  let g := group_of op in
  let id := pg_group_id g in
  let filled old (cs : gmap Z counterInfo) :=
    if POF_MAX_ACTION_NUMBER_PER_GROUP <? pg_action_number g then Fault
    else Done (<[id := group_filled g old]> gs, cs) in
  if gmax <=? id then Refuse POFET_GROUP_MOD_FAILED POFGMFC_INVALID_GROUP
  else
    match op, gs !! id with
    | GAdd _, Some _ => Refuse POFET_GROUP_MOD_FAILED POFGMFC_GROUP_EXISTS
    | GAdd _, None =>
        match counter_step cmax cs (CInit (pg_counter_id g)) with
        | Done cs' => filled (gr_action group_zero) cs'
        | Refuse t c => Refuse t c
        | Fault => Fault
        end
    | _, None => Refuse POFET_GROUP_MOD_FAILED POFGMFC_UNKNOWN_GROUP
    | GModify _, Some old =>
        if negb (pg_counter_id g =? gr_counter_id old) then Refuse POFET_GROUP_MOD_FAILED POFGMFC_BAD_COUNTER_ID
        else filled (gr_action old) cs
    | GDelete _, Some _ =>
        match counter_step cmax cs (CDelete (pg_counter_id g)) with
        | Done cs' => Done (delete id gs, cs')
        | Refuse t c => Refuse t c
        | Fault => Fault
        end
    end.

(** ** Lemmas *)

Definition groups_done lr lr' (s : gmap Z groupInfo * gmap Z counterInfo) : Prop :=
  res_ok (lr_groups lr') /\ res_ok (lr_counters lr') /\
  contents (lr_groups lr') = s.1 /\ contents (lr_counters lr') = s.2 /\
  r_max (lr_groups lr') = r_max (lr_groups lr) /\ r_max (lr_counters lr') = r_max (lr_counters lr) /\
  lr' = set_groups (lr_groups lr') (set_counters (lr_counters lr') lr).

Definition group_meets lr e (out : option (Z * pof_local_resource * env))
    (o : outcome (gmap Z groupInfo * gmap Z counterInfo)) : Prop :=
  match o with
  | Fault => out = None
  | Refuse t c => exists e', out = Some ((err_ret c, lr), e') /\ refused t c e e'
  | Done s => exists lr', out = Some ((POF_OK, lr'), e) /\ groups_done lr lr' s
  end.

Section group_lemmas.
Context (lr : pof_local_resource) (e : env).
Hypothesis Hg : res_ok (lr_groups lr).
Hypothesis Hc : res_ok (lr_counters lr).
Hypothesis Ok : env_ok e.
Hypothesis Q : quiet e.
Context (g : pof_group).
Hypothesis Hid : 0 <= pg_group_id g.
Hypothesis Hcid : 0 <= pg_counter_id g.

Let start := (contents (lr_groups lr), contents (lr_counters lr)).

Lemma group_refused type code : ecode_ok code ->
  group_meets lr e (ret_err type code recv_xid lr e) (Refuse type code).
Proof.
  intros Hcode. destruct (ret_err_recv e type code lr Ok Q Hcode) as (e' & E & R).
  exists e'. split; [exact E|eexists; exact R].
Qed.

Lemma group_found : exists o, poflr_get_group_with_ID (pg_group_id g) lr = Some o /\
  match o with
  | Some p => exists c, r_heap (lr_groups lr) !! p = Some c /\ gr_id (c_obj c) = pg_group_id g /\
      contents (lr_groups lr) !! (pg_group_id g) = Some (c_obj c)
  | None => contents (lr_groups lr) !! (pg_group_id g) = None
  end.
Proof.
  destruct (res_get_ok (lr_groups lr) (pg_group_id g) Hg Hid) as (o & E & Ho).
  exists o. split; [exact E|]. destruct o; [|done]. destruct Ho as (c & ? & _ & ? & ?). eauto.
Qed.

(** The guards every handler starts with. *)
Lemma group_guards k op : group_of op = g ->
  (forall o, pg_group_id g < r_max (lr_groups lr) -> match o with
     | Some p => exists c, r_heap (lr_groups lr) !! p = Some c /\ gr_id (c_obj c) = pg_group_id g /\
         contents (lr_groups lr) !! (pg_group_id g) = Some (c_obj c)
     | None => contents (lr_groups lr) !! (pg_group_id g) = None
     end -> group_meets lr e (k o e) (group_step (r_max (lr_groups lr)) (r_max (lr_counters lr)) start op)) ->
  group_meets lr e
    ((if r_max (lr_groups lr) <=? pg_group_id g then
        ret_err POFET_GROUP_MOD_FAILED POFGMFC_INVALID_GROUP recv_xid lr
      else found ← lift (poflr_get_group_with_ID (pg_group_id g) lr); k found) e)
    (group_step (r_max (lr_groups lr)) (r_max (lr_counters lr)) start op).
Proof.
  intros Hop Hk. destruct group_found as (o & E & Ho). specialize (Hk o).
  unfold group_step, start in *. rewrite Hop in *.
  destruct (Z.leb_spec (r_max (lr_groups lr)) (pg_group_id g)); [now apply group_refused; by_decide|].
  rewrite run_bind, E. now apply Hk.
Qed.

(** The counter part of a handler, and what follows when it succeeds. *)
Lemma group_counter (run : St (Z * pof_local_resource)) cop k fin :
  counter_meets lr e (run e) (counter_step (r_max (lr_counters lr)) (contents (lr_counters lr)) cop) ->
  (forall lr' cs, done_with lr lr' cs -> group_meets lr e (k lr' e) (fin cs)) ->
  group_meets lr e
    (('(ret, lr) ← run; if negb (ret =? POF_OK) then mret (ret, lr) else k lr) e)
    (match counter_step (r_max (lr_counters lr)) (contents (lr_counters lr)) cop with
     | Done cs => fin cs | Refuse t c => Refuse t c | Fault => Fault end).
Proof.
  intros Hm Hk. rewrite run_bind.
  destruct (counter_step _ _ cop) as [|t c|cs]; cbn in Hm.
  - rewrite Hm. reflexivity.
  - destruct Hm as (e' & -> & R). exists e'. split; [|done].
    rewrite (proj2 (Z.eqb_neq _ _)) by apply err_ret_nonzero. reflexivity.
  - destruct Hm as (lr' & -> & D). change (POF_OK =? POF_OK) with true. cbn [negb]. now apply Hk.
Qed.
End group_lemmas.

Ltac refuse := cbn beta iota; apply group_refused; [assumption|assumption|by_decide].

(** Filling a group that stands at [p] without a hash, and one that is linked. *)
Lemma group_fill_new lr g p v :
  r_heap (lr_groups lr) !! p = None ->
  groupFill g p (set_groups (with_heap (lr_groups lr) (<[p := Cell 0 None v]> (r_heap (lr_groups lr)))) lr) =
  if POF_MAX_ACTION_NUMBER_PER_GROUP <? pg_action_number g then None
  else Some (set_groups (with_heap (lr_groups lr)
    (<[p := Cell (pg_group_id g) None (group_filled g (gr_action v))]> (r_heap (lr_groups lr)))) lr).
Proof.
  intros Hp. unfold groupFill, load_group, res_load, copy_actions. cbn [lr_groups set_groups with_heap r_heap].
  rewrite lookup_insert_eq. cbn [mbind option_bind c_obj].
  destruct (_ <? _); [done|]. cbn [mbind option_bind].
  rewrite res_fill by exact Hp. cbn [mbind option_bind].
  unfold map_groupHashByID, hmap_hashForLinear. rewrite res_hash by exact Hp. reflexivity.
Qed.

(** The end of [poflr_add_group_entry], on the resource the counter part left. *)
Lemma group_creates lr e g lr1 cs : res_ok (lr_groups lr) -> quiet e ->
  0 <= pg_group_id g -> contents (lr_groups lr) !! (pg_group_id g) = None -> done_with lr lr1 cs ->
  group_meets lr e
    (('(group, lr) ← map_groupCreate lr1;
      match group with
      | None => ret_err POFET_SOFTWARE_FAILED POF_ALLOCATE_RESOURCE_FAILURE upward_xid_pp lr
      | Some group => lr ← lift (groupFill g group lr); lr ← lift (map_groupInsert group lr); mret (POF_OK, lr)
      end) e)
    (if POF_MAX_ACTION_NUMBER_PER_GROUP <? pg_action_number g then Fault
     else Done (<[pg_group_id g := group_filled g (gr_action group_zero)]> (contents (lr_groups lr)), cs)).
Proof.
  intros Hg Q Hi Hn (Okc & Cc & Mc & El).
  assert (lr_groups lr1 = lr_groups lr) as Eg by (rewrite El; reflexivity).
  set (p := fresh_addr (r_heap (lr_groups lr))).
  assert (r_heap (lr_groups lr) !! p = None) as Hp by apply fresh_addr_spec.
  rewrite run_bind. unfold map_groupCreate. rewrite run_bind.
  change group_zero with (res_zero (V := groupInfo)). rewrite res_create_quiet by apply Q.
  unfold mret at 1, St_ret. cbv beta iota. rewrite Eg. fold p.
  rewrite run_bind, <- Eg, group_fill_new by (rewrite Eg; exact Hp).
  destruct (_ <? _); [done|]. unfold lift at 1. rewrite run_bind, Eg.
  destruct (res_insert_ok (lr_groups lr) p (group_filled g (gr_action group_zero)) Hg Hp Hi Hn)
    as (r' & Ei & Ok' & C & M).
  cbn [res_id group_resource group_filled gr_id] in *. change (res_wrap (V := groupInfo)) with u32 in Ei.
  unfold map_groupInsert. cbn [lr_groups set_groups].
  change (gr_action res_zero) with (gr_action group_zero). unfold group_filled at 1. rewrite Ei.
  exists (set_groups r' lr1). split; [reflexivity|].
  repeat split; auto. rewrite El. reflexivity.
Qed.

(** The end of [poflr_modify_group_entry]. *)
Lemma group_overwrites lr e g p c : res_ok (lr_groups lr) -> res_ok (lr_counters lr) ->
  r_heap (lr_groups lr) !! p = Some c -> gr_id (c_obj c) = pg_group_id g ->
  group_meets lr e ((lr ← lift (groupFill g p lr); mret (POF_OK, lr)) e)
    (if POF_MAX_ACTION_NUMBER_PER_GROUP <? pg_action_number g then Fault
     else Done (<[pg_group_id g := group_filled g (gr_action (c_obj c))]> (contents (lr_groups lr)),
                contents (lr_counters lr))).
Proof.
  intros Hg Hc Hp Hid. rewrite run_bind. unfold groupFill, load_group, res_load, copy_actions.
  rewrite Hp. cbn [mbind option_bind]. destruct (_ <? _); [done|]. cbn [mbind option_bind].
  fold (group_filled g (gr_action (c_obj c))).
  destruct (res_store_ok (lr_groups lr) p c (group_filled g (gr_action (c_obj c))) Hg Hp)
    as (r' & Es & Ok' & C & M & Hp'); [symmetry; exact Hid|].
  rewrite Es. cbn [mbind option_bind].
  pose proof (res_rehash_ok r' p _ Ok' ltac:(rewrite Hp'; apply lookup_insert_eq)) as Eh.
  cbn [c_obj res_id group_resource group_filled gr_id] in Eh, C.
  unfold map_groupHashByID, hmap_hashForLinear. rewrite Eh.
  exists (set_groups r' lr). split; [reflexivity|]. now destruct lr.
Qed.

(** The end of [poflr_delete_group_entry], on the resource the counter part left. *)
Lemma group_deletes lr e lr1 cs p c : res_ok (lr_groups lr) ->
  r_heap (lr_groups lr) !! p = Some c -> done_with lr lr1 cs ->
  group_meets lr e ((lr ← lift (map_groupDelete p lr1); mret (POF_OK, lr)) e)
    (Done (delete (gr_id (c_obj c)) (contents (lr_groups lr)), cs)).
Proof.
  intros (m & bs & R0) Hp (Okc & Cc & Mc & El).
  assert (lr_groups lr1 = lr_groups lr) as Eg by (rewrite El; reflexivity).
  destruct (res_delete_ok _ m bs p c R0 Hp) as (r' & m' & bs' & Ed & R' & C & M & _).
  change (res_wrap (V := groupInfo)) with u32 in Ed. cbn [res_id group_resource] in C.
  rewrite run_bind. unfold map_groupDelete. rewrite Eg, Ed.
  exists (set_groups r' lr1). split; [reflexivity|].
  split; [eexists m', bs'; exact R'|]. repeat split; auto. rewrite El. reflexivity.
Qed.

Lemma group_run_meets op lr e :
  res_ok (lr_groups lr) -> res_ok (lr_counters lr) -> env_ok e -> quiet e ->
  0 <= pg_group_id (group_of op) -> 0 <= pg_counter_id (group_of op) ->
  group_meets lr e (group_run op lr e)
    (group_step (r_max (lr_groups lr)) (r_max (lr_counters lr))
       (contents (lr_groups lr), contents (lr_counters lr)) op).
Proof.
  intros Hg Hc Ok Q Hid Hcid. set (g := group_of op) in *.
  destruct op as [g'|g'|g']; cbn in g; subst g; cbn [group_run];
    unfold poflr_add_group_entry, poflr_modify_group_entry, poflr_delete_group_entry;
    (apply group_guards; try done; intros o Hm Ho); unfold group_step; cbn [group_of];
    rewrite (proj2 (Z.leb_gt _ _)) by lia.
  - destruct o as [p|].
    { destruct Ho as (c & _ & _ & ->). refuse. }
    rewrite Ho. apply (group_counter lr e); [now apply counter_init_meets|].
    intros lr' cs D. now apply group_creates.  - destruct o as [p|]; [|rewrite Ho; refuse].
    destruct Ho as (c & Hp & Ei & ->). rewrite run_bind. unfold load_group, res_load.
    rewrite Hp. cbn [mbind option_bind]. unfold lift at 1.
    destruct (negb (pg_counter_id g' =? gr_counter_id (c_obj c))); [refuse|].
    now apply group_overwrites.
  - destruct o as [p|]; [|rewrite Ho; refuse].
    destruct Ho as (c & Hp & Ei & ->). apply (group_counter lr e); [now apply counter_delete_meets|].
    intros lr' cs D. rewrite <- Ei. now apply group_deletes.
Qed.

(** ** Properties *)

(** C33. The group handlers implement the abstract machine on groups and
    counters: adding needs a valid free id and starts the counter the message
    names; modifying needs the group's own counter; deleting deletes the counter
    the message names.  More actions than a group holds run over the array. *)
Theorem group_refines op lr e :
  res_ok (lr_groups lr) -> res_ok (lr_counters lr) -> env_ok e -> quiet e ->
  0 <= pg_group_id (group_of op) -> 0 <= pg_counter_id (group_of op) ->
  group_meets lr e (group_run op lr e)
    (group_step (r_max (lr_groups lr)) (r_max (lr_counters lr))
       (contents (lr_groups lr), contents (lr_counters lr)) op).
Proof. exact (group_run_meets op lr e). Qed.

(** Deleting a group with a message that names another counter deletes that
    counter and leaves the group's own one in the table. *)
Theorem group_delete_foreign_counter lr e g v c :
  res_ok (lr_groups lr) -> res_ok (lr_counters lr) -> env_ok e -> quiet e ->
  0 <= pg_group_id g < r_max (lr_groups lr) -> 0 < pg_counter_id g < r_max (lr_counters lr) ->
  contents (lr_groups lr) !! (pg_group_id g) = Some v ->
  gr_counter_id v <> pg_counter_id g ->
  contents (lr_counters lr) !! (pg_counter_id g) = Some c ->
  exists lr', poflr_delete_group_entry g lr e = Some ((POF_OK, lr'), e) /\
    contents (lr_counters lr') !! (pg_counter_id g) = None /\
    contents (lr_counters lr') !! (gr_counter_id v) = contents (lr_counters lr) !! (gr_counter_id v) /\
    contents (lr_groups lr') !! (pg_group_id g) = None.
Proof.
  intros Hg Hc Ok Q Hid Hcid Ev Hne Ec.
  destruct (group_found lr Hg g (proj1 Hid)) as ([p|] & E & Ho); [|congruence].
  destruct Ho as (d & Hp & Ei & Ed). assert (v = c_obj d) as -> by congruence.
  pose proof (counter_delete_meets lr e Hc Ok Q (pg_counter_id g) ltac:(lia)) as M.
  unfold counter_step in M. cbn [counter_id_of] in M.
  rewrite (proj2 (Z.eqb_neq _ 0)), (proj2 (Z.leb_gt _ _)), Ec in M by lia.
  destruct M as (lr1 & E1 & D).
  destruct (group_deletes lr e lr1 _ p d Hg Hp D) as (lr2 & E2 & _ & _ & Cg & Cc & _).
  exists lr2. unfold poflr_delete_group_entry. rewrite (proj2 (Z.leb_gt _ _)) by lia.
  rewrite run_bind, E. unfold lift at 1. rewrite run_bind, E1. split; [exact E2|].
  rewrite Cg, Cc, Ei. cbn [fst snd]. rewrite !lookup_delete_eq, lookup_delete_ne by congruence. auto.
Qed.

(** ** Witnesses *)

Definition group_example (id counter : Z) : pof_group :=
  mkGroup 0 0 1 id counter 0 [mkAction POFAT_DROP 12 (zeros 44); action_zero; action_zero; action_zero].

Definition group5 : groupInfo := group_filled (group_example 5 2) (replicate 4 action_zero).

Definition lr_group5 : pof_local_resource :=
  lr_example (res_none 40) (res_one group5 8) (res_none 8)
    (res_one (mkCounterInfo 7 41 1000) 512).

Lemma group_refines_witness :
  exists lr', poflr_add_group_entry (group_example 3 9) lr_group5 (env_init POFCS_CHANNEL_RUN [] []) =
      Some ((POF_OK, lr'), env_init POFCS_CHANNEL_RUN [] []) /\
    contents (lr_counters lr') !! 9 = Some (mkCounterInfo 9 0 0).
Proof.
  destruct (group_refines (GAdd (group_example 3 9)) lr_group5 (env_init POFCS_CHANNEL_RUN [] [])
    (res_one_ok group5 8 ltac:(by_decide)) (res_one_ok (mkCounterInfo 7 41 1000) 512 ltac:(by_decide))
    (env_init_ok _ _ _) ltac:(repeat split) ltac:(cbn; lia) ltac:(cbn; lia)) as (lr' & E & _ & _ & _ & C & _).
  exists lr'. split; [exact E|]. rewrite C. reflexivity.
Defined.

Lemma group_delete_foreign_counter_witness :
  exists lr', poflr_delete_group_entry (group_example 5 7) lr_group5 (env_init POFCS_CHANNEL_RUN [] []) =
      Some ((POF_OK, lr'), env_init POFCS_CHANNEL_RUN [] []) /\
    contents (lr_counters lr') !! 7 = None.
Proof.
  destruct (group_delete_foreign_counter lr_group5 (env_init POFCS_CHANNEL_RUN [] []) (group_example 5 7)
    group5 (mkCounterInfo 7 41 1000)
    (res_one_ok group5 8 ltac:(by_decide)) (res_one_ok (mkCounterInfo 7 41 1000) 512 ltac:(by_decide))
    (env_init_ok _ _ _) ltac:(repeat split) ltac:(cbn; lia) ltac:(cbn; lia) eq_refl ltac:(discriminate) eq_refl)
    as (lr' & E & C & _).
  exists lr'. split; [exact E|exact C].
Defined.
