(* ===== verification/FlowEntry.v ===== *)
(** * Flow entries: filling, matching and looking up (local_resource/pof_flow_table.c)

    The part of pof_flow_table.c that works on the entries of one table: how a
    flow-mod message becomes an entry (its match fields are assembled bit by
    bit into a value and a mask), how a packet becomes a key, and the lookup of
    each table type. *)

From S2P Require Import Prelude Bits Codec Env Hmap IdMap Tree LocalRes.
From Stdlib Require String.
Import String.StringSyntax.
#[local] Open Scope string_scope.

(** [pof_table_mod_failed_code]. *)
Definition POFTMFC_UNKNOWN := EC 0 "POFTMFC_UNKNOWN".
Definition POFTMFC_BAD_COMMAND := EC 1 "POFTMFC_BAD_COMMAND".
Definition POFTMFC_BAD_TABLE_TYPE := EC 2 "POFTMFC_BAD_TABLE_TYPE".
Definition POFTMFC_BAD_TABLE_ID := EC 3 "POFTMFC_BAD_TABLE_ID".
Definition POFTMFC_TABLE_EXIST := EC 4 "POFTMFC_TABLE_EXIST".
Definition POFTMFC_TABLE_UNEXIST := EC 5 "POFTMFC_TABLE_UNEXIST".
Definition POFTMFC_BAD_TABLE_SIZE := EC 6 "POFTMFC_BAD_TABLE_SIZE".
Definition POFTMFC_BAD_KEY_LEN := EC 7 "POFTMFC_BAD_KEY_LEN".
Definition POFTMFC_TABLE_UNEMPTY := EC 8 "POFTMFC_TABLE_UNEMPTY".

Implicit Types (t : tableInfo) (fe : pof_flow_entry).

Definition set_entries (es : resource entryInfo) t : tableInfo :=
  mkTableInfo (tb_id t) (tb_type t) (tb_name t) es (tb_keyLen t) (tb_tree t) (tb_match_field_num t) (tb_match t).
Definition set_tree (tr : option tree) t : tableInfo :=
  mkTableInfo (tb_id t) (tb_type t) (tb_name t) (tb_entries t) (tb_keyLen t) tr (tb_match_field_num t) (tb_match t).

Definition entryHashByID (id : Z) : Z := hmap_hashForLinear id.
Definition entryHashByValue (value : list Z) (len_b : Z) : option Z :=
  hmap_hashForBytes value (BITNUM_TO_BYTENUM_CEIL len_b).

(** ** Assembling value and mask *)

(** The loop over the match fields; [mask] is [None] for a [NULL] pointer. *)
Fixpoint assemble_loop (n : nat) (ms : list pof_match_x) (value : list Z) (mask : option (list Z))
    (offset_b : Z) : option (list Z * option (list Z) * Z) :=
  match n with
  | O => Some (value, mask, offset_b)
  | S n' =>
      matchTmp ← head ms;
      value ← pofbf_cover_bit value (mx_value matchTmp) offset_b (mx_len matchTmp);
      mask ← match mask with
             | Some mk => mk ← pofbf_cover_bit mk (mx_mask matchTmp) offset_b (mx_len matchTmp); Some (Some mk)
             | None => Some None
             end;
      assemble_loop n' (tail ms) value mask (u16 (offset_b + mx_len matchTmp))
  end.

Definition valueMaskAssemble (ms : list pof_match_x) (match_field_num : Z) (value : list Z)
    (mask : option (list Z)) (keyLen : Z) : St (Z * (list Z * option (list Z))) :=
  '(value, mask, offset_b) ← lift (assemble_loop (Z.to_nat match_field_num) ms value mask 0);
  if negb (offset_b =? keyLen) then
    x ← upward_xid_pp;
    ret ← POF_ERROR_HANDLE_RETURN_UPWARD POFET_TABLE_MOD_FAILED POFTMFC_BAD_KEY_LEN x;
    mret (ret, (value, mask))
  else mret (POF_OK, (value, mask)).

(** [entry->...] assignments of [entryFill]. *)
Definition entry_copied fe (entry : entryInfo) : entryInfo :=
  mkEntryInfo (fe_index fe) (fe_counter_id fe) (fe_instruction_num fe) (fe_instruction fe)
    (en_priority entry) (en_keyLen entry) (fe_match_field_num fe) (fe_match fe) (en_value entry) (en_mask entry).
Definition entry_keyed fe t (value mask : list Z) (entry : entryInfo) : entryInfo :=
  mkEntryInfo (en_index entry) (en_counter_id entry) (en_instruction_num entry) (en_instruction entry)
    (fe_priority fe) (tb_keyLen t) (en_match_field_num entry) (en_match entry) value mask.

(** The result is the return code, the entry and [entry->node.hash]. *)
Definition entryFill fe (entry : entryInfo) (hash : Z) t : St (Z * (entryInfo * Z)) :=
  let entry := entry_copied fe entry in
  if (tb_type t =? POF_LPM_TABLE) || (tb_type t =? POF_MM_TABLE) then
    '(ret, (value, mask)) ← valueMaskAssemble (fe_match fe) (fe_match_field_num fe) (en_value entry)
       (Some (en_mask entry)) (tb_keyLen t);
    let entry := entry_keyed fe t value (default [] mask) entry in
    if negb (ret =? POF_OK) then mret (1, (entry, hash))
    else mret (POF_OK, (entry, entryHashByID (fe_index fe)))
  else if tb_type t =? POF_EM_TABLE then
    '(ret, (value, _)) ← valueMaskAssemble (fe_match fe) (fe_match_field_num fe) (en_value entry)
       None (tb_keyLen t);
    let entry := entry_keyed fe t value (en_mask entry) entry in
    if negb (ret =? POF_OK) then mret (1, (entry, hash))
    else
      hash ← lift (entryHashByValue (en_value entry) (tb_keyLen t));
      mret (POF_OK, (entry, hash))
  else if tb_type t =? POF_LINEAR_TABLE then
    mret (POF_OK, (entry, entryHashByID (fe_index fe)))
  else mret (POF_OK, (entry, hash)).

(** ** The prefix tree of an LPM table *)

(** [while(value > 0)]: each round clears the lowest bit, so eight are enough
    for a byte. *)
Fixpoint get1sCountInByte_loop (fuel : nat) (value count : Z) : option Z :=
  if 0 <? value then
    match fuel with
    | O => None
    | S fuel' => get1sCountInByte_loop fuel' (u8 (Z.land value (value - 1))) (u32 (count + 1))
    end
  else Some count.
Definition get1sCountInByte (value : Z) : option Z := get1sCountInByte_loop 8 value 0.

(** The bytes [value[i] .. value[n-1]], [k] of them. *)
Fixpoint get1sCountInBytes_loop (value : list Z) (i : Z) (k : nat) (count : Z) : option Z :=
  match k with
  | O => Some count
  | S k' =>
      b ← rd value i; c ← get1sCountInByte b;
      get1sCountInBytes_loop value (i + 1) k' (u32 (count + c))
  end.
Definition get1sCountInBytes (value : list Z) (n : Z) : option Z :=
  get1sCountInBytes_loop value 0 (Z.to_nat n) 0.

(** The key of an entry in the tree: its first bits, as many as its mask has. *)
Definition lpm_key (entry : entryInfo) t : option (list Z * Z) :=
  bitNum ← get1sCountInBytes (en_mask entry) (BITNUM_TO_BYTENUM_CEIL (tb_keyLen t));
  value ← sub_buf (en_value entry) 0 (BITNUM_TO_BYTENUM_CEIL (tb_keyLen t));
  Some (value, bitNum).

Definition lpmInsert (p : addr) (entry : entryInfo) t : St (Z * tableInfo) :=
  '(value, bitNum) ← lift (lpm_key entry t);
  tr ← lift (tb_tree t);
  '(ret, tr) ← tree_nodeInsert tr p value bitNum;
  mret (ret, set_tree (Some tr) t).

Definition lpmDelete (entry : entryInfo) t : option (Z * tableInfo) :=
  '(value, bitNum) ← lpm_key entry t;
  tr ← tb_tree t;
  '(ret, tr) ← tree_nodeDelete tr value bitNum;
  Some (ret, set_tree (Some tr) t).

Definition lpmLookup (key : list Z) t : option (option addr) :=
  tr ← tb_tree t; tree_nodeLookup tr key (tb_keyLen t).

(** ** Inserting and deleting entries *)

Definition entryInsert fe t : St (Z * tableInfo) :=
  '(p, es) ← res_create entry_zero (tb_entries t);
  match p with
  | None => mret (POF_ERROR, t)
  | Some p =>
      entry ← lift (res_load p es);
      '(ret, (entry, hash)) ← entryFill fe entry 0 t;
      if negb (ret =? POF_OK) then
        _ ← pofec_set_error POFET_TABLE_MOD_FAILED POFTMFC_UNKNOWN;
        mret (POF_ERROR, set_entries (with_heap es (delete p (r_heap es))) t)
      else
        es ← lift (res_store p entry es);
        es ← lift (res_set_hash p hash es);
        es ← lift (res_insert u32 p es);
        let t := set_entries es t in
        if tb_type t =? POF_LPM_TABLE then
          '(_, t) ← lpmInsert p entry t; mret (POF_OK, t)
        else mret (POF_OK, t)
  end.

Definition entryDelete (p : addr) t : option tableInfo :=
  m ← r_map (tb_entries t);
  entry ← res_load p (tb_entries t);
  '(h, m) ← hmap_nodeDelete (r_heap (tb_entries t)) m p;
  let t := set_entries (Res h (Some m) (u32 (r_num (tb_entries t) - 1)) (r_max (tb_entries t))) t in
  t ← (if tb_type t =? POF_LPM_TABLE then '(_, t) ← lpmDelete entry t; Some t else Some t);
  Some (set_entries (with_heap (tb_entries t) (delete p (r_heap (tb_entries t)))) t).

(** ** Lookup *)

(** The key of a packet: the match fields of the table, one after the other. *)
Fixpoint keyAssemble_loop (n : nat) (ms : list pof_match) (key packet metadata : list Z) (offset_b : Z)
  : option (list Z) :=
  match n with
  | O => Some key
  | S n' =>
      matchTmp ← head ms;
      tmp ← pofbf_copy_bit (if m_field_id matchTmp =? 0xFFFF then metadata else packet)
              (zeros (Z.to_nat POF_MAX_FIELD_LENGTH_IN_BYTE)) 0 (m_offset matchTmp) (m_len matchTmp);
      key ← pofbf_cover_bit key tmp offset_b (m_len matchTmp);
      keyAssemble_loop n' (tail ms) key packet metadata (u16 (offset_b + m_len matchTmp))
  end.
Definition keyAssemble (key packet metadata : list Z) (match_field_num : Z) (ms : list pof_match)
  : option (list Z) :=
  keyAssemble_loop (Z.to_nat match_field_num) ms key packet metadata 0.

Definition poflr_entry_lookup_Linear (index : Z) t : option (option addr) :=
  res_get (entryHashByID index) (tb_entries t).

(** The [k] bytes from [i] on. *)
Fixpoint maskMatch_loop (mask value key : list Z) (i : Z) (k : nat) : option bool :=
  match k with
  | O => Some true
  | S k' =>
      m ← rd mask i; x ← rd key i; v ← rd value i;
      if negb (Z.land m x =? Z.land m v) then Some false
      else maskMatch_loop mask value key (i + 1) k'
  end.
Definition maskMatch (mask value key : list Z) (len_b : Z) : option bool :=
  maskMatch_loop mask value key 0 (Z.to_nat (BITNUM_TO_BYTENUM_CEIL len_b)).

(** The body of the loop of [entryLookup_MM]; [best] is [ret]. *)
Definition MM_body (key : list Z) t (p : addr) (best : option addr) : St (Empty_set + option addr) :=
  entry ← lift (res_load p (tb_entries t));
  matched ← lift (maskMatch (en_mask entry) (en_value entry) key (tb_keyLen t));
  if (matched : bool) then
    match best with
    | None => mret (inr (Some p))
    | Some q =>
        old ← lift (res_load q (tb_entries t));
        if en_priority old <? en_priority entry then mret (inr (Some p)) else mret (inr best)
    end
  else mret (inr best).

Definition entryLookup_MM (key : list Z) t : St (option addr) :=
  res ← HMAP_NODES_IN_STRUCT_TRAVERSE (fun _ => res_hm (tb_entries t)) (MM_body key t) None;
  mret (loop_end res).

Definition entryLookup_EM (key : list Z) t : option (option addr) :=
  hash ← entryHashByValue key (tb_keyLen t);
  res_get hash (tb_entries t).

Definition entryLookup_LPM (key : list Z) t : option (option addr) := lpmLookup key t.

(** For a table of another type the result is an uninitialised pointer. *)
Definition poflr_entry_lookup (packet metadata : list Z) t : St (option addr) :=
  ok ← malloc;
  if negb ok then
    _ ← pofec_set_error POFET_SOFTWARE_FAILED POF_ALLOCATE_RESOURCE_FAILURE; mret None
  else
    key ← lift (keyAssemble (zeros (Z.to_nat (BITNUM_TO_BYTENUM_CEIL (tb_keyLen t)))) packet metadata
                 (tb_match_field_num t) (tb_match t));
    if tb_type t =? POF_MM_TABLE then entryLookup_MM key t
    else if tb_type t =? POF_LPM_TABLE then lift (entryLookup_LPM key t)
    else if tb_type t =? POF_EM_TABLE then lift (entryLookup_EM key t)
    else fault.

Definition poflr_entry_get_with_index (index : Z) t : St (option addr) :=
  res ← HMAP_NODES_IN_STRUCT_TRAVERSE (R := option addr) (fun _ => res_hm (tb_entries t))
    (fun p _ =>
       entry ← lift (res_load p (tb_entries t));
       if en_index entry =? index then mret (inl (Some p)) else mret (inr tt)) tt;
  match res with inl r => mret r | inr _ => mret None end.

(** ** Counting ones *)

Definition ones (l : list bool) : Z := foldr (fun (b : bool) s => (if b then 1 else 0) + s) 0 l.

Lemma get1sCountInByte_ok b : byte_ok b -> get1sCountInByte b = Some (ones (bits_from [b] 0 8)).
Proof.
  intros Hb.
  assert (for_range 0 256 (fun b => bool_decide (get1sCountInByte b = Some (ones (bits_from [b] 0 8)))) = true) as H
    by (vm_compute; reflexivity).
  apply (for_range_spec _ _ _ H b) in Hb. now apply bool_decide_eq_true in Hb.
Qed.

Lemma bits_from_app v n m : forall i, bits_from v i (n + m) = bits_from v i n ++ bits_from v (i + Z.of_nat n) m.
Proof.
  induction n as [|n IH]; intros i; cbn [bits_from Nat.add app]; [f_equal; lia|].
  rewrite IH. do 3 f_equal. lia.
Qed.

Lemma bits_from_ext v w n : forall i k,
  (forall q, 0 <= q < Z.of_nat n -> bit_at v (i + q) = bit_at w (k + q)) -> bits_from v i n = bits_from w k n.
Proof.
  induction n as [|n IH]; intros i k H; cbn [bits_from]; [done|]. f_equal.
  - specialize (H 0). rewrite !Z.add_0_r in H. apply H. lia.
  - apply IH. intros q Hq. specialize (H (q + 1)). rewrite !Z.add_assoc in H.
    replace (i + 1 + q) with (i + q + 1) by lia. replace (k + 1 + q) with (k + q + 1) by lia. apply H. lia.
Qed.

Lemma length_bits_from v n : forall i, length (bits_from v i n) = n.
Proof. induction n; intros; cbn [bits_from length]; auto. Qed.

Lemma ones_app l l' : ones (l ++ l') = ones l + ones l'.
Proof. unfold ones. induction l as [|b l IH]; cbn; [done|]. rewrite IH. lia. Qed.

Lemma ones_bound l : 0 <= ones l <= Z.of_nat (length l).
Proof. unfold ones. induction l as [|[] l IH]; cbn [foldr length]; lia. Qed.

(** The ones of a mask are counted bit by bit. *)
Lemma get1sCountInBytes_loop_ok value k : forall i count, bytes_ok value ->
  0 <= i -> i + Z.of_nat k <= blen value -> 0 <= count -> count + 8 * Z.of_nat k < 4294967296 ->
  get1sCountInBytes_loop value i k count = Some (count + ones (bits_from value (8 * i) (8 * k))).
Proof.
  induction k as [|k IH]; intros i count Hv Hi Hl Hc Hm; cbn [get1sCountInBytes_loop].
  - cbn. f_equal. lia.
  - rewrite rd_in by lia. cbn [mbind option_bind].
    rewrite get1sCountInByte_ok by auto with pof. cbn [mbind option_bind].
    replace (8 * S k)%nat with (8 + 8 * k)%nat by lia. rewrite bits_from_app, ones_app.
    assert (bits_from [byte_at value i] 0 8 = bits_from value (8 * i) 8) as ->.
    { apply bits_from_ext. intros q Hq. rewrite bit_at_byte by lia.
      replace (0 + q) with (8 * 0 + q) by lia. rewrite bit_at_byte by lia. done. }
    pose proof (ones_bound (bits_from value (8 * i) 8)) as B. rewrite length_bits_from in B.
    rewrite u32_small by lia. rewrite IH by (auto; lia).
    replace (8 * i + Z.of_nat 8) with (8 * (i + 1)) by lia. f_equal. lia.
Qed.

(** ** Fields written one after the other *)

(** [pofbf_cover_bit] for each field in turn. *)
Fixpoint cover_seq (fs : list (list Z * Z)) (buf : list Z) (o : Z) : option (list Z) :=
  match fs with
  | [] => Some buf
  | (c, len) :: fs' => buf ← pofbf_cover_bit buf c o len; cover_seq fs' buf (u16 (o + len))
  end.

Definition seq_len (fs : list (list Z * Z)) : Z := foldr (fun f s => f.2 + s) 0 fs.

Definition field_bits (f : list Z * Z) : list bool := bits_from f.1 0 (Z.to_nat f.2).

(** The fields can be written from bit [o] on. *)
Fixpoint fields_fit (fs : list (list Z * Z)) (o : Z) : Prop :=
  match fs with
  | [] => True
  | (c, len) :: fs' =>
      bytes_ok c /\ coverable o len /\ value_room c o len /\ tail_zero c len /\ fields_fit fs' (o + len)
  end.

Lemma seq_len_nonneg fs o : fields_fit fs o -> 0 <= seq_len fs.
Proof.
  revert o. induction fs as [|[c len] fs IH]; intros o H; cbn; [lia|].
  destruct H as (_ & (_ & ? & _) & _ & _ & H). apply IH in H. fold (seq_len fs). lia.
Qed.

Lemma cover_seq_ok fs : forall buf o, bytes_ok buf -> fields_fit fs o -> 0 <= o ->
  o + seq_len fs <= 8 * blen buf -> o + seq_len fs < 65536 ->
  exists buf', cover_seq fs buf o = Some buf' /\ length buf' = length buf /\ bytes_ok buf' /\
    bits_from buf' o (Z.to_nat (seq_len fs)) = concat (field_bits <$> fs) /\
    (forall i, 0 <= i -> i < o \/ o + seq_len fs <= i -> bit_at buf' i = bit_at buf i).
Proof.
  induction fs as [|[c len] fs IH]; intros buf o Hb Hf Ho Hl Hm.
  - exists buf. repeat split; auto.
  - destruct Hf as (Bc & Cv & Vr & Tz & Hf). pose proof (seq_len_nonneg _ _ Hf) as Hs.
    pose proof Cv as (Hp & Hlen & _). cbn [seq_len foldr snd] in *. fold (seq_len fs) in *.
    destruct (cover_bit_ok buf c o len) as (b1 & E1 & L1 & B1 & S1); auto; [lia|].
    assert (blen b1 = blen buf) as Lb by (unfold blen; lia).
    destruct (IH b1 (o + len)) as (b2 & E2 & L2 & B2 & W2 & K2); auto; try lia.
    exists b2. cbn [cover_seq]. rewrite E1. cbn [mbind option_bind]. rewrite u16_small by lia.
    split; [exact E2|]. split; [lia|]. split; [done|]. split.
    + rewrite Z2Nat.inj_add, bits_from_app by lia. cbn [fmap list_fmap concat]. f_equal.
      * unfold field_bits. cbn [fst snd]. apply bits_from_ext. intros q Hq.
        rewrite K2 by lia. rewrite S1 by lia. zcases. f_equal. lia.
      * rewrite Z2Nat.id by lia. exact W2.
    + intros i Hi Hd. rewrite K2 by lia. rewrite S1 by lia. zcases; done.
Qed.

(** *** The two assembling loops *)

Definition value_fields (ms : list pof_match_x) : list (list Z * Z) := (fun m => (mx_value m, mx_len m)) <$> ms.
Definition mask_fields (ms : list pof_match_x) : list (list Z * Z) := (fun m => (mx_mask m, mx_len m)) <$> ms.

Lemma assemble_loop_seq n : forall ms value mask o, (n <= length ms)%nat ->
  assemble_loop n ms value mask o =
  (v ← cover_seq (value_fields (take n ms)) value o;
   mk ← match mask with
        | Some mk => mk ← cover_seq (mask_fields (take n ms)) mk o; Some (Some mk)
        | None => Some None
        end;
   Some (v, mk, foldl (fun o m => u16 (o + mx_len m)) o (take n ms))).
Proof.
  induction n as [|n IH]; intros ms value mask o Hn; [destruct mask; reflexivity|].
  destruct ms as [|m ms]; [cbn in Hn; lia|]. cbn [length] in Hn.
  cbn [assemble_loop head tail take value_fields mask_fields fmap list_fmap cover_seq foldl mbind option_bind].
  destruct (pofbf_cover_bit value (mx_value m) o (mx_len m)) as [v1|]; cbn [mbind option_bind]; [|done].
  destruct mask as [mk|]; cbn [mbind option_bind].
  - destruct (pofbf_cover_bit mk (mx_mask m) o (mx_len m)) as [k1|]; cbn [mbind option_bind].
    + now rewrite IH by lia.
    + fold (value_fields (take n ms)). now destruct (cover_seq _ v1 _).
  - now rewrite IH by lia.
Qed.

Definition total_len (ms : list pof_match_x) : Z := seq_len (value_fields ms).

Lemma offset_total ms : forall o, 0 <= o -> (forall m, m ∈ ms -> 0 <= mx_len m) ->
  o + total_len ms < 65536 ->
  foldl (fun o m => u16 (o + mx_len m)) o ms = o + total_len ms.
Proof.
  unfold total_len. induction ms as [|m ms IH]; intros o Ho Hm Hl;
    cbn [value_fields fmap list_fmap seq_len foldr snd foldl] in *; [lia|].
  fold (value_fields ms) (seq_len (value_fields ms)) in *.
  assert (0 <= mx_len m) by (apply Hm; left).
  assert (0 <= seq_len (value_fields ms)) as Hs.
  { clear -Hm. assert (forall m, m ∈ ms -> 0 <= mx_len m) as H by (intros; apply Hm; now right). clear Hm.
    induction ms as [|m' ms IH]; cbn; [lia|]. fold (value_fields ms) (seq_len (value_fields ms)).
    assert (0 <= mx_len m') by (apply H; left).
    assert (0 <= seq_len (value_fields ms)) by (apply IH; intros; apply H; now right). lia. }
  rewrite u16_small by lia. rewrite IH; [lia|lia| |lia]. intros x Hx. apply Hm. now right.
Qed.

(** A match message whose fields can be assembled into buffers of [room] bytes. *)
Definition assemblable (ms : list pof_match_x) (room : Z) : Prop :=
  fields_fit (value_fields ms) 0 /\ fields_fit (mask_fields ms) 0 /\
  total_len ms <= 8 * room /\ total_len ms < 65536.

Lemma mask_total ms : seq_len (mask_fields ms) = total_len ms.
Proof.
  unfold total_len. induction ms as [|m ms IH]; [done|].
  cbn [mask_fields value_fields fmap list_fmap seq_len foldr snd].
  fold (value_fields ms) (mask_fields ms) (seq_len (mask_fields ms)) (seq_len (value_fields ms)). now rewrite IH.
Qed.

Lemma fields_len_nonneg ms : forall o, fields_fit (value_fields ms) o -> forall m, m ∈ ms -> 0 <= mx_len m.
Proof.
  induction ms as [|m ms IH]; intros o H x Hx; [now apply elem_of_nil in Hx|].
  destruct H as (_ & (_ & ? & _) & _ & _ & H). apply elem_of_cons in Hx as [->|Hx]; [lia|eauto].
Qed.

Lemma bits_zeros k : forall i n, 0 <= i -> bits_from (zeros k) i n = replicate n false.
Proof.
  intros i n. revert i. induction n as [|n IH]; intros i Hi; cbn [bits_from replicate]; [done|].
  rewrite IH by lia. f_equal. unfold bit_at. assert (byte_at (zeros k) (i / 8) = 0) as ->.
  { unfold byte_at, zeros. generalize (Z.to_nat (i / 8)) as q. intros q.
    destruct (Nat.lt_ge_cases q k); [|apply nth_overflow; now rewrite length_replicate].
    apply nth_lookup_Some. now rewrite lookup_replicate_2. }
  apply Z.testbit_0_l.
Qed.

(** Assembling a message's fields over zeroed buffers: the value holds the bits
    of the field values in order, the mask those of the masks. *)
Lemma assemble_ok n ms k : (n <= length ms)%nat -> assemblable (take n ms) (Z.of_nat k) ->
  let ms' := take n ms in
  exists v mk, assemble_loop n ms (zeros k) (Some (zeros k)) 0 = Some (v, Some mk, total_len ms') /\
    assemble_loop n ms (zeros k) None 0 = Some (v, None, total_len ms') /\
    length v = k /\ length mk = k /\ bytes_ok v /\ bytes_ok mk /\
    bits_from v 0 (Z.to_nat (total_len ms')) = concat (field_bits <$> value_fields ms') /\
    bits_from mk 0 (Z.to_nat (total_len ms')) = concat (field_bits <$> mask_fields ms') /\
    (forall i, total_len ms' <= i -> bit_at v i = false /\ bit_at mk i = false).
Proof.
  intros Hn (Fv & Fm & Ht & Hm). cbn zeta. set (ms' := take n ms) in *.
  assert (blen (zeros k) = Z.of_nat k) as Lz by (unfold blen, zeros; now rewrite length_replicate).
  pose proof (seq_len_nonneg _ _ Fv) as Hs. fold (total_len ms') in Hs.
  destruct (cover_seq_ok (value_fields ms') (zeros k) 0) as (v & Ev & Lv & Bv & Wv & Kv);
    [apply zeros_ok|done|lia|fold (total_len ms'); lia|fold (total_len ms'); lia|].
  destruct (cover_seq_ok (mask_fields ms') (zeros k) 0) as (mk & Em & Lm & Bm & Wm & Km);
    [apply zeros_ok|done|lia|rewrite mask_total; lia|rewrite mask_total; lia|].
  fold (total_len ms') in Wv, Kv. rewrite mask_total in Wm, Km.
  exists v, mk. rewrite !assemble_loop_seq by done. fold ms'. rewrite Ev, Em. cbn [mbind option_bind].
  rewrite (offset_total ms' 0); [|lia|exact (fields_len_nonneg _ _ Fv)|lia].
  unfold zeros in Lv, Lm. rewrite length_replicate in Lv, Lm.
  assert (forall i, 0 <= i -> bit_at (zeros k) i = false) as Z0.
  { intros i Hi. pose proof (bits_zeros k i 1 Hi) as B. cbn in B. now injection B. }
  do 2 (split; [reflexivity|]). do 4 (split; [done|]). split; [exact Wv|]. split; [exact Wm|].
  intros i Hi. rewrite Kv, Km by lia. rewrite Z0 by lia. done.
Qed.

(** *** Keys *)

(** The bits of a packet (or of the metadata) a table's match field selects. *)
Definition field_src (packet metadata : list Z) (f : pof_match) : list Z :=
  if m_field_id f =? 0xFFFF then metadata else packet.
Definition key_bits (packet metadata : list Z) (f : pof_match) : list bool :=
  bits_from (field_src packet metadata f) (m_offset f) (Z.to_nat (m_len f)).

(** Every field of the table lies in the packet (with the byte behind it, which
    [pofbf_copy_bit] also reads) and can be written at its place in the key. *)
Fixpoint extractable (packet metadata : list Z) (fs : list pof_match) (o : Z) : Prop :=
  match fs with
  | [] => True
  | f :: fs' =>
      coverable o (m_len f) /\ o mod 8 + m_len f <= 128 /\ 0 <= m_offset f < 65536 /\
      m_offset f / 8 + (m_len f + 7) / 8 + 1 <= blen (field_src packet metadata f) /\
      extractable packet metadata fs' (o + m_len f)
  end.

Definition fields_len (fs : list pof_match) : Z := foldr (fun f s => m_len f + s) 0 fs.

Lemma fields_len_pos packet metadata fs : forall o, extractable packet metadata fs o -> 0 <= fields_len fs.
Proof.
  induction fs as [|f fs IH]; intros o H; cbn; [lia|]. destruct H as ((_ & ? & _) & _ & _ & _ & H).
  apply IH in H. fold (fields_len fs). lia.
Qed.

(** The fields read by [pofbf_copy_bit], ready to be covered into the key. *)
Lemma key_fields packet metadata fs : bytes_ok packet -> bytes_ok metadata -> forall o,
  extractable packet metadata fs o -> 0 <= o -> o + fields_len fs < 65536 ->
  exists cs, fields_fit cs o /\ seq_len cs = fields_len fs /\
    (field_bits <$> cs) = (key_bits packet metadata <$> fs) /\
    forall key rest, keyAssemble_loop (length fs) (fs ++ rest) key packet metadata o = cover_seq cs key o.
Proof.
  intros Hp Hd. induction fs as [|f fs IH]; intros o Hx Ho Hl.
  - exists []. repeat split.
  - destruct Hx as (Cv & H16 & Hof & Hr & Hx). pose proof (fields_len_pos _ _ _ _ Hx) as Hs.
    cbn [fields_len foldr] in *. fold (fields_len fs) in *. pose proof Cv as (_ & Hlen & _).
    destruct (copy_bit_ok (field_src packet metadata f) (zeros 16) 0 (m_offset f) (m_len f))
      as (tmp & Et & Lt & Bt & St); try done.
    { unfold field_src. destruct (_ =? _); auto. }
    { apply zeros_ok. }
    { unfold blen, zeros. rewrite length_replicate. lia. }
    assert (blen tmp = 16) as Ltmp by (unfold blen; rewrite Lt; reflexivity).
    destruct (IH (o + m_len f)) as (cs & F & L & E & K); [done|lia|lia|].
    exists ((tmp, m_len f) :: cs). split; [|split; [|split]].
    + split; [done|]. split; [done|]. split; [unfold value_room; lia|]. split; [|done].
      intros i Hi. rewrite St by lia. zcases; done || lia.
    + cbn [seq_len foldr snd]. fold (seq_len cs). lia.
    + cbn [fmap list_fmap]. f_equal; [|exact E]. unfold field_bits, key_bits. cbn [fst snd].
      apply bits_from_ext. intros q Hq. rewrite St by lia. zcases; try lia. cbn [andb]. f_equal. lia.
    + intros key rest. cbn [length app keyAssemble_loop head tail mbind option_bind cover_seq].
      unfold field_src in Et. change (Z.to_nat POF_MAX_FIELD_LENGTH_IN_BYTE) with 16%nat. rewrite Et.
      cbn [mbind option_bind]. destruct (pofbf_cover_bit key tmp o (m_len f)); cbn [mbind option_bind]; [|done].
      rewrite u16_small by lia. apply K.
Qed.

(** The key of a packet: its selected bits in the order of the match fields. *)
Lemma keyAssemble_ok packet metadata n fs k : bytes_ok packet -> bytes_ok metadata ->
  (n <= length fs)%nat -> extractable packet metadata (take n fs) 0 ->
  fields_len (take n fs) <= 8 * Z.of_nat k -> fields_len (take n fs) < 65536 ->
  exists key, keyAssemble (zeros k) packet metadata (Z.of_nat n) fs = Some key /\ length key = k /\ bytes_ok key /\
    bits_from key 0 (Z.to_nat (fields_len (take n fs))) = concat (key_bits packet metadata <$> take n fs).
Proof.
  intros Hp Hd Hn Hx Hk Hm. pose proof (fields_len_pos _ _ _ _ Hx) as Hs.
  destruct (key_fields packet metadata (take n fs) Hp Hd 0) as (cs & F & L & E & K); [done|lia|lia|].
  destruct (cover_seq_ok cs (zeros k) 0) as (key & Ek & Lk & Bk & Wk & _); auto; try lia.
  { apply zeros_ok. }
  { unfold blen, zeros. rewrite length_replicate. lia. }
  exists key. unfold keyAssemble. specialize (K (zeros k) (drop n fs)).
  rewrite take_drop, length_take, Nat.min_l in K by lia. rewrite Nat2Z.id, K, Ek.
  unfold zeros in Lk. rewrite length_replicate in Lk. rewrite L, E in Wk. auto.
Qed.

(** ** Matching *)

(** Wherever the mask has a one, the two others agree. *)
Fixpoint agree (mk v k : list bool) : Prop :=
  match mk, v, k with
  | b :: mk', x :: v', y :: k' => (b = true -> x = y) /\ agree mk' v' k'
  | _, _, _ => True
  end.

Lemma agree_app a a' b b' c c' : length a = length b -> length b = length c ->
  agree (a ++ a') (b ++ b') (c ++ c') <-> agree a b c /\ agree a' b' c'.
Proof.
  revert b c. induction a as [|x a IH]; intros [|y b] [|z c]; cbn; intros; try lia; [tauto|].
  rewrite IH by lia. tauto.
Qed.

Lemma agree_bits mk v k n : forall i j l,
  agree (bits_from mk i n) (bits_from v j n) (bits_from k l n) <->
  forall q, 0 <= q < Z.of_nat n -> bit_at mk (i + q) = true -> bit_at v (j + q) = bit_at k (l + q).
Proof.
  induction n as [|n IH]; intros i j l; cbn [bits_from agree].
  - split; [intros; lia|done].
  - rewrite IH. split.
    + intros [H0 H] q Hq. destruct (Z.eqb_spec q 0) as [->|].
      * rewrite !Z.add_0_r. exact H0.
      * specialize (H (q - 1)). replace (i + 1 + (q - 1)) with (i + q) in H by lia.
        replace (j + 1 + (q - 1)) with (j + q) in H by lia. replace (l + 1 + (q - 1)) with (l + q) in H by lia.
        apply H. lia.
    + intros H. split.
      * specialize (H 0). rewrite !Z.add_0_r in H. apply H. lia.
      * intros q Hq. specialize (H (q + 1)). replace (i + 1 + q) with (i + (q + 1)) by lia.
        replace (j + 1 + q) with (j + (q + 1)) by lia. replace (l + 1 + q) with (l + (q + 1)) by lia.
        apply H. lia.
Qed.

Lemma agree_land m x v : byte_ok m -> byte_ok x -> byte_ok v ->
  Z.land m x = Z.land m v <-> forall j, 0 <= j < 8 -> Z.testbit m j = true -> Z.testbit v j = Z.testbit x j.
Proof.
  intros Hm Hx Hv. split.
  - intros E j Hj T. assert (Z.testbit (Z.land m x) j = Z.testbit (Z.land m v) j) as F by now rewrite E.
    rewrite !Z.land_spec, T in F. auto.
  - intros H. apply Z.bits_inj'. intros j Hj. rewrite !Z.land_spec.
    destruct (Z.ltb_spec j 8); [|now rewrite (byte_testbit_high m) by (auto; lia)].
    destruct (Z.testbit m j) eqn:T; [|done]. now rewrite H by (auto; lia).
Qed.

(** [maskMatch] compares under the mask, bit by bit. *)
Lemma maskMatch_loop_ok mask value key k : forall i,
  bytes_ok mask -> bytes_ok value -> bytes_ok key -> 0 <= i ->
  i + Z.of_nat k <= blen mask -> i + Z.of_nat k <= blen value -> i + Z.of_nat k <= blen key ->
  exists b, maskMatch_loop mask value key i k = Some b /\
    (b = true <-> agree (bits_from mask (8 * i) (8 * k)) (bits_from value (8 * i) (8 * k))
                        (bits_from key (8 * i) (8 * k))).
Proof.
  induction k as [|k IH]; intros i Bm Bv Bk Hi Hm Hv Hk; cbn [maskMatch_loop].
  - exists true. split; [done|]. cbn. tauto.
  - rewrite !rd_in by lia. cbn [mbind option_bind].
    replace (8 * S k)%nat with (8 + 8 * k)%nat by lia. rewrite !bits_from_app.
    replace (8 * i + Z.of_nat 8) with (8 * (i + 1)) by lia.
    assert (Z.land (byte_at mask i) (byte_at key i) = Z.land (byte_at mask i) (byte_at value i) <->
      agree (bits_from mask (8 * i) 8) (bits_from value (8 * i) 8) (bits_from key (8 * i) 8)) as A.
    { rewrite agree_land by auto with pof. rewrite agree_bits. split; intros H q Hq.
      - rewrite !bit_at_byte by lia. apply H. lia.
      - specialize (H (7 - q)). rewrite !bit_at_byte in H by lia.
        replace (7 - (7 - q)) with q in H by lia. apply H. lia. }
    destruct (IH (i + 1)) as (b & E & Hb); auto; try lia.
    destruct (Z.eqb_spec (Z.land (byte_at mask i) (byte_at key i)) (Z.land (byte_at mask i) (byte_at value i)));
      cbn [negb].
    + exists b. split; [exact E|]. rewrite agree_app by (now rewrite !length_bits_from). tauto.
    + exists false. split; [done|]. rewrite agree_app by (now rewrite !length_bits_from).
      split; [done|]. tauto.
Qed.

(** One field of an entry against one field of the packet. *)
Definition field_matches (packet metadata : list Z) (f : pof_match) (m : pof_match_x) : Prop :=
  forall j, 0 <= j < m_len f -> bit_at (mx_mask m) j = true ->
    bit_at (mx_value m) j = bit_at (field_src packet metadata f) (m_offset f + j).

Definition table_fields t : list pof_match := take (Z.to_nat (tb_match_field_num t)) (tb_match t).
Definition entry_fields (en : entryInfo) : list pof_match_x :=
  take (Z.to_nat (en_match_field_num en)) (en_match en).

(** What it means for a packet to match an entry: every field does. *)
Definition entry_matches (packet metadata : list Z) t (en : entryInfo) : Prop :=
  Forall2 (field_matches packet metadata) (table_fields t) (entry_fields en).

(** The value and the mask of an entry are its fields put together, and the
    fields have the lengths of the table's. *)
Record entry_wf t (en : entryInfo) : Prop := {
  ew_value : length (en_value en) = 128%nat /\ bytes_ok (en_value en);
  ew_mask : length (en_mask en) = 128%nat /\ bytes_ok (en_mask en);
  ew_lens : mx_len <$> entry_fields en = m_len <$> table_fields t;
  ew_total : fields_len (table_fields t) = tb_keyLen t;
  ew_value_bits : bits_from (en_value en) 0 (Z.to_nat (tb_keyLen t)) =
    concat (field_bits <$> value_fields (entry_fields en));
  ew_mask_bits : bits_from (en_mask en) 0 (Z.to_nat (tb_keyLen t)) =
    concat (field_bits <$> mask_fields (entry_fields en));
  ew_mask_tail : forall i, tb_keyLen t <= i -> bit_at (en_mask en) i = false
}.

Lemma agree_fields packet metadata fs ms : mx_len <$> ms = m_len <$> fs -> (forall f, f ∈ fs -> 0 <= m_len f) ->
  agree (concat (field_bits <$> mask_fields ms)) (concat (field_bits <$> value_fields ms))
        (concat (key_bits packet metadata <$> fs)) <->
  Forall2 (field_matches packet metadata) fs ms.
Proof.
  revert ms. induction fs as [|f fs IH]; intros [|m ms] E Hf; try discriminate.
  - split; [constructor|done].
  - cbn [fmap list_fmap] in E. injection E as E1 E2.
    assert (0 <= m_len f) by (apply Hf; left).
    cbn [mask_fields value_fields fmap list_fmap concat].
    fold (mask_fields ms) (value_fields ms).
    rewrite agree_app; [|unfold field_bits; now rewrite !length_bits_from|
      unfold field_bits, key_bits; cbn [fst snd]; rewrite !length_bits_from; congruence].
    rewrite IH; [|exact E2|intros x Hx; apply Hf; now right].
    rewrite Forall2_cons. unfold field_bits, key_bits, field_matches. cbn [fst snd]. rewrite E1, agree_bits.
    rewrite Z2Nat.id by lia. reflexivity.
Qed.

Lemma extractable_len packet metadata fs : forall o, extractable packet metadata fs o ->
  forall f, f ∈ fs -> 0 <= m_len f.
Proof.
  induction fs as [|f fs IH]; intros o H x Hx; [now apply elem_of_nil in Hx|].
  destruct H as ((_ & ? & _) & _ & _ & _ & H). apply elem_of_cons in Hx as [->|Hx]; [lia|eauto].
Qed.

(** A table whose match fields can be extracted from this packet. *)
Definition table_reads packet metadata t : Prop :=
  bytes_ok packet /\ bytes_ok metadata /\
  0 <= tb_match_field_num t <= Z.of_nat (length (tb_match t)) /\
  extractable packet metadata (table_fields t) 0 /\
  fields_len (table_fields t) = tb_keyLen t /\ tb_keyLen t <= 1024.

Lemma table_key packet metadata t : table_reads packet metadata t ->
  exists key, keyAssemble (zeros (Z.to_nat (BITNUM_TO_BYTENUM_CEIL (tb_keyLen t)))) packet metadata
      (tb_match_field_num t) (tb_match t) = Some key /\
    blen key = BITNUM_TO_BYTENUM_CEIL (tb_keyLen t) /\ bytes_ok key /\
    bits_from key 0 (Z.to_nat (tb_keyLen t)) = concat (key_bits packet metadata <$> table_fields t).
Proof.
  intros (Hp & Hd & Hn & Hx & Hl & Hm). pose proof (fields_len_pos _ _ _ _ Hx) as Hs.
  pose proof (ceil_bytes (tb_keyLen t) ltac:(lia)) as C.
  destruct (keyAssemble_ok packet metadata (Z.to_nat (tb_match_field_num t)) (tb_match t)
    (Z.to_nat (BITNUM_TO_BYTENUM_CEIL (tb_keyLen t)))) as (key & E & L & B & W); auto; try lia.
  - fold (table_fields t). lia.
  - fold (table_fields t). lia.
  - rewrite Z2Nat.id in E by lia. fold (table_fields t) in W. rewrite Hl in W.
    exists key. split; [exact E|]. split; [unfold blen; lia|]. auto.
Qed.

(** The byte-wise comparison decides whether the packet matches the entry. *)
Lemma maskMatch_fields packet metadata t en key : table_reads packet metadata t -> entry_wf t en ->
  blen key = BITNUM_TO_BYTENUM_CEIL (tb_keyLen t) -> bytes_ok key ->
  bits_from key 0 (Z.to_nat (tb_keyLen t)) = concat (key_bits packet metadata <$> table_fields t) ->
  exists b, maskMatch (en_mask en) (en_value en) key (tb_keyLen t) = Some b /\
    (b = true <-> entry_matches packet metadata t en).
Proof.
  intros (Hp & Hd & Hn & Hx & Hl & Hm) W Lk Bk Wk. pose proof (fields_len_pos _ _ _ _ Hx) as Hs.
  destruct W as [[Lv Bv] [Lm Bm] Le Lt Wv Wm Tm].
  pose proof (ceil_bytes (tb_keyLen t) ltac:(lia)) as C. rewrite C in *.
  set (k := Z.to_nat ((tb_keyLen t + 7) / 8)).
  destruct (maskMatch_loop_ok (en_mask en) (en_value en) key k 0) as (b & E & Hb);
    [done..|lia|unfold blen, k; lia|unfold blen, k; lia|unfold k; lia|].
  exists b. unfold maskMatch. rewrite C. fold k. split; [exact E|]. rewrite Hb.
  unfold entry_matches. rewrite <- (agree_fields packet metadata (table_fields t) (entry_fields en))
    by (eauto using extractable_len).
  rewrite <- Wm, <- Wv, <- Wk, !agree_bits. rewrite Z2Nat.id by lia. split; intros H q Hq T.
  - apply H; [unfold k; lia|exact T].
  - destruct (Z.ltb_spec q (tb_keyLen t)); [apply H; [lia|exact T]|].
    rewrite Z.mul_0_r, Z.add_0_l in T. rewrite Tm in T by lia. discriminate.
Qed.

(** ** The entries of a table *)

Definition entries t : gmap addr entryInfo := c_obj <$> r_heap (tb_entries t).

(** The map of entries is well formed: exactly the live entries are linked and
    counted.  (Entries may share an index: adding does not look for one.) *)
Record entries_repr (es : resource entryInfo) m cs : Prop := {
  er_map : r_map es = Some m;
  er_rep : rep (r_heap es) m cs;
  er_live : forall p, is_Some (r_heap es !! p) -> p ∈ concat cs;
  er_hash : forall p c, r_heap es !! p = Some c -> 0 <= c_hash c;
  er_num : r_num es = u32 (Z.of_nat (size (r_heap es)))
}.
Definition entries_ok (es : resource entryInfo) : Prop := exists m cs, entries_repr es m cs.

Lemma entries_lookup t p en : entries t !! p = Some en <->
  exists c, r_heap (tb_entries t) !! p = Some c /\ c_obj c = en.
Proof. unfold entries. rewrite lookup_fmap_Some. naive_solver. Qed.

(** [r] is the best of the entries that satisfy [P]. *)
Definition best_entry t (l : list addr) (P : entryInfo -> Prop) (r : option addr) : Prop :=
  match r with
  | None => forall p en, p ∈ l -> entries t !! p = Some en -> ~ P en
  | Some p => exists en, p ∈ l /\ entries t !! p = Some en /\ P en /\
      forall q en', q ∈ l -> entries t !! q = Some en' -> P en' -> en_priority en' <= en_priority en
  end.

(** One round of the loop. *)
Definition better t (p : addr) (en : entryInfo) (matched : bool) (best : option addr) : option addr :=
  if matched then
    match best with
    | None => Some p
    | Some q =>
        match entries t !! q with
        | Some old => if en_priority old <? en_priority en then Some p else best
        | None => best
        end
    end
  else best.

Lemma MM_body_run key t p en b best e : entries t !! p = Some en ->
  maskMatch (en_mask en) (en_value en) key (tb_keyLen t) = Some b ->
  (forall q, best = Some q -> is_Some (entries t !! q)) ->
  MM_body key t p best e = Some (inr (better t p en b best), e).
Proof.
  intros Hp Em Hq. pose proof Hp as (c & Hc & Ec)%entries_lookup.
  unfold MM_body, better. rewrite run_bind. unfold res_load. rewrite Hc. cbn [mbind option_bind]. unfold lift at 1.
  rewrite run_bind, Ec, Em. unfold lift at 1. destruct b; [|reflexivity].
  destruct best as [q|]; [|reflexivity]. destruct (Hq q eq_refl) as [old Ho].
  pose proof Ho as (d & Hd & Ed)%entries_lookup. rewrite Ho, run_bind, Hd. cbn [mbind option_bind].
  unfold lift at 1. rewrite Ed. now destruct (_ <? _).
Qed.

Lemma better_best t l p en b best (P : entryInfo -> Prop) : entries t !! p = Some en -> (b = true <-> P en) ->
  best_entry t l P best -> best_entry t (l ++ [p]) P (better t p en b best).
Proof.
  intros Hp HP Hb.
  assert (forall q, q ∈ l ++ [p] <-> q ∈ l \/ q = p) as In1
    by (intros q; rewrite elem_of_app, list_elem_of_singleton; tauto).
  assert (forall en', entries t !! p = Some en' -> en' = en) as U by (intros; congruence).
  unfold better. destruct b.
  - assert (P en) as Pe by tauto. destruct best as [q|].
    + destruct Hb as (old & Hq1 & Hq2 & Hq3 & Hq4). rewrite Hq2.
      destruct (Z.ltb_spec (en_priority old) (en_priority en)).
      * exists en. rewrite In1. repeat split; auto.
        intros q' en' [Hi | ->]%In1 He Pe'; [specialize (Hq4 q' en' Hi He Pe'); lia|apply U in He; subst; lia].
      * exists old. rewrite In1. repeat split; auto.
        intros q' en' [Hi | ->]%In1 He Pe'; [eauto|apply U in He; subst; lia].
    + exists en. rewrite In1. repeat split; auto.
      intros q' en' [Hi | ->]%In1 He Pe'; [destruct (Hb q' en' Hi He Pe')|apply U in He; subst; lia].
  - assert (~ P en) as Pn by (intros H; apply HP in H; discriminate). destruct best as [q|].
    + destruct Hb as (old & Hq1 & Hq2 & Hq3 & Hq4). exists old. rewrite In1. repeat split; auto.
      intros q' en' [Hi | ->]%In1 He Pe'; [eauto|apply U in He; subst; contradiction].
    + intros q' en' [Hi | ->]%In1 He; [eauto|apply U in He; now subst].
Qed.

(** The loop keeps the best entry of those visited. *)
Lemma lookup_MM_fold t key (P : entryInfo -> Prop) l :
  (forall p en, entries t !! p = Some en ->
     exists b, maskMatch (en_mask en) (en_value en) key (tb_keyLen t) = Some b /\ (b = true <-> P en)) ->
  forall seen best e, (forall p, p ∈ l -> is_Some (entries t !! p)) -> best_entry t seen P best ->
  exists best', fold_body (MM_body key t) l best e = Some (inr best', e) /\ best_entry t (seen ++ l) P best'.
Proof.
  intros Hm. induction l as [|p l IH]; intros seen best e Hl Hb.
  - exists best. rewrite app_nil_r. auto.
  - destruct (Hl p ltac:(left)) as [en Hp]. destruct (Hm p en Hp) as (b & Em & HP).
    destruct (IH (seen ++ [p]) (better t p en b best) e) as (best' & E & B);
      [intros; apply Hl; now right|now apply better_best|].
    exists best'. rewrite <- app_assoc in B. split; [|exact B].
    cbn [fold_body]. rewrite run_bind, (MM_body_run key t p en b best e Hp Em); [exact E|].
    intros q ->. destruct Hb as (old & _ & Hq & _). eauto.
Qed.

Lemma entryLookup_MM_ok t key (P : entryInfo -> Prop) e : entries_ok (tb_entries t) ->
  (forall p en, entries t !! p = Some en ->
     exists b, maskMatch (en_mask en) (en_value en) key (tb_keyLen t) = Some b /\ (b = true <-> P en)) ->
  exists r, entryLookup_MM key t e = Some (r, e) /\
    match r with
    | None => forall p en, entries t !! p = Some en -> ~ P en
    | Some p => exists en, entries t !! p = Some en /\ P en /\
        forall q en', entries t !! q = Some en' -> P en' -> en_priority en' <= en_priority en
    end.
Proof.
  intros (m & cs & R) Hm. unfold entryLookup_MM. rewrite run_bind.
  assert (res_hm (tb_entries t) = Some (r_heap (tb_entries t), m)) as Hh
    by (unfold res_hm; now rewrite (er_map _ _ _ R)).
  rewrite traverse_fold with (h := r_heap (tb_entries t)) (m := m) (cs := cs);
    [|exact Hh|intros; exact Hh|exact (er_rep _ _ _ R)].
  assert (forall p, p ∈ concat cs <-> is_Some (entries t !! p)) as Hl.
  { intros p. unfold entries. rewrite lookup_fmap, fmap_is_Some. split; [|apply (er_live _ _ _ R)].
    intros Hi. destruct (rep_in _ _ _ _ (er_rep _ _ _ R) Hi). eauto. }
  destruct (lookup_MM_fold t key P (concat cs) Hm [] None e) as (r & E & B).
  - intros p. apply Hl.
  - intros p en Hi. now apply elem_of_nil in Hi.
  - rewrite E. exists r. split; [reflexivity|]. cbn [app] in B. destruct r as [p|]; cbn in B |- *.
    + destruct B as (en & _ & He & Hp & Hq). exists en. repeat split; auto.
      intros q en' Hq'. apply (Hq q); [apply Hl; eauto|exact Hq'].
    + intros p en Hp. apply (B p); [apply Hl; eauto|exact Hp].
Qed.

(** [entryFill] makes a well-formed entry of a message that fits its table. *)
Definition fits_table fe t : Prop :=
  (Z.to_nat (fe_match_field_num fe) <= length (fe_match fe))%nat /\
  assemblable (take (Z.to_nat (fe_match_field_num fe)) (fe_match fe)) 128 /\
  mx_len <$> take (Z.to_nat (fe_match_field_num fe)) (fe_match fe) = m_len <$> table_fields t /\
  fields_len (table_fields t) = tb_keyLen t.

Lemma total_fields ms fs : mx_len <$> ms = m_len <$> fs -> total_len ms = fields_len fs.
Proof.
  unfold total_len. revert ms. induction fs as [|f fs IH]; intros [|m ms] E; try discriminate; [done|].
  cbn [fmap list_fmap] in E. injection E as E1 E2.
  cbn [value_fields fmap list_fmap seq_len fields_len foldr snd].
  fold (value_fields ms) (seq_len (value_fields ms)) (fields_len fs). rewrite (IH _ E2). lia.
Qed.

(** What [entryFill] leaves in a fresh entry of a maskable table. *)
Lemma entryFill_masked fe t e : tb_type t = POF_MM_TABLE \/ tb_type t = POF_LPM_TABLE -> fits_table fe t ->
  exists v mk, let en := entry_keyed fe t v mk (entry_copied fe entry_zero) in
    entryFill fe entry_zero 0 t e = Some ((POF_OK, (en, fe_index fe)), e) /\ entry_wf t en.
Proof.
  intros Ty (Hn & Ha & Hl & Ht). pose proof Ha as (_ & _ & _ & Hm).
  destruct (assemble_ok (Z.to_nat (fe_match_field_num fe)) (fe_match fe) 128 Hn Ha)
    as (v & mk & E & _ & Lv & Lm & Bv & Bm & Wv & Wm & Tl).
  set (ms := take (Z.to_nat (fe_match_field_num fe)) (fe_match fe)) in *.
  assert (total_len ms = tb_keyLen t) as Tt by (rewrite (total_fields _ _ Hl); exact Ht).
  rewrite Tt in *. exists v, mk. cbn zeta. split.
  - unfold entryFill.
    assert ((tb_type t =? POF_LPM_TABLE) || (tb_type t =? POF_MM_TABLE) = true) as ->
      by (destruct Ty as [-> | ->]; reflexivity).
    rewrite run_bind. unfold valueMaskAssemble. rewrite run_bind.
    change (en_value (entry_copied fe entry_zero)) with (zeros 128).
    change (en_mask (entry_copied fe entry_zero)) with (zeros 128). rewrite E. unfold lift at 1.
    rewrite Z.eqb_refl. reflexivity.
  - split; cbn [entry_keyed entry_copied en_value en_mask]; auto; intros i Hi; now apply Tl.
Qed.

Lemma hash_words_nonneg k : forall l hash, (length l <= k)%nat -> 0 <= hash -> 0 <= hash_words l hash.
Proof.
  assert (forall v, 0 <= hmap_hashForUint32 v) as Hu by (intros; unfold hmap_hashForUint32, u32; apply Z.mod_pos_bound; lia).
  assert (forall h v, 0 <= h -> 0 <= Z.lxor h (hmap_hashForUint32 v)) as Hx
    by (intros; apply Z.lxor_nonneg; split; auto).
  induction k as [|k IH]; intros l hash Hl Hh; destruct l as [|b0 [|b1 [|b2 [|b3 l]]]]; cbn [length] in Hl;
    cbn [hash_words]; auto; try lia. apply IH; [lia|auto].
Qed.

Lemma hash_key key len_b : blen key = BITNUM_TO_BYTENUM_CEIL len_b ->
  exists hash, entryHashByValue key len_b = Some hash /\ 0 <= hash.
Proof.
  intros L. unfold entryHashByValue, hmap_hashForBytes. rewrite <- L. pose proof (blen_nonneg key).
  unfold sub_buf. zcases; cbn [andb]; try lia. eexists. split; [reflexivity|].
  eapply hash_words_nonneg; [reflexivity|lia].
Qed.

(** ** Properties *)

(** C20. Matching is exact: when a flow-mod message is filled into an entry of a
    masked-match (or LPM) table and a packet's key is assembled for that table,
    the byte-wise comparison succeeds exactly when every match field agrees with
    the packet (or metadata) bits it names wherever its mask has a one. *)
Theorem entry_match_fields fe t packet metadata e :
  tb_type t = POF_MM_TABLE \/ tb_type t = POF_LPM_TABLE -> fits_table fe t -> table_reads packet metadata t ->
  exists en hash key b,
    entryFill fe entry_zero 0 t e = Some ((POF_OK, (en, hash)), e) /\
    keyAssemble (zeros (Z.to_nat (BITNUM_TO_BYTENUM_CEIL (tb_keyLen t)))) packet metadata
      (tb_match_field_num t) (tb_match t) = Some key /\
    maskMatch (en_mask en) (en_value en) key (tb_keyLen t) = Some b /\
    (b = true <-> Forall2 (field_matches packet metadata) (table_fields t)
                    (take (Z.to_nat (fe_match_field_num fe)) (fe_match fe))).
Proof.
  intros Ty Hf Hr. destruct (entryFill_masked fe t e Ty Hf) as (v & mk & E & W).
  destruct (table_key packet metadata t Hr) as (key & Ek & Lk & Bk & Wk).
  destruct (maskMatch_fields packet metadata t _ key Hr W Lk Bk Wk) as (b & Eb & Hb).
  eexists _, _, key, b. repeat split; [exact E|exact Ek|exact Eb|apply Hb|apply Hb].
Qed.

(** C18. A lookup in a masked-match table returns an entry the packet matches and
    whose priority no other matching entry exceeds; [NULL] exactly when no entry
    matches. *)
Theorem lookup_MM_best packet metadata t e :
  tb_type t = POF_MM_TABLE -> entries_ok (tb_entries t) -> quiet e -> table_reads packet metadata t ->
  (forall p en, entries t !! p = Some en -> entry_wf t en) ->
  exists r, poflr_entry_lookup packet metadata t e = Some (r, e) /\
    match r with
    | None => forall p en, entries t !! p = Some en -> ~ entry_matches packet metadata t en
    | Some p => exists en, entries t !! p = Some en /\ entry_matches packet metadata t en /\
        forall q en', entries t !! q = Some en' -> entry_matches packet metadata t en' ->
          en_priority en' <= en_priority en
    end.
Proof.
  intros Ty Ok Q Hr W. destruct (table_key packet metadata t Hr) as (key & Ek & Lk & Bk & Wk).
  destruct (entryLookup_MM_ok t key (entry_matches packet metadata t) e Ok) as (r & E & Hres).
  { intros p en Hp. apply maskMatch_fields; eauto. }
  exists r. split; [|exact Hres]. unfold poflr_entry_lookup. rewrite run_bind. unfold malloc.
  rewrite (proj1 Q). cbn [negb]. rewrite run_bind, Ek. unfold lift at 1. rewrite Ty. exact E.
Qed.

(** A lookup in an exact-match table goes by the hash of the key alone: it
    finds some entry with that hash, and [NULL] exactly when there is none. *)
Theorem lookup_EM_by_hash packet metadata t e :
  tb_type t = POF_EM_TABLE -> entries_ok (tb_entries t) -> quiet e -> table_reads packet metadata t ->
  exists r key hash, poflr_entry_lookup packet metadata t e = Some (r, e) /\
    bits_from key 0 (Z.to_nat (tb_keyLen t)) = concat (key_bits packet metadata <$> table_fields t) /\
    entryHashByValue key (tb_keyLen t) = Some hash /\
    match r with
    | None => forall p c, r_heap (tb_entries t) !! p = Some c -> c_hash c <> hash
    | Some p => exists c, r_heap (tb_entries t) !! p = Some c /\ c_hash c = hash
    end.
Proof.
  intros Ty (m & cs & R) Q Hr. destruct (table_key packet metadata t Hr) as (key & Ek & Lk & Bk & Wk).
  destruct (hash_key key (tb_keyLen t) Lk) as (hash & Eh & Hh).
  destruct (nodeGetWithHash_spec _ _ _ hash (er_rep _ _ _ R) Hh) as (r & Er & Hres).
  exists r, key, hash. split; [|split; [exact Wk|split; [exact Eh|]]].
  - unfold poflr_entry_lookup. rewrite run_bind. unfold malloc. rewrite (proj1 Q). cbn [negb].
    rewrite run_bind, Ek. unfold lift at 1. rewrite Ty. unfold entryLookup_EM, res_get.
    change (POF_EM_TABLE =? POF_MM_TABLE) with false. change (POF_EM_TABLE =? POF_LPM_TABLE) with false.
    change (POF_EM_TABLE =? POF_EM_TABLE) with true. cbv iota.
    rewrite Eh. cbn [mbind option_bind]. rewrite (er_map _ _ _ R). cbn [mbind option_bind]. now rewrite Er.
  - destruct r as [p|]; [now destruct Hres as [_ ?]|].
    intros p c Hp. apply (Hres p c); [|exact Hp]. apply (er_live _ _ _ R). eauto.
Qed.

(** ** Examples *)

(** A table with one 64-bit field at the start of the packet. *)
Definition table_example (type : Z) (es : resource entryInfo) : tableInfo :=
  mkTableInfo 0 type (zeros 64) es 64 None 1 (mkMatch 1 0 64 :: replicate 7 match_zero).

Definition entry_message (value mask : list Z) (priority : Z) : pof_flow_entry :=
  mkFlowEntry 0 1 0 0 0 0 0 0 0 0 priority 3 0
    (mkMatchX 1 0 64 (value ++ zeros 8) (mask ++ zeros 8) :: replicate 7 match_x_zero)
    (replicate 6 instruction_zero).

Definition no_entries : resource entryInfo := Res ∅ (Some (mkHmap [None] 0 0)) 0 16.

(** Because the hash xors the words of the key, an exact-match entry is also
    returned for a packet whose key holds the same words in another order. *)
Theorem lookup_EM_collision :
  match entryInsert (entry_message [1;2;3;4;5;6;7;8] (replicate 8 255) 0)
      (table_example POF_EM_TABLE no_entries) (env_init POFCS_CHANNEL_RUN [] []) with
  | Some ((ret, t), e) =>
      ret = POF_OK /\ (en_value <$> entries t !! 2%positive) = Some ([1;2;3;4;5;6;7;8] ++ zeros 120) /\
      (fst <$> poflr_entry_lookup [5;6;7;8;1;2;3;4;0] [] t e) = Some (Some 2%positive)
  | None => False
  end.
Proof. vm_compute. repeat split. Qed.

(** ** Witnesses *)

Lemma entry_match_fields_witness :
  exists en hash key b,
    entryFill (entry_message [1;2;3;4;5;6;7;8] [255;255;0;0;0;0;0;0] 7) entry_zero 0
      (table_example POF_MM_TABLE no_entries) (env_init POFCS_CHANNEL_RUN [] []) =
      Some ((POF_OK, (en, hash)), env_init POFCS_CHANNEL_RUN [] []) /\
    maskMatch (en_mask en) (en_value en) key 64 = Some b.
Proof.
  destruct (entry_match_fields (entry_message [1;2;3;4;5;6;7;8] [255;255;0;0;0;0;0;0] 7)
    (table_example POF_MM_TABLE no_entries) [1;2;9;9;9;9;9;9;0] [] (env_init POFCS_CHANNEL_RUN [] []))
    as (en & hash & key & b & E & _ & M & _).
  - left; reflexivity.
  - split; [by_decide|]. split; [|split; reflexivity].
    assert (forall c, bytes_ok c -> length c = 16%nat -> fields_fit [(c, 64)] 0) as F.
    { intros c Bc Lc. unfold fields_fit, coverable, value_room, tail_zero, blen. rewrite Lc.
      conjs; try exact Bc; try exact I; try (right; lia); try by_decide.
      change ((64 + 7) / 8) with 8. intros; lia. }
    split; [apply F; by_decide|]. split; [apply F; by_decide|]. by_decide.
  - unfold table_reads, extractable, coverable. cbn. conjs; try by_decide; try (right; lia); exact I.
  - exists en, hash, key, b. split; [exact E|exact M].
Defined.

(** A table whose only entry matches on the first two bytes. *)
Definition mm_entry : entryInfo :=
  entry_keyed (entry_message [1;2;3;4;5;6;7;8] [255;255;0;0;0;0;0;0] 7) (table_example POF_MM_TABLE no_entries)
    ([1;2;3;4;5;6;7;8] ++ zeros 120) ([255;255] ++ zeros 126)
    (entry_copied (entry_message [1;2;3;4;5;6;7;8] [255;255;0;0;0;0;0;0] 7) entry_zero).

Definition one_entry (hash : Z) (en : entryInfo) : resource entryInfo :=
  Res {[1%positive := Cell hash None en]} (Some (mkHmap [Some 1%positive] 0 1)) 1 16.

Lemma one_entry_ok hash en : 0 <= hash -> entries_ok (one_entry hash en).
Proof.
  intros Hh. exists (mkHmap [Some 1%positive] 0 1), [[1%positive]]. split; [done|apply rep_single| | |done].
  - intros p [c Hp]. cbn [r_heap one_entry] in Hp. apply lookup_singleton_Some in Hp as [<- _]. by_decide.
  - intros p c Hp. cbn [r_heap one_entry] in Hp. apply lookup_singleton_Some in Hp as [_ <-]. exact Hh.
Qed.

Lemma mm_entry_wf es : entry_wf (table_example POF_MM_TABLE es) mm_entry.
Proof.
  split; try by_decide; try (split; by_decide).
  intros i Hi. destruct (Z.ltb_spec i 1024); [|apply bit_at_out; change (8 * blen (en_mask mm_entry)) with 1024; lia].
  assert (for_range 64 960 (fun i => negb (bit_at (en_mask mm_entry) i)) = true) as R by (vm_compute; reflexivity).
  apply negb_true_iff. apply (for_range_spec _ _ _ R). cbn in *. lia.
Qed.

Lemma reads_example type es p : length p = 9%nat -> bytes_ok p ->
  table_reads p [] (table_example type es).
Proof.
  intros L B. unfold table_reads. change (table_fields _) with [mkMatch 1 0 64].
  cbn [extractable m_len m_offset]. change (field_src p [] (mkMatch 1 0 64)) with p. unfold coverable, blen. rewrite L.
  conjs; auto; try by_decide; try (right; lia).
Qed.

Lemma lookup_MM_best_witness :
  exists r, poflr_entry_lookup [1;2;9;9;9;9;9;9;0] [] (table_example POF_MM_TABLE (one_entry 3 mm_entry))
    (env_init POFCS_CHANNEL_RUN [] []) = Some (r, env_init POFCS_CHANNEL_RUN [] []).
Proof.
  destruct (lookup_MM_best [1;2;9;9;9;9;9;9;0] [] (table_example POF_MM_TABLE (one_entry 3 mm_entry))
    (env_init POFCS_CHANNEL_RUN [] []) eq_refl (one_entry_ok 3 mm_entry ltac:(lia)) ltac:(repeat split)
    (reads_example _ _ [1;2;9;9;9;9;9;9;0] eq_refl ltac:(by_decide))) as (r & E & _).
  - intros p en (c & Hc & <-)%entries_lookup. cbn [r_heap one_entry tb_entries table_example] in Hc. apply lookup_singleton_Some in Hc as [_ <-]. apply mm_entry_wf.
  - exists r. exact E.
Defined.

Lemma lookup_EM_by_hash_witness :
  exists r, poflr_entry_lookup [1;2;9;9;9;9;9;9;0] [] (table_example POF_EM_TABLE (one_entry 3 mm_entry))
    (env_init POFCS_CHANNEL_RUN [] []) = Some (r, env_init POFCS_CHANNEL_RUN [] []).
Proof.
  destruct (lookup_EM_by_hash [1;2;9;9;9;9;9;9;0] [] (table_example POF_EM_TABLE (one_entry 3 mm_entry))
    (env_init POFCS_CHANNEL_RUN [] []) eq_refl (one_entry_ok 3 mm_entry ltac:(lia)) ltac:(repeat split)
    (reads_example _ _ [1;2;9;9;9;9;9;9;0] eq_refl ltac:(by_decide))) as (r & key & hash & E & _).
  exists r. exact E.
Defined.
