(* ===== verification/FlowTable.v ===== *)
(** * Flow tables (local_resource/pof_flow_table.c)

    The tables of one slot: their global ids, creating and deleting a table,
    adding, modifying and deleting entries, emptying and querying.  The entries
    of a table are in FlowEntry.v.  A record does not keep the padding of its
    struct: padding copied between structs is written as zeros; memory that is
    never written ([MALLOC] without [memset] in [reply_entry]) is a parameter. *)

From S2P Require Import Prelude Bits Codec Env Hmap IdMap Tree LocalRes ByteTransfer Counter FlowEntry.
From Stdlib Require String.
Import String.StringSyntax.
#[local] Open Scope string_scope.

(** [pof_flow_mod_failed_code]. *)
Definition POFFMFC_UNKNOWN := EC 0 "POFFMFC_UNKNOWN".
Definition POFFMFC_BAD_TABLE_ID := EC 2 "POFFMFC_BAD_TABLE_ID".
Definition POFFMFC_ENTRY_UNEXIST := EC 9 "POFFMFC_ENTRY_UNEXIST".
Definition POFFMFC_BAD_TABLE_TYPE := EC 10 "POFFMFC_BAD_TABLE_TYPE".
Definition POFFMFC_BAD_ENTRY_ID := EC 11 "POFFMFC_BAD_ENTRY_ID".
Definition POF_BAD_TABLE_ID := EC 0x600C "POF_BAD_TABLE_ID".

Definition POFTC_QUERY_RESULT : Z := 4.
Definition POFFC_QUERY_RESULT : Z := 6.
Definition TABLE_NAME_LEN : Z := 64.

Implicit Types (lr : pof_local_resource) (t : tableInfo) (fe : pof_flow_entry).

(** ** Table ids *)

(** The loop of [poflr_table_id_to_ID]: the first [type] counts, modulo 256. *)
Fixpoint id_base (maxs : list Z) (type : nat) (ID : Z) : option Z :=
  match type, maxs with
  | O, _ => Some ID
  | S k, x :: maxs' => id_base maxs' k (u8 (ID + x))
  | S _, [] => None
  end.
Definition poflr_table_id_to_ID (type id : Z) lr : option Z :=
  base ← id_base (tableNumMaxEachType lr) (Z.to_nat type) 0; Some (u8 (base + id)).

(** The loop of [poflr_table_ID_to_id] from type [i] on: the type and the id. *)
Fixpoint id_search (maxs : list Z) (k : nat) (i ID : Z) : option (option (Z * Z)) :=
  match k, maxs with
  | O, _ => Some None
  | S k', x :: maxs' => if x <=? ID then id_search maxs' k' (i + 1) (u8 (ID - x)) else Some (Some (i, ID))
  | S _, [] => None
  end.
Definition poflr_table_ID_to_id (ID : Z) lr : St (Z * option (Z * Z)) :=
  r ← lift (id_search (tableNumMaxEachType lr) (Z.to_nat POF_MAX_TABLE_TYPE) 0 ID);
  match r with
  | Some ti => mret (POF_OK, Some ti)
  | None =>
      x ← upward_xid_pp;
      ret ← POF_ERROR_HANDLE_RETURN_UPWARD POFET_SOFTWARE_FAILED POF_BAD_TABLE_ID x;
      mret (ret, None)
  end.

(** ** Data structure helpers *)

Definition map_tableHashByID (id : Z) : Z := hmap_hashForLinear id.
Definition map_tableCreate lr : St (option addr * pof_local_resource) :=
  '(p, ts) ← res_create table_zero (lr_tables lr); mret (p, set_tables ts lr).
Definition map_tableInsert (table : addr) lr : option pof_local_resource :=
  ts ← res_insert u16 table (lr_tables lr); Some (set_tables ts lr).
Definition map_tableDelete (table : addr) lr : option pof_local_resource :=
  ts ← res_delete u16 table (lr_tables lr); Some (set_tables ts lr).
Definition poflr_get_table_with_ID (id : Z) lr : option (option addr) :=
  res_get (map_tableHashByID id) (lr_tables lr).
Definition load_table (p : addr) lr : option tableInfo := res_load p (lr_tables lr).
Definition store_table (p : addr) t lr : option pof_local_resource :=
  ts ← res_store p t (lr_tables lr); Some (set_tables ts lr).
Definition hash_table (p : addr) (hash : Z) lr : option pof_local_resource :=
  ts ← res_set_hash p hash (lr_tables lr); Some (set_tables ts lr).

(** [memcpy] of [n] match fields into the [POF_MAX_MATCH_FIELD_NUM] of a table. *)
Definition copy_matches (dst src : list pof_match) (n : Z) : option (list pof_match) :=
  if POF_MAX_MATCH_FIELD_NUM <? n then None
  else Some (take (Z.to_nat n) src ++ drop (Z.to_nat n) dst).

(** ** Creating and deleting tables *)

Definition poflr_create_flow_table (id type key_len size : Z) (name : list Z) (match_field_num : Z)
    (ms : list pof_match) lr : St (Z * pof_local_resource) :=
  if POF_MAX_TABLE_TYPE <=? type then ret_err POFET_TABLE_MOD_FAILED POFTMFC_BAD_TABLE_TYPE recv_xid lr
  else
    numMax ← lift (tableNumMaxEachType lr !! Z.to_nat type);
    if numMax <=? id then ret_err POFET_TABLE_MOD_FAILED POFTMFC_BAD_TABLE_ID recv_xid lr
    else
      ID ← lift (poflr_table_id_to_ID type id lr);
      found ← lift (poflr_get_table_with_ID ID lr);
      match found with
      | Some _ => ret_err POFET_TABLE_MOD_FAILED POFTMFC_TABLE_EXIST recv_xid lr
      | None =>
          if tableSizeMax lr <? size then ret_err POFET_TABLE_MOD_FAILED POFTMFC_BAD_TABLE_SIZE recv_xid lr
          else
            keyMax ← lift (poflr_key_len_each_type lr !! Z.to_nat type);
            if keyMax <? key_len then ret_err POFET_TABLE_MOD_FAILED POFTMFC_BAD_KEY_LEN recv_xid lr
            else
              '(table, lr) ← map_tableCreate lr;
              match table with
              | None => ret_err POFET_SOFTWARE_FAILED POF_ALLOCATE_RESOURCE_FAILURE upward_xid_pp lr
              | Some table =>
                  t ← lift (load_table table lr);
                  lr ← lift (hash_table table (map_tableHashByID ID) lr);
                  entryMap ← hmap_create size;
                  ms' ← lift (copy_matches (tb_match t) ms match_field_num);
                  tr ← (if type =? POF_LPM_TABLE then tree_create else mret (tb_tree t));
                  lr ← lift (store_table table
                    (mkTableInfo ID type (strncpy name (Z.to_nat TABLE_NAME_LEN)) (Res ∅ entryMap 0 size)
                       key_len tr match_field_num ms') lr);
                  lr ← lift (map_tableInsert table lr);
                  mret (POF_OK, lr)
              end
      end.

(** [hmap_destroy] and [tree_destroy] dereference what they free. *)
Definition destroy_table t : option unit :=
  _ ← r_map (tb_entries t);
  if tb_type t =? POF_LPM_TABLE then tr ← tb_tree t; _ ← tree_nodeDestroy (root tr); Some tt else Some tt.

Definition poflr_delete_flow_table (id type : Z) lr : St (Z * pof_local_resource) :=
  if POF_MAX_TABLE_TYPE <=? type then ret_err POFET_TABLE_MOD_FAILED POFTMFC_BAD_TABLE_TYPE recv_xid lr
  else
    numMax ← lift (tableNumMaxEachType lr !! Z.to_nat type);
    if numMax <=? id then ret_err POFET_TABLE_MOD_FAILED POFTMFC_BAD_TABLE_ID recv_xid lr
    else
      ID ← lift (poflr_table_id_to_ID type id lr);
      found ← lift (poflr_get_table_with_ID ID lr);
      match found with
      | None => ret_err POFET_TABLE_MOD_FAILED POFTMFC_TABLE_UNEXIST recv_xid lr
      | Some table =>
          t ← lift (load_table table lr);
          if negb (r_num (tb_entries t) =? 0) then
            ret_err POFET_TABLE_MOD_FAILED POFTMFC_TABLE_UNEMPTY recv_xid lr
          else
            _ ← lift (destroy_table t);
            lr ← lift (map_tableDelete table lr);
            mret (POF_OK, lr)
      end.

(** ** Flow entries *)

(** The checks every flow-mod handler starts with; [k] gets the table. *)
Definition with_flow_table fe lr (k : addr -> tableInfo -> St (Z * pof_local_resource))
  : St (Z * pof_local_resource) :=
  if POF_MAX_TABLE_TYPE <=? fe_table_type fe then
    ret_err POFET_FLOW_MOD_FAILED POFFMFC_BAD_TABLE_TYPE recv_xid lr
  else
    numMax ← lift (tableNumMaxEachType lr !! Z.to_nat (fe_table_type fe));
    if numMax <=? fe_table_id fe then ret_err POFET_FLOW_MOD_FAILED POFFMFC_BAD_TABLE_ID recv_xid lr
    else
      ID ← lift (poflr_table_id_to_ID (fe_table_type fe) (fe_table_id fe) lr);
      found ← lift (poflr_get_table_with_ID ID lr);
      match found with
      | None => ret_err POFET_FLOW_MOD_FAILED POFFMFC_BAD_TABLE_ID recv_xid lr
      | Some table =>
          t ← lift (load_table table lr);
          if tb_size t <=? fe_index fe then ret_err POFET_FLOW_MOD_FAILED POFFMFC_BAD_ENTRY_ID recv_xid lr
          else k table t
      end.

Definition poflr_add_flow_entry fe lr : St (Z * pof_local_resource) :=
  with_flow_table fe lr (fun table t =>
    '(ret, t) ← entryInsert fe t;
    lr ← lift (store_table table t lr);
    if negb (ret =? POF_OK) then ret_err POFET_FLOW_MOD_FAILED POFFMFC_UNKNOWN recv_xid lr
    else
      '(ret, lr) ← poflr_counter_init (fe_counter_id fe) lr;
      if negb (ret =? POF_OK) then mret (ret, lr) else mret (POF_OK, lr)).

Definition poflr_modify_flow_entry fe lr : St (Z * pof_local_resource) :=
  with_flow_table fe lr (fun table t =>
    found ← poflr_entry_get_with_index (fe_index fe) t;
    match found with
    | None => ret_err POFET_FLOW_MOD_FAILED POFFMFC_ENTRY_UNEXIST recv_xid lr
    | Some entry =>
        old ← lift (res_load entry (tb_entries t));
        '(ret, lr) ← (if negb (en_counter_id old =? fe_counter_id fe)
                      then poflr_counter_init (fe_counter_id fe) lr else mret (POF_OK, lr));
        if negb (ret =? POF_OK) then mret (ret, lr)
        else
          t ← lift (entryDelete entry t);
          '(ret, t) ← entryInsert fe t;
          lr ← lift (store_table table t lr);
          if negb (ret =? POF_OK) then ret_err POFET_FLOW_MOD_FAILED POFFMFC_UNKNOWN recv_xid lr
          else mret (POF_OK, lr)
    end).

Definition poflr_delete_flow_entry fe lr : St (Z * pof_local_resource) :=
  with_flow_table fe lr (fun table t =>
    found ← poflr_entry_get_with_index (fe_index fe) t;
    match found with
    | None => ret_err POFET_FLOW_MOD_FAILED POFFMFC_ENTRY_UNEXIST recv_xid lr
    | Some entry =>
        old ← lift (res_load entry (tb_entries t));
        '(ret, lr) ← poflr_counter_delete (en_counter_id old) lr;
        if negb (ret =? POF_OK) then mret (ret, lr)
        else
          t ← lift (entryDelete entry t);
          lr ← lift (store_table table t lr);
          mret (POF_OK, lr)
    end).

(** ** Initialising and emptying *)

(** [poflr_key_len] is a global set by [poflr_set_key_len]; [tableNumMax] is a
    [uint16_t]. *)
Definition poflr_init_flow_table (poflr_key_len : Z) lr : St (Z * pof_local_resource) :=
  let lr := set_key_lens (replicate (Z.to_nat POF_MAX_TABLE_TYPE) (u16 poflr_key_len)) lr in
  nums ← lift (if (length (tableNumMaxEachType lr) <? 4)%nat then None else Some (take 4 (tableNumMaxEachType lr)));
  let tableNumMax := foldl (fun s x => u16 (s + x)) 0 nums in
  '(ret, ts) ← res_init (Res (r_heap (lr_tables lr)) (r_map (lr_tables lr)) (r_num (lr_tables lr)) tableNumMax);
  mret (ret, set_tables ts lr).

(** Delete all entries of a table. *)
Definition empty_entries t : St tableInfo :=
  res ← HMAP_NODES_IN_STRUCT_TRAVERSE (R := Empty_set) (fun t => res_hm (tb_entries t))
    (fun p t => t ← lift (entryDelete p t); mret (inr t)) t;
  mret (loop_end res).

Definition poflr_empty_flow_table lr : St (Z * pof_local_resource) :=
  res ← HMAP_NODES_IN_STRUCT_TRAVERSE (R := Empty_set) (fun lr => res_hm (lr_tables lr))
    (fun table lr =>
       t ← lift (load_table table lr);
       t ← empty_entries t;
       _ ← lift (destroy_table t);
       lr ← lift (store_table table t lr);
       lr ← lift (map_tableDelete table lr);
       mret (inr lr)) lr;
  mret (POF_OK, loop_end res).

Definition poflr_get_key_len lr : list Z := poflr_key_len_each_type lr.
Definition poflr_set_key_len (key_len : Z) : Z := key_len.

(** ** Replies *)

Definition match_bytes (m : pof_match) : list Z :=
  le 2 (m_field_id m) ++ le 2 (m_offset m) ++ le 2 (m_len m) ++ zeros 2.
Definition match_x_bytes (m : pof_match_x) : list Z :=
  le 2 (mx_field_id m) ++ le 2 (mx_offset m) ++ le 2 (mx_len m) ++ zeros 2 ++ mx_value m ++ mx_mask m.
Definition instruction_bytes (i : pof_instruction) : list Z :=
  le 2 (ins_type i) ++ le 2 (ins_len i) ++ zeros 4 ++ instruction_data i.

Definition flow_table_bytes (f : pof_flow_table) : list Z :=
  le 1 (ft_command f) ++ le 1 (ft_tid f) ++ le 1 (ft_type f) ++ le 1 (ft_match_field_num f) ++
  le 4 (ft_size f) ++ le 2 (ft_key_len f) ++ le 2 (ft_slotID f) ++ zeros 4 ++ ft_table_name f ++
  concat (match_bytes <$> ft_match f).
Definition sizeof_pof_flow_table : Z := 144.
Definition sizeof_pof_flow_entry : Z := 2184.

Definition reply_table t lr : St Z :=
  '(_, ti) ← poflr_table_ID_to_id (tb_id t) lr;
  body ← lift (pof_NtoH_transfer_flow_table (flow_table_bytes
    (mkFlowTable POFTC_QUERY_RESULT (match ti with Some (_, tid) => tid | None => 0 end) (tb_type t)
       (tb_match_field_num t) (tb_size t) (tb_keyLen t) (lr_slotID lr)
       (strncpy (tb_name t) (Z.to_nat TABLE_NAME_LEN)) (tb_match t))));
  x ← recv_xid;
  ret ← pofec_reply_msg POFT_TABLE_MOD x sizeof_pof_flow_table (Some body);
  if negb (ret =? POF_OK) then
    x ← recv_xid;
    POF_ERROR_HANDLE_RETURN_UPWARD POFET_SOFTWARE_FAILED POF_WRITE_MSG_QUEUE_FAILURE x
  else mret POF_OK.

(** The bytes of a reply: [g] is what the allocated memory held. *)
Definition entry_reply_bytes (g : list Z) (tid : option Z) (en : entryInfo) t lr : list Z :=
  let raw i n := take n (drop i g) in
  le 1 POFFC_QUERY_RESULT ++ le 1 (en_match_field_num en) ++ le 1 (en_instruction_num en) ++ raw 3%nat 1%nat ++
  le 4 (en_counter_id en) ++ raw 8%nat 16%nat ++
  match tid with Some tid => le 1 tid | None => raw 24%nat 1%nat end ++ le 1 (tb_type t) ++ raw 26%nat 4%nat ++
  le 2 (en_priority en) ++ le 4 (en_index en) ++ le 2 (lr_slotID lr) ++ raw 38%nat 2%nat ++
  concat (match_x_bytes <$> en_match en) ++ concat (instruction_bytes <$> en_instruction en).

Definition reply_entry (g : list Z) (en : entryInfo) t lr : St Z :=
  ok ← malloc;
  if negb ok then fault
  else
    '(_, ti) ← poflr_table_ID_to_id (tb_id t) lr;
    body ← lift (pof_HtoN_transfer_flow_entry (entry_reply_bytes g (snd <$> ti) en t lr));
    x ← recv_xid;
    ret ← pofec_reply_msg POFT_FLOW_MOD x sizeof_pof_flow_entry (Some body);
    if negb (ret =? POF_OK) then
      x ← recv_xid;
      POF_ERROR_HANDLE_RETURN_UPWARD POFET_SOFTWARE_FAILED POF_WRITE_MSG_QUEUE_FAILURE x
    else mret POF_OK.

Definition poflr_reply_table (id type : Z) lr : St (Z * pof_local_resource) :=
  if POF_MAX_TABLE_TYPE <=? type then ret_err POFET_TABLE_MOD_FAILED POFTMFC_BAD_TABLE_TYPE recv_xid lr
  else
    numMax ← lift (tableNumMaxEachType lr !! Z.to_nat type);
    if numMax <=? id then ret_err POFET_TABLE_MOD_FAILED POFTMFC_BAD_TABLE_ID recv_xid lr
    else
      ID ← lift (poflr_table_id_to_ID type id lr);
      found ← lift (poflr_get_table_with_ID ID lr);
      match found with
      | None => ret_err POFET_TABLE_MOD_FAILED POFTMFC_TABLE_UNEXIST recv_xid lr
      | Some table =>
          t ← lift (load_table table lr);
          ret ← reply_table t lr;
          if negb (ret =? POF_OK) then mret (ret, lr) else mret (POF_OK, lr)
      end.

Definition poflr_reply_table_all lr : St (Z * pof_local_resource) :=
  res ← HMAP_NODES_IN_STRUCT_TRAVERSE (R := Z) res_hm
    (fun p ts =>
       t ← lift (res_load p ts);
       ret ← reply_table t lr;
       if negb (ret =? POF_OK) then mret (inl ret) else mret (inr ts)) (lr_tables lr);
  match res with inl r => mret (r, lr) | inr _ => mret (POF_OK, lr) end.

Definition poflr_reply_entry (g : list Z) (table_id table_type index : Z) lr : St (Z * pof_local_resource) :=
  if POF_MAX_TABLE_TYPE <=? table_type then ret_err POFET_TABLE_MOD_FAILED POFTMFC_BAD_TABLE_TYPE recv_xid lr
  else
    numMax ← lift (tableNumMaxEachType lr !! Z.to_nat table_type);
    if numMax <=? table_id then ret_err POFET_TABLE_MOD_FAILED POFTMFC_BAD_TABLE_ID recv_xid lr
    else
      ID ← lift (poflr_table_id_to_ID table_type table_id lr);
      found ← lift (poflr_get_table_with_ID ID lr);
      match found with
      | None => ret_err POFET_TABLE_MOD_FAILED POFTMFC_TABLE_UNEXIST recv_xid lr
      | Some table =>
          t ← lift (load_table table lr);
          if tb_size t <=? index then ret_err POFET_FLOW_MOD_FAILED POFFMFC_BAD_ENTRY_ID recv_xid lr
          else
            found ← poflr_entry_get_with_index index t;
            match found with
            | None => ret_err POFET_FLOW_MOD_FAILED POFFMFC_ENTRY_UNEXIST recv_xid lr
            | Some entry =>
                en ← lift (res_load entry (tb_entries t));
                ret ← reply_entry g en t lr;
                if negb (ret =? POF_OK) then mret (ret, lr) else mret (POF_OK, lr)
            end
      end.

Definition poflr_reply_entry_all (g : list Z) lr : St (Z * pof_local_resource) :=
  res ← HMAP_NODES_IN_STRUCT_TRAVERSE (R := Z) res_hm
    (fun table ts =>
       t ← lift (res_load table ts);
       r ← HMAP_NODES_IN_STRUCT_TRAVERSE (R := Z) res_hm
         (fun p es =>
            en ← lift (res_load p es);
            ret ← reply_entry g en t lr;
            if negb (ret =? POF_OK) then mret (inl ret) else mret (inr es)) (tb_entries t);
       match r with inl r => mret (inl r) | inr _ => mret (inr ts) end) (lr_tables lr);
  match res with inl r => mret (r, lr) | inr _ => mret (POF_OK, lr) end.
