(* ===== verification/FlowSpec.v ===== *)
(** * What the flow-table operations do

    The operations of FlowEntry.v and FlowTable.v against an abstract view: a
    table is the finite map [entries] of its live entries, the slot the map
    [contents] of its tables by global id.  Entries may share an index, as the
    code lets them, so they are told apart by their address. *)

From S2P Require Import Prelude Bits Codec Env Hmap IdMap Tree LocalRes ByteTransfer Counter FlowEntry FlowTable.

Implicit Types (lr : pof_local_resource) (t : tableInfo) (fe : pof_flow_entry) (es : resource entryInfo).

(** ** One entry map *)

Definition objects es : gmap addr entryInfo := c_obj <$> r_heap es.

(** Linking a fresh structure. *)
Lemma entries_insert es p hash en : entries_ok es -> r_heap es !! p = None -> 0 <= hash ->
  exists es', res_insert u32 p (with_heap es (<[p := Cell hash None en]> (r_heap es))) = Some es' /\
    entries_ok es' /\ objects es' = <[p := en]> (objects es) /\ r_max es' = r_max es.
Proof.
  intros (m & cs & R) Hp Hh.
  pose proof (rep_alloc _ _ _ p (Cell hash None en) (er_rep _ _ _ R) Hp) as R1.
  assert (p ∉ concat cs) as Hpc by (intros Hin; destruct (rep_in _ _ _ _ (er_rep _ _ _ R) Hin); congruence).
  destruct (nodeInsert_spec _ _ _ p (Cell hash None en) R1 (lookup_insert_eq _ _ _) Hh Hpc)
    as (b & m' & l & Hl & E & R2 & _ & Pm).
  unfold res_insert, with_heap. cbn [r_map r_heap]. rewrite (er_map _ _ _ R). cbn [mbind option_bind].
  rewrite E. cbn [mbind option_bind]. rewrite insert_insert_eq in R2 |- *. cbn [c_hash c_obj] in *.
  eexists. split; [reflexivity|]. split; [|split; [|done]].
  - exists m', (<[Z.to_nat (bucketWithHash m hash) := p :: l]> cs). constructor; cbn [r_map r_heap r_num]; auto.
    + intros q [c Hq]. rewrite Pm. rewrite lookup_insert in Hq. case_decide; [subst; left|right].
      apply (er_live _ _ _ R). eauto.
    + intros q c Hq. rewrite lookup_insert in Hq. case_decide; [injection Hq as <-; exact Hh|].
      eapply (er_hash _ _ _ R); eauto.
    + rewrite (er_num _ _ _ R), map_size_insert_None, u32_add by done. f_equal. lia.
  - unfold objects. cbn [r_heap]. now rewrite fmap_insert.
Qed.

(** Unlinking and freeing one. *)
Lemma entries_delete es m cs p c : entries_repr es m cs -> r_heap es !! p = Some c ->
  exists h m' cs', hmap_nodeDelete (r_heap es) m p = Some (h, m') /\
    let es' := Res (delete p h) (Some m') (u32 (r_num es - 1)) (r_max es) in
    entries_repr es' m' cs' /\ objects es' = delete p (objects es) /\
    exists l1 l2, concat cs = l1 ++ p :: l2 /\ concat cs' = l1 ++ l2.
Proof.
  intros R Hp. assert (p ∈ concat cs) as Hin by (apply (er_live _ _ _ R); eauto).
  destruct (nodeDelete_spec _ _ _ p (er_rep _ _ _ R) Hin) as (h' & m' & i & u & w & Hi & E & R' & Sc & _ & Pm).
  assert (p ∉ concat (<[i := u ++ w]> cs)) as Hnp.
  { pose proof (rep_nodup _ _ _ (er_rep _ _ _ R)) as Nd. rewrite Pm in Nd.
    now apply NoDup_cons in Nd as [Nd _]. }
  destruct (remove_concat cs i p u w Hi) as (a & b & E1 & E2).
  exists h', m', (<[i := u ++ w]> cs). split; [exact E|]. cbv zeta. split; [|split; [|eauto]].
  - constructor; cbn [r_map r_heap r_num]; [done|now apply rep_free| | |].
    + intros q [d [Hqp Hd]%lookup_delete_Some]. specialize (Sc q). rewrite Hd in Sc.
      destruct (r_heap es !! q) as [d0|] eqn:Hq; [|done].
      assert (q ∈ concat cs) as Hqc by (apply (er_live _ _ _ R); eauto).
      rewrite Pm in Hqc. now apply elem_of_cons in Hqc as [->|?].
    + intros q d [Hqp Hd]%lookup_delete_Some. specialize (Sc q). rewrite Hd in Sc.
      destruct (r_heap es !! q) as [d0|] eqn:Hq; [|done]. destruct Sc as [Hh _].
      pose proof (er_hash _ _ _ R q d0 Hq). lia.
    + rewrite (er_num _ _ _ R), <- Z.add_opp_r, u32_add. f_equal.
      rewrite map_size_delete_Some by (specialize (Sc p); rewrite Hp in Sc; destruct (h' !! p); [eauto|done]).
      rewrite (same_cells_size _ _ Sc).
      assert (size (r_heap es) <> 0%nat) by (apply (map_size_ne_0_lookup_2 _ p); eauto). lia.
  - unfold objects. cbn [r_heap]. rewrite fmap_delete. apply map_eq. intros q. rewrite !lookup_delete.
    case_decide; [done|]. rewrite !lookup_fmap. specialize (Sc q).
    destruct (r_heap es !! q), (h' !! q); try done. destruct Sc as [_ Eo]. cbn. f_equal. congruence.
Qed.

(** ** The prefix tree of an LPM table *)

(** The bits an entry is stored under: the first bits of its value, as many as
    its mask has ones. *)
Definition key_bytes t : Z := BITNUM_TO_BYTENUM_CEIL (tb_keyLen t).
Definition prefix_len t (en : entryInfo) : Z := ones (bits_from (en_mask en) 0 (8 * Z.to_nat (key_bytes t))).
Definition prefix_of t (en : entryInfo) : list bool := prefix_bits (en_value en) (prefix_len t en).

(** Buffers long enough for the key, and a prefix no longer than it. *)
Definition lpm_entry t (en : entryInfo) : Prop :=
  bytes_ok (en_value en) /\ bytes_ok (en_mask en) /\
  key_bytes t <= blen (en_value en) /\ key_bytes t <= blen (en_mask en) /\ prefix_len t en <= tb_keyLen t.

(** The tree maps exactly the prefixes of the entries to the entries. *)
Definition lpm_ok t : Prop := exists tr, tb_tree t = Some tr /\ root tr <> TNull /\
  (depth (root tr) <= S (Z.to_nat (tb_keyLen t)))%nat /\
  (forall p en, entries t !! p = Some en -> lpm_entry t en) /\
  forall q p, tree_ptr (root tr) q = Some p <-> exists en, entries t !! p = Some en /\ q = prefix_of t en.

Lemma lpm_key_ok t en : 1 <= tb_keyLen t <= 1024 -> lpm_entry t en ->
  exists v, lpm_key en t = Some (v, prefix_len t en) /\ bytes_ok v /\ blen v = key_bytes t /\
    0 <= prefix_len t en <= 8 * blen v /\ prefix_bits v (prefix_len t en) = prefix_of t en.
Proof.
  intros Hk (Bv & Bm & Lv & Lm & Lp). unfold lpm_key, key_bytes in *.
  pose proof (ceil_bytes (tb_keyLen t) ltac:(lia)) as C.
  set (n := BITNUM_TO_BYTENUM_CEIL (tb_keyLen t)) in *.
  unfold get1sCountInBytes. rewrite get1sCountInBytes_loop_ok by (auto; lia). cbn [mbind option_bind].
  rewrite Z.add_0_l, Z.mul_0_r. fold (key_bytes t) n. change (ones _) with (prefix_len t en).
  unfold sub_buf. zcases; cbn [andb]; try lia. cbn [mbind option_bind]. change (drop (Z.to_nat 0) (en_value en)) with (en_value en).
  pose proof (ones_bound (bits_from (en_mask en) 0 (8 * Z.to_nat (key_bytes t)))) as B.
  change (ones _) with (prefix_len t en) in B. rewrite length_bits_from in B.
  assert (blen (take (Z.to_nat n) (en_value en)) = n) as Lt by (apply blen_take; lia).
  eexists. split; [reflexivity|]. split; [auto with pof|]. split; [exact Lt|]. rewrite Lt.
  split; [lia|]. unfold prefix_of, prefix_bits. apply bits_from_ext. intros q Hq.
  unfold bit_at. f_equal. apply byte_at_take; lia.
Qed.

(** ** One table *)

Definition table_wf t : Prop :=
  entries_ok (tb_entries t) /\ (tb_type t = POF_LPM_TABLE -> 1 <= tb_keyLen t <= 1024 /\ lpm_ok t).

(** Only the entries and the tree differ. *)
Definition same_table t t' : Prop :=
  t' = set_tree (tb_tree t') (set_entries (tb_entries t') t) /\ tb_size t' = tb_size t.

(** An LPM table with the entries [es] can take the entry without replacing
    another one in the tree. *)
Definition insertable t (es : gmap addr entryInfo) (en : entryInfo) : Prop :=
  tb_type t = POF_LPM_TABLE ->
  lpm_entry t en /\ forall q en', es !! q = Some en' -> prefix_of t en' <> prefix_of t en.

Lemma lpm_insert_ok t es p en e : 1 <= tb_keyLen t <= 1024 -> lpm_ok t -> mallocs e = [] ->
  lpm_entry t en -> (forall q en', entries t !! q = Some en' -> prefix_of t en' <> prefix_of t en) ->
  entries t !! p = None -> objects es = <[p := en]> (entries t) ->
  exists ret t', lpmInsert p en (set_entries es t) e = Some ((ret, t'), e) /\ lpm_ok t' /\
    t' = set_tree (tb_tree t') (set_entries es t).
Proof.
  intros Hk (tr & Et & Hr & Hd & Hall & Hptr) Q He Hf Hp Ho.
  destruct (lpm_key_ok t en Hk He) as (v & Ev & Bv & Lv & Hb & Pv).
  pose proof (ceil_bytes (tb_keyLen t) ltac:(lia)) as C. fold (key_bytes t) in C.
  pose proof He as (_ & _ & _ & _ & Lp).
  destruct (insert_loop_ok (Z.to_nat (prefix_len t en)) (root tr) v p e Hr Bv ltac:(lia) ltac:(lia))
    as (ret & r' & e' & Ei & Hr' & Hd' & Hq & Hm). destruct (Hm Q) as [-> ->].
  rewrite Z2Nat.id, Pv in Hq by lia.
  exists POF_OK, (set_tree (Some (mkTree r' (u32 (count tr + 1)))) (set_entries es t)).
  split; [|split; [|reflexivity]].
  - unfold lpmInsert. rewrite run_bind. change (lpm_key en (set_entries es t)) with (lpm_key en t).
    rewrite Ev. unfold lift at 1. rewrite run_bind. cbn [tb_tree set_entries]. rewrite Et. unfold lift at 1.
    rewrite run_bind. unfold tree_nodeInsert. rewrite run_bind, Ei. reflexivity.
  - eexists. split; [reflexivity|]. cbn [root tb_keyLen set_tree set_entries]. split; [done|]. split; [lia|].
    change (entries (set_tree _ (set_entries es t))) with (objects es). rewrite Ho. split.
    { intros p0 en0 E0. rewrite lookup_insert in E0. case_decide; [injection E0 as <-; exact He|exact (Hall _ _ E0)]. }
    intros q p0. rewrite Hq. split.
    + destruct (decide (POF_OK = POF_OK /\ q = prefix_of t en)) as [Hc|Hc];
        [intros E0; injection E0 as <-; exists en; rewrite lookup_insert_eq; tauto|].
      intros (en0 & E0 & ->)%Hptr. exists en0. rewrite lookup_insert_ne by congruence. auto.
    + intros (en0 & E0 & ->). rewrite lookup_insert in E0. case_decide as Hc.
      * subst p0. injection E0 as <-. rewrite decide_True by done. done.
      * rewrite decide_False by (intros [_ Hx]; exact (Hf _ _ E0 Hx)). apply Hptr. eauto.
Qed.

Lemma entryInsert_ok fe t en hash e : table_wf t -> quiet e -> 0 <= hash ->
  entryFill fe entry_zero 0 t e = Some ((POF_OK, (en, hash)), e) -> insertable t (entries t) en ->
  exists t' p, entryInsert fe t e = Some ((POF_OK, t'), e) /\ entries t !! p = None /\
    entries t' = <[p := en]> (entries t) /\ table_wf t' /\ same_table t t'.
Proof.
  intros [We Wt] Q Hh Ef Hi. set (es := tb_entries t) in *. set (p := fresh_addr (r_heap es)).
  assert (r_heap es !! p = None) as Hp by apply fresh_addr_spec.
  assert (entries t !! p = None) as Hpe by (unfold entries; rewrite lookup_fmap; fold es; now rewrite Hp).
  destruct (entries_insert es p hash en We Hp Hh) as (es' & Ei & Oke & Oe & Me).
  assert (entryInsert fe t e =
    (if tb_type t =? POF_LPM_TABLE
     then '(_, t) ← lpmInsert p en (set_entries es' t); mret (POF_OK, t)
     else mret (POF_OK, set_entries es' t)) e) as Run'.
  { unfold entryInsert. rewrite run_bind. unfold res_create.
    rewrite run_bind. unfold malloc. rewrite (proj1 Q). cbn [negb]. unfold mret at 1, St_ret. cbv beta iota zeta.
    fold es p. rewrite run_bind. unfold res_load. cbn [r_heap with_heap]. rewrite lookup_insert_eq.
    cbn [mbind option_bind c_obj]. unfold lift at 1. rewrite run_bind, Ef.
    change (POF_OK =? POF_OK) with true. cbn [negb].
    rewrite run_bind, res_fill by exact Hp. unfold lift at 1.
    rewrite run_bind, res_hash by exact Hp. unfold lift at 1. rewrite run_bind, Ei. reflexivity. }
  destruct (Z.eqb_spec (tb_type t) POF_LPM_TABLE) as [Ty|Ty].
  - destruct (Wt Ty) as [Hk Hl]. destruct (Hi Ty) as [He Hf].
    destruct (lpm_insert_ok t es' p en e Hk Hl (proj1 Q) He Hf Hpe Oe) as (ret & t' & El & Hl' & Es).
    rewrite run_bind, El in Run'. exists t', p. split; [exact Run'|]. split; [exact Hpe|].
    assert (tb_entries t' = es') as Ee by (rewrite Es; reflexivity).
    split; [unfold entries; rewrite Ee; exact Oe|]. split; [split; [now rewrite Ee|]|].
    + intros _. split; [rewrite Es; exact Hk|exact Hl'].
    + split; [rewrite Ee; exact Es|]. unfold tb_size. rewrite Ee. exact Me.
  - exists (set_entries es' t), p. split; [exact Run'|]. split; [exact Hpe|]. split; [exact Oe|].
    split; [split; [exact Oke|intros H; now destruct Ty]|]. split; [reflexivity|exact Me].
Qed.

Lemma lpm_delete_ok t es p en : 1 <= tb_keyLen t <= 1024 -> lpm_ok t ->
  entries t !! p = Some en -> objects es = delete p (entries t) ->
  exists ret t', lpmDelete en (set_entries es t) = Some (ret, t') /\ lpm_ok t' /\
    t' = set_tree (tb_tree t') (set_entries es t).
Proof.
  intros Hk (tr & Et & Hr & Hd & Hall & Hptr) Hp Ho. pose proof (Hall _ _ Hp) as He.
  destruct (lpm_key_ok t en Hk He) as (v & Ev & Bv & Lv & Hb & Pv).
  pose proof He as (_ & _ & _ & _ & Lp).
  destruct (delete_loop_ok (Z.to_nat (prefix_len t en)) true (root tr) v Hr Bv ltac:(lia) ltac:(lia))
    as (ret & r' & Ei & Hr' & Hd' & Hcase). rewrite Z2Nat.id, Pv in Hcase by lia.
  assert (tree_ptr (root tr) (prefix_of t en) = Some p) as Hin by (apply Hptr; eauto).
  destruct Hcase as [[-> Hq]|(_ & _ & Hx)]; [|congruence].
  exists POF_OK, (set_tree (Some (mkTree r' (u32 (count tr - 1)))) (set_entries es t)).
  split; [|split; [|reflexivity]].
  - unfold lpmDelete. change (lpm_key en (set_entries es t)) with (lpm_key en t).
    rewrite Ev. cbn [mbind option_bind tb_tree set_entries]. rewrite Et. cbn [mbind option_bind].
    unfold tree_nodeDelete. rewrite Ei. reflexivity.
  - eexists. split; [reflexivity|]. cbn [root tb_keyLen set_tree set_entries]. split; [auto|]. split; [lia|].
    change (entries (set_tree _ (set_entries es t))) with (objects es). rewrite Ho. split.
    { intros p0 en0 [_ E0]%lookup_delete_Some. exact (Hall _ _ E0). }
    intros q p0. rewrite Hq. split.
    + destruct (decide (q = prefix_of t en)) as [Hc|Hc]; [done|].
      intros (en0 & E0 & ->)%Hptr. exists en0. rewrite lookup_delete_ne by congruence. auto.
    + intros (en0 & [Hne E0]%lookup_delete_Some & ->).
      assert (tree_ptr (root tr) (prefix_of t en0) = Some p0) as H0 by (apply Hptr; eauto).
      change (prefix_of (set_tree _ (set_entries es t)) en0) with (prefix_of t en0).
      rewrite decide_False by congruence. exact H0.
Qed.

Lemma entryDelete_repr p t en m cs : table_wf t -> entries_repr (tb_entries t) m cs -> entries t !! p = Some en ->
  exists t' m' cs', entryDelete p t = Some t' /\ entries t' = delete p (entries t) /\ table_wf t' /\ same_table t t' /\
    entries_repr (tb_entries t') m' cs' /\ exists l1 l2, concat cs = l1 ++ p :: l2 /\ concat cs' = l1 ++ l2.
Proof.
  intros [We Wt] R Hp. pose proof Hp as (c & Hc & Ec)%entries_lookup.
  destruct (entries_delete _ m cs p c R Hc) as (h & m' & cs' & Ed & R' & Oe & Hord).
  pose proof (er_map _ _ _ R) as Em.
  assert (entries_ok (Res (delete p h) (Some m') (u32 (r_num (tb_entries t) - 1)) (r_max (tb_entries t)))) as Oke by (exists m', cs'; exact R').
  set (es' := Res (delete p h) _ _ _) in *.
  unfold entryDelete. rewrite Em. cbn [mbind option_bind]. unfold res_load. rewrite Hc, Ed. cbn [mbind option_bind].
  rewrite Ec. cbv zeta. cbn [tb_type set_entries].
  destruct (Z.eqb_spec (tb_type t) POF_LPM_TABLE) as [Ty|Ty].
  - destruct (Wt Ty) as [Hk Hl].
    destruct (lpm_delete_ok t es' p en Hk Hl Hp Oe) as (ret & t' & El & Hl' & Es).
    assert (exists t1, lpmDelete en (set_entries (Res h (Some m') (u32 (r_num (tb_entries t) - 1)) (r_max (tb_entries t))) t)
      = Some (ret, t1) /\ tb_tree t1 = tb_tree t' /\ t1 = set_tree (tb_tree t1)
          (set_entries (Res h (Some m') (u32 (r_num (tb_entries t) - 1)) (r_max (tb_entries t))) t)) as (t1 & E1 & Tt & Es1).
    { unfold lpmDelete in El |- *. change (lpm_key en (set_entries _ t)) with (lpm_key en t) in El |- *.
      destruct (lpm_key en t) as [[v b]|]; [|discriminate]. cbn [mbind option_bind tb_tree set_entries] in El |- *.
      destruct (tb_tree t) as [tr|]; [|discriminate]. cbn [mbind option_bind] in El |- *.
      destruct (tree_nodeDelete tr v b) as [[r tr']|]; [|discriminate]. cbn in El |- *.
      injection El as <- <-. eexists. split; [reflexivity|]. split; reflexivity. }
    rewrite E1. cbn [mbind option_bind].
    assert (set_entries (with_heap (tb_entries t1) (delete p (r_heap (tb_entries t1)))) t1 = t') as ->
      by (rewrite Es, Es1, Tt; reflexivity).
    exists t', m', cs'. split; [done|]. assert (tb_entries t' = es') as Ee by (rewrite Es; reflexivity).
    split; [unfold entries; rewrite Ee; exact Oe|]. split; [split; [now rewrite Ee|]|].
    + intros _. split; [rewrite Es; exact Hk|exact Hl'].
    + split; [split; [rewrite Ee; exact Es|unfold tb_size; now rewrite Ee]|]. rewrite Ee. split; [exact R'|exact Hord].
  - cbn [mbind option_bind]. exists (set_entries es' t), m', cs'. split; [reflexivity|]. split; [exact Oe|].
    split; [split; [exact Oke|intros H; now destruct Ty]|]. split; [split; reflexivity|]. split; [exact R'|exact Hord].
Qed.

Lemma entryDelete_ok p t en : table_wf t -> entries t !! p = Some en ->
  exists t', entryDelete p t = Some t' /\ entries t' = delete p (entries t) /\ table_wf t' /\ same_table t t'.
Proof.
  intros W Hp. destruct (proj1 W) as (m & cs & R).
  destruct (entryDelete_repr p t en m cs W R Hp) as (t' & _ & _ & E & Ee & W' & Sm & _). eauto.
Qed.

(** Emptying a table. *)
Lemma same_table_refl t : same_table t t.
Proof. split; [now destruct t|done]. Qed.

Lemma same_table_trans t1 t2 t3 : same_table t1 t2 -> same_table t2 t3 -> same_table t1 t3.
Proof. intros [E1 S1] [E2 S2]. split; [|congruence]. rewrite E2, E1. reflexivity. Qed.

Lemma empty_entries_ok t e : table_wf t ->
  exists t', empty_entries t e = Some (t', e) /\ entries t' = ∅ /\ table_wf t' /\ same_table t t'.
Proof.
  intros W. destruct (proj1 W) as (m & cs & R). unfold empty_entries. rewrite run_bind.
  destruct (traverse_deletes (Res := Empty_set) (fun t => res_hm (tb_entries t))
    (fun p t => t ← lift (entryDelete p t); mret (inr t))
    (fun t' cs => table_wf t' /\ same_table t t' /\ exists m, entries_repr (tb_entries t') m cs) e)
    with (s := t) (cs := cs) as (t2 & cs2 & E & (W2 & Sm2 & m2 & R2) & Ec).
  - intros t1 cs1 (_ & _ & m1 & R1). exists (r_heap (tb_entries t1)), m1. split; [|apply R1].
    unfold res_hm. now rewrite (er_map _ _ _ R1).
  - intros t1 cs1 p l (W1 & Sm1 & m1 & R1) Ec.
    destruct (rep_in _ _ _ p (er_rep _ _ _ R1)) as [c Hp]; [rewrite Ec; left|].
    destruct (entryDelete_repr p t1 (c_obj c) m1 cs1 W1 R1) as (t2 & m2 & cs2 & E & _ & W2 & Sm2 & R2 & l1 & l2 & E1 & E2);
      [apply entries_lookup; eauto|].
    assert (l1 = [] /\ l2 = l) as [-> ->].
    { pose proof (rep_nodup _ _ _ (er_rep _ _ _ R1)) as Nd. rewrite E1 in Nd, Ec.
      destruct (split_nodup l1 l2 [] l p Nd Ec) as [-> ->]. done. }
    exists t2, cs2. rewrite run_bind, E. split; [reflexivity|]. split; [|exact E2].
    split; [done|]. split; [eapply same_table_trans; eauto|eauto].
  - split; [exact W|]. split; [apply same_table_refl|eauto].
  - rewrite E. exists t2. split; [reflexivity|]. split; [|split; [exact W2|exact Sm2]].
    apply map_empty. intros q. destruct (entries t2 !! q) as [en|] eqn:Hq; [|done].
    apply entries_lookup in Hq as (c & Hc & _).
    assert (q ∈ concat cs2) as Hq' by (eapply er_live; eauto). rewrite Ec in Hq'. now apply elem_of_nil in Hq'.
Qed.

(** ** Lookup *)

(** The traversal for an index finds an entry that has it. *)
Lemma get_with_index_ok index t e : entries_ok (tb_entries t) ->
  exists o, poflr_entry_get_with_index index t e = Some (o, e) /\
    match o with
    | Some p => exists en, entries t !! p = Some en /\ en_index en = index
    | None => forall p en, entries t !! p = Some en -> en_index en <> index
    end.
Proof.
  intros (m & cs & R). unfold poflr_entry_get_with_index.
  assert (res_hm (tb_entries t) = Some (r_heap (tb_entries t), m)) as Hm
    by (unfold res_hm; now rewrite (er_map _ _ _ R)).
  rewrite run_bind, traverse_fold with (h := r_heap (tb_entries t)) (m := m) (cs := cs);
    [|exact Hm|intros; exact Hm|exact (er_rep _ _ _ R)].
  set (body := fun p (_ : unit) => _).
  assert (forall l, (forall p, p ∈ l -> is_Some (entries t !! p)) ->
    exists r, fold_body body l tt e = Some (r, e) /\
      match r with
      | inl o => exists p en, o = Some p /\ entries t !! p = Some en /\ en_index en = index
      | inr _ => forall p en, p ∈ l -> entries t !! p = Some en -> en_index en <> index
      end) as H.
  { induction l as [|p l IH]; intros Hl; cbn [fold_body].
    - exists (inr tt). split; [done|]. now intros p en ?%elem_of_nil.
    - destruct (Hl p) as [en Hp]; [left|]. pose proof Hp as (c & Hc & Ec)%entries_lookup.
      rewrite run_bind. unfold body at 1. rewrite run_bind. unfold res_load. rewrite Hc.
      cbn [mbind option_bind]. unfold lift at 1. rewrite Ec.
      destruct (Z.eqb_spec (en_index en) index) as [Ei|Ei]; unfold mret at 1, St_ret; cbv beta iota.
      + exists (inl (Some p)). split; [done|]. eauto.
      + destruct IH as (r & E & Hr); [intros; apply Hl; now right|]. exists r. split; [exact E|].
        destruct r; [done|]. intros q en' [->|Hq]%elem_of_cons Hen; [congruence|eauto]. }
  destruct (H (concat cs)) as (r & E & Hr).
  { intros p Hp. destruct (rep_in _ _ _ _ (er_rep _ _ _ R) Hp) as [c Hc]. exists (c_obj c).
    apply entries_lookup. eauto. }
  rewrite E. destruct r as [o|u]; unfold mret, St_ret.
  - exists o. split; [done|]. destruct Hr as (p & en & -> & ?). eauto.
  - exists None. split; [done|]. intros p en Hp. apply (Hr p en); [|done].
    apply (er_live _ _ _ R). pose proof Hp as (c & Hc & _)%entries_lookup. eauto.
Qed.
