(* ===== verification/FlowOps.v ===== *)
(** * The flow-mod handlers against an abstract step relation

    The three flow-mod handlers of FlowTable.v, run on a slot whose tables are
    well-formed, are steps of [flow_step] on the entries of one table and the
    counters of the slot; a slot whose tables are well-formed stays so. *)

From S2P Require Import Prelude Bits Codec Env Hmap IdMap Tree LocalRes ByteTransfer Counter FlowEntry FlowTable FlowSpec.

Implicit Types (lr : pof_local_resource) (t : tableInfo) (fe : pof_flow_entry).

(** ** Abstract machine *)

Inductive flow_op := FAdd | FModify | FDelete.

Definition flow_run (op : flow_op) fe : pof_local_resource -> St (Z * pof_local_resource) :=
  match op with
  | FAdd => poflr_add_flow_entry fe
  | FModify => poflr_modify_flow_entry fe
  | FDelete => poflr_delete_flow_entry fe
  end.

(** The table a message is for, or why it is refused. *)
Definition flow_target lr fe : outcome (Z * tableInfo) :=
  if POF_MAX_TABLE_TYPE <=? fe_table_type fe then Refuse POFET_FLOW_MOD_FAILED POFFMFC_BAD_TABLE_TYPE
  else match tableNumMaxEachType lr !! Z.to_nat (fe_table_type fe), poflr_table_id_to_ID (fe_table_type fe) (fe_table_id fe) lr with
  | Some numMax, Some ID =>
      if numMax <=? fe_table_id fe then Refuse POFET_FLOW_MOD_FAILED POFFMFC_BAD_TABLE_ID
      else match contents (lr_tables lr) !! ID with
      | None => Refuse POFET_FLOW_MOD_FAILED POFFMFC_BAD_TABLE_ID
      | Some t => if tb_size t <=? fe_index fe then Refuse POFET_FLOW_MOD_FAILED POFFMFC_BAD_ENTRY_ID
                  else Done (ID, t)
      end
  | _, _ => Fault
  end.

(** [en] is the entry the message [fe] makes in a table like [t]. *)
Definition fills fe t (en : entryInfo) : Prop :=
  exists hash, 0 <= hash /\ forall e, entryFill fe entry_zero 0 t e = Some ((POF_OK, (en, hash)), e).

(** Nor can an entry be made of a message whose fields, put one after the
    other, are not as long as the key of the table. *)
Definition misfits fe t : Prop :=
  tb_type t ∈ [POF_MM_TABLE; POF_LPM_TABLE; POF_EM_TABLE] /\ exists r, assemble_loop (Z.to_nat (fe_match_field_num fe)) (fe_match fe) (en_value entry_zero)
    (if tb_type t =? POF_EM_TABLE then None else Some (en_mask entry_zero)) 0 = Some r /\ r.2 <> tb_keyLen t.
Definition bad_fields : list (ecode * ecode) :=
  [(POFET_TABLE_MOD_FAILED, POFTMFC_BAD_KEY_LEN); (POFET_FLOW_MOD_FAILED, POFFMFC_UNKNOWN)].

(** The state a flow-mod message changes. *)
Definition flow_state : Type := (gmap addr entryInfo * gmap Z counterInfo).

(** A step: the state before, the errors reported, the state after. *)
Inductive flow_step (cmax : Z) t fe : flow_op -> flow_state -> list (ecode * ecode) -> flow_state -> Prop :=
  | add_counted es cs cs' p en :
      fills fe t en -> es !! p = None -> counter_step cmax cs (CInit (fe_counter_id fe)) = Done cs' ->
      flow_step cmax t fe FAdd (es, cs) [] (<[p := en]> es, cs')
  | add_uncounted es cs p en type code :
      fills fe t en -> es !! p = None ->
      counter_step cmax cs (CInit (fe_counter_id fe)) = Refuse type code ->
      flow_step cmax t fe FAdd (es, cs) [(type, code)] (<[p := en]> es, cs)
  | add_unfilled es cs :
      misfits fe t -> flow_step cmax t fe FAdd (es, cs) bad_fields (es, cs)
  | absent op es cs :
      op <> FAdd -> (forall p en, es !! p = Some en -> en_index en <> fe_index fe) ->
      flow_step cmax t fe op (es, cs) [(POFET_FLOW_MOD_FAILED, POFFMFC_ENTRY_UNEXIST)] (es, cs)
  | modified es cs cs' p q old en :
      fills fe t en -> es !! p = Some old -> en_index old = fe_index fe -> delete p es !! q = None ->
      (if en_counter_id old =? fe_counter_id fe then cs' = cs
       else counter_step cmax cs (CInit (fe_counter_id fe)) = Done cs') ->
      flow_step cmax t fe FModify (es, cs) [] (<[q := en]> (delete p es), cs')
  | modify_unfilled es cs cs' p old :
      misfits fe t -> es !! p = Some old -> en_index old = fe_index fe ->
      (if en_counter_id old =? fe_counter_id fe then cs' = cs
       else counter_step cmax cs (CInit (fe_counter_id fe)) = Done cs') ->
      flow_step cmax t fe FModify (es, cs) bad_fields (delete p es, cs')
  | modify_uncounted es cs p old type code :
      es !! p = Some old -> en_index old = fe_index fe -> en_counter_id old <> fe_counter_id fe ->
      counter_step cmax cs (CInit (fe_counter_id fe)) = Refuse type code ->
      flow_step cmax t fe FModify (es, cs) [(type, code)] (es, cs)
  | deleted es cs cs' p old :
      es !! p = Some old -> en_index old = fe_index fe ->
      counter_step cmax cs (CDelete (en_counter_id old)) = Done cs' ->
      flow_step cmax t fe FDelete (es, cs) [] (delete p es, cs')
  | delete_uncounted es cs p old type code :
      es !! p = Some old -> en_index old = fe_index fe ->
      counter_step cmax cs (CDelete (en_counter_id old)) = Refuse type code ->
      flow_step cmax t fe FDelete (es, cs) [(type, code)] (es, cs).

(** ** Well-formed slots *)

Record slot_ok lr : Prop := {
  sl_tables : res_ok (lr_tables lr);
  sl_wf : forall ID t, contents (lr_tables lr) !! ID = Some t -> table_wf t;
  sl_counters : res_ok (lr_counters lr);
  sl_types : length (tableNumMaxEachType lr) = 4%nat;
  sl_keys : length (poflr_key_len_each_type lr) = 4%nat;
  sl_counts : Forall (fun x => 0 <= x) (tableNumMaxEachType lr);
  sl_cids : forall ID t p en, contents (lr_tables lr) !! ID = Some t -> entries t !! p = Some en ->
    0 <= en_counter_id en
}.

(** Table [ID] of [lr] became [t'] and the counters [cs']; nothing else changed. *)
Definition flow_done lr lr' (ID : Z) t (s : flow_state) : Prop :=
  slot_ok lr' /\ exists t', contents (lr_tables lr') = <[ID := t']> (contents (lr_tables lr)) /\
    entries t' = s.1 /\ same_table t t' /\ contents (lr_counters lr') = s.2 /\
    r_max (lr_counters lr') = r_max (lr_counters lr) /\
    lr' = set_tables (lr_tables lr') (set_counters (lr_counters lr') lr).

(** The message is for a table it can be tried on: its fields do not fit the
    key, or its entry can be filled and, in an LPM table, its mask is not longer
    than the key and its prefix is not taken by another entry. *)
Definition acceptable (op : flow_op) fe t : Prop :=
  op = FDelete \/ misfits fe t \/ exists en, fills fe t en /\
    match op with
    | FAdd => insertable t (entries t) en
    | _ => forall p old, entries t !! p = Some old -> en_index old = fe_index fe ->
             insertable t (delete p (entries t)) en
    end.

(** ** Lemmas *)

Lemma id_base_total maxs : forall n ID, (n <= length maxs)%nat -> exists b, id_base maxs n ID = Some b.
Proof.
  induction maxs as [|x maxs IH]; intros [|n] ID Hn; cbn [id_base length] in *; eauto; [lia|]. apply IH. lia.
Qed.

Lemma table_id_total type id lr : (Z.to_nat type <= length (tableNumMaxEachType lr))%nat ->
  exists ID, poflr_table_id_to_ID type id lr = Some ID /\ 0 <= ID.
Proof.
  intros H. destruct (id_base_total _ _ 0 H) as [b E]. unfold poflr_table_id_to_ID. rewrite E.
  eexists. split; [reflexivity|]. unfold u8. apply Z.mod_pos_bound. lia.
Qed.

Lemma table_found lr ID : res_ok (lr_tables lr) -> 0 <= ID ->
  exists o, poflr_get_table_with_ID ID lr = Some o /\
    match o with
    | Some p => exists c, r_heap (lr_tables lr) !! p = Some c /\ tb_id (c_obj c) = ID /\
                          contents (lr_tables lr) !! ID = Some (c_obj c)
    | None => contents (lr_tables lr) !! ID = None
    end.
Proof.
  intros Hr Hi. destruct (res_get_ok (lr_tables lr) ID Hr Hi) as (o & E & Ho).
  exists o. split; [exact E|]. destruct o; [|done]. destruct Ho as (c & ? & _ & ? & ?). eauto.
Qed.

(** The guards every flow-mod handler starts with. *)
Lemma flow_guards lr e fe k : slot_ok lr -> env_ok e -> quiet e ->
  match flow_target lr fe with
  | Refuse type code => exists e', with_flow_table fe lr k e = Some ((err_ret code, lr), e') /\ refused type code e e'
  | Done (ID, t) => contents (lr_tables lr) !! ID = Some t /\ exists p c, r_heap (lr_tables lr) !! p = Some c /\
      c_obj c = t /\ tb_id t = ID /\ with_flow_table fe lr k e = k p t e
  | Fault => False
  end.
Proof.
  intros S Ok Q. unfold flow_target, with_flow_table.
  assert (forall type code, ecode_ok code ->
    exists e', ret_err type code recv_xid lr e = Some ((err_ret code, lr), e') /\ refused type code e e') as Href.
  { intros type code Hc. destruct (ret_err_recv e type code lr Ok Q Hc) as (e' & E & R).
    exists e'. split; [exact E|]. eexists. exact R. }
  destruct (Z.leb_spec POF_MAX_TABLE_TYPE (fe_table_type fe)) as [|Ht]; [now apply Href; by_decide|].
  change POF_MAX_TABLE_TYPE with 4 in Ht. pose proof (sl_types _ S) as L4.
  destruct (lookup_lt_is_Some_2 (tableNumMaxEachType lr) (Z.to_nat (fe_table_type fe))) as [mx Em]; [lia|].
  destruct (table_id_total (fe_table_type fe) (fe_table_id fe) lr) as (ID & Ei & Hi); [lia|].
  destruct (table_found lr ID (sl_tables _ S) Hi) as (o & Eo & Ho).
  rewrite run_bind, Em, Ei. cbn [lift mret option_ret]. cbv beta iota.
  destruct (_ <=? _); [now apply Href; by_decide|]. rewrite run_bind. cbn [lift].
  rewrite run_bind, Eo. cbn [lift].
  destruct o as [p|]; [|rewrite Ho; now apply Href; by_decide].
  destruct Ho as (c & Hp & Hid & Hc). rewrite Hc, run_bind. unfold load_table, res_load. rewrite Hp.
  cbn [mbind option_bind lift].
  destruct (_ <=? _); [now apply Href; by_decide|]. split; [done|]. exists p, c. auto.
Qed.

(** [entryFill] copies the counter and the index of the message. *)
Lemma fills_copies fe t en : fills fe t en ->
  en_counter_id en = fe_counter_id fe /\ en_index en = fe_index fe.
Proof.
  intros (hash & _ & E). specialize (E (env_init POFCS_CHANNEL_RUN [] [])). unfold entryFill in E.
  destruct (_ || _); [|destruct (_ =? _); [|destruct (_ =? _)]].
  1-2: rewrite run_bind in E; destruct (valueMaskAssemble _ _ _ _ _ _) as [[[ret [v mk]] e']|]; [|discriminate];
       destruct (negb (ret =? POF_OK)); [discriminate|].
  2: rewrite run_bind in E; destruct (entryHashByValue _ _); [|discriminate].
  all: unfold mret, St_ret, lift in E; injection E as <- _; try (intros; now subst); done.
Qed.

(** The table is written back on a resource whose counters may have changed. *)
Lemma flow_finish lr lr1 p c t' cs : slot_ok lr -> r_heap (lr_tables lr) !! p = Some c ->
  table_wf t' -> same_table (c_obj c) t' -> (forall q en, entries t' !! q = Some en -> 0 <= en_counter_id en) ->
  done_with lr lr1 cs ->
  exists lr2, store_table p t' lr1 = Some lr2 /\ flow_done lr lr2 (tb_id (c_obj c)) (c_obj c) (entries t', cs).
Proof.
  intros S Hp W Sm Hc (Okc & Cc & Mc & El).
  assert (lr_tables lr1 = lr_tables lr) as Et by (rewrite El; reflexivity).
  assert (tb_id t' = tb_id (c_obj c)) as Ei by (destruct Sm as [-> _]; reflexivity).
  destruct (res_store_ok (lr_tables lr) p c t' (sl_tables _ S) Hp Ei) as (ts & Es & Okt & Ct & Mt & _).
  change (res_id t') with (tb_id t') in Ct. rewrite Ei in Ct.
  exists (set_tables ts lr1). unfold store_table. rewrite Et, Es. split; [reflexivity|]. split.
  - constructor; cbn [set_tables lr_tables lr_counters tableNumMaxEachType]; auto.
    + rewrite Ct. intros ID t [[<- <-]|[_ H]]%lookup_insert_Some; [done|eapply sl_wf; eauto].
    + rewrite El. exact (sl_types _ S).
    + rewrite El. exact (sl_keys _ S).
    + rewrite El. exact (sl_counts _ S).
    + rewrite Ct. intros ID t q en [[<- <-]|[_ H]]%lookup_insert_Some; [apply Hc|eapply (sl_cids _ S); eauto].
  - exists t'. cbn [fst snd set_tables lr_tables lr_counters]. repeat split; auto; [apply Sm|apply Sm|].
    rewrite El. reflexivity.
Qed.

Lemma flow_recount lr lr2 lr3 ID t es cs cs' : flow_done lr lr2 ID t (es, cs) -> done_with lr2 lr3 cs' ->
  flow_done lr lr3 ID t (es, cs').
Proof.
  intros (S & t' & Ct & Ee & Sm & _ & Mc & El) (Okc & Cc & Mc' & El').
  assert (lr_tables lr3 = lr_tables lr2) as Et by (rewrite El'; reflexivity).
  split.
  - destruct S. constructor; rewrite ?Et; auto; rewrite El'; auto.
  - exists t'. rewrite Et. split; [done|]. split; [done|]. split; [done|]. split; [done|].
    split; [congruence|]. rewrite El' at 1. rewrite El at 1. reflexivity.
Qed.

(** Inserting the filled entry of a message. *)
Lemma flow_inserts fe t en e : table_wf t -> quiet e -> fills fe t en -> insertable t (entries t) en ->
  exists t' p, entryInsert fe t e = Some ((POF_OK, t'), e) /\ entries t !! p = None /\
    entries t' = <[p := en]> (entries t) /\ table_wf t' /\ same_table t t'.
Proof. intros W Q (hash & Hh & E) Hi. exact (entryInsert_ok fe t en hash e W Q Hh (E e) Hi). Qed.

(** A message whose fields do not fit: the table stays and two errors are
    told, the second by the handler. *)
Lemma flow_unfilled fe t e lr : env_ok e -> quiet e -> misfits fe t ->
  exists e1 e', entryInsert fe t e = Some ((POF_ERROR, t), e1) /\
    ret_err POFET_FLOW_MOD_FAILED POFFMFC_UNKNOWN recv_xid lr e1 = Some ((err_ret POFFMFC_UNKNOWN, lr), e') /\
    told bad_fields e e'.
Proof.
  intros Ok Q (Ty & [[v mk] o] & Ea & Ho). cbn [snd] in Ho.
  destruct (upward_then (fun ret => mret (ret, (v, mk))) e POFET_TABLE_MOD_FAILED POFTMFC_BAD_KEY_LEN Ok Q ltac:(by_decide))
    as (e0 & E0 & R0).
  assert (valueMaskAssemble (fe_match fe) (fe_match_field_num fe) (en_value entry_zero)
    (if tb_type t =? POF_EM_TABLE then None else Some (en_mask entry_zero)) (tb_keyLen t) e =
    Some ((err_ret POFTMFC_BAD_KEY_LEN, (v, mk)), e0)) as Ev.
  { unfold valueMaskAssemble. rewrite run_bind, Ea. cbn [lift]. rewrite (proj2 (Z.eqb_neq _ _)) by exact Ho. exact E0. }
  assert (exists en, entryFill fe entry_zero 0 t e = Some ((1, (en, 0)), e0)) as (en & Ef).
  { unfold entryFill. repeat (apply elem_of_cons in Ty as [Ty|Ty]); [..|now apply elem_of_nil in Ty]; rewrite Ty in Ev |- *;
      cbn [orb Z.eqb Pos.eqb POF_MM_TABLE POF_LPM_TABLE POF_EM_TABLE] in Ev |- *; eexists; rewrite run_bind;
      (match type of Ev with ?l = _ => match goal with |- context [match ?x with _ => _ end] => change x with l end end);
      rewrite Ev, (proj2 (Z.eqb_neq _ POF_OK)) by apply err_ret_nonzero; reflexivity. }
  set (e1 := set_error POFET_TABLE_MOD_FAILED POFTMFC_UNKNOWN e0).
  pose proof (proj1 R0) as Rp. pose proof (rp_ok _ _ Rp) as Ok0. pose proof (quiet_reported _ _ Q Rp) as Q0.
  destruct (ret_err_recv e1 POFET_FLOW_MOD_FAILED POFFMFC_UNKNOWN lr (rp_ok _ _ (reported_set_error _ _ _ Ok0)) Q0 ltac:(by_decide))
    as (e' & E' & R').
  exists e1, e'. split; [|split; [exact E'|]].
  - unfold entryInsert. rewrite run_bind. unfold res_create. rewrite run_bind. unfold malloc. rewrite (proj1 Q).
    cbn [negb]. unfold mret at 1, St_ret. cbv beta iota zeta. set (p := fresh_addr (r_heap (tb_entries t))).
    rewrite run_bind. unfold res_load. cbn [r_heap with_heap]. rewrite lookup_insert_eq. cbn [mbind option_bind c_obj lift].
    rewrite run_bind, Ef.
    change (negb (1 =? POF_OK)) with true. cbv iota. rewrite run_bind. unfold pofec_set_error at 1, mod_env at 1.
    unfold mret at 1, St_ret. cbv beta iota. rewrite delete_insert_id by apply fresh_addr_spec.
    now destruct t, tb_entries.
  - eapply told_more; [eexists; exact R0|]. apply told_one. eexists. eapply reports_set_error; [exact Ok0|exact R'].
Qed.

Lemma same_table_prefix t t' en : same_table t t' -> prefix_of t' en = prefix_of t en.
Proof. intros [-> _]. reflexivity. Qed.

Lemma same_table_misfits fe t t' : same_table t t' -> misfits fe t -> misfits fe t'.
Proof. intros [-> _] H. exact H. Qed.

Lemma same_table_fills fe t t' en : same_table t t' -> fills fe t en -> fills fe t' en.
Proof. intros [-> _] (hash & Hh & E). exists hash. split; [done|]. exact E. Qed.

Lemma same_table_insertable t t' es en : same_table t t' -> insertable t es en -> insertable t' es en.
Proof.
  intros Sm H Ty. assert (tb_type t' = tb_type t) as Et by (destruct Sm as [-> _]; reflexivity).
  destruct H as [He Hf]; [congruence|]. split.
  - destruct Sm as [-> _]. exact He.
  - intros q en' Hq. rewrite !(same_table_prefix _ _ _ Sm). eauto.
Qed.

(** What a run of a handler on table [t] with id [ID] did. *)
Definition result_code (r : list (ecode * ecode)) : Z :=
  match last r with None => POF_OK | Some (_, code) => err_ret code end.

Definition flow_meets (op : flow_op) fe lr ID t e (out : option (Z * pof_local_resource * env)) : Prop :=
  exists r lr' e' s',
    flow_step (r_max (lr_counters lr)) t fe op (entries t, contents (lr_counters lr)) r s' /\
    out = Some ((result_code r, lr'), e') /\ told r e e' /\ flow_done lr lr' ID t s'.

Lemma set_nothing lr : set_tables (lr_tables lr) (set_counters (lr_counters lr) lr) = lr.
Proof. now destruct lr. Qed.

Section handlers.
Context (lr : pof_local_resource) (e : env) (fe : pof_flow_entry) (p : addr) (c : cell tableInfo).
Hypothesis S : slot_ok lr.
Hypothesis Ok : env_ok e.
Hypothesis Q : quiet e.
Hypothesis Hp : r_heap (lr_tables lr) !! p = Some c.
Hypothesis Hc : contents (lr_tables lr) !! tb_id (c_obj c) = Some (c_obj c).
Hypothesis Hcid : 0 <= fe_counter_id fe.

Let t := c_obj c.

Lemma flow_table_wf : table_wf t.
Proof. exact (sl_wf _ S _ _ Hc). Qed.
Let W := flow_table_wf.

Lemma flow_unchanged : flow_done lr lr (tb_id t) t (entries t, contents (lr_counters lr)).
Proof.
  split; [exact S|]. exists t. cbn [fst snd].
  split; [symmetry; now apply insert_id|]. split; [done|]. split; [apply same_table_refl|].
  repeat (split; [done|]). symmetry. apply set_nothing.
Qed.

Lemma store_same lr1 p1 c1 : r_heap (lr_tables lr1) !! p1 = Some c1 -> store_table p1 (c_obj c1) lr1 = Some lr1.
Proof.
  intros H. unfold store_table, res_store. rewrite H. cbn [mbind option_bind].
  rewrite insert_id by (rewrite H; now destruct c1). destruct lr1 as [? ? ts]. now destruct ts.
Qed.

Lemma flow_add_meets : acceptable FAdd fe t ->
  flow_meets FAdd fe lr (tb_id t) t e
    (('(ret, t) ← entryInsert fe t;
      lr ← lift (store_table p t lr);
      if negb (ret =? POF_OK) then ret_err POFET_FLOW_MOD_FAILED POFFMFC_UNKNOWN recv_xid lr
      else
        '(ret, lr) ← poflr_counter_init (fe_counter_id fe) lr;
        if negb (ret =? POF_OK) then mret (ret, lr) else mret (POF_OK, lr)) e).
Proof.
  intros [?|[Mf|(en & F & Hi)]]; [discriminate| |].
  { destruct (flow_unfilled fe t e lr Ok Q Mf) as (e1 & e' & E & Er & R).
    rewrite run_bind, E, run_bind. pose proof (store_same lr p c Hp) as Es. change (c_obj c) with t in Es. rewrite Es. cbn [lift].
    change (negb (POF_ERROR =? POF_OK)) with true. cbv iota.
    exists bad_fields, lr, e', (entries t, contents (lr_counters lr)).
    split; [now constructor|]. split; [exact Er|]. split; [exact R|apply flow_unchanged]. }
  destruct (flow_inserts fe t en e W Q F Hi) as (t' & q & E & Hq & Ee & W' & Sm).
  destruct (flow_finish lr lr p c t' (contents (lr_counters lr)) S Hp W' Sm) as (lr2 & E2 & D2).
  { intros r en' Hr. rewrite Ee in Hr. apply lookup_insert_Some in Hr as [[_ <-]|[_ Hr]].
    - now rewrite (proj1 (fills_copies _ _ _ F)). - eapply (sl_cids _ S); eauto. }
  { apply done_same, S. }
  rewrite Ee in D2. pose proof D2 as (S2 & _ & _ & _ & _ & C2 & M2 & _). cbn [snd] in C2.
  pose proof (counter_init_meets lr2 e (sl_counters _ S2) Ok Q (fe_counter_id fe) Hcid) as M.
  rewrite C2, M2 in M. rewrite run_bind, E, run_bind, E2. cbn [lift].
  change (POF_OK =? POF_OK) with true. cbn [negb]. rewrite run_bind.
  destruct (counter_step _ _ _) as [|type code|cs] eqn:Es; cbn [counter_meets] in M.
  - unfold counter_step in Es. cbn [counter_id_of] in Es. repeat (case_match; try discriminate).
  - destruct M as (e' & -> & R). rewrite (proj2 (Z.eqb_neq _ _)) by apply err_ret_nonzero.
    exists [(type, code)], lr2, e', (<[q := en]> (entries t), contents (lr_counters lr)).
    split; [econstructor; eauto|]. split; [reflexivity|]. split; [now apply told_one|exact D2].
  - destruct M as (lr3 & -> & D3). exists [], lr3, e, (<[q := en]> (entries t), cs).
    split; [econstructor; eauto|]. split; [reflexivity|]. split; [constructor|].
    eapply flow_recount; eauto.
Qed.

(** The entry a handler looks for by index. *)
Lemma flow_by_index op (k : option addr -> St (Z * pof_local_resource)) : op <> FAdd ->
  k None = ret_err POFET_FLOW_MOD_FAILED POFFMFC_ENTRY_UNEXIST recv_xid lr ->
  (forall q old, entries t !! q = Some old -> en_index old = fe_index fe ->
     flow_meets op fe lr (tb_id t) t e (k (Some q) e)) ->
  flow_meets op fe lr (tb_id t) t e ((found ← poflr_entry_get_with_index (fe_index fe) t; k found) e).
Proof.
  intros Hop Hk Hf. destruct (get_with_index_ok (fe_index fe) t e (proj1 W)) as (o & E & Ho).
  rewrite run_bind, E. destruct o as [q|].
  - destruct Ho as (old & Hq & Hx). now apply (Hf q old).
  - rewrite Hk. destruct (ret_err_recv e POFET_FLOW_MOD_FAILED POFFMFC_ENTRY_UNEXIST lr Ok Q ltac:(by_decide)) as (e' & Er & R).
    exists [(POFET_FLOW_MOD_FAILED, POFFMFC_ENTRY_UNEXIST)], lr, e', (entries t, contents (lr_counters lr)).
    split; [now constructor|]. split; [exact Er|]. split; [apply told_one; eexists; exact R|apply flow_unchanged].
Qed.

(** Nothing is put in the place of the entry taken out. *)
Lemma flow_loses q old lr1 cs : entries t !! q = Some old -> misfits fe t -> done_with lr lr1 cs ->
  exists lr2 e', (t ← lift (entryDelete q t);
    '(ret, t) ← entryInsert fe t;
    lr ← lift (store_table p t lr1);
    if negb (ret =? POF_OK) then ret_err POFET_FLOW_MOD_FAILED POFFMFC_UNKNOWN recv_xid lr
    else mret (POF_OK, lr)) e = Some ((err_ret POFFMFC_UNKNOWN, lr2), e') /\ told bad_fields e e' /\
    flow_done lr lr2 (tb_id t) t (delete q (entries t), cs).
Proof.
  intros Hq Mf D1. destruct (entryDelete_ok q t old W Hq) as (t1 & E1 & Ee1 & W1 & Sm1).
  destruct (flow_finish lr lr1 p c t1 cs S Hp W1 Sm1) as (lr2 & E2 & D2); [|exact D1|].
  { intros r en' Hr. rewrite Ee1 in Hr. apply lookup_delete_Some in Hr as [_ Hr]. eapply (sl_cids _ S); eauto. }
  destruct (flow_unfilled fe t1 e lr2 Ok Q (same_table_misfits _ _ _ Sm1 Mf)) as (e1 & e' & E & Er & R).
  exists lr2, e'. rewrite run_bind, E1. cbn [lift]. rewrite run_bind, E, run_bind, E2. cbn [lift]. rewrite Ee1 in D2. auto.
Qed.

Lemma flow_delete_meets q old : entries t !! q = Some old -> en_index old = fe_index fe ->
  flow_meets FDelete fe lr (tb_id t) t e
    (('(ret, lr) ← poflr_counter_delete (en_counter_id old) lr;
      if negb (ret =? POF_OK) then mret (ret, lr)
      else t ← lift (entryDelete q t); lr ← lift (store_table p t lr); mret (POF_OK, lr)) e).
Proof.
  intros Hq Hx. pose proof (sl_cids _ S _ _ _ _ Hc Hq) as Hoc.
  pose proof (counter_delete_meets lr e (sl_counters _ S) Ok Q (en_counter_id old) Hoc) as M.
  rewrite run_bind. destruct (counter_step _ _ _) as [|type code|cs] eqn:Es; cbn [counter_meets] in M.
  - unfold counter_step in Es. cbn [counter_id_of] in Es. repeat (case_match; try discriminate).
  - destruct M as (e' & -> & R). rewrite (proj2 (Z.eqb_neq _ _)) by apply err_ret_nonzero.
    exists [(type, code)], lr, e', (entries t, contents (lr_counters lr)).
    split; [now eapply delete_uncounted; eauto|]. split; [reflexivity|]. split; [now apply told_one|apply flow_unchanged].
  - destruct M as (lr1 & -> & D1). change (POF_OK =? POF_OK) with true. cbn [negb].
    destruct (entryDelete_ok q t old W Hq) as (t' & E & Ee & W' & Sm).
    destruct (flow_finish lr lr1 p c t' cs S Hp W' Sm) as (lr2 & E2 & D2); [|exact D1|].
    { intros r en' Hr. rewrite Ee in Hr. apply lookup_delete_Some in Hr as [_ Hr]. eapply (sl_cids _ S); eauto. }
    rewrite run_bind, E. cbn [lift]. rewrite run_bind, E2. cbn [lift]. rewrite Ee in D2.
    exists [], lr2, e, (delete q (entries t), cs). split; [now eapply deleted; eauto|].
    split; [reflexivity|]. split; [constructor|exact D2].
Qed.

(** Replacing an entry once the counters are settled. *)
Lemma flow_replaces q old en lr1 cs : entries t !! q = Some old -> en_index old = fe_index fe ->
  fills fe t en -> insertable t (delete q (entries t)) en -> done_with lr lr1 cs ->
  exists q' lr2, (t ← lift (entryDelete q t);
    '(ret, t) ← entryInsert fe t;
    lr ← lift (store_table p t lr1);
    if negb (ret =? POF_OK) then ret_err POFET_FLOW_MOD_FAILED POFFMFC_UNKNOWN recv_xid lr
    else mret (POF_OK, lr)) e = Some ((POF_OK, lr2), e) /\ delete q (entries t) !! q' = None /\
    flow_done lr lr2 (tb_id t) t (<[q' := en]> (delete q (entries t)), cs).
Proof.
  intros Hq Hx F Hi D1. destruct (entryDelete_ok q t old W Hq) as (t1 & E1 & Ee1 & W1 & Sm1).
  destruct (flow_inserts fe t1 en e W1 Q (same_table_fills _ _ _ _ Sm1 F)) as (t2 & q' & E2 & Hq' & Ee2 & W2 & Sm2).
  { rewrite Ee1. eapply same_table_insertable; eauto. }
  rewrite Ee1 in Hq', Ee2.
  destruct (flow_finish lr lr1 p c t2 cs S Hp W2 (same_table_trans _ _ _ Sm1 Sm2)) as (lr2 & E3 & D2); [|exact D1|].
  { intros r en' Hr. rewrite Ee2 in Hr. apply lookup_insert_Some in Hr as [[_ <-]|[_ Hr]].
    - now rewrite (proj1 (fills_copies _ _ _ F)).
    - apply lookup_delete_Some in Hr as [_ Hr]. eapply (sl_cids _ S); eauto. }
  exists q', lr2. rewrite run_bind, E1. cbn [lift]. rewrite run_bind, E2, run_bind, E3. cbn [lift].
  rewrite Ee2 in D2. auto.
Qed.

Lemma flow_modify_meets q old : acceptable FModify fe t ->
  entries t !! q = Some old -> en_index old = fe_index fe ->
  flow_meets FModify fe lr (tb_id t) t e
    (('(ret, lr) ← (if negb (en_counter_id old =? fe_counter_id fe)
                    then poflr_counter_init (fe_counter_id fe) lr else mret (POF_OK, lr));
      if negb (ret =? POF_OK) then mret (ret, lr)
      else
        t ← lift (entryDelete q t);
        '(ret, t) ← entryInsert fe t;
        lr ← lift (store_table p t lr);
        if negb (ret =? POF_OK) then ret_err POFET_FLOW_MOD_FAILED POFFMFC_UNKNOWN recv_xid lr
        else mret (POF_OK, lr)) e).
Proof.
  intros Ha Hq Hx. rewrite run_bind.
  assert (forall lr1 cs, done_with lr lr1 cs ->
    (if en_counter_id old =? fe_counter_id fe then cs = contents (lr_counters lr)
     else counter_step (r_max (lr_counters lr)) (contents (lr_counters lr)) (CInit (fe_counter_id fe)) = Done cs) ->
    flow_meets FModify fe lr (tb_id t) t e ((t ← lift (entryDelete q t);
      '(ret, t) ← entryInsert fe t;
      lr ← lift (store_table p t lr1);
      if negb (ret =? POF_OK) then ret_err POFET_FLOW_MOD_FAILED POFFMFC_UNKNOWN recv_xid lr
      else mret (POF_OK, lr)) e)) as Rest.
  { intros lr1 cs D1 Hcs. destruct Ha as [?|[Mf|(en & F & Hi)]]; [discriminate| |].
    - destruct (flow_loses q old lr1 cs Hq Mf D1) as (lr2 & e' & E & R & D).
      eexists bad_fields, lr2, e', _. split; [eapply modify_unfilled; eauto|]. split; [exact E|]. split; [exact R|exact D].
    - destruct (flow_replaces q old en lr1 cs Hq Hx F (Hi q old Hq Hx) D1) as (q' & lr2 & E & Hq' & D).
      eexists [], lr2, e, _. split; [eapply modified; eauto|]. split; [exact E|]. split; [constructor|exact D]. }
  destruct (Z.eqb_spec (en_counter_id old) (fe_counter_id fe)) as [Hc'|Hc']; cbn [negb].
  - unfold mret at 1, St_ret. cbv beta iota. change (POF_OK =? POF_OK) with true. cbn [negb].
    apply (Rest lr (contents (lr_counters lr))); [apply done_same, S|reflexivity].
  - pose proof (counter_init_meets lr e (sl_counters _ S) Ok Q (fe_counter_id fe) Hcid) as M.
    destruct (counter_step _ _ _) as [|type code|cs] eqn:Es; cbn [counter_meets] in M.
    + unfold counter_step in Es. cbn [counter_id_of] in Es. repeat (case_match; try discriminate).
    + destruct M as (e' & -> & R). rewrite (proj2 (Z.eqb_neq _ _)) by apply err_ret_nonzero.
      exists [(type, code)], lr, e', (entries t, contents (lr_counters lr)).
      split; [now eapply modify_uncounted; eauto|]. split; [reflexivity|]. split; [now apply told_one|apply flow_unchanged].
    + destruct M as (lr1 & -> & D1). change (POF_OK =? POF_OK) with true. cbn [negb].
      now apply (Rest lr1 cs).
Qed.
End handlers.

(** ** Lookup in an LPM table *)

Lemma longest_prefix_spec path : forall f,
  match longest_prefix f path with
  | Some a => exists q, prefix q path /\ f q = Some a /\
      forall q' a', prefix q' path -> f q' = Some a' -> (length q' <= length q)%nat
  | None => forall q, prefix q path -> f q = None
  end.
Proof.
  induction path as [|b path IH]; intros f; cbn [longest_prefix].
  - assert (forall q : list bool, prefix q [] -> q = []) as Hnil by (intros q; apply prefix_nil_inv).
    destruct (f []) as [a|] eqn:E.
    + exists []. split; [done|]. split; [done|]. intros q' a' H _. now rewrite (Hnil q' H).
    + intros q H. now rewrite (Hnil q H).
  - specialize (IH (fun q => f (b :: q))).
    destruct (longest_prefix _ path) as [a|].
    + destruct IH as (q & Hq & Ef & Hmax). exists (b :: q). split; [now apply prefix_cons|]. split; [done|].
      intros [|x q'] a' Hp Ha; cbn [length]; [lia|].
      pose proof (prefix_cons_inv_1 _ _ _ _ Hp) as ->. apply prefix_cons_inv_2 in Hp.
      pose proof (Hmax q' a' Hp Ha). lia.
    + assert (forall q, prefix q (b :: path) -> q <> [] -> f q = None) as Hn.
      { intros [|x q] Hp Hne; [done|]. pose proof (prefix_cons_inv_1 _ _ _ _ Hp) as ->.
        apply prefix_cons_inv_2 in Hp. now apply IH. }
      destruct (f []) as [a|] eqn:E.
      * exists []. split; [apply prefix_nil|]. split; [done|]. intros q' a' Hp Ha.
        destruct q' as [|x q']; [done|]. rewrite Hn in Ha by done. done.
      * intros [|x q] Hp; [done|]. now apply Hn.
Qed.

(** ** Sequences of flow-mod messages *)

(** The resources a sequence of acceptable messages leads to, each handler
    started in a working environment. *)
Inductive flow_reach lr : pof_local_resource -> Prop :=
  | reach_start : flow_reach lr lr
  | reach_step lr1 op fe e ret lr2 e' :
      flow_reach lr lr1 -> env_ok e -> quiet e -> 0 <= fe_counter_id fe ->
      (forall ID t, flow_target lr1 fe = Done (ID, t) -> acceptable op fe t) ->
      flow_run op fe lr1 e = Some ((ret, lr2), e') -> flow_reach lr lr2.

(** Every entry's index is below the size of its table. *)
Definition indexed lr : Prop := forall ID t p en,
  contents (lr_tables lr) !! ID = Some t -> entries t !! p = Some en -> en_index en < tb_size t.

Lemma flow_step_index cmax t fe op s r s' (P : Z -> Prop) : flow_step cmax t fe op s r s' ->
  P (fe_index fe) -> (forall p en, s.1 !! p = Some en -> P (en_index en)) ->
  forall p en, s'.1 !! p = Some en -> P (en_index en).
Proof.
  intros Hs Hf Hall q en'. destruct Hs; cbn [fst] in *; eauto.
  - intros [[_ <-]|[_ ?]]%lookup_insert_Some; eauto. now rewrite (proj2 (fills_copies _ _ _ H)).
  - intros [[_ <-]|[_ ?]]%lookup_insert_Some; eauto. now rewrite (proj2 (fills_copies _ _ _ H)).
  - intros [[_ <-]|[_ [_ ?]%lookup_delete_Some]]%lookup_insert_Some; eauto.
    now rewrite (proj2 (fills_copies _ _ _ H)).
  - intros [_ ?]%lookup_delete_Some. eauto.
  - intros [_ ?]%lookup_delete_Some. eauto.
Qed.

Lemma flow_run_spec op fe lr e : slot_ok lr -> env_ok e -> quiet e -> 0 <= fe_counter_id fe ->
  match flow_target lr fe with
  | Fault => False
  | Refuse type code => exists e', flow_run op fe lr e = Some ((err_ret code, lr), e') /\ refused type code e e'
  | Done (ID, t) => contents (lr_tables lr) !! ID = Some t /\
      (acceptable op fe t -> flow_meets op fe lr ID t e (flow_run op fe lr e))
  end.
Proof.
  intros S Ok Q Hc.
  destruct op; cbn [flow_run];
    unfold poflr_add_flow_entry, poflr_modify_flow_entry, poflr_delete_flow_entry;
    match goal with |- context [with_flow_table fe lr ?k] => pose proof (flow_guards lr e fe k S Ok Q) as G end;
    (destruct (flow_target lr fe) as [|type code|[ID t]]; [exact G|exact G|]);
    destruct G as (Ht & p & c & Hp & <- & <- & ->); (split; [exact Ht|]); intros Ha.
  - now apply flow_add_meets.
  - apply flow_by_index; try done. intros q old Hq Hx. rewrite run_bind.
    pose proof Hq as (d & Hd & Ed)%entries_lookup. unfold res_load. rewrite Hd.
    cbn [mbind option_bind lift]. rewrite Ed. now apply flow_modify_meets.
  - apply flow_by_index; try done. intros q old Hq Hx. rewrite run_bind.
    pose proof Hq as (d & Hd & Ed)%entries_lookup. unfold res_load. rewrite Hd.
    cbn [mbind option_bind lift]. rewrite Ed. now apply flow_delete_meets.
Qed.

(** The index of a message that passes the guards is in range. *)
Lemma flow_target_index lr fe ID t : flow_target lr fe = Done (ID, t) -> fe_index fe < tb_size t.
Proof.
  unfold flow_target. repeat (case_match; try discriminate). intros [= <- <-].
  now apply Z.leb_gt.
Qed.

(** ** Table ids *)

Definition sum (l : list Z) : Z := foldr Z.add 0 l.

Lemma sum_nonneg l : Forall (fun x => 0 <= x) l -> 0 <= sum l.
Proof. unfold sum. induction 1; cbn; lia. Qed.

Lemma id_base_sum maxs : forall n ID, Forall (fun x => 0 <= x) maxs -> (n <= length maxs)%nat ->
  0 <= ID -> ID + sum maxs < 256 -> id_base maxs n ID = Some (ID + sum (take n maxs)).
Proof.
  induction maxs as [|x maxs IH]; intros [|n] ID Hf Hn Hi Hs; cbn [id_base length take sum foldr] in *;
    try (f_equal; lia); try lia.
  apply Forall_cons in Hf as [Hx Hf]. pose proof (sum_nonneg _ Hf) as H0.
  change (foldr Z.add 0) with sum in *. unfold u8. rewrite Z.mod_small by lia.
  rewrite IH by (auto; lia). f_equal. lia.
Qed.

Lemma id_search_sum maxs : forall n k i id x, Forall (fun x => 0 <= x) maxs -> sum maxs < 256 ->
  maxs !! n = Some x -> 0 <= id < x -> (n < k)%nat ->
  id_search maxs k i (sum (take n maxs) + id) = Some (Some (i + Z.of_nat n, id)).
Proof.
  induction maxs as [|y maxs IH]; intros n k i id x Hf Hs Hn Hi Hk; [done|].
  destruct k as [|k]; [lia|]. apply Forall_cons in Hf as [Hy Hf]. pose proof (sum_nonneg _ Hf) as H0.
  cbn [sum foldr] in Hs. change (foldr Z.add 0) with sum in *. cbn [id_search].
  destruct n as [|n]; cbn [lookup list_lookup] in Hn; cbn [take sum foldr].
  - injection Hn as ->. rewrite (proj2 (Z.leb_gt _ _)) by lia. do 3 f_equal. lia.
  - change (foldr Z.add 0) with sum.
    assert (0 <= sum (take n maxs) /\ sum (take n maxs) + x <= sum maxs) as [H1 H2].
    { clear -Hf Hn. revert n Hn. induction Hf as [|z maxs Hz Hf IH']; intros n Hn; [done|].
      pose proof (sum_nonneg _ Hf). unfold sum in *.
      destruct n; cbn in Hn |- *; [injection Hn as ->; lia|]. specialize (IH' n Hn). lia. }
    rewrite (proj2 (Z.leb_le _ _)) by lia.
    unfold u8. rewrite Z.mod_small by lia.
    replace (y + sum (take n maxs) + id - y) with (sum (take n maxs) + id) by lia.
    rewrite (IH n k (i + 1) id x) by (auto; lia). do 3 f_equal. lia.
Qed.

(** ** Properties *)


(** C35. However many flow-mod messages are handled, the slot stays well-formed
    (hash maps, counts and prefix trees agree with the live entries) and no
    entry has an index beyond the size of its table. *)
Theorem flow_index_bounded lr lr' :
  slot_ok lr -> indexed lr -> flow_reach lr lr' -> slot_ok lr' /\ indexed lr'.
Proof.
  intros S I H. induction H as [|lr1 op fe e ret lr2 e' _ [S1 I1] Ok Q Hc Hacc E]; [done|].
  pose proof (flow_run_spec op fe lr1 e S1 Ok Q Hc) as H.
  destruct (flow_target lr1 fe) as [|type code|[ID t]] eqn:Et; [done| |].
  - destruct H as (e1 & E1 & _). assert (lr2 = lr1) as -> by congruence. done.
  - destruct H as (Ht & H). destruct (H (Hacc _ _ eq_refl)) as (r & lr3 & e3 & s' & Hs & E3 & _ & D).
    assert (lr3 = lr2) as -> by congruence. destruct D as (S2 & t' & Ct & Ee & Sm & _).
    split; [exact S2|]. intros ID0 t0 p en. rewrite Ct. intros [[<- <-]|[_ H0]]%lookup_insert_Some; [|eauto].
    rewrite Ee, (proj2 Sm). eapply (flow_step_index _ _ _ _ _ _ _ (fun i => i < tb_size t) Hs); cbn [fst].
    + eapply flow_target_index; eauto.
    + intros q en0 Hq. eauto.
Qed.

(** C19. A lookup in an LPM table returns an entry whose prefix the packet's key
    starts with and that no other such entry's prefix exceeds in length;
    [NULL] exactly when no entry's prefix starts the key. *)
Theorem lookup_LPM_longest packet metadata t e :
  tb_type t = POF_LPM_TABLE -> table_wf t -> quiet e -> table_reads packet metadata t ->
  exists r key, poflr_entry_lookup packet metadata t e = Some (r, e) /\
    key = concat (key_bits packet metadata <$> table_fields t) /\
    match r with
    | None => forall p en, entries t !! p = Some en -> ~ prefix (prefix_of t en) key
    | Some p => exists en, entries t !! p = Some en /\ prefix (prefix_of t en) key /\
        forall q en', entries t !! q = Some en' -> prefix (prefix_of t en') key ->
          (length (prefix_of t en') <= length (prefix_of t en))%nat
    end.
Proof.
  intros Ty [We Wt] Q Hr. destruct (table_key packet metadata t Hr) as (key & Ek & Lk & Bk & Wk).
  destruct (Wt Ty) as [Hk (tr & Et & Hne & Hd & _ & Hptr)].
  pose proof (ceil_bytes (tb_keyLen t) ltac:(lia)) as C.
  exists (longest_prefix (tree_ptr (root tr)) (prefix_bits key (tb_keyLen t))), (prefix_bits key (tb_keyLen t)).
  split; [|split; [exact Wk|]].
  - unfold poflr_entry_lookup. rewrite run_bind. unfold malloc. rewrite (proj1 Q). cbn [negb].
    rewrite run_bind, Ek. cbn [lift]. rewrite Ty. unfold entryLookup_LPM, lpmLookup. rewrite Et.
    cbn [mbind option_bind]. unfold tree_nodeLookup. rewrite lookup_loop_ok by (try done; lia).
    change (POF_LPM_TABLE =? POF_MM_TABLE) with false. change (POF_LPM_TABLE =? POF_LPM_TABLE) with true.
    cbv iota. now destruct (longest_prefix _ _).
  - pose proof (longest_prefix_spec (prefix_bits key (tb_keyLen t)) (tree_ptr (root tr))) as H.
    destruct (longest_prefix _ _) as [p|].
    + destruct H as (q & Hq & (en & Hp & ->)%Hptr & Hmax). exists en. split; [done|]. split; [done|].
      intros p' en' Hp' Hx. eapply (Hmax _ p' Hx), Hptr. eauto.
    + intros p en Hp Hx. specialize (H _ Hx). assert (tree_ptr (root tr) (prefix_of t en) = Some p) by (apply Hptr; eauto).
      congruence.
Qed.

(** The global table id of a type and an id within the type is translated
    back to them, as long as the table counts of the types sum to less than
    256. *)
Theorem table_id_roundtrip lr type id mx e :
  Forall (fun x => 0 <= x) (tableNumMaxEachType lr) -> sum (tableNumMaxEachType lr) < 256 ->
  0 <= type < POF_MAX_TABLE_TYPE -> tableNumMaxEachType lr !! Z.to_nat type = Some mx -> 0 <= id < mx ->
  exists ID, poflr_table_id_to_ID type id lr = Some ID /\
    poflr_table_ID_to_id ID lr e = Some ((POF_OK, Some (type, id)), e).
Proof.
  intros Hf Hs Ht Hm Hi. change POF_MAX_TABLE_TYPE with 4 in Ht.
  pose proof (lookup_lt_Some _ _ _ Hm) as Hl.
  unfold poflr_table_id_to_ID. rewrite id_base_sum by (auto; lia). cbn [mbind option_bind].
  eexists. split; [reflexivity|]. unfold poflr_table_ID_to_id. rewrite run_bind.
  assert (0 <= sum (take (Z.to_nat type) (tableNumMaxEachType lr)) /\
    sum (take (Z.to_nat type) (tableNumMaxEachType lr)) + id < 256) as [H0 H1].
  { rewrite <- (take_drop_middle _ _ _ Hm) in Hf, Hs. apply Forall_app in Hf as [Hf1 [_ Hf2]%Forall_cons].
    pose proof (sum_nonneg _ Hf1). pose proof (sum_nonneg _ Hf2). unfold sum in *.
    assert (forall a b, foldr Z.add 0 (a ++ b) = foldr Z.add 0 a + foldr Z.add 0 b) as Ha
      by (induction a as [|z a IH]; intros; cbn; [done|rewrite IH; lia]).
    rewrite Ha in Hs. cbn [foldr] in Hs. lia. }
  unfold u8. rewrite Z.add_0_l, Z.mod_small by lia.
  rewrite (id_search_sum _ _ _ 0 id mx) by (auto; change POF_MAX_TABLE_TYPE with 4; lia).
  now rewrite Z.add_0_l, Z2Nat.id by lia.
Qed.

(** ** Witnesses *)

(** A slot with one masked-match table, empty, with room for 16 entries. *)
Definition lr_table : pof_local_resource :=
  lr_example (res_one (table_example POF_MM_TABLE no_entries) 40) (res_none 8) (res_none 8)
    (res_one (mkCounterInfo 7 41 1000) 512).

Definition flow_message : pof_flow_entry := entry_message [1;2;3;4;5;6;7;8] [255;255;0;0;0;0;0;0] 7.

Lemma no_entries_ok : entries_ok no_entries.
Proof.
  exists (mkHmap [None] 0 0), [[]]. split; [done|exact (rep_empty ∅ 0 ltac:(lia))| | |done].
  - intros p [c Hp]. cbn in Hp. now rewrite lookup_empty in Hp.
  - intros p c Hp. cbn in Hp. now rewrite lookup_empty in Hp.
Qed.

Lemma lr_table_res : res_ok (lr_tables lr_table).
Proof. exact (res_one_ok (table_example POF_MM_TABLE no_entries) 40 ltac:(by_decide)). Qed.

Lemma lr_table_contents ID t : contents (lr_tables lr_table) !! ID = Some t ->
  t = table_example POF_MM_TABLE no_entries.
Proof.
  intros (p & c & Hp & _ & <-)%contents_lookup; [|exact lr_table_res].
  cbn in Hp. now apply lookup_singleton_Some in Hp as [_ <-].
Qed.

Lemma lr_table_ok : slot_ok lr_table /\ indexed lr_table.
Proof.
  split; [constructor; try done; try by_decide|].
  - exact lr_table_res.
  - intros ID t ->%lr_table_contents. split; [apply no_entries_ok|discriminate].
  - exact (res_one_ok (mkCounterInfo 7 41 1000) 512 ltac:(by_decide)).
  - intros ID t p en ->%lr_table_contents Hp. unfold entries in Hp. cbn in Hp.
    now rewrite fmap_empty, lookup_empty in Hp.
  - intros ID t p en ->%lr_table_contents Hp. unfold entries in Hp. cbn in Hp.
    now rewrite fmap_empty, lookup_empty in Hp.
Qed.

Lemma flow_message_ok : acceptable FAdd flow_message (table_example POF_MM_TABLE no_entries).
Proof.
  right. right. exists mm_entry. split; [|intros Ty; discriminate].
  exists 3. split; [lia|]. intros e. reflexivity.
Qed.


(** The slot after the message, by computation. *)
Lemma flow_index_bounded_witness :
  match poflr_add_flow_entry flow_message lr_table (env_init POFCS_CHANNEL_RUN [] []) with
  | Some ((_, lr'), _) => slot_ok lr' /\ indexed lr'
  | None => False
  end.
Proof.
  destruct (poflr_add_flow_entry flow_message lr_table (env_init POFCS_CHANNEL_RUN [] [])) as [[[ret lr'] e']|] eqn:E.
  - apply (flow_index_bounded lr_table lr' (proj1 lr_table_ok) (proj2 lr_table_ok)).
    eapply (reach_step _ _ FAdd flow_message (env_init POFCS_CHANNEL_RUN [] []));
      [apply reach_start|apply env_init_ok|repeat split|cbn; lia| |exact E].
    intros ID t Ht. change (flow_target lr_table flow_message) with
      (Done (A := Z * tableInfo) (0, table_example POF_MM_TABLE no_entries)) in Ht.
    injection Ht as <- <-. exact flow_message_ok.
  - vm_compute in E. discriminate E.
Defined.

(** An LPM table, and the entry of the message put into it. *)
Definition lpm_table : tableInfo :=
  set_tree (Some (mkTree (TNode None TNull TNull) 0)) (table_example POF_LPM_TABLE no_entries).

Lemma lpm_table_wf : table_wf lpm_table.
Proof.
  split; [apply no_entries_ok|]. intros _. split; [by_decide|].
  exists (mkTree (TNode None TNull TNull) 0). split; [reflexivity|]. split; [discriminate|]. split; [cbn; lia|].
  assert (entries lpm_table = ∅) as -> by reflexivity. split.
  - intros p en Hp. now rewrite lookup_empty in Hp.
  - intros q p. split.
    + destruct q as [|[] [|? ?]]; discriminate.
    + intros (en & Hp & _). now rewrite lookup_empty in Hp.
Qed.

Lemma lookup_LPM_longest_witness :
  exists t p, entryInsert flow_message lpm_table (env_init POFCS_CHANNEL_RUN [] []) =
      Some ((POF_OK, t), env_init POFCS_CHANNEL_RUN [] []) /\
    poflr_entry_lookup [1;2;9;9;9;9;9;9;0] [] t (env_init POFCS_CHANNEL_RUN [] []) =
      Some (Some p, env_init POFCS_CHANNEL_RUN [] []).
Proof.
  destruct (entryInsert_ok flow_message lpm_table mm_entry 3 (env_init POFCS_CHANNEL_RUN [] []) lpm_table_wf
    ltac:(repeat split) ltac:(lia) eq_refl) as (t & p & E & _ & Ee & W & Sm & _).
  { intros _. split; [|intros q en' Hq; unfold entries in Hq; cbn in Hq; now rewrite fmap_empty, lookup_empty in Hq].
    split; [by_decide|]. split; [by_decide|]. split; [by_decide|]. split; by_decide. }
  destruct (lookup_LPM_longest [1;2;9;9;9;9;9;9;0] [] t (env_init POFCS_CHANNEL_RUN [] []))
    as (r & key & El & Ek & Hr); [rewrite Sm; reflexivity|exact W|repeat split| |].
  { rewrite Sm. exact (reads_example POF_LPM_TABLE no_entries [1;2;9;9;9;9;9;9;0] eq_refl ltac:(by_decide)). }
  destruct r as [q|]; [exists t, q; split; [exact E|exact El]|].
  destruct (Hr p mm_entry); [rewrite Ee; apply lookup_insert_eq|].
  rewrite Ek, Sm. exists (drop 16 (concat (key_bits [1;2;9;9;9;9;9;9;0] [] <$> table_fields lpm_table))).
  vm_compute. reflexivity.
Defined.

Lemma table_id_roundtrip_witness :
  exists ID, poflr_table_id_to_ID POF_EM_TABLE 3 lr_table = Some ID /\
    poflr_table_ID_to_id ID lr_table (env_init POFCS_CHANNEL_RUN [] []) =
      Some ((POF_OK, Some (POF_EM_TABLE, 3)), env_init POFCS_CHANNEL_RUN [] []).
Proof.
  apply (table_id_roundtrip lr_table POF_EM_TABLE 3 10 (env_init POFCS_CHANNEL_RUN [] []));
    by_decide.
Defined.
