(* ===== verification/TableOps.v ===== *)
(** * Creating and deleting flow tables

    The table-mod handlers of FlowTable.v against an abstract step on the
    tables of a slot, keyed by global id. *)

From S2P Require Import Prelude Bits Codec Env Hmap IdMap Tree LocalRes ByteTransfer Counter FlowEntry FlowTable FlowSpec FlowOps.

Implicit Types (lr : pof_local_resource) (t : tableInfo).

(** ** Abstract machine *)

Inductive table_op :=
  | TCreate (id type key_len size : Z) (name : list Z) (match_field_num : Z) (ms : list pof_match)
  | TDelete (id type : Z).

Definition table_run (op : table_op) : pof_local_resource -> St (Z * pof_local_resource) :=
  match op with
  | TCreate id type key_len size name n ms => poflr_create_flow_table id type key_len size name n ms
  | TDelete id type => poflr_delete_flow_table id type
  end.
Definition table_op_id (op : table_op) : Z := match op with TCreate id _ _ _ _ _ _ | TDelete id _ => id end.
Definition table_op_type (op : table_op) : Z := match op with TCreate _ type _ _ _ _ _ | TDelete _ type => type end.

(** A new table: no entries, room for [size] of them. *)
Definition new_table (ID : Z) (op : table_op) t : Prop :=
  match op with
  | TCreate _ type key_len size name n ms =>
      tb_id t = ID /\ tb_type t = type /\ tb_keyLen t = key_len /\ tb_size t = size /\
      tb_name t = strncpy name 64 /\ tb_match_field_num t = n /\
      tb_match t = take (Z.to_nat n) ms ++ drop (Z.to_nat n) (replicate 8 match_zero) /\
      entries t = ∅ /\ table_wf t
  | TDelete _ _ => False
  end.

(** The table a message names: its type and its id are in range. *)
Definition names_table lr (op : table_op) (ID : Z) : Prop :=
  table_op_type op < POF_MAX_TABLE_TYPE /\
  (exists mx, tableNumMaxEachType lr !! Z.to_nat (table_op_type op) = Some mx /\ table_op_id op < mx) /\
  poflr_table_id_to_ID (table_op_type op) (table_op_id op) lr = Some ID.

(** A table as large as the slot allows, with a key as long as its type allows. *)
Definition table_allowed lr (op : table_op) : Prop :=
  match op with
  | TCreate _ type key_len size _ _ _ => size <= tableSizeMax lr /\
      exists kmax, poflr_key_len_each_type lr !! Z.to_nat type = Some kmax /\ key_len <= kmax
  | TDelete _ _ => False
  end.

(** Why a table-mod message is refused, or the tables it leaves. *)
Inductive table_step lr (op : table_op) : list (ecode * ecode) -> gmap Z tableInfo -> Prop :=
  | bad_type : POF_MAX_TABLE_TYPE <= table_op_type op ->
      table_step lr op [(POFET_TABLE_MOD_FAILED, POFTMFC_BAD_TABLE_TYPE)] (contents (lr_tables lr))
  | bad_id mx : table_op_type op < POF_MAX_TABLE_TYPE ->
      tableNumMaxEachType lr !! Z.to_nat (table_op_type op) = Some mx -> mx <= table_op_id op ->
      table_step lr op [(POFET_TABLE_MOD_FAILED, POFTMFC_BAD_TABLE_ID)] (contents (lr_tables lr))
  | refuse ID code : names_table lr op ID ->
      match op, contents (lr_tables lr) !! ID with
      | TCreate _ _ _ _ _ _ _, Some _ => code = POFTMFC_TABLE_EXIST
      | TCreate _ type key_len size _ _ _, None =>
          tableSizeMax lr < size /\ code = POFTMFC_BAD_TABLE_SIZE \/
          size <= tableSizeMax lr /\ code = POFTMFC_BAD_KEY_LEN /\
            exists kmax, poflr_key_len_each_type lr !! Z.to_nat type = Some kmax /\ kmax < key_len
      | TDelete _ _, None => code = POFTMFC_TABLE_UNEXIST
      | TDelete _ _, Some t => code = POFTMFC_TABLE_UNEMPTY /\ r_num (tb_entries t) <> 0
      end ->
      table_step lr op [(POFET_TABLE_MOD_FAILED, code)] (contents (lr_tables lr))
  | created ID t : names_table lr op ID ->
      contents (lr_tables lr) !! ID = None -> table_allowed lr op -> new_table ID op t ->
      table_step lr op [] (<[ID := t]> (contents (lr_tables lr)))
  | removed id type ID t : op = TDelete id type -> names_table lr op ID ->
      contents (lr_tables lr) !! ID = Some t ->
      r_num (tb_entries t) = 0 -> table_step lr op [] (delete ID (contents (lr_tables lr))).

(** A create request whose fields fit: at most eight match fields, and for an
    LPM table a key of 1 to 1024 bits. *)
Definition table_op_ok (op : table_op) : Prop :=
  0 <= table_op_type op /\ 0 <= table_op_id op /\
  match op with
  | TCreate _ type key_len size _ n ms => n <= 8 /\ 0 <= size < 4294967296 /\
      (type = POF_LPM_TABLE -> 1 <= key_len <= 1024)
  | TDelete _ _ => True
  end.

(** ** Lemmas *)

Lemma lpm_ok_new t : tb_tree t = Some (mkTree (TNode None TNull TNull) 0) -> entries t = ∅ -> lpm_ok t.
Proof.
  intros Et Ee. eexists. split; [exact Et|]. cbn [root]. split; [discriminate|]. split; [cbn; lia|]. rewrite Ee. split.
  - intros p en Hp. now rewrite lookup_empty in Hp.
  - intros q p. split.
    + destruct q as [|[] [|? ?]]; discriminate.
    + intros (en & Hp & _). now rewrite lookup_empty in Hp.
Qed.

Lemma no_entry_map size e : 0 <= size < 4294967296 -> mallocs e = [] ->
  exists m, hmap_create size e = Some (Some m, e) /\ entries_ok (Res ∅ (Some m) 0 size).
Proof.
  intros Hs Q. destruct (hmap_create_quiet (V := entryInfo) ∅ size e Hs Q) as (m & cs & E & R & _).
  exists m. split; [exact E|]. exists m, cs. constructor; cbn [r_map r_heap r_num]; auto.
  - intros p [c Hp]. now rewrite lookup_empty in Hp.
  - intros p c Hp. now rewrite lookup_empty in Hp.
Qed.

Lemma destroy_table_ok t : table_wf t -> destroy_table t = Some tt.
Proof.
  intros [(m & cs & R) Hl]. unfold destroy_table. rewrite (er_map _ _ _ R). cbn [mbind option_bind].
  destruct (Z.eqb_spec (tb_type t) POF_LPM_TABLE) as [Ty|]; [|done].
  destruct (Hl Ty) as [_ (tr & -> & Hr & _)]. cbn [mbind option_bind]. now destruct (root tr).
Qed.

(** Slots that differ in their tables only. *)
Lemma slot_ok_tables lr ts : slot_ok lr -> res_ok ts ->
  (forall ID t, contents ts !! ID = Some t -> table_wf t) ->
  (forall ID t p en, contents ts !! ID = Some t -> entries t !! p = Some en -> 0 <= en_counter_id en) ->
  slot_ok (set_tables ts lr).
Proof. intros [] ? ? ?. constructor; auto. Qed.

Definition table_meets (op : table_op) lr e (out : option (Z * pof_local_resource * env)) : Prop :=
  exists r lr' e' ts,
    table_step lr op r ts /\ out = Some ((result_code r, lr'), e') /\ told r e e' /\
    slot_ok lr' /\ contents (lr_tables lr') = ts /\ r_max (lr_tables lr') = r_max (lr_tables lr) /\
    lr' = set_tables (lr_tables lr') lr.

Section handlers.
Context (lr : pof_local_resource) (e : env).
Hypothesis S : slot_ok lr.
Hypothesis Ok : env_ok e.
Hypothesis Q : quiet e.

Lemma table_refused op code : ecode_ok code ->
  table_step lr op [(POFET_TABLE_MOD_FAILED, code)] (contents (lr_tables lr)) ->
  table_meets op lr e (ret_err POFET_TABLE_MOD_FAILED code recv_xid lr e).
Proof.
  intros Hc Hs. destruct (ret_err_recv e POFET_TABLE_MOD_FAILED code lr Ok Q Hc) as (e' & E & R).
  eexists _, lr, e', _. split; [exact Hs|]. split; [exact E|]. split; [apply told_one; eexists; exact R|].
  split; [exact S|]. split; [done|]. split; [done|]. symmetry. destruct lr; reflexivity.
Qed.

(** The guards both handlers start with. *)
Lemma table_guards op (k : Z -> option addr -> St (Z * pof_local_resource)) : table_op_ok op ->
  (forall ID o, names_table lr op ID -> 0 <= ID ->
     match o with
     | Some p => exists c, r_heap (lr_tables lr) !! p = Some c /\ tb_id (c_obj c) = ID /\
                           contents (lr_tables lr) !! ID = Some (c_obj c)
     | None => contents (lr_tables lr) !! ID = None
     end -> table_meets op lr e (k ID o e)) ->
  table_meets op lr e
    ((if POF_MAX_TABLE_TYPE <=? table_op_type op then ret_err POFET_TABLE_MOD_FAILED POFTMFC_BAD_TABLE_TYPE recv_xid lr
      else
        numMax ← lift (tableNumMaxEachType lr !! Z.to_nat (table_op_type op));
        if numMax <=? table_op_id op then ret_err POFET_TABLE_MOD_FAILED POFTMFC_BAD_TABLE_ID recv_xid lr
        else
          ID ← lift (poflr_table_id_to_ID (table_op_type op) (table_op_id op) lr);
          found ← lift (poflr_get_table_with_ID ID lr);
          k ID found) e).
Proof.
  intros (Ht & Hi & _) Hk. destruct (Z.leb_spec POF_MAX_TABLE_TYPE (table_op_type op)) as [H4|H4].
  { apply table_refused; [by_decide|]. now constructor. }
  change POF_MAX_TABLE_TYPE with 4 in H4. pose proof (sl_types _ S) as L4.
  destruct (lookup_lt_is_Some_2 (tableNumMaxEachType lr) (Z.to_nat (table_op_type op))) as [mx Em]; [lia|].
  rewrite run_bind, Em. cbn [lift]. destruct (Z.leb_spec mx (table_op_id op)) as [Hm|Hm].
  { apply table_refused; [by_decide|]. now eapply bad_id; eauto. }
  destruct (table_id_total (table_op_type op) (table_op_id op) lr) as (ID & Ei & HI); [lia|].
  rewrite run_bind, Ei. cbn [lift]. destruct (table_found lr ID (sl_tables _ S) HI) as (o & Eo & Ho).
  rewrite run_bind, Eo. cbn [lift]. apply (Hk ID o); [|done|done].
  split; [done|]. split; [eauto|done].
Qed.

Lemma table_delete_meets id type : table_op_ok (TDelete id type) ->
  table_meets (TDelete id type) lr e (poflr_delete_flow_table id type lr e).
Proof.
  intros Hop. unfold poflr_delete_flow_table. apply (table_guards (TDelete id type)
    (fun ID found => match found with
      | None => ret_err POFET_TABLE_MOD_FAILED POFTMFC_TABLE_UNEXIST recv_xid lr
      | Some table =>
          t ← lift (load_table table lr);
          if negb (r_num (tb_entries t) =? 0) then
            ret_err POFET_TABLE_MOD_FAILED POFTMFC_TABLE_UNEMPTY recv_xid lr
          else _ ← lift (destroy_table t); lr ← lift (map_tableDelete table lr); mret (POF_OK, lr)
      end) Hop).
  intros ID o Ei HI Ho. destruct o as [p|].
  - destruct Ho as (c & Hp & Hid & Hc). rewrite run_bind. unfold load_table, res_load. rewrite Hp.
    cbn [mbind option_bind lift]. destruct (Z.eqb_spec (r_num (tb_entries (c_obj c))) 0) as [H0|H0]; cbn [negb].
    + rewrite run_bind, destroy_table_ok by (eapply (sl_wf _ S); exact Hc). cbn [lift].
      destruct (sl_tables _ S) as (m & cs & R).
      destruct (res_delete_ok _ m cs p c R Hp) as (ts & m' & cs' & E & R' & C & M & _).
      change (res_wrap (V := tableInfo)) with u16 in E. change (res_id (c_obj c)) with (tb_id (c_obj c)) in C.
      rewrite Hid in C. rewrite run_bind. unfold map_tableDelete. rewrite E. cbn [mbind option_bind lift].
      exists [], (set_tables ts lr), e, (delete ID (contents (lr_tables lr))).
      split; [now eapply removed; eauto|]. split; [reflexivity|]. split; [constructor|].
      split; [|split; [exact C|split; [exact M|reflexivity]]].
      apply slot_ok_tables; [done|eexists _, _; exact R'| |]; rewrite C.
      * intros ID' t [_ H]%lookup_delete_Some. eapply (sl_wf _ S); eauto.
      * intros ID' t q en [_ H]%lookup_delete_Some. eapply (sl_cids _ S); eauto.
    + apply table_refused; [by_decide|]. eapply refuse; [exact Ei|]. cbn [table_op_id] in *. rewrite Hc. auto.
  - apply table_refused; [by_decide|]. eapply refuse; [exact Ei|]. now rewrite Ho.
Qed.
(** The table the handler builds. *)
Lemma table_built ID id type key_len size name n ms : 0 <= size < 4294967296 -> n <= 8 ->
  (type = POF_LPM_TABLE -> 1 <= key_len <= 1024) ->
  exists m t, hmap_create size e = Some (Some m, e) /\
    copy_matches (tb_match table_zero) ms n = Some (tb_match t) /\
    (if type =? POF_LPM_TABLE then tree_create else mret (tb_tree table_zero)) e = Some (tb_tree t, e) /\
    t = mkTableInfo ID type (strncpy name (Z.to_nat TABLE_NAME_LEN)) (Res ∅ (Some m) 0 size) key_len (tb_tree t) n (tb_match t) /\
    new_table ID (TCreate id type key_len size name n ms) t.
Proof.
  intros Hs Hn Hk. destruct (no_entry_map size e Hs (proj1 Q)) as (m & E & W).
  set (tr := if type =? POF_LPM_TABLE then Some (mkTree (TNode None TNull TNull) 0) else None).
  assert ((if type =? POF_LPM_TABLE then tree_create else mret (tb_tree table_zero)) e = Some (tr, e)) as Et.
  { unfold tr. destruct (type =? POF_LPM_TABLE); [|reflexivity]. unfold tree_create, tree_nodeCreate.
    st_unfold. unfold malloc. rewrite (proj1 Q). cbn [negb]. now rewrite (proj1 Q). }
  assert (copy_matches (tb_match table_zero) ms n =
    Some (take (Z.to_nat n) ms ++ drop (Z.to_nat n) (replicate 8 match_zero))) as Ec.
  { unfold copy_matches. change POF_MAX_MATCH_FIELD_NUM with 8. now rewrite (proj2 (Z.ltb_ge _ _)) by lia. }
  exists m, (mkTableInfo ID type (strncpy name (Z.to_nat TABLE_NAME_LEN)) (Res ∅ (Some m) 0 size) key_len tr n
    (take (Z.to_nat n) ms ++ drop (Z.to_nat n) (replicate 8 match_zero))).
  split; [exact E|]. split; [exact Ec|]. split; [exact Et|]. split; [reflexivity|].
  cbn [new_table tb_id tb_type tb_keyLen tb_name tb_match_field_num tb_match]. repeat (split; [reflexivity|]).
  assert (entries (mkTableInfo ID type (strncpy name (Z.to_nat TABLE_NAME_LEN)) (Res ∅ (Some m) 0 size) key_len tr n
    (take (Z.to_nat n) ms ++ drop (Z.to_nat n) (replicate 8 match_zero))) = ∅) as Ee
    by (unfold entries; cbn [tb_entries r_heap]; apply fmap_empty).
  split; [exact W|]. cbn [tb_type tb_keyLen]. intros Ty. split; [now apply Hk|].
  apply lpm_ok_new; [|exact Ee]. cbn [tb_tree]. unfold tr. rewrite Ty. reflexivity.
Qed.

Lemma table_create_meets id type key_len size name n ms : table_op_ok (TCreate id type key_len size name n ms) ->
  table_meets (TCreate id type key_len size name n ms) lr e (poflr_create_flow_table id type key_len size name n ms lr e).
Proof.
  intros Hop. pose proof (sl_keys _ S) as Lk. pose proof Hop as (Ht & Hi & Hn & Hs & Hl). cbn [table_op_id table_op_type] in *.
  set (op := TCreate id type key_len size name n ms) in *.
  unfold poflr_create_flow_table.
  refine (table_guards op _ Hop _).
  intros ID o Ei HI Ho. pose proof Ei as (H4 & _). change POF_MAX_TABLE_TYPE with 4 in H4.
  cbn [table_op_id table_op_type op] in *. destruct o as [p|].
  { destruct Ho as (c & _ & _ & Hc). apply table_refused; [by_decide|]. eapply refuse; [exact Ei|]. now rewrite Hc. }
  destruct (Z.ltb_spec (tableSizeMax lr) size) as [Hz|Hz].
  { apply table_refused; [by_decide|]. eapply refuse; [exact Ei|]. cbn [op]. rewrite Ho. now left. }
  destruct (lookup_lt_is_Some_2 (poflr_key_len_each_type lr) (Z.to_nat type)) as [kmax Ek]; [lia|].
  rewrite run_bind, Ek. cbn [lift]. destruct (Z.ltb_spec kmax key_len) as [Hk|Hk].
  { apply table_refused; [by_decide|]. eapply refuse; [exact Ei|]. cbn [op]. rewrite Ho. right. eauto. }
  destruct (table_built ID id type key_len size name n ms Hs Hn Hl) as (m & t & E1 & E2 & E3 & Et & New).
  set (p := fresh_addr (r_heap (lr_tables lr))).
  assert (r_heap (lr_tables lr) !! p = None) as Hp by apply fresh_addr_spec.
  assert (tb_id t = ID) as Hid by (rewrite Et; reflexivity).
  destruct (res_insert_ok (lr_tables lr) p t (sl_tables _ S) Hp) as (ts & E4 & Okt & C & M);
    [cbn; lia|change (res_id t) with (tb_id t); now rewrite Hid|].
  change (res_wrap (V := tableInfo)) with u16 in E4. change (res_id t) with (tb_id t) in E4, C. rewrite Hid in E4, C.
  exists [], (set_tables ts lr), e, (<[ID := t]> (contents (lr_tables lr))).
  split; [eapply created; eauto; cbn [op table_allowed]; eauto|]. split; [|split; [constructor|split; [|split; [exact C|split; [exact M|reflexivity]]]]].
  - rewrite run_bind. unfold map_tableCreate. rewrite run_bind.
    change table_zero with (res_zero (V := tableInfo)). rewrite res_create_quiet by apply Q.
    unfold mret at 1, St_ret. cbv beta iota. fold p.
    rewrite run_bind. unfold load_table at 1, res_load. cbn [lr_tables set_tables with_heap r_heap].
    rewrite lookup_insert_eq. cbn [mbind option_bind c_obj lift].
    rewrite run_bind. unfold hash_table. cbn [lr_tables set_tables]. rewrite res_hash by exact Hp.
    cbn [mbind option_bind lift]. rewrite run_bind, E1, run_bind.
    change (tb_match res_zero) with (tb_match table_zero). rewrite E2. cbn [lift].
    rewrite run_bind.
    replace ((if type =? POF_LPM_TABLE then tree_create else mret (tb_tree res_zero)) e) with (Some (tb_tree t, e))
      by (symmetry; exact E3).
    rewrite run_bind. unfold store_table. cbn [lr_tables set_tables]. rewrite res_fill by exact Hp.
    cbn [mbind option_bind lift]. rewrite <- Et, run_bind. unfold map_tableInsert. cbn [lr_tables set_tables].
    unfold map_tableHashByID, hmap_hashForLinear. rewrite E4. reflexivity.
  - destruct New as (_ & _ & _ & _ & _ & _ & _ & Ee & Wt).
    apply slot_ok_tables; [done|exact Okt| |]; rewrite C.
    + intros ID' t' [[<- <-]|[_ H]]%lookup_insert_Some; [exact Wt|eapply (sl_wf _ S); eauto].
    + intros ID' t' q en [[<- <-]|[_ H]]%lookup_insert_Some; [rewrite Ee; intros Hq; now rewrite lookup_empty in Hq|].
      eapply (sl_cids _ S); eauto.
Qed.
End handlers.

(** ** Properties *)

(** C21. The table-mod handlers refine the abstract step on the tables of a
    slot: a bad type, id, size or key length, a table that exists already, is
    missing or still has entries is refused and reported and changes nothing;
    a table is created (empty, with the fields of the message) exactly when its
    type, id, size and key length are within the limits of the slot and it is
    not there yet, and removed when it is there and empty; the slot stays
    well-formed.  A create message has at most eight match fields, and for an
    LPM table a key of 1 to 1024 bits ([table_op_ok]): the code checks neither. *)
Theorem table_mod_refines op lr e : slot_ok lr -> env_ok e -> quiet e -> table_op_ok op ->
  exists r lr' e' ts,
    table_step lr op r ts /\ table_run op lr e = Some ((result_code r, lr'), e') /\ told r e e' /\
    slot_ok lr' /\ contents (lr_tables lr') = ts /\ r_max (lr_tables lr') = r_max (lr_tables lr) /\
    lr' = set_tables (lr_tables lr') lr.
Proof.
  intros S Ok Q Hop. destruct op; [now apply table_create_meets|now apply table_delete_meets].
Qed.

(** ** Witnesses *)

Lemma table_mod_refines_witness :
  exists lr' e', poflr_create_flow_table 2 POF_LPM_TABLE 32 100 (zeros 64) 1 (replicate 8 (mkMatch 1 0 32)) lr_table
      (env_init POFCS_CHANNEL_RUN [] []) = Some ((POF_OK, lr'), e') /\ slot_ok lr'.
Proof.
  destruct (table_mod_refines (TCreate 2 POF_LPM_TABLE 32 100 (zeros 64) 1 (replicate 8 (mkMatch 1 0 32))) lr_table
    (env_init POFCS_CHANNEL_RUN [] []) (proj1 lr_table_ok) (env_init_ok _ _ _) ltac:(repeat split))
    as (r & lr' & e' & ts & Hs & E & _ & S & _).
  { split; [by_decide|]. split; [by_decide|]. split; [lia|]. split; [lia|]. intros _. lia. }
  cbn [table_run] in E. destruct r as [|[ty c] [|? ?]]; [exists lr', e'; split; [exact E|exact S]| |].
  2: exfalso; inversion Hs.
  exfalso. inversion Hs as [H|mx _ H1 H2|ID code (_ & _ & H1) H2| |]; subst.
  - cbn in H. change POF_MAX_TABLE_TYPE with 4 in H. change POF_LPM_TABLE with 1 in H. lia.
  - change (tableNumMaxEachType lr_table !! Z.to_nat POF_LPM_TABLE) with (Some 10) in H1.
    injection H1 as <-. cbn in H2. lia.
  - change (poflr_table_id_to_ID POF_LPM_TABLE 2 lr_table) with (Some 12) in H1. injection H1 as <-.
    change (contents (lr_tables lr_table) !! 12) with (@None tableInfo) in H2.
    destruct H2 as [[H _]|(_ & _ & k & Hk & H)]; [cbn in H; lia|].
    change (poflr_key_len_each_type lr_table !! Z.to_nat POF_LPM_TABLE) with (Some 160) in Hk.
    injection Hk as <-. lia.
Defined.
