(* ===== verification/Port.v ===== *)
(** * Ports of a slot (local_resource/pof_port.c)

    The map of ports by POF index with the operations on it that the protocol
    and the datapath use.  PortMgr.v has the second map, by name, and the
    operations that ask the system for its interfaces. *)

From S2P Require Import Prelude Bits Codec Env Hmap IdMap Tree LocalRes ByteTransfer.
From Stdlib Require String.
Import String.StringSyntax.
#[local] Open Scope string_scope.

Implicit Types (lr : pof_local_resource).

Definition POFPMFC_BAD_PORT_ID := EC 1 "POFPMFC_BAD_PORT_ID".
Definition POFE_DISABLE : Z := 0.
Definition POFPR_ADD : Z := 0.
Definition POFPR_DELETE : Z := 1.
Definition POFPR_MODIFY : Z := 2.
Definition POFPF_10MB_HD : Z := 1.
Definition POFPF_10MB_FD : Z := 2.
Definition POFPF_100MB_FD : Z := 8.

(** The argument is a [uint8_t]. *)
Definition map_portHashByID (id : Z) : Z := hmap_hashForLinear (u8 id).
Definition poflr_get_port_with_pofindex (pofIndex : Z) lr : option (option addr) :=
  res_get (map_portHashByID pofIndex) (lr_ports lr).

Definition set_of_enable (flag : Z) (p : portInfo) : portInfo :=
  mkPortInfo (po_pofIndex p) (po_sysIndex p) (po_pofState p) (po_slotID p) flag (po_config p)
    (po_hwaddr p) (po_name p) (po_ip p) (po_taskID p) (po_queue_fd p) (po_num_queues p).
Definition set_ports ps lr := mkLR (lr_slotID lr) ps (lr_tables lr) (tableNumMaxEachType lr)
  (tableSizeMax lr) (poflr_key_len_each_type lr) (lr_groups lr) (lr_meters lr) (lr_counters lr)
  (lr_names lr) (lr_portFlag lr).

Definition poflr_port_openflow_enable (port_id ulFlowEnableFlg : Z) lr : St (Z * pof_local_resource) :=
  found ← lift (poflr_get_port_with_pofindex port_id lr);
  match found with
  | None => ret_err POFET_PORT_MOD_FAILED POFPMFC_BAD_PORT_ID recv_xid lr
  | Some p =>
      port ← lift (res_load p (lr_ports lr));
      ps ← lift (res_store p (set_of_enable ulFlowEnableFlg port) (lr_ports lr));
      mret (POF_OK, set_ports ps lr)
  end.

Definition poflr_disable_all_port lr : St (Z * pof_local_resource) :=
  res ← HMAP_NODES_IN_STRUCT_TRAVERSE (R := Empty_set) res_hm
    (fun p ps =>
       port ← lift (res_load p ps);
       ps ← lift (res_store p (set_of_enable POFE_DISABLE port) ps);
       mret (inr ps)) (lr_ports lr);
  mret (POF_OK, set_ports (loop_end res) lr).

(** [pof_port_status] filled from a port: the reason, padding, the [pof_port]. *)
Definition port_report_fill_msg (dev_id : Z) (port : portInfo) : list Z :=
  le 2 (po_slotID port) ++ le 2 (po_pofIndex port) ++ le 4 dev_id ++ po_hwaddr port ++ zeros 2 ++
  strncpy (po_name port) 64 ++ le 4 0 ++ le 4 (po_pofState port) ++
  le 4 (Z.lor POFPF_10MB_HD POFPF_10MB_FD) ++ le 4 (Z.lor POFPF_10MB_FD POFPF_100MB_FD) ++
  le 4 0xffffffff ++ le 4 (Z.lor POFPF_10MB_FD POFPF_100MB_FD) ++ le 4 0 ++ le 4 0 ++
  le 1 (po_of_enable port) ++ zeros 7.
Definition sizeof_pof_port_status : Z := 128.

Definition upward_xid_now : St Z := e ← get_env; mret (g_upward_xid e).

Definition poflr_port_report (reason : Z) (port : portInfo) : St Z :=
  e ← get_env;
  body ← lift (pof_HtoN_transfer_port_status
    (le 1 reason ++ zeros 7 ++ port_report_fill_msg (g_poflr_dev_id e) port));
  reply_checked POFT_PORT_STATUS upward_xid_now sizeof_pof_port_status (Some body).

Definition poflr_reply_port_resource lr : St (Z * pof_local_resource) :=
  _ ← HMAP_NODES_IN_STRUCT_TRAVERSE (R := Empty_set) res_hm
    (fun p ps => port ← lift (res_load p ps); _ ← poflr_port_report POFPR_ADD port; mret (inr ps)) (lr_ports lr);
  mret (POF_OK, lr).

(** ** Lemmas *)

(** The set of ports with every flag cleared. *)
Definition disabled (ps : gmap Z portInfo) : gmap Z portInfo := set_of_enable POFE_DISABLE <$> ps.

Lemma port_found lr id : res_ok (lr_ports lr) ->
  exists o, poflr_get_port_with_pofindex id lr = Some o /\
    match o with
    | Some p => exists c, r_heap (lr_ports lr) !! p = Some c /\ po_pofIndex (c_obj c) = u8 id /\
                          contents (lr_ports lr) !! u8 id = Some (c_obj c)
    | None => contents (lr_ports lr) !! u8 id = None
    end.
Proof.
  intros Hr. destruct (res_get_ok (lr_ports lr) (u8 id) Hr) as (o & E & Ho); [apply Z.mod_pos_bound; lia|].
  exists o. split; [exact E|]. destruct o; [|done]. destruct Ho as (c & ? & _ & ? & ?). eauto.
Qed.

(** Enabling a port changes the flag of the port whose index is the low byte of
    the id, or refuses. *)
Lemma port_enable_ok id flag lr e : res_ok (lr_ports lr) -> env_ok e -> quiet e ->
  match contents (lr_ports lr) !! u8 id with
  | None => exists e', poflr_port_openflow_enable id flag lr e = Some ((err_ret POFPMFC_BAD_PORT_ID, lr), e') /\
      reports POFET_PORT_MOD_FAILED POFPMFC_BAD_PORT_ID (g_recv_xid e) e e'
  | Some port => exists ps, poflr_port_openflow_enable id flag lr e = Some ((POF_OK, set_ports ps lr), e) /\
      res_ok ps /\ contents ps = <[u8 id := set_of_enable flag port]> (contents (lr_ports lr))
  end.
Proof.
  intros Hr Ok Q. unfold poflr_port_openflow_enable. destruct (port_found lr id Hr) as (o & E & Ho).
  rewrite run_bind, E. cbn [lift]. destruct o as [p|].
  - destruct Ho as (c & Hp & Hi & ->). rewrite run_bind. unfold res_load. rewrite Hp.
    cbn [mbind option_bind lift].
    destruct (res_store_ok (lr_ports lr) p c (set_of_enable flag (c_obj c)) Hr Hp eq_refl) as (ps & Es & Okp & C & _).
    exists ps. rewrite run_bind, Es. split; [reflexivity|]. split; [done|]. rewrite C. cbn [res_id port_resource].
    f_equal. exact Hi.
  - rewrite Ho. apply ret_err_recv; [done|done|by_decide].
Qed.

Lemma disable_all_ok lr e : res_ok (lr_ports lr) ->
  exists ps, poflr_disable_all_port lr e = Some ((POF_OK, set_ports ps lr), e) /\ res_ok ps /\
    contents ps = disabled (contents (lr_ports lr)) /\ r_max ps = r_max (lr_ports lr) /\
    forall q, c_obj <$> r_heap ps !! q = set_of_enable POFE_DISABLE <$> (c_obj <$> r_heap (lr_ports lr) !! q).
Proof.
  intros Hr. assert (forall p : portInfo, res_id (set_of_enable POFE_DISABLE p) = res_id p) as Hid by reflexivity.
  destruct (res_update_all (set_of_enable POFE_DISABLE) (lr_ports lr) e Hid Hr)
    as (ps & E & Okp & C & M & Ho). exists ps. unfold poflr_disable_all_port. rewrite run_bind, E. auto.
Qed.
