(* ===== verification/Slot.v ===== *)
(** * The resources of a slot (local_resource/pof_local_resource.c)

    Initialising and clearing the tables, groups, meters and counters of a slot,
    the description of the device, and the replies that report them.  The
    device-wide globals are the record [device]. *)

From S2P Require Import Prelude Bits Codec Env Hmap IdMap Tree LocalRes ByteTransfer Port Counter Meter Group FlowEntry FlowTable FlowSpec FlowOps TableOps.
From Stdlib Require String.
Import String.StringSyntax.
#[local] Open Scope string_scope.

Implicit Types (lr : pof_local_resource).

(** ** Device-wide state *)

Record pof_switch_config := mkConfig { sc_dev_id : Z; sc_flags : Z; sc_miss_send_len : Z }.

Record pof_switch_features := mkFeatures {
  sf_dev_id : Z; sf_slotID : Z; sf_port_num : Z; sf_table_num : Z; sf_capabilities : Z;
  sf_vendor_id : list Z; sf_dev_fw_id : list Z; sf_dev_lkup_id : list Z   (* 64 each *)
}.

Record pof_table_resource_desc := mkDesc {
  td_device_id : Z; td_type : Z; td_tbl_num : Z; td_key_len : Z; td_total_size : Z
}.

Record pof_flow_table_resource := mkTableResource {
  tr_resourceType : Z; tr_slotID : Z; tr_counter_num : Z; tr_meter_num : Z; tr_group_num : Z;
  tr_desc : list pof_table_resource_desc   (* 4 *)
}.

Record device := mkDevice {
  poflr_switch_config : pof_switch_config;
  poflr_switch_feature : pof_switch_features;
  poflr_table_resource_desc : pof_flow_table_resource;
  poflr_key_len : Z;                        (* set by [poflr_set_key_len] *)
  g_versionStr : list Z                     (* POFSWITCH_VERSION *)
}.
Implicit Types (dv : device).

Definition set_config c dv := mkDevice c (poflr_switch_feature dv) (poflr_table_resource_desc dv) (poflr_key_len dv) (g_versionStr dv).
Definition set_feature f dv := mkDevice (poflr_switch_config dv) f (poflr_table_resource_desc dv) (poflr_key_len dv) (g_versionStr dv).
Definition set_desc d dv := mkDevice (poflr_switch_config dv) (poflr_switch_feature dv) d (poflr_key_len dv) (g_versionStr dv).

Definition POFC_FLOW_STATS : Z := 1.
Definition POFC_TABLE_STATS : Z := 2.
Definition POFC_PORT_STATS : Z := 4.
Definition POFC_GROUP_STATS : Z := 8.
Definition POF_NAME_MAX_LENGTH : nat := 64.

(** ** Configuration and features *)

(** [POF_FE_ID] is [g_poflr_dev_id]. *)
Definition POF_FE_ID : St Z := e ← get_env; mret (g_poflr_dev_id e).

Definition poflr_set_config (flags miss_send_len : Z) dv : St (Z * device) :=
  id ← POF_FE_ID; mret (POF_OK, set_config (mkConfig id flags miss_send_len) dv).

Definition config_bytes (c : pof_switch_config) : list Z :=
  le 4 (sc_dev_id c) ++ le 2 (sc_flags c) ++ le 2 (sc_miss_send_len c).
Definition sizeof_pof_switch_config : Z := 8.

Definition poflr_reply_config dv : St Z :=
  body ← lift (pof_HtoN_transfer_switch_config (config_bytes (poflr_switch_config dv)));
  reply_checked POFT_GET_CONFIG_REPLY recv_xid sizeof_pof_switch_config (Some body).

Definition features_bytes (f : pof_switch_features) : list Z :=
  le 4 (sf_dev_id f) ++ le 2 (sf_slotID f) ++ le 2 (sf_port_num f) ++ le 2 (sf_table_num f) ++ zeros 2 ++
  le 4 (sf_capabilities f) ++ sf_vendor_id f ++ sf_dev_fw_id f ++ sf_dev_lkup_id f.
Definition sizeof_pof_switch_features : Z := 208.

Definition poflr_reply_feature_resource lr dv : St (Z * device) :=
  id ← POF_FE_ID;
  let feature := mkFeatures id (lr_slotID lr) (r_num (lr_ports lr)) (r_max (lr_tables lr))
    (Z.lor (Z.lor (Z.lor POFC_FLOW_STATS POFC_TABLE_STATS) POFC_PORT_STATS) POFC_GROUP_STATS)
    (strncpy (str_bytes "Huawei") POF_NAME_MAX_LENGTH)
    (strncpy (g_versionStr dv) POF_NAME_MAX_LENGTH) (strncpy (g_versionStr dv) POF_NAME_MAX_LENGTH) in
  let dv := set_feature feature dv in
  body ← lift (pof_HtoN_transfer_switch_features (features_bytes feature));
  ret ← reply_checked POFT_FEATURES_REPLY recv_xid sizeof_pof_switch_features (Some body);
  mret (ret, dv).

(** ** The table resource *)

Definition poflr_init_table_resource lr dv : St (Z * (pof_local_resource * device)) :=
  '(ret, lr) ← poflr_init_flow_table (poflr_key_len dv) lr;
  if negb (ret =? POF_OK) then mret (ret, (lr, dv)) else
  '(ret, lr) ← poflr_init_group lr;
  if negb (ret =? POF_OK) then mret (ret, (lr, dv)) else
  '(ret, lr) ← poflr_init_meter lr;
  if negb (ret =? POF_OK) then mret (ret, (lr, dv)) else
  '(ret, lr) ← poflr_init_counter lr;
  if negb (ret =? POF_OK) then mret (ret, (lr, dv)) else
  id ← POF_FE_ID;
  let key_len_ptr := poflr_get_key_len lr in
  let old := poflr_table_resource_desc dv in
  descs ← lift (mapM (fun i : nat =>
    num ← tableNumMaxEachType lr !! i;
    len ← key_len_ptr !! i;
    Some (mkDesc id (Z.of_nat i) (u8 num) len (tableSizeMax lr))) [0; 1; 2; 3]%nat);
  mret (POF_OK, (lr, set_desc (mkTableResource (tr_resourceType old) (lr_slotID lr)
    (r_max (lr_counters lr)) (r_max (lr_meters lr)) (r_max (lr_groups lr)) descs) dv)).

(** Reset the device id after the connection with the controller. *)
Definition poflr_reset_dev_id dv : St (Z * device) :=
  id ← POF_FE_ID;
  let d := poflr_table_resource_desc dv in
  mret (POF_OK, set_desc (mkTableResource (tr_resourceType d) (tr_slotID d) (tr_counter_num d) (tr_meter_num d)
    (tr_group_num d) ((fun x => mkDesc id (td_type x) (td_tbl_num x) (td_key_len x) (td_total_size x)) <$> tr_desc d)) dv).

Definition desc_bytes (d : pof_table_resource_desc) : list Z :=
  le 4 (td_device_id d) ++ le 1 (td_type d) ++ le 1 (td_tbl_num d) ++ le 2 (td_key_len d) ++
  le 4 (td_total_size d) ++ zeros 4.
Definition table_resource_bytes (t : pof_flow_table_resource) : list Z :=
  le 1 (tr_resourceType t) ++ zeros 1 ++ le 2 (tr_slotID t) ++ le 4 (tr_counter_num t) ++
  le 4 (tr_meter_num t) ++ le 4 (tr_group_num t) ++ concat (desc_bytes <$> tr_desc t).
Definition sizeof_pof_flow_table_resource : Z := 80.

Definition poflr_reply_table_resource lr dv : St Z :=
  let d := poflr_table_resource_desc dv in
  body ← lift (pof_HtoN_transfer_flow_table_resource (table_resource_bytes
    (mkTableResource (tr_resourceType d) (lr_slotID lr) (tr_counter_num d) (tr_meter_num d) (tr_group_num d) (tr_desc d))));
  reply_checked POFT_RESOURCE_REPORT recv_xid sizeof_pof_flow_table_resource (Some body).

(** ** Query and clear *)

(** [g]: the uninitialised bytes of an entry reply, [unspecified]: the value of
    [poflr_reply_counter_all].  The delay of 0.1 s has no effect on the state. *)
Definition poflr_reply_queryall (g : list Z) (unspecified : Z) lr : St (Z * pof_local_resource) :=
  '(ret, lr) ← poflr_reply_table_all lr;
  if negb (ret =? POF_OK) then mret (ret, lr) else
  '(ret, lr) ← poflr_reply_entry_all g lr;
  if negb (ret =? POF_OK) then mret (ret, lr) else
  '(ret, lr) ← poflr_reply_group_all lr;
  if negb (ret =? POF_OK) then mret (ret, lr) else
  '(ret, lr) ← poflr_reply_meter_all lr;
  if negb (ret =? POF_OK) then mret (ret, lr) else
  '(ret, lr) ← poflr_reply_counter_all unspecified lr;
  if negb (ret =? POF_OK) then mret (ret, lr) else mret (POF_OK, lr).

Definition poflr_clear_resource lr : St (Z * pof_local_resource) :=
  '(_, lr) ← poflr_disable_all_port lr;
  '(_, lr) ← poflr_empty_flow_table lr;
  '(_, lr) ← poflr_empty_group lr;
  '(_, lr) ← poflr_empty_meter lr;
  '(_, lr) ← poflr_empty_counter lr;
  mret (POF_OK, lr).

Definition poflr_get_switch_config dv : pof_switch_config := poflr_switch_config dv.
Definition poflr_get_switch_feature dv : pof_switch_features := poflr_switch_feature dv.
Definition poflr_get_flow_table_resource dv : pof_flow_table_resource := poflr_table_resource_desc dv.

(** ** Lemmas *)

(** Every table object is well-formed. *)
Definition tables_wf lr : Prop := forall p c, r_heap (lr_tables lr) !! p = Some c -> table_wf (c_obj c).

Lemma slot_tables_wf lr : slot_ok lr -> tables_wf lr.
Proof.
  intros S p c Hp. apply (sl_wf _ S (res_id (c_obj c))). apply contents_lookup; [apply S|]. eauto.
Qed.

(** Removing one table: its entries, its index and itself. *)
Lemma empty_table_step lr p c m cs e : res_repr (lr_tables lr) m cs -> tables_wf lr ->
  r_heap (lr_tables lr) !! p = Some c ->
  exists ts m' cs', (t ← lift (load_table p lr);
     t ← empty_entries t; _ ← lift (destroy_table t);
     lr ← lift (store_table p t lr); lr ← lift (map_tableDelete p lr);
     mret (inr (A := Empty_set) lr)) e = Some (inr (set_tables ts lr), e) /\
    res_repr ts m' cs' /\ tables_wf (set_tables ts lr) /\ r_max ts = r_max (lr_tables lr) /\
    exists l1 l2, concat cs = l1 ++ p :: l2 /\ concat cs' = l1 ++ l2.
Proof.
  intros R W Hp. destruct (empty_entries_ok (c_obj c) e (W _ _ Hp)) as (t & E & _ & Wt & Sm).
  assert (res_id t = res_id (c_obj c)) as Ei by (destruct Sm as [-> _]; reflexivity).
  destruct (res_store_repr _ m cs p c t R Hp Ei) as (ts1 & E1 & R1 & M1 & H1).
  assert (r_heap ts1 !! p = Some (Cell (c_hash c) (c_next c) t)) as Hp1 by (rewrite H1; apply lookup_insert_eq).
  destruct (res_delete_ok ts1 m cs p _ R1 Hp1) as (ts2 & m2 & cs2 & E2 & R2 & C2 & M2 & Hl).
  exists ts2, m2, cs2. rewrite run_bind. unfold load_table, res_load. rewrite Hp. cbn [mbind option_bind lift].
  rewrite run_bind, E, run_bind, destroy_table_ok by exact Wt. cbn [lift].
  rewrite run_bind. unfold store_table. rewrite E1. cbn [mbind option_bind lift].
  rewrite run_bind. unfold map_tableDelete. cbn [lr_tables set_tables].
  change (res_wrap (V := tableInfo)) with u16 in E2. rewrite E2. cbn [mbind option_bind lift].
  split; [reflexivity|]. split; [exact R2|]. split; [|split; [congruence|exact Hl]].
  intros q d Hq. cbn [lr_tables set_tables] in Hq.
  assert (contents ts2 !! res_id (c_obj d) = Some (c_obj d)) as Hd
    by (apply contents_lookup; [eexists _, _; exact R2|eauto]).
  rewrite C2 in Hd. apply lookup_delete_Some in Hd as [_ Hd].
  apply contents_lookup in Hd as (q' & d' & Hq' & _ & Ed); [|eexists _, _; exact R1].
  rewrite H1, lookup_insert in Hq'. case_decide as Hpq; [injection Hq' as <-; cbn in Ed; now rewrite <- Ed|].
  rewrite <- Ed. eapply W; eauto.
Qed.

Lemma empty_flow_table_ok lr e : res_ok (lr_tables lr) -> tables_wf lr ->
  exists ts, poflr_empty_flow_table lr e = Some ((POF_OK, set_tables ts lr), e) /\ res_ok ts /\
    contents ts = ∅ /\ r_max ts = r_max (lr_tables lr).
Proof.
  intros (m & cs & R) W. unfold poflr_empty_flow_table. rewrite run_bind.
  match goal with |- context [HMAP_NODES_IN_STRUCT_TRAVERSE ?hm ?body lr e] =>
    destruct (traverse_deletes (Res := Empty_set) hm body
      (fun lr' cs => (exists m, res_repr (lr_tables lr') m cs) /\ tables_wf lr' /\
         r_max (lr_tables lr') = r_max (lr_tables lr) /\ lr' = set_tables (lr_tables lr') lr) e)
      with (s := lr) (cs := cs) as (lr2 & cs2 & E & ((m2 & R2) & W2 & M2 & E2) & Ec) end.
  - intros lr1 cs1 ((m1 & R1) & _). exists (r_heap (lr_tables lr1)), m1. split; [|apply R1].
    unfold res_hm. now rewrite (rr_map _ _ _ R1).
  - intros lr1 cs1 p l ((m1 & R1) & W1 & M1 & E1) Ec.
    destruct (rep_in _ _ _ p (rr_rep _ _ _ R1)) as [c Hp]; [rewrite Ec; left|].
    destruct (empty_table_step lr1 p c m1 cs1 e R1 W1 Hp) as (ts & m2 & cs2 & E & R2 & W2 & M2 & l1 & l2 & L1 & L2).
    assert (l1 = [] /\ l2 = l) as [-> ->].
    { pose proof (rep_nodup _ _ _ (rr_rep _ _ _ R1)) as Nd. rewrite L1 in Nd, Ec.
      destruct (split_nodup l1 l2 [] l p Nd Ec) as [-> ->]. done. }
    exists (set_tables ts lr1), cs2. split; [exact E|]. split; [|exact L2].
    split; [exists m2; exact R2|]. split; [exact W2|]. split; [cbn; congruence|].
    cbn [lr_tables set_tables]. rewrite E1 at 1. reflexivity.
  - split; [eauto|]. split; [exact W|]. split; [done|now destruct lr].
  - rewrite E. exists (lr_tables lr2). cbn [loop_end]. rewrite E2 at 1. split; [reflexivity|].
    split; [eexists _, _; exact R2|]. split; [|exact M2].
    assert (r_heap (lr_tables lr2) = ∅) as Eh by
      (apply map_empty; intros q; destruct (r_heap (lr_tables lr2) !! q) eqn:Hq; [|done];
       assert (q ∈ concat cs2) as Hq' by (apply (rr_live _ _ _ R2); eauto); rewrite Ec in Hq'; now apply elem_of_nil in Hq').
    unfold contents. now rewrite Eh, map_to_list_empty.
Qed.

(** Every map of a slot is well-formed. *)
Record resources_ok lr : Prop := {
  ro_slot : slot_ok lr;
  ro_ports : res_ok (lr_ports lr);
  ro_groups : res_ok (lr_groups lr);
  ro_meters : res_ok (lr_meters lr)
}.

(** The slot holds no table, group, meter or counter. *)
Definition slot_empty lr : Prop :=
  contents (lr_tables lr) = ∅ /\ contents (lr_groups lr) = ∅ /\ contents (lr_meters lr) = ∅ /\
  contents (lr_counters lr) = ∅.

Lemma empty_group_ok lr e : res_ok (lr_groups lr) ->
  exists gs, poflr_empty_group lr e = Some ((POF_OK, set_groups gs lr), e) /\ res_ok gs /\ contents gs = ∅ /\
    r_max gs = r_max (lr_groups lr).
Proof.
  intros Hg. destruct (res_delete_all_ok (lr_groups lr) e Hg) as (gs & E & Ok & C & M & _).
  destruct Hg as (m & cs & R). exists gs. unfold poflr_empty_group. rewrite (rr_map _ _ _ R), run_bind.
  change (res_wrap (V := groupInfo)) with u32 in E. rewrite E. auto.
Qed.

Lemma empty_meter_ok lr e : res_ok (lr_meters lr) ->
  exists ms, poflr_empty_meter lr e = Some ((POF_OK, set_meters ms lr), e) /\ res_ok ms /\ contents ms = ∅ /\
    r_max ms = r_max (lr_meters lr).
Proof.
  intros Hg. destruct (res_delete_all_ok (lr_meters lr) e Hg) as (ms & E & Ok & C & M & _).
  destruct Hg as (m & cs & R). exists ms. unfold poflr_empty_meter. rewrite (rr_map _ _ _ R), run_bind.
  change (res_wrap (V := meterInfo)) with u32 in E. rewrite E. auto.
Qed.

Lemma empty_counter_ok lr e : res_ok (lr_counters lr) ->
  exists cs, poflr_empty_counter lr e = Some ((POF_OK, set_counters cs lr), e) /\ res_ok cs /\ contents cs = ∅ /\
    r_max cs = r_max (lr_counters lr).
Proof.
  intros Hg. destruct (res_delete_all_ok (lr_counters lr) e Hg) as (cs' & E & Ok & C & M & _).
  destruct Hg as (m & cs & R). exists cs'. unfold poflr_empty_counter. rewrite (rr_map _ _ _ R), run_bind.
  change (res_wrap (V := counterInfo)) with u32 in E. rewrite E. auto.
Qed.

(** ** Properties *)

(** Clearing a slot always succeeds and leaves no table, group, meter or
    counter, every port disabled, every map well-formed and every limit as it
    was, whatever the slot held. *)
Theorem clear_resource_empties lr e : resources_ok lr ->
  exists lr', poflr_clear_resource lr e = Some ((POF_OK, lr'), e) /\ resources_ok lr' /\ slot_empty lr' /\
    contents (lr_ports lr') = disabled (contents (lr_ports lr)) /\
    r_max (lr_tables lr') = r_max (lr_tables lr) /\ r_max (lr_groups lr') = r_max (lr_groups lr) /\
    r_max (lr_meters lr') = r_max (lr_meters lr) /\ r_max (lr_counters lr') = r_max (lr_counters lr) /\
    lr_names lr' = lr_names lr /\ lr_slotID lr' = lr_slotID lr /\
    forall q, c_obj <$> r_heap (lr_ports lr') !! q = set_of_enable POFE_DISABLE <$> (c_obj <$> r_heap (lr_ports lr) !! q).
Proof.
  intros [S Hp Hg Hm]. destruct (disable_all_ok lr e Hp) as (ps & E1 & Okp & Cp & Mp & Ho).
  destruct (empty_flow_table_ok (set_ports ps lr) e (sl_tables _ S) (slot_tables_wf _ S)) as (ts & E2 & Okt & Ct & Mt).
  destruct (empty_group_ok (set_tables ts (set_ports ps lr)) e Hg) as (gs & E3 & Okg & Cg & Mg).
  destruct (empty_meter_ok (set_groups gs (set_tables ts (set_ports ps lr))) e Hm) as (ms & E4 & Okm & Cm & Mm).
  destruct (empty_counter_ok (set_meters ms (set_groups gs (set_tables ts (set_ports ps lr)))) e (sl_counters _ S))
    as (cs & E5 & Okc & Cc & Mc).
  eexists. unfold poflr_clear_resource. rewrite run_bind, E1, run_bind, E2, run_bind, E3, run_bind, E4, run_bind, E5.
  split; [reflexivity|]. split; [|split; [done|]].
  - constructor; auto. constructor; cbn [lr_tables lr_counters tableNumMaxEachType set_counters set_meters set_groups set_tables set_ports];
      auto; try apply S; rewrite Ct; intros ID t **; now rewrite lookup_empty in *.
  - cbn. auto 10.
Qed.

(** A resource that was never initialised: nothing in it yet. *)
Definition fresh_resource {V} `{Resource V} (r : resource V) : Prop :=
  r_heap r = ∅ /\ r_num r = res_wrap 0 /\ 0 <= r_max r < 4294967296.

(** Initialising the tables of a slot that holds nothing, when no
    allocation fails, gives well-formed empty maps, and the device's table
    resource describes the slot: per table type its number of tables, the
    configured key length and the table size, and the three limits. *)
Theorem init_table_resource_ok lr dv e n0 n1 n2 n3 :
  fresh_resource (lr_tables lr) -> fresh_resource (lr_groups lr) -> fresh_resource (lr_meters lr) ->
  fresh_resource (lr_counters lr) -> mallocs e = [] -> tableNumMaxEachType lr = [n0; n1; n2; n3] ->
  0 <= n0 -> 0 <= n1 -> 0 <= n2 -> 0 <= n3 ->
  exists lr' dv', poflr_init_table_resource lr dv e = Some ((POF_OK, (lr', dv')), e) /\
    slot_ok lr' /\ res_ok (lr_groups lr') /\ res_ok (lr_meters lr') /\ slot_empty lr' /\ indexed lr' /\
    (lr_ports lr' = lr_ports lr /\ lr_names lr' = lr_names lr /\ lr_slotID lr' = lr_slotID lr /\ lr_portFlag lr' = lr_portFlag lr) /\
    r_max (lr_tables lr') = u16 (n0 + n1 + n2 + n3) /\
    poflr_key_len_each_type lr' = replicate 4 (u16 (poflr_key_len dv)) /\
    poflr_table_resource_desc dv' =
      mkTableResource (tr_resourceType (poflr_table_resource_desc dv)) (lr_slotID lr)
        (r_max (lr_counters lr)) (r_max (lr_meters lr)) (r_max (lr_groups lr))
        ((fun p : Z * Z => mkDesc (g_poflr_dev_id e) p.1 (u8 p.2) (u16 (poflr_key_len dv)) (tableSizeMax lr)) <$>
           [(0, n0); (1, n1); (2, n2); (3, n3)]).
Proof.
  intros (Ht & Nt & _) (Hg & Ng & Mg) (Hm & Nm & Mm) (Hc & Nc & Mc) Q En P0 P1 P2 P3.
  set (kl := replicate (Z.to_nat POF_MAX_TABLE_TYPE) (u16 (poflr_key_len dv))).
  set (tmax := foldl (fun s x => u16 (s + x)) 0 [n0; n1; n2; n3]).
  assert (tmax = u16 (n0 + n1 + n2 + n3)) as Et 
    by (unfold tmax; cbn [foldl]; rewrite (u16_add (0 + n0)), (u16_add (0 + n0 + n1)), u16_add; f_equal; lia).
  assert (0 <= tmax < 65536) as Bt by (rewrite Et; apply Z.mod_pos_bound; lia).
  destruct (res_init_ok (Res (r_heap (lr_tables lr)) (r_map (lr_tables lr)) (r_num (lr_tables lr)) tmax) e)
    as (ts & E1 & Okt & Ct & Xt); [cbn [r_max]; lia|exact Q|exact Ht|exact Nt|].
  destruct (res_init_ok (lr_groups lr) e Mg Q Hg Ng) as (gs & E2 & Okg & Cg & Xg).
  destruct (res_init_ok (lr_meters lr) e Mm Q Hm Nm) as (ms & E3 & Okm & Cm & Xm).
  destruct (res_init_ok (lr_counters lr) e Mc Q Hc Nc) as (cs & E4 & Okc & Cc & Xc).
  set (lr' := set_counters cs (set_meters ms (set_groups gs (set_tables ts (set_key_lens kl lr))))).
  exists lr'. eexists. unfold poflr_init_table_resource.
  assert (poflr_init_flow_table (poflr_key_len dv) lr e = Some ((POF_OK, set_tables ts (set_key_lens kl lr)), e)) as I1.
  { unfold poflr_init_flow_table. rewrite run_bind. cbn [tableNumMaxEachType set_key_lens lr_tables].
    rewrite En. cbn [length Nat.ltb Nat.leb take lift]. fold tmax. now rewrite run_bind, E1. }
  assert (poflr_init_group (set_tables ts (set_key_lens kl lr)) e =
    Some ((POF_OK, set_groups gs (set_tables ts (set_key_lens kl lr))), e)) as I2
    by (unfold poflr_init_group; rewrite run_bind; cbn [lr_groups set_tables set_key_lens]; now rewrite E2).
  assert (poflr_init_meter (set_groups gs (set_tables ts (set_key_lens kl lr))) e =
    Some ((POF_OK, set_meters ms (set_groups gs (set_tables ts (set_key_lens kl lr)))), e)) as I3
    by (unfold poflr_init_meter; rewrite run_bind; cbn [lr_meters set_groups set_tables set_key_lens]; now rewrite E3).
  assert (poflr_init_counter (set_meters ms (set_groups gs (set_tables ts (set_key_lens kl lr)))) e = Some ((POF_OK, lr'), e)) as I4
    by (unfold poflr_init_counter; rewrite run_bind; cbn [lr_counters set_meters set_groups set_tables set_key_lens]; now rewrite E4).
  rewrite run_bind, I1. change (POF_OK =? POF_OK) with true. cbn [negb].
  rewrite run_bind, I2. change (POF_OK =? POF_OK) with true. cbn [negb].
  rewrite run_bind, I3. change (POF_OK =? POF_OK) with true. cbn [negb].
  rewrite run_bind, I4. change (POF_OK =? POF_OK) with true. cbn [negb].
  split.
  - rewrite run_bind. unfold POF_FE_ID. rewrite run_bind. unfold get_env, mret at 1, St_ret. cbv beta iota.
    rewrite run_bind. unfold poflr_get_key_len.
    assert (tableNumMaxEachType lr' = [n0; n1; n2; n3]) as -> by exact En.
    cbn. reflexivity.
  - split; [constructor|]; cbn [lr' lr_tables lr_counters lr_groups lr_meters tableNumMaxEachType
      set_counters set_meters set_groups set_tables set_key_lens]; auto.
    + rewrite Ct. intros ID t Hl. now rewrite lookup_empty in Hl.
    + now rewrite En.
    + rewrite En. auto.
    + rewrite Ct. intros ID t p en Hl. now rewrite lookup_empty in Hl.
    + split; [done|]. split; [done|]. split; [done|].
      split; [intros ID t p en Hl; cbn [lr' lr_tables set_counters set_meters set_groups set_tables] in Hl; rewrite Ct in Hl; now rewrite lookup_empty in Hl|].
      split; [done|]. split; [rewrite Xt; exact Et|]. split; [reflexivity|].
      cbn [poflr_table_resource_desc set_desc lr_groups lr_meters lr_counters lr_slotID tableSizeMax]. rewrite Xg, Xm, Xc. reflexivity.
Qed.

(** ** Witnesses *)

Definition device_example : device :=
  mkDevice (mkConfig 0 0 0) (mkFeatures 0 0 0 0 0 (zeros 64) (zeros 64) (zeros 64))
    (mkTableResource 0 0 0 0 0 []) 160 (str_bytes "POFSwitch-1.4.0.015").

Lemma lr_table_resources : resources_ok lr_table.
Proof. constructor; [apply lr_table_ok|apply res_none_ok|apply res_none_ok|apply res_none_ok]. Qed.

Lemma clear_resource_empties_witness :
  exists lr', poflr_clear_resource lr_table (env_init POFCS_CHANNEL_RUN [] []) =
    Some ((POF_OK, lr'), env_init POFCS_CHANNEL_RUN [] []) /\ slot_empty lr'.
Proof.
  destruct (clear_resource_empties lr_table (env_init POFCS_CHANNEL_RUN [] []) lr_table_resources)
    as (lr' & E & _ & Em & _).
  exists lr'. split; [exact E|exact Em].
Defined.

Definition lr_fresh : pof_local_resource :=
  mkLR 0 (res_none 8) (Res ∅ None 0 0) [10; 10; 10; 10] 1000 [] (Res ∅ None 0 128) (Res ∅ None 0 128) (Res ∅ None 0 512) (res_none 8) 0.

Lemma init_table_resource_ok_witness :
  exists lr' dv', poflr_init_table_resource lr_fresh device_example (env_init POFCS_CHANNEL_RUN [] []) =
    Some ((POF_OK, (lr', dv')), env_init POFCS_CHANNEL_RUN [] []) /\ slot_ok lr' /\ r_max (lr_tables lr') = 40.
Proof.
  destruct (init_table_resource_ok lr_fresh device_example (env_init POFCS_CHANNEL_RUN [] []) 10 10 10 10)
    as (lr' & dv' & E & S & _ & _ & _ & _ & _ & M & _);
    try (split; [reflexivity|split; [reflexivity|by_decide]]); try reflexivity; try lia.
  exists lr', dv'. split; [exact E|]. split; [exact S|]. rewrite M. reflexivity.
Defined.
