(* ===== verification/Parse.v ===== *)
(** * Messages from the controller (switch_control/pof_parse.c)

    The slots of the datapath, the decoding of message bodies out of the
    receive buffer, and [pof_parse_msg_from_controller]: the dispatch on the
    message type that runs a handler on the slots and builds the reply. *)

From S2P Require Import Prelude Bits Codec Env Hmap IdMap Tree LocalRes ByteTransfer Port Counter Meter Group FlowEntry FlowTable Slot.
From Stdlib Require String.
Import String.StringSyntax.
#[local] Open Scope string_scope.

Implicit Types (lr : pof_local_resource).

(** ** The datapath and its slots *)

(** [slotNum] counts the slots of [slotMap]; the map is keyed by slot id. *)
#[export] Instance slot_resource : Resource pof_local_resource :=
  { res_id := lr_slotID;
    res_zero := mkLR 0 (Res ∅ None 0 0) (Res ∅ None 0 0) (replicate 4 0) 0 (replicate 4 0)
                  (Res ∅ None 0 0) (Res ∅ None 0 0) (Res ∅ None 0 0) (Res ∅ None 0 0) 0;
    res_wrap := u32; res_wrap_wrap := u32_add }.

Record pof_datapath := mkDp { slotMap : resource pof_local_resource; dp_device : device }.
Implicit Types (dp : pof_datapath).

Definition set_slots ss dp := mkDp ss (dp_device dp).
Definition set_device dv dp := mkDp (slotMap dp) dv.

Definition pofdp_get_local_resource (slot : Z) dp : option (option addr) :=
  res_get (hmap_hashForLinear slot) (slotMap dp).

(** [HMAP_NODES_IN_STRUCT_TRAVERSE(lr, next, slotNode, dp->slotMap)] around a
    handler: [ret] keeps the value of the last slot. *)
Definition each_slot (f : pof_local_resource -> St (Z * pof_local_resource)) dp : St (Z * pof_datapath) :=
  res ← HMAP_NODES_IN_STRUCT_TRAVERSE (R := Empty_set) (fun s => res_hm s.2)
    (fun p '(ret, ss) =>
       lr ← lift (res_load p ss);
       '(ret, lr) ← f lr;
       ss ← lift (res_store p lr ss);
       mret (inr (ret, ss))) (POF_OK, slotMap dp);
  let '(ret, ss) := loop_end res in mret (ret, set_slots ss dp).

(** The same with [POF_CHECK_RETVALUE_RETURN_NO_UPWARD(ret)] in the body; the
    first component of the result tells whether the function returned. *)
Definition each_slot_checked (f : pof_local_resource -> device -> St (Z * (pof_local_resource * device))) dp
  : St (Z * pof_datapath) :=
  res ← HMAP_NODES_IN_STRUCT_TRAVERSE (R := Z * (resource pof_local_resource * device)) (fun s => res_hm s.1)
    (fun p '(ss, dv) =>
       lr ← lift (res_load p ss);
       '(ret, (lr, dv)) ← f lr dv;
       ss ← lift (res_store p lr ss);
       if negb (ret =? POF_OK) then mret (inl (ret, (ss, dv))) else mret (inr (ss, dv))) (slotMap dp, dp_device dp);
  match res with
  | inl (ret, (ss, dv)) => mret (ret, mkDp ss dv)
  | inr (ss, dv) => mret (POF_OK, mkDp ss dv)
  end.

(** A handler run on one slot. *)
Definition on_slot (slot : Z) (f : pof_local_resource -> St (Z * pof_local_resource)) dp : St (Z * pof_datapath) :=
  found ← lift (pofdp_get_local_resource slot dp);
  match found with
  | None => x ← recv_xid; r ← POF_ERROR_HANDLE_RETURN_UPWARD POFET_SOFTWARE_FAILED POF_INVALID_SLOT_ID x; mret (r, dp)
  | Some p =>
      lr ← lift (res_load p (slotMap dp));
      '(ret, lr) ← f lr;
      ss ← lift (res_store p lr (slotMap dp));
      mret (ret, set_slots ss dp)
  end.

(** ** Message bodies, in host order: [m] is the memory at the body *)

Definition room (n : Z) (m : list Z) : option unit := if blen m <? n then None else Some tt.

Definition read_match (m : list Z) (off : nat) : pof_match :=
  mkMatch (fld m off 2) (fld m (off + 2) 2) (fld m (off + 4) 2).
Definition read_match_x (m : list Z) (off : nat) : pof_match_x :=
  mkMatchX (fld m off 2) (fld m (off + 2) 2) (fld m (off + 4) 2)
    (take 16 (drop (off + 8) m)) (take 16 (drop (off + 24) m)).
Definition read_action (m : list Z) (off : nat) : pof_action :=
  mkAction (fld m off 2) (fld m (off + 2) 2) (take 44 (drop (off + 4) m)).
Definition read_instruction (m : list Z) (off : nat) : pof_instruction :=
  mkInstruction (fld m off 2) (fld m (off + 2) 2) (take 296 (drop (off + 8) m)).

(** [n] structs of [size] bytes from [off] on. *)
Definition read_array {A} (f : list Z -> nat -> A) (size n off : nat) (m : list Z) : list A :=
  (fun i => f m (off + i * size)%nat) <$> seq 0 n.

Definition read_flow_table (m : list Z) : pof_flow_table :=
  mkFlowTable (fld m 0 1) (fld m 1 1) (fld m 2 1) (fld m 3 1) (fld m 4 4) (fld m 8 2) (fld m 10 2)
    (take 64 (drop 16 m)) (read_array read_match 8 8 80 m).
Definition read_flow_entry (m : list Z) : pof_flow_entry :=
  mkFlowEntry (fld m 0 1) (fld m 1 1) (fld m 2 1) (fld m 4 4) (fld m 8 8) (fld m 16 8) (fld m 24 1) (fld m 25 1)
    (fld m 26 2) (fld m 28 2) (fld m 30 2) (fld m 32 4) (fld m 36 2)
    (read_array read_match_x 40 8 40 m) (read_array read_instruction 304 6 360 m).
Definition read_meter (m : list Z) : pof_meter := mkMeter (fld m 0 1) (fld m 2 2) (fld m 4 4) (fld m 8 4).
Definition read_group (m : list Z) : pof_group :=
  mkGroup (fld m 0 1) (fld m 1 1) (fld m 2 1) (fld m 4 4) (fld m 8 4) (fld m 12 2) (read_array read_action 48 4 16 m).
Definition read_counter (m : list Z) : pof_counter :=
  mkCounter (fld m 0 1) (fld m 2 2) (fld m 4 4) (fld m 8 8) (fld m 16 8).

(** ** Commands *)

Definition POFTC_ADD : Z := 0.
Definition POFTC_DELETE : Z := 2.
Definition POFMC_ADD : Z := 0.
Definition POFMC_MODIFY : Z := 1.
Definition POFMC_DELETE : Z := 2.
Definition POFGC_ADD : Z := 0.
Definition POFGC_MODIFY : Z := 1.
Definition POFGC_DELETE : Z := 2.
Definition POFCC_ADD : Z := 0.
Definition POFCC_DELETE : Z := 1.
Definition POFCC_CLEAR : Z := 2.
Definition POFFC_ADD : Z := 0.
Definition POFFC_MODIFY : Z := 1.
Definition POFFC_DELETE : Z := 3.
Definition POFSID_ALL : Z := 0xFFFF.
Definition POFBRC_BAD_TYPE := EC 1 "POFBRC_BAD_TYPE".
Definition POFFMFC_BAD_COMMAND := EC 6 "POFFMFC_BAD_COMMAND".
Definition POFGMFC_BAD_COMMAND := EC 11 "POFGMFC_BAD_COMMAND".

(** ** The dispatch *)

(** Convert the body of a message in place. *)
Definition body_at (off : nat) (f : list Z -> option (list Z)) (msg : list Z) : option (list Z) :=
  b ← f (drop off msg); Some (take off msg ++ b).

Definition bad_command (type code : ecode) dp : St (Z * pof_datapath) :=
  x ← recv_xid; r ← POF_ERROR_HANDLE_RETURN_UPWARD type code x; mret (r, dp).

(** Each case of the switch, on the converted body [m]. *)
Definition parse_SET_CONFIG (m : list Z) dp : St (Z * pof_datapath) :=
  '(ret, dv) ← poflr_set_config (fld m 4 2) (fld m 6 2) (dp_device dp); mret (ret, set_device dv dp).

Definition parse_GET_CONFIG_REQUEST dp : St (Z * pof_datapath) :=
  ret ← poflr_reply_config (dp_device dp);
  if negb (ret =? POF_OK) then mret (ret, dp) else
  '(ret, dp) ← each_slot_checked (fun lr dv => ret ← poflr_reply_table_resource lr dv; mret (ret, (lr, dv))) dp;
  if negb (ret =? POF_OK) then mret (ret, dp) else
  each_slot_checked (fun lr dv => '(ret, lr) ← poflr_reply_port_resource lr; mret (ret, (lr, dv))) dp.

Definition parse_PORT_MOD (m : list Z) dp : St (Z * pof_datapath) :=
  on_slot (fld m 0 2) (poflr_port_openflow_enable (fld m 2 2) (fld m 112 1)) dp.

Definition parse_FEATURES_REQUEST dp : St (Z * pof_datapath) :=
  '(ret, dv) ← poflr_reset_dev_id (dp_device dp);
  let dp := set_device dv dp in
  if negb (ret =? POF_OK) then mret (ret, dp) else
  each_slot_checked (fun lr dv => '(ret, dv) ← poflr_reply_feature_resource lr dv; mret (ret, (lr, dv))) dp.

Definition parse_TABLE_MOD (m : list Z) dp : St (Z * pof_datapath) :=
  let t := read_flow_table m in
  if ft_command t =? POFTC_ADD then
    each_slot (poflr_create_flow_table (ft_tid t) (ft_type t) (ft_key_len t) (ft_size t) (ft_table_name t)
                 (ft_match_field_num t) (ft_match t)) dp
  else if ft_command t =? POFTC_DELETE then each_slot (poflr_delete_flow_table (ft_tid t) (ft_type t)) dp
  else bad_command POFET_TABLE_MOD_FAILED POFTMFC_BAD_COMMAND dp.

Definition parse_FLOW_MOD (m : list Z) dp : St (Z * pof_datapath) :=
  let f := read_flow_entry m in
  if fe_command f =? POFFC_ADD then each_slot (poflr_add_flow_entry f) dp
  else if fe_command f =? POFFC_DELETE then each_slot (poflr_delete_flow_entry f) dp
  else if fe_command f =? POFFC_MODIFY then each_slot (poflr_modify_flow_entry f) dp
  else bad_command POFET_FLOW_MOD_FAILED POFFMFC_BAD_COMMAND dp.

Definition parse_METER_MOD (m : list Z) dp : St (Z * pof_datapath) :=
  let p := read_meter m in
  if pm_command p =? POFMC_ADD then each_slot (poflr_add_meter_entry (pm_meter_id p) (pm_rate p)) dp
  else if pm_command p =? POFMC_MODIFY then each_slot (poflr_modify_meter_entry (pm_meter_id p) (pm_rate p)) dp
  else if pm_command p =? POFMC_DELETE then each_slot (poflr_delete_meter_entry (pm_meter_id p) (pm_rate p)) dp
  else bad_command POFET_METER_MOD_FAILED POFMMFC_BAD_COMMAND dp.

Definition parse_GROUP_MOD (m : list Z) dp : St (Z * pof_datapath) :=
  let g := read_group m in
  if pg_command g =? POFGC_ADD then each_slot (poflr_add_group_entry g) dp
  else if pg_command g =? POFGC_MODIFY then each_slot (poflr_modify_group_entry g) dp
  else if pg_command g =? POFGC_DELETE then each_slot (poflr_delete_group_entry g) dp
  else bad_command POFET_GROUP_MOD_FAILED POFGMFC_BAD_COMMAND dp.

Definition parse_COUNTER_MOD (m : list Z) dp : St (Z * pof_datapath) :=
  let c := read_counter m in
  if pc_command c =? POFCC_CLEAR then each_slot (poflr_counter_clear (pc_counter_id c)) dp
  else if pc_command c =? POFCC_ADD then each_slot (poflr_counter_init (pc_counter_id c)) dp
  else if pc_command c =? POFCC_DELETE then each_slot (poflr_counter_delete (pc_counter_id c)) dp
  else bad_command POFET_COUNTER_MOD_FAILED POFCMFC_BAD_COMMAND dp.

Definition parse_COUNTER_REQUEST (m : list Z) dp : St (Z * pof_datapath) :=
  let c := read_counter m in
  each_slot_checked (fun lr dv => '(ret, lr) ← poflr_get_counter_value (pc_counter_id c) lr; mret (ret, (lr, dv))) dp.

(** [g] and [unspecified] as in [poflr_reply_queryall]. *)
Definition parse_QUERYALL_REQUEST (g : list Z) (unspecified : Z) (m : list Z) dp : St (Z * pof_datapath) :=
  '(ret, dp) ← (if fld m 0 2 =? POFSID_ALL then
                  each_slot_checked (fun lr dv => '(ret, lr) ← poflr_reply_queryall g unspecified lr; mret (ret, (lr, dv))) dp
                else on_slot (fld m 0 2) (poflr_reply_queryall g unspecified) dp);
  if negb (ret =? POF_OK) then mret (ret, dp) else
  r ← reply_checked POFT_QUERYALL_FIN recv_xid 0 None;
  mret (r, dp).

(** What a case converts and how much of the body it uses. *)
Definition message_case (g : list Z) (unspecified : Z) (msg_type : Z)
  : option (nat * Z * (list Z -> option (list Z)) * (list Z -> pof_datapath -> St (Z * pof_datapath))) :=
  if msg_type =? POFT_SET_CONFIG then Some (8%nat, 8, pof_HtoN_transfer_switch_config, parse_SET_CONFIG)
  else if msg_type =? POFT_PORT_MOD then Some (16%nat, 120, pof_NtoH_transfer_port, parse_PORT_MOD)
  else if msg_type =? POFT_TABLE_MOD then Some (8%nat, 144, pof_NtoH_transfer_flow_table, parse_TABLE_MOD)
  else if msg_type =? POFT_FLOW_MOD then Some (8%nat, 2184, pof_NtoH_transfer_flow_entry, parse_FLOW_MOD)
  else if msg_type =? POFT_METER_MOD then Some (8%nat, 16, pof_NtoH_transfer_meter, parse_METER_MOD)
  else if msg_type =? POFT_GROUP_MOD then Some (8%nat, 208, pof_NtoH_transfer_group, parse_GROUP_MOD)
  else if msg_type =? POFT_COUNTER_MOD then Some (8%nat, 24, pof_NtoH_transfer_counter, parse_COUNTER_MOD)
  else if msg_type =? POFT_COUNTER_REQUEST then Some (8%nat, 24, pof_NtoH_transfer_counter, parse_COUNTER_REQUEST)
  else if msg_type =? POFT_QUERYALL_REQUEST then
    Some (8%nat, 8, pof_HtoN_transfer_queryall_request, parse_QUERYALL_REQUEST g unspecified)
  else None.

(** The message is converted in place; the result is the return code, the buffer
    and the datapath.  A POFT_PACKET_OUT message executes its actions with the
    local variable [lr], which is never assigned on that path: undefined. *)
Definition pof_parse_msg_from_controller (g : list Z) (unspecified : Z) (msg : list Z) dp
  : St (Z * (list Z * pof_datapath)) :=
  msg ← lift (pof_NtoH_transfer_header msg);
  let msg_type := fld msg 1 1 in
  _ ← mod_env (set_recv_xid (fld msg 4 4));
  match message_case g unspecified msg_type with
  | Some (off, size, conv, handler) =>
      msg ← lift (body_at off conv msg);
      let m := drop off msg in
      _ ← lift (room size m);
      '(ret, dp) ← handler m dp;
      mret (ret, (msg, dp))
  | None =>
      if msg_type =? POFT_ECHO_REQUEST then
        ret ← reply_checked POFT_ECHO_REPLY recv_xid 0 None; mret (ret, (msg, dp))
      else if msg_type =? POFT_GET_CONFIG_REQUEST then
        '(ret, dp) ← parse_GET_CONFIG_REQUEST dp; mret (ret, (msg, dp))
      else if msg_type =? POFT_FEATURES_REQUEST then
        '(ret, dp) ← parse_FEATURES_REQUEST dp; mret (ret, (msg, dp))
      else if msg_type =? POFT_PACKET_OUT then
        _ ← lift (body_at 8 pof_NtoH_transfer_packet_out msg); fault
      else
        x ← recv_xid; ret ← POF_ERROR_HANDLE_RETURN_UPWARD POFET_BAD_REQUEST POFBRC_BAD_TYPE x;
        mret (ret, (msg, dp))
  end.
