(* ===== verification/ParseSpec.v ===== *)
(** * Requests keep the slots well-formed

    The composition of the components: every resource handler, run on a
    well-formed slot in a working environment, returns and leaves the slot
    well-formed; the loop over the slots lifts this to the datapath, and
    [pof_parse_msg_from_controller] to any message that changes resources. *)

From S2P Require Import Prelude Bits Codec Env Hmap IdMap Tree LocalRes ByteTransfer Port Counter Meter Group FlowEntry FlowTable FlowSpec FlowOps TableOps Slot Parse.

Implicit Types (lr : pof_local_resource) (dp : pof_datapath).

Record dp_ok dp : Prop := {
  dp_slots : res_ok (slotMap dp);
  dp_resources : forall id lr, contents (slotMap dp) !! id = Some lr -> resources_ok lr
}.

(** Nothing but errors is told to the controller. *)
Definition complains (e e' : env) : Prop := exists errors, told errors e e'.

#[export] Instance complains_preorder : PreOrder complains.
Proof.
  split; [intros e; exists []; constructor|]. intros e1 e2 e3 [r1 H1] [r2 H2]. exists (r1 ++ r2). eapply told_app; eauto.
Qed.

Lemma complains_refused type code e e' : refused type code e e' -> complains e e'.
Proof. intros R. exists [(type, code)]. now apply told_one. Qed.

(** A handler that always returns and keeps the slot; nothing but errors is
    told. *)
Definition serves (f : pof_local_resource -> St (Z * pof_local_resource)) lr : Prop :=
  forall e, env_ok e -> quiet e ->
  exists ret lr' e', f lr e = Some ((ret, lr'), e') /\ resources_ok lr' /\ lr_slotID lr' = lr_slotID lr /\
    complains e e'.

(** ** The loop over the slots *)

Lemma complains_quiet e e' : env_ok e -> quiet e -> complains e e' -> env_ok e' /\ quiet e'.
Proof. intros Ok Q [r H%told_reported]; [|exact Ok]. split; [apply H|eapply quiet_reported; eauto]. Qed.

Lemma each_slot_serves f dp e : dp_ok dp -> env_ok e -> quiet e ->
  (forall id lr, contents (slotMap dp) !! id = Some lr -> serves f lr) ->
  exists ret dp' e', each_slot f dp e = Some ((ret, dp'), e') /\ dp_ok dp' /\ complains e e' /\
    dp_device dp' = dp_device dp.
Proof.
  intros [Hs Hr] Ok Q Hf. pose proof Hs as (m & cs & R). unfold each_slot.
  match goal with |- context [HMAP_NODES_IN_STRUCT_TRAVERSE ?hm ?body _] =>
    destruct (traverse_invariant (Res := Empty_set) hm body
      (fun visited s e' => res_repr s.2 m cs /\ complains e e' /\
         (forall q c, r_heap s.2 !! q = Some c -> resources_ok (c_obj c)) /\
         (forall q c, q ∉ visited -> r_heap s.2 !! q = Some c ->
            exists c0, r_heap (slotMap dp) !! q = Some c0 /\ c_obj c0 = c_obj c))
      (fun _ _ => False) cs) with (s := (POF_OK, slotMap dp)) (e := e)
      as [([ret ss] & e' & E & R' & Rep & Hall & _)|(? & ? & _ & [])] end.
  - intros visited [ret ss] e1 (R1 & _). exists (r_heap ss), m. cbn [snd] in *. split; [|apply R1].
    unfold res_hm. now rewrite (rr_map _ _ _ R1).
  - intros visited p rest [ret ss] e1 Ec (R1 & Rep1 & Hall & Hold). cbn [snd] in *. left.
    assert (p ∉ visited) as Hnp.
    { pose proof (rep_nodup _ _ _ (rr_rep _ _ _ R)) as Nd. rewrite Ec in Nd.
      apply NoDup_app in Nd as (_ & Nd & _). intros Hv. apply (Nd p Hv). left. }
    destruct (rep_in _ _ _ p (rr_rep _ _ _ R1)) as [c Hp]; [rewrite Ec; apply elem_of_app; right; left|].
    destruct (Hold p c Hnp Hp) as (c0 & Hp0 & E0).
    assert (contents (slotMap dp) !! res_id (c_obj c) = Some (c_obj c)) as Hcon
      by (apply contents_lookup; [done|]; exists p, c0; rewrite E0; auto).
    destruct (complains_quiet e e1 Ok Q Rep1) as [Ok1 Q1].
    destruct (Hf _ _ Hcon e1 Ok1 Q1) as (ret2 & lr2 & e2 & E2 & Hlr2 & Hid & Rep2).
    destruct (res_store_repr ss m cs p c lr2 R1 Hp Hid) as (ss2 & E3 & R3 & _ & H3).
    exists (ret2, ss2), e2. rewrite run_bind. unfold res_load. rewrite Hp. cbn [mbind option_bind lift].
    rewrite run_bind, E2, run_bind, E3. cbn [lift]. split; [reflexivity|]. cbn [snd].
    split; [exact R3|]. split; [now trans e1|]. rewrite H3. split.
    + intros q d. rewrite lookup_insert. case_decide; [intros [= <-]; exact Hlr2|eauto].
    + intros q d Hq. rewrite lookup_insert. case_decide as Hpq.
      * subst. destruct Hq. apply elem_of_app. right. left.
      * apply Hold. intros Hv. apply Hq. apply elem_of_app. now left.
  - cbn [snd]. split; [exact R|]. split; [reflexivity|]. split; [|eauto].
    intros q c Hq. apply (Hr (res_id (c_obj c))). apply contents_lookup; [done|]. eauto.
  - cbn [snd] in *. exists ret, (set_slots ss dp), e'. rewrite run_bind, E. split; [reflexivity|].
    split; [|split; [exact Rep|reflexivity]]. constructor; cbn [slotMap set_slots].
    + eexists _, _; exact R'.
    + intros id lr (q & c & Hq & _ & <-)%contents_lookup; [eauto|eexists _, _; exact R'].
Qed.

Lemma on_slot_serves slot f dp e : dp_ok dp -> env_ok e -> quiet e -> 0 <= slot ->
  (forall id lr, contents (slotMap dp) !! id = Some lr -> serves f lr) ->
  exists ret dp' e', on_slot slot f dp e = Some ((ret, dp'), e') /\ dp_ok dp' /\ complains e e' /\
    dp_device dp' = dp_device dp.
Proof.
  intros [Hs Hr] Ok Q H0 Hf. unfold on_slot, pofdp_get_local_resource, hmap_hashForLinear.
  destruct (res_get_ok (slotMap dp) slot Hs H0) as (o & E & Ho). rewrite run_bind, E. cbn [lift].
  destruct o as [p|].
  - destruct Ho as (c & Hp & _ & Hid & Hcon). rewrite run_bind. unfold res_load. rewrite Hp.
    cbn [mbind option_bind lift]. destruct (Hf _ _ Hcon e Ok Q) as (ret & lr & e' & E2 & Hlr & Hi & Rep).
    destruct (res_store_ok (slotMap dp) p c lr Hs Hp Hi) as (ss & E3 & Okss & C & _).
    rewrite run_bind, E2, run_bind, E3. cbn [lift]. exists ret, (set_slots ss dp), e'. split; [reflexivity|].
    split; [|split; [exact Rep|reflexivity]]. constructor; cbn [slotMap set_slots]; [done|].
    rewrite C. intros id lr0 [[_ <-]|[_ ?]]%lookup_insert_Some; eauto.
  - destruct (recv_then (fun ret => mret (ret, dp)) e POFET_SOFTWARE_FAILED POF_INVALID_SLOT_ID Ok Q ltac:(by_decide))
      as (e' & E' & Rep).
    eexists _, dp, e'. split; [exact E'|]. split; [constructor; auto|].
    split; [eapply complains_refused; eexists; exact Rep|reflexivity].
Qed.

(** ** The handlers *)

Lemma resources_counters lr lr' a : resources_ok lr -> done_with lr lr' a -> resources_ok lr' /\ lr_slotID lr' = lr_slotID lr.
Proof.
  intros [S P G M] (Okc & _ & _ & El). split; [|rewrite El; reflexivity].
  constructor; [|rewrite El; exact P|rewrite El; exact G|rewrite El; exact M].
  destruct S. constructor; first [exact Okc | rewrite El; assumption | assumption].
Qed.

Lemma counter_serves op lr : resources_ok lr -> 0 <= counter_id_of op ->
  match op with CCount _ _ => False | _ => True end -> serves (counter_run op) lr.
Proof.
  intros Hr Hi Hop e Ok Q. pose proof (sl_counters _ (ro_slot _ Hr)) as Hc.
  assert (counter_meets lr e (counter_run op lr e)
    (counter_step (r_max (lr_counters lr)) (contents (lr_counters lr)) op)) as H.
  { destruct op; cbn [counter_run] in *; [apply counter_init_meets|apply counter_delete_meets|apply counter_clear_meets|done]; auto. }
  destruct (counter_step _ _ op) as [|type code|a] eqn:Es.
  - unfold counter_step in Es. destruct op; cbn [counter_id_of] in Es; repeat (case_match; try discriminate); done.
  - destruct H as (e' & E & R). exists (err_ret code), lr, e'. split; [exact E|]. split; [done|]. split; [done|].
    eapply complains_refused; eauto.
  - destruct H as (lr' & E & D). destruct (resources_counters _ _ _ Hr D) as [Hr' Hid].
    exists POF_OK, lr', e. split; [exact E|]. split; [done|]. split; [done|reflexivity].
Qed.

Lemma meter_serves op lr : resources_ok lr -> 0 <= meter_id_of op -> serves (meter_run op) lr.
Proof.
  intros Hr Hi e Ok Q. pose proof (meter_run_meets op lr e (ro_meters _ Hr) Ok Q Hi) as H.
  destruct (meter_step _ _ op) as [|type code|a] eqn:Es.
  - unfold meter_step in Es. destruct op; cbn [meter_id_of] in Es; repeat (case_match; try discriminate).
  - destruct H as (e' & E & R). exists (err_ret code), lr, e'. split; [exact E|]. split; [done|]. split; [done|].
    eapply complains_refused; eauto.
  - destruct H as (lr' & E & Okm & _ & _ & El). exists POF_OK, lr', e. split; [exact E|].
    destruct Hr as [S P G M]. split; [|split; [rewrite El; reflexivity|reflexivity]].
    constructor; [|rewrite El; exact P|rewrite El; exact G|exact Okm].
    destruct S. constructor; rewrite El; assumption.
Qed.

Lemma group_serves op lr : resources_ok lr -> 0 <= pg_group_id (group_of op) -> 0 <= pg_counter_id (group_of op) ->
  pg_action_number (group_of op) <= 4 -> serves (group_run op) lr.
Proof.
  intros Hr Hi Hc Hn e Ok Q. pose proof (sl_counters _ (ro_slot _ Hr)) as Hcs.
  pose proof (group_run_meets op lr e (ro_groups _ Hr) Hcs Ok Q Hi Hc) as H.
  destruct (group_step _ _ _ op) as [|type code|s] eqn:Es.
  - unfold group_step, counter_step in Es.
    rewrite (proj2 (Z.ltb_ge POF_MAX_ACTION_NUMBER_PER_GROUP _)) in Es by exact Hn.
    destruct op; cbn [counter_id_of group_of] in Es; repeat (case_match; try discriminate).
  - destruct H as (e' & E & R). exists (err_ret code), lr, e'. split; [exact E|]. split; [done|]. split; [done|].
    eapply complains_refused; eauto.
  - destruct H as (lr' & E & Okg & Okc & _ & _ & _ & _ & El). exists POF_OK, lr', e. split; [exact E|].
    destruct Hr as [S P G M]. split; [|split; [rewrite El; reflexivity|reflexivity]].
    constructor; [|rewrite El; exact P|exact Okg|rewrite El; exact M].
    destruct S. constructor; first [exact Okc | rewrite El; assumption | assumption].
Qed.

Lemma resources_slot lr lr' : resources_ok lr -> slot_ok lr' ->
  lr_ports lr' = lr_ports lr -> lr_groups lr' = lr_groups lr -> lr_meters lr' = lr_meters lr -> resources_ok lr'.
Proof. intros [_ P G M] S Ep Eg Em. constructor; [done|now rewrite Ep|now rewrite Eg|now rewrite Em]. Qed.

Lemma flow_serves op fe lr : resources_ok lr -> 0 <= fe_counter_id fe ->
  (forall ID t, flow_target lr fe = Done (ID, t) -> acceptable op fe t) -> serves (flow_run op fe) lr.
Proof.
  intros Hr Hc Ha e Ok Q. pose proof (flow_run_spec op fe lr e (ro_slot _ Hr) Ok Q Hc) as H.
  destruct (flow_target lr fe) as [|type code|[ID t]] eqn:Et; [done| |].
  - destruct H as (e' & E & R). exists (err_ret code), lr, e'. split; [exact E|]. split; [done|]. split; [done|].
    eapply complains_refused; eauto.
  - destruct H as [_ H]. destruct (H (Ha _ _ eq_refl)) as (r & lr' & e' & s' & _ & E & Re & S & t' & _ & _ & _ & _ & _ & El).
    exists (result_code r), lr', e'. split; [exact E|].
    split; [|split; [rewrite El; reflexivity|eexists; exact Re]].
    eapply resources_slot; eauto; rewrite El; reflexivity.
Qed.

Lemma table_serves op lr : resources_ok lr -> table_op_ok op -> serves (table_run op) lr.
Proof.
  intros Hr Hop e Ok Q.
  assert (table_meets op lr e (table_run op lr e)) as (r & lr' & e' & ts & _ & E & Re & S & _ & _ & El).
  { destruct op; [apply table_create_meets|apply table_delete_meets]; auto; apply Hr. }
  exists (result_code r), lr', e'. split; [exact E|].
  split; [|split; [rewrite El; reflexivity|eexists; exact Re]].
  eapply resources_slot; eauto; rewrite El; reflexivity.
Qed.

Lemma port_serves id flag lr : resources_ok lr -> serves (poflr_port_openflow_enable id flag) lr.
Proof.
  intros Hr e Ok Q. pose proof (port_enable_ok id flag lr e (ro_ports _ Hr) Ok Q) as H.
  destruct (contents (lr_ports lr) !! u8 id) as [port|].
  - destruct H as (ps & E & Okp & _). exists POF_OK, (set_ports ps lr), e. split; [exact E|].
    destruct Hr as [S P G M]. split; [|split; [done|reflexivity]].
    constructor; auto. destruct S. now constructor.
  - destruct H as (e' & E & R). eexists _, lr, e'. split; [exact E|]. split; [done|]. split; [done|].
    eapply complains_refused. eexists; exact R.
Qed.

(** ** Requests *)

(** What a request must satisfy beyond being decodable: the fields of a flow
    message do not make [pofbf_cover_bit] fault and its prefix is free in an LPM
    table, and the arrays of a group or table message keep to their limits. *)
Definition request_ok (msg_type : Z) (m : list Z) dp : Prop :=
  bytes_ok m /\
  (msg_type = POFT_FLOW_MOD -> forall id lr ID t, contents (slotMap dp) !! id = Some lr ->
     flow_target lr (read_flow_entry m) = Done (ID, t) ->
     acceptable FAdd (read_flow_entry m) t /\ acceptable FModify (read_flow_entry m) t) /\
  (msg_type = POFT_TABLE_MOD -> fld m 3 1 <= 8 /\ (fld m 2 1 = POF_LPM_TABLE -> 1 <= fld m 8 2 <= 1024)) /\
  (msg_type = POFT_GROUP_MOD -> fld m 2 1 <= 4).

(** The requests that change resources or configuration. *)
Definition modifies (msg_type : Z) : Prop :=
  msg_type ∈ [POFT_SET_CONFIG; POFT_PORT_MOD; POFT_TABLE_MOD; POFT_FLOW_MOD; POFT_METER_MOD; POFT_GROUP_MOD;
              POFT_COUNTER_MOD].

(** The cases that run one of several handlers on every slot. *)
Definition served dp e (out : option (Z * pof_datapath * env)) : Prop :=
  exists ret dp' e', out = Some ((ret, dp'), e') /\ dp_ok dp' /\ complains e e'.

Lemma each_served f dp e : dp_ok dp -> env_ok e -> quiet e ->
  (forall id lr, contents (slotMap dp) !! id = Some lr -> serves f lr) -> served dp e (each_slot f dp e).
Proof.
  intros D Ok Q Hf. destruct (each_slot_serves f dp e D Ok Q Hf) as (ret & dp' & e' & E & D' & R & _).
  exists ret, dp', e'. auto.
Qed.

Lemma bad_command_served type code dp e : dp_ok dp -> env_ok e -> quiet e -> ecode_ok code ->
  served dp e (bad_command type code dp e).
Proof.
  intros D Ok Q Hc. destruct (recv_then (fun ret => mret (ret, dp)) e type code Ok Q Hc) as (e' & E & R).
  eexists _, dp, e'. split; [exact E|]. split; [exact D|]. eapply complains_refused. eexists; exact R.
Qed.

Lemma fld_nonneg m off n : bytes_ok m -> 0 <= fld m off n.
Proof. intros H. now apply fld_bound. Qed.
#[local] Hint Resolve fld_nonneg : pof.

Lemma request_served g u msg_type off size conv handler m dp e :
  modifies msg_type -> message_case g u msg_type = Some (off, size, conv, handler) ->
  request_ok msg_type m dp -> dp_ok dp -> env_ok e -> quiet e -> served dp e (handler m dp e).
Proof.
  intros Hm Hc (Hb & Hflow & Htab & Hgrp) D Ok Q. pose proof (dp_resources _ D) as Hres.
  unfold modifies in Hm. repeat (apply elem_of_cons in Hm as [->|Hm]); [..|inversion Hm];
    cbv beta iota delta [message_case Z.eqb Pos.eqb POFT_SET_CONFIG POFT_PORT_MOD POFT_TABLE_MOD POFT_FLOW_MOD
      POFT_METER_MOD POFT_GROUP_MOD POFT_COUNTER_MOD] in Hc; injection Hc as <- <- <- <-.
  - unfold parse_SET_CONFIG, poflr_set_config. eexists _, _, e. split; [reflexivity|].
    split; [|reflexivity]. destruct D as [Ds Dr]. constructor; [exact Ds|exact Dr].
  - unfold parse_PORT_MOD. destruct (on_slot_serves (fld m 0 2)
      (poflr_port_openflow_enable (fld m 2 2) (fld m 112 1)) dp e D Ok Q) as (ret & dp' & e' & E & D' & R & _); auto with pof.
    { intros id lr Hlr. apply port_serves. eauto. }
    exists ret, dp', e'. auto.
  - unfold parse_TABLE_MOD. specialize (Htab eq_refl).
    assert (0 <= ft_type (read_flow_table m) /\ 0 <= ft_tid (read_flow_table m) /\
            0 <= ft_size (read_flow_table m) < 4294967296) as (Ht & Hi & Hs).
    { cbn [read_flow_table ft_type ft_tid ft_size]. split; [auto with pof|]. split; [auto with pof|].
      apply (fld_bound m 4 4 Hb). }
    zcases; [| |apply bad_command_served; auto; by_decide].
    + apply each_served; auto. intros id lr Hlr. apply (table_serves (TCreate _ _ _ _ _ _ _)); [eauto|]. now split.
    + apply each_served; auto. intros id lr Hlr. apply (table_serves (TDelete _ _)); [eauto|]. now split.
  - unfold parse_FLOW_MOD. specialize (Hflow eq_refl).
    assert (0 <= fe_counter_id (read_flow_entry m)) as Hk by (cbn [read_flow_entry fe_counter_id]; auto with pof).
    zcases; [| | |apply bad_command_served; auto; by_decide].
    + apply each_served; auto. intros id lr Hlr. apply (flow_serves FAdd); eauto. intros ID t Ht. eapply Hflow; eauto.
    + apply each_served; auto. intros id lr Hlr. apply (flow_serves FDelete); eauto. intros. now left.
    + apply each_served; auto. intros id lr Hlr. apply (flow_serves FModify); eauto. intros ID t Ht. eapply Hflow; eauto.
  - unfold parse_METER_MOD.
    assert (0 <= pm_meter_id (read_meter m)) as Hk by (cbn [read_meter pm_meter_id]; auto with pof).
    zcases; [| | |apply bad_command_served; auto; by_decide]; apply each_served; auto; intros id lr Hlr.
    + apply (meter_serves (MAdd (pm_meter_id (read_meter m)) (pm_rate (read_meter m)))); eauto.
    + apply (meter_serves (MModify (pm_meter_id (read_meter m)) (pm_rate (read_meter m)))); eauto.
    + apply (meter_serves (MDelete (pm_meter_id (read_meter m)) (pm_rate (read_meter m)))); eauto.
  - unfold parse_GROUP_MOD. specialize (Hgrp eq_refl). set (gr := read_group m) in *.
    assert (0 <= pg_group_id gr /\ 0 <= pg_counter_id gr /\ pg_action_number gr <= 4) as (Hi & Hk & Hn).
    { unfold gr. cbn [read_group pg_group_id pg_counter_id pg_action_number]. auto with pof. }
    zcases; [| | |apply bad_command_served; auto; by_decide]; apply each_served; auto; intros id lr Hlr.
    + apply (group_serves (GAdd gr)); eauto.
    + apply (group_serves (GModify gr)); eauto.
    + apply (group_serves (GDelete gr)); eauto.
  - unfold parse_COUNTER_MOD.
    assert (0 <= pc_counter_id (read_counter m)) as Hk by (cbn [read_counter pc_counter_id]; auto with pof).
    zcases; [| | |apply bad_command_served; auto; by_decide]; apply each_served; auto; intros id lr Hlr.
    + apply (counter_serves (CClear (pc_counter_id (read_counter m)))); eauto.
    + apply (counter_serves (CInit (pc_counter_id (read_counter m)))); eauto.
    + apply (counter_serves (CDelete (pc_counter_id (read_counter m)))); eauto.
Qed.

Lemma upward_reports e type code xid : env_ok e -> quiet e -> ecode_ok code ->
  exists e', POF_ERROR_HANDLE_RETURN_UPWARD type code xid e = Some (err_ret code, e') /\ reports type code xid e e'.
Proof.
  intros Ok Q Hc. destruct (error_upward_spec e type code xid Ok (proj2 (proj2 Q)) Hc) as (e' & E & R & Hg & Hs & Hn).
  exists e'. split; [exact E|]. split; [exact R|]. split; [auto|]. destruct (sending e) eqn:Hse; [auto|].
  rewrite app_nil_r. auto.
Qed.

Lemma env_ok_recv_xid x e : env_ok e -> env_ok (set_recv_xid x e).
Proof. now intros []. Qed.

(** C2. Every message of the controller that changes resources or the
    configuration, of each of the seven types and whatever its command: once its
    header and its body are decoded, [pof_parse_msg_from_controller] returns,
    every slot of the datapath is well-formed again (its tables, groups, meters,
    counters and ports), and the environment has changed only by a sequence of
    error messages for the controller.  The message is taken to satisfy
    [request_ok], since nothing in the code checks it: a group message has at
    most four actions and a table message at most eight match fields (and, for
    an LPM table, a key of 1 to 1024 bits), and a flow message is [acceptable]
    to the table it names. *)
Theorem parse_request_safe g u msg m1 m2 off size conv handler dp e :
  dp_ok dp -> env_ok e -> quiet e -> pof_NtoH_transfer_header msg = Some m1 ->
  modifies (fld m1 1 1) -> message_case g u (fld m1 1 1) = Some (off, size, conv, handler) ->
  body_at off conv m1 = Some m2 -> size <= blen (drop off m2) -> request_ok (fld m1 1 1) (drop off m2) dp ->
  exists ret dp' e' errors, pof_parse_msg_from_controller g u msg dp e = Some ((ret, (m2, dp')), e') /\
    dp_ok dp' /\ told errors (set_recv_xid (fld m1 4 4) e) e'.
Proof.
  intros D Ok Q Eh Hm Ec Eb Hl Hr. unfold pof_parse_msg_from_controller.
  rewrite run_bind, Eh. cbn [lift]. cbv zeta. rewrite run_bind. unfold mod_env. cbv beta iota. rewrite Ec.
  rewrite run_bind, Eb. cbn [lift]. rewrite run_bind. unfold room. rewrite (proj2 (Z.ltb_ge _ _)) by done. cbn [lift].
  destruct (request_served g u _ off size conv handler (drop off m2) dp (set_recv_xid (fld m1 4 4) e) Hm Ec Hr D
    (env_ok_recv_xid _ _ Ok) Q) as (ret & dp' & e' & E & D' & errors & R).
  rewrite run_bind, E. exists ret, dp', e', errors. auto.
Qed.

(** The message types the switch on the type has a case for. *)
Definition known (msg_type : Z) : Prop :=
  modifies msg_type \/
  msg_type ∈ [POFT_ECHO_REQUEST; POFT_GET_CONFIG_REQUEST; POFT_FEATURES_REQUEST; POFT_PACKET_OUT;
              POFT_COUNTER_REQUEST; POFT_QUERYALL_REQUEST].

(** A message of any other type changes nothing: the controller is told
    that the request has a bad type, under the transaction id of the message,
    and the datapath is as it was. *)
Theorem parse_unknown_type g u msg m1 dp e :
  env_ok e -> quiet e -> pof_NtoH_transfer_header msg = Some m1 -> ~ known (fld m1 1 1) ->
  exists e', pof_parse_msg_from_controller g u msg dp e = Some ((err_ret POFBRC_BAD_TYPE, (m1, dp)), e') /\
    reports POFET_BAD_REQUEST POFBRC_BAD_TYPE (fld m1 4 4) (set_recv_xid (fld m1 4 4) e) e'.
Proof.
  intros Ok Q Eh Hk. unfold pof_parse_msg_from_controller, message_case.
  rewrite run_bind, Eh. cbn [lift]. cbv zeta. rewrite run_bind. unfold mod_env. cbv beta iota.
  unfold known, modifies in Hk.
  repeat match goal with |- context [?a =? ?b] =>
    rewrite (proj2 (Z.eqb_neq a b)) by (intros Ht; apply Hk; rewrite Ht; by_decide) end.
  rewrite run_bind. unfold recv_xid. rewrite run_bind. unfold get_env, mret at 1, St_ret. cbv beta iota.
  rewrite run_bind. set (e1 := set_recv_xid (fld m1 4 4) e).
  destruct (upward_reports e1 POFET_BAD_REQUEST POFBRC_BAD_TYPE (fld m1 4 4) (env_ok_recv_xid _ _ Ok) Q ltac:(by_decide))
    as (e' & E & R).
  change (g_recv_xid e1) with (fld m1 4 4). rewrite E. exists e'. split; [reflexivity|exact R].
Qed.

(** ** Witnesses *)

(** A datapath with one slot, and a message that creates counter 9. *)
Definition dp_example : pof_datapath := mkDp (res_one lr_table 1) device_example.

Definition counter_message : list Z :=
  [1; POFT_COUNTER_MOD; 0; 32; 0; 0; 0; 5] ++ [POFCC_ADD; 0; 0; 0] ++ [0; 0; 0; 9] ++ zeros 16.

Lemma dp_example_ok : dp_ok dp_example.
Proof.
  assert (res_ok (slotMap dp_example)) as Hs by exact (res_one_ok lr_table 1 ltac:(by_decide)).
  constructor; [exact Hs|]. intros id lr (p & c & Hp & _ & <-)%contents_lookup; [|exact Hs].
  cbn in Hp. apply lookup_singleton_Some in Hp as [_ <-]. exact lr_table_resources.
Qed.

Lemma parse_request_safe_witness :
  exists ret dp' e' m, pof_parse_msg_from_controller [] 0 counter_message dp_example
    (env_init POFCS_CHANNEL_RUN [] []) = Some ((ret, (m, dp')), e') /\ dp_ok dp'.
Proof.
  edestruct (parse_request_safe [] 0 counter_message) with (dp := dp_example) (e := env_init POFCS_CHANNEL_RUN [] [])
    as (ret & dp' & e' & errors & E & D & _).
  - exact dp_example_ok.
  - apply env_init_ok.
  - repeat split.
  - vm_compute. reflexivity.
  - by_decide.
  - reflexivity.
  - vm_compute. reflexivity.
  - vm_compute. discriminate.
  - split; [by_decide|]. split; [discriminate|]. split; discriminate.
  - eexists _, _, _, _. split; [exact E|exact D].
Defined.

Lemma parse_unknown_type_witness :
  exists dp' e' m, pof_parse_msg_from_controller [] 0 [1; 77; 0; 8; 0; 0; 0; 5] dp_example
    (env_init POFCS_CHANNEL_RUN [] []) = Some ((err_ret POFBRC_BAD_TYPE, (m, dp')), e').
Proof.
  edestruct (parse_unknown_type [] 0 [1; 77; 0; 8; 0; 0; 0; 5]) with (dp := dp_example)
    (e := env_init POFCS_CHANNEL_RUN [] []) as (e' & E & _).
  - apply env_init_ok.
  - repeat split.
  - vm_compute. reflexivity.
  - intros [H|H]; revert H; apply (bool_decide_unpack (_ ∉ _)); vm_compute; exact I.
  - eexists _, _, _. exact E.
Defined.
