(* ===== verification/MessageSpec.v ===== *)
(** * A message is handled by its own bytes

    The buffer of the connection holds several messages one after the other.
    The conversions of common/pof_byte_transfer.c and the handlers of
    switch_control/pof_parse.c stay within the message they are given: what
    follows it in the buffer neither matters nor changes. *)

From S2P Require Import Prelude Codec Env Tree Hmap IdMap LocalRes ByteTransfer Counter Group Meter FlowEntry FlowTable Slot Parse.

Implicit Types (m t : mem) (off : nat).

(** ** Conversions *)

(** A conversion that stays within the memory it is given. *)
Definition local (f : mem -> option mem) : Prop :=
  forall m t m', f m = Some m' -> length m' = length m /\ f (m ++ t) = Some (m' ++ t).

(** A conversion that uses the first [n] bytes. *)
Definition needs (n : nat) (f : mem -> option mem) : Prop := forall m m', f m = Some m' -> (n <= length m)%nat.

Create HintDb local discriminated.

Lemma fld_app m t off n : (off + n <= length m)%nat -> fld (m ++ t) off n = fld m off n.
Proof. intros H. unfold fld. rewrite drop_app_le, take_app_le by (rewrite ?length_drop; lia). done. Qed.

Lemma patch_app m t off s : (off + length s <= length m)%nat -> patch (m ++ t) off s = patch m off s ++ t.
Proof. intros H. unfold patch. now rewrite take_app_le, drop_app_le, !app_assoc by lia. Qed.

Lemma local_some : local Some.
Proof. now intros m t m' [= <-]. Qed.

Lemma local_bind f g : local f -> local g -> local (fun m => m ← f m; g m).
Proof.
  intros Hf Hg m t m' E. destruct (f m) as [m1|] eqn:E1; [|discriminate]. cbn in E.
  destruct (Hf _ t _ E1) as [L1 E1'], (Hg _ t _ E) as [L2 E2]. split; [congruence|]. now rewrite E1'.
Qed.

Lemma local_if (b : bool) f g : local f -> local g -> local (fun m => if b then f m else g m).
Proof. now destruct b. Qed.

(** What comes after a conversion that needs [n] bytes has them. *)
Lemma local_then n f g : local f -> needs n f ->
  (forall m t m', (n <= length m)%nat -> g m = Some m' -> length m' = length m /\ g (m ++ t) = Some (m' ++ t)) ->
  local (fun m => m ← f m; g m).
Proof.
  intros Hf Hn Hg m t m' E. destruct (f m) as [m1|] eqn:E1; [|discriminate]. cbn in E.
  destruct (Hf _ t _ E1) as [L1 E1'], (Hg m1 t m') as [L2 E2]; [rewrite L1; eapply Hn, E1|exact E|].
  split; [congruence|]. now rewrite E1'.
Qed.

(** A choice by a field of the memory, which the chosen conversion uses. *)
Lemma local_read o n (k : Z -> mem -> option mem) : (forall v, local (k v)) ->
  (forall m m', k (fld m o n) m = Some m' -> (o + n <= length m)%nat) -> local (fun m => k (fld m o n) m).
Proof. intros Hk Hn m t m' E. rewrite fld_app by (eapply Hn, E). now apply Hk. Qed.

Lemma needs_bind n f g : needs n f \/ (local f /\ needs n g) -> needs n (fun m => m ← f m; g m).
Proof.
  intros H m m' E. destruct (f m) as [m1|] eqn:E1; [|discriminate]. destruct H as [H|[Hf H]]; [eapply H, E1|].
  destruct (Hf _ [] _ E1) as [<- _]. eapply H, E.
Qed.

Lemma set_fld_app m t o n v m' : set_fld m o n v = Some m' ->
  (o + n <= length m)%nat /\ length m' = length m /\ set_fld (m ++ t) o n v = Some (m' ++ t).
Proof.
  unfold set_fld. rewrite length_app. destruct (Nat.leb_spec (o + n) (length m)) as [H|H]; intros E; [|discriminate].
  apply (inj Some) in E. subst m'. rewrite (proj2 (Nat.leb_le _ _)) by lia.
  rewrite length_patch, patch_app by (rewrite length_le; lia). auto.
Qed.

Lemma ntoh_func_app o n m t m' : POF_NTOH_FUNC o n m = Some m' ->
  (o + n <= length m)%nat /\ length m' = length m /\ POF_NTOH_FUNC o n (m ++ t) = Some (m' ++ t).
Proof.
  unfold POF_NTOH_FUNC. destruct n as [|[|[|[|[|[|[|[|[|]]]]]]]]]; try discriminate; intros E;
    destruct (set_fld_app _ t _ _ _ _ E) as (H & L & E'); rewrite fld_app by exact H; auto.
Qed.
Lemma local_ntoh_func o n : local (POF_NTOH_FUNC o n).
Proof. intros m t m' E. apply (ntoh_func_app _ _ _ t) in E as (_ & E). exact E. Qed.
Lemma needs_ntoh_func o n : needs (o + n) (POF_NTOH_FUNC o n).
Proof. intros m m' E. now apply (ntoh_func_app _ _ _ []) in E as [E _]. Qed.

Lemma local_ntoh_fields fs : local (ntoh_fields fs).
Proof.
  induction fs as [|[o n] fs IH]; [exact local_some|]. cbn [ntoh_fields]. apply local_bind; auto using local_ntoh_func.
Qed.
Lemma needs_ntoh_fields fs o n : (o, n) ∈ fs -> needs (o + n) (ntoh_fields fs).
Proof.
  induction fs as [|[o' n'] fs IH]; [now intros ?%not_elem_of_nil|]. intros [[= <- <-]|H]%elem_of_cons; cbn [ntoh_fields].
  - apply needs_bind. left. apply needs_ntoh_func.
  - apply needs_bind. right. auto using local_ntoh_func.
Qed.
Lemma local_ntoh_at off fs : local (ntoh_at off fs).
Proof. apply local_ntoh_fields. Qed.
Lemma needs_ntoh_at off fs o n : (o, n) ∈ fs -> needs (off + o + n) (ntoh_at off fs).
Proof.
  intros H. apply needs_ntoh_fields. unfold shift_fields. apply list_elem_of_fmap. exists (o, n). auto.
Qed.
#[export] Hint Resolve local_some local_ntoh_fields local_ntoh_at : local.

Lemma local_value type off : local (value type off).
Proof. unfold value, match_. destruct (_ =? _); auto with local. Qed.
Lemma needs_value type off : needs (off + 2) (value type off).
Proof.
  unfold value, match_. intros m m' E. destruct (_ =? _).
  - eapply (needs_ntoh_at off _ 0 4) in E; [lia|constructor].
  - eapply (needs_ntoh_at off _ 0 2) in E; [lia|constructor].
Qed.
#[export] Hint Resolve local_value : local.

Lemma local_value_at o off : (o < off + 2)%nat -> local (fun m => value (fld m o 1) off m).
Proof. intros H. apply (local_read o 1 (fun v => value v off)); [auto with local|]. intros m m' E. apply needs_value in E. lia. Qed.

Lemma local_each f size n : (forall o, local (f o)) -> forall base, local (each f size n base).
Proof. intros Hf. induction n as [|n IH]; intros base; cbn [each]; [auto with local|]. now apply local_bind. Qed.

(** ** Actions and instructions *)

Lemma local_action_OUTPUT off : local (action_OUTPUT off).
Proof.
  apply (local_read off 1 (fun v m => m ← value v (off + 8) m; ntoh_at off [(2, 2); (4, 2); (6, 2)]%nat m)).
  - intros v. apply local_bind; auto with local.
  - intros m m' E. destruct (value _ _ _) as [m1|] eqn:E1 in E; [|discriminate]. apply needs_value in E1. lia.
Qed.

Lemma local_action_DELETE_FIELD off : local (action_DELETE_FIELD off).
Proof. apply local_bind; [auto with local|]. apply local_value_at. lia. Qed.

Lemma local_action_switch type off : local (action_switch type off).
Proof.
  unfold action_switch. repeat apply local_if; auto using local_action_OUTPUT, local_action_DELETE_FIELD with local; try (apply local_ntoh_at).
  all: apply local_bind; apply local_ntoh_at.
Qed.
#[export] Hint Resolve local_action_switch : local.

Lemma needs_head off : needs (off + 4) (ntoh_at off [(0, 2); (2, 2)]%nat).
Proof. intros m m' E. apply (needs_ntoh_at off _ 2 2) in E; [lia|right; constructor]. Qed.

(** [action] reads its type and its length, which it converts as well. *)
Lemma action_needs off : needs (off + 4) (action off).
Proof.
  intros m m' E. unfold action in E. pose proof (needs_head off) as Hn.
  destruct (_ <? _).
  - destruct (ntoh_at off _ m) as [m1|] eqn:E1; [|discriminate]. eapply Hn, E1.
  - destruct (action_switch _ _ m) as [m1|] eqn:E1; [|discriminate]. apply Hn in E.
    now destruct (local_action_switch _ _ _ [] _ E1) as [<- _].
Qed.

Lemma local_action off : local (action off).
Proof.
  intros m t m' E. pose proof (action_needs _ _ _ E) as Hn. unfold action in *. rewrite !fld_app by lia. destruct (_ <? _).
  - revert E. apply (local_then (off + 4) (ntoh_at off [(0, 2); (2, 2)]%nat) (fun m => action_switch (fld m off 2) (off + 4) m));
      auto using needs_head with local.
    clear. intros m t m' H E. rewrite fld_app by lia. now apply local_action_switch.
  - revert E. apply (local_bind (action_switch (fld m off 2) (off + 4)) (ntoh_at off [(0, 2); (2, 2)]%nat)); auto with local.
Qed.

(** Within a message of [L] bytes. *)
Definition local_in (L : nat) (f : mem -> option mem) : Prop :=
  forall m t m', length m = L -> f m = Some m' -> length m' = length m /\ f (m ++ t) = Some (m' ++ t).

Lemma local_within L f : local f -> local_in L f.
Proof. intros H m t m' _. apply H. Qed.
Lemma local_in_bind L f g : local_in L f -> local_in L g -> local_in L (fun m => m ← f m; g m).
Proof.
  intros Hf Hg m t m' H E. destruct (f m) as [m1|] eqn:E1; [|discriminate]. cbn in E.
  destruct (Hf _ t _ H E1) as [L1 E1'], (Hg m1 t m') as [L2 E2]; [congruence|exact E|]. split; [congruence|]. now rewrite E1'.
Qed.
Lemma local_in_read L o n (k : Z -> mem -> option mem) : (o + n <= L)%nat -> (forall v, local_in L (k v)) ->
  local_in L (fun m => k (fld m o n) m).
Proof. intros Ho Hk m t m' H E. rewrite fld_app by lia. now apply Hk. Qed.

(** Structs of [size] bytes up to the end of the message. *)
Lemma local_in_each L f size n base k : (forall o, (o + size <= L)%nat -> local_in L (f o)) ->
  (forall o, (L <= o)%nat -> needs (o + 1) (f o)) -> (base + k * size)%nat = L -> local_in L (each f size n base).
Proof.
  intros Hf Hn. revert base k. induction n as [|n IH]; intros base k Hk; cbn [each]; [apply local_within, local_some|].
  destruct k as [|k].
  - intros m t m' H E. destruct (f base m) as [m1|] eqn:E1; [|discriminate]. apply Hn in E1; [|lia]. lia.
  - apply local_in_bind; [apply Hf; lia|]. apply (IH _ k). lia.
Qed.

Lemma local_APPLY_ACTIONS L off : (off + 1 <= L)%nat -> local_in L (instruction_APPLY_ACTIONS off).
Proof.
  intros H. apply (local_in_read L off 1 (fun v => each action 48 (Z.to_nat v) (off + 8))); [done|].
  intros v. apply local_within, local_each, local_action.
Qed.

Lemma local_GOTO_DIRECT_TABLE off : local (instruction_GOTO_DIRECT_TABLE off).
Proof.
  apply (local_bind (fun m => value (fld m (off + 1) 1) (off + 8) m)); [apply local_value_at; lia|auto with local].
Qed.
Lemma local_CALCULATE_FIELD off : local (instruction_CALCULATE_FIELD off).
Proof.
  apply local_bind; [auto with local|]. apply (local_bind (match_ (off + 8))); [apply local_ntoh_at|]. apply local_value_at; lia.
Qed.
Lemma local_CONDITIONAL_JMP off : local (instruction_CONDITIONAL_JMP off).
Proof.
  unfold instruction_CONDITIONAL_JMP. apply local_bind; [apply local_ntoh_at|].
  apply (local_bind (fun m => value (fld m off 1) (off + 16) m)); [apply local_value_at; lia|].
  apply (local_bind (fun m => value (fld m (off + 2) 1) (off + 24) m)); [apply local_value_at; lia|].
  apply (local_bind (fun m => value (fld m (off + 4) 1) (off + 32) m)); apply local_value_at; lia.
Qed.
Lemma local_GOTO_TABLE off : local (instruction_GOTO_TABLE off).
Proof. apply local_bind; [auto with local|]. apply local_each. intros o. apply local_ntoh_at. Qed.
Lemma local_MOVE_PACKET_OFFSET off : local (instruction_MOVE_PACKET_OFFSET off).
Proof. apply local_value_at. lia. Qed.

(** The instruction in its struct. *)
Definition instruction_body (type : Z) off m : option mem :=
  r ← instruction_switch type (off + 8) m; match r with None => Some m | Some m => Some m end.

Lemma local_in_some L f : local_in L f ->
  local_in L (fun m => r ← (m ← f m; Some (Some m)); match r with None => Some m | Some m => Some m end).
Proof.
  intros Hf m t m' H E. destruct (f m) as [m1|] eqn:E1; [|discriminate]. injection E as <-.
  destruct (Hf _ t _ H E1) as [L1 E1']. split; [done|]. now rewrite E1'.
Qed.

Lemma local_instruction_body L type off : (off + 304 <= L)%nat -> local_in L (instruction_body type off).
Proof.
  intros H. unfold instruction_body, instruction_switch.
  repeat (destruct (type =? _); [apply local_in_some; try (apply local_within; first
    [apply local_ntoh_at|apply local_some|apply local_GOTO_TABLE|apply local_GOTO_DIRECT_TABLE|apply local_CONDITIONAL_JMP
    |apply local_CALCULATE_FIELD|apply local_MOVE_PACKET_OFFSET])|]).
  - apply local_APPLY_ACTIONS. lia.
  - now intros m t m' _ [= <-].
Qed.

Lemma instruction_NtoH_in L off : (off + 304 <= L)%nat -> local_in L (instruction_NtoH off).
Proof.
  intros H. apply (local_in_bind _ (ntoh_at off [(0, 2); (2, 2)]%nat) (fun m => instruction_body (fld m off 2) off m));
    [apply local_within, local_ntoh_at|].
  apply (local_in_read L off 2 (fun v => instruction_body v off)); [lia|]. intros v. now apply local_instruction_body.
Qed.
Lemma instruction_NtoH_needs off : needs (off + 4) (instruction_NtoH off).
Proof. apply needs_bind. left. apply needs_head. Qed.

(** ** Messages *)

Lemma transfer_flow_entry_in : local_in 2184 pof_NtoH_transfer_flow_entry.
Proof.
  apply (local_in_bind _ (ntoh_fields POF_FLOW_ENTRY_FIELDS)); [apply local_within, local_ntoh_fields|].
  apply (local_in_bind _ (fun m => each match_x 40 (Z.to_nat (fld m 1 1)) 40 m)).
  - apply (local_in_read _ 1 1 (fun v => each match_x 40 (Z.to_nat v) 40)); [lia|].
    intros v. apply local_within, local_each. intros o. apply local_ntoh_at.
  - apply (local_in_read _ 2 1 (fun v => each instruction_NtoH 304 (Z.to_nat v) 360)); [lia|].
    intros v. apply (local_in_each _ _ _ _ _ 6); [|intros o _ m m' E; apply instruction_NtoH_needs in E; lia|reflexivity].
    intros o Ho. apply instruction_NtoH_in. exact Ho.
Qed.

Lemma transfer_flow_table_local : local pof_NtoH_transfer_flow_table.
Proof. apply local_bind; [apply local_ntoh_fields|]. apply local_each. intros o. apply local_ntoh_at. Qed.
Lemma transfer_group_local : local pof_NtoH_transfer_group.
Proof. apply local_bind; [apply local_ntoh_fields|]. apply local_each. apply local_action. Qed.

(** What the handlers read of a body. *)
Lemma take_drop_app m t o n : (o + n <= length m)%nat -> take n (drop o (m ++ t)) = take n (drop o m).
Proof. intros H. now rewrite drop_app_le, take_app_le by (rewrite ?length_drop; lia). Qed.

Lemma read_array_app {A} (f : mem -> nat -> A) size n off m t :
  (forall i, (i < n)%nat -> f (m ++ t) (off + i * size)%nat = f m (off + i * size)%nat) ->
  read_array f size n off (m ++ t) = read_array f size n off m.
Proof.
  intros H. unfold read_array. apply list_fmap_ext. intros i x Hx. apply lookup_seq in Hx as [-> Hx]. now apply H.
Qed.

Ltac same_fields :=
  repeat first [rewrite fld_app by lia | rewrite take_drop_app by lia | rewrite read_array_app by (intros ? ?; same_field)]
with same_field :=
  unfold read_match, read_match_x, read_action, read_instruction; same_fields; reflexivity.

Lemma read_flow_table_app m t : (144 <= length m)%nat -> read_flow_table (m ++ t) = read_flow_table m.
Proof. intros H. unfold read_flow_table. same_fields. reflexivity. Qed.
Lemma read_flow_entry_app m t : (2184 <= length m)%nat -> read_flow_entry (m ++ t) = read_flow_entry m.
Proof. intros H. unfold read_flow_entry. same_fields. reflexivity. Qed.
Lemma read_meter_app m t : (12 <= length m)%nat -> read_meter (m ++ t) = read_meter m.
Proof. intros H. unfold read_meter. same_fields. reflexivity. Qed.
Lemma read_group_app m t : (208 <= length m)%nat -> read_group (m ++ t) = read_group m.
Proof. intros H. unfold read_group. same_fields. reflexivity. Qed.
Lemma read_counter_app m t : (24 <= length m)%nat -> read_counter (m ++ t) = read_counter m.
Proof. intros H. unfold read_counter. same_fields. reflexivity. Qed.

(** Each kind of message converts and reads its struct only. *)
Lemma message_case_local g u type off size conv handler : message_case g u type = Some (off, size, conv, handler) ->
  0 <= size /\ local_in (Z.to_nat size) conv /\
  forall m t dp, (Z.to_nat size <= length m)%nat -> handler (m ++ t) dp = handler m dp.
Proof.
  unfold message_case.
  repeat (destruct (type =? _); [intros [= <- <- <- <-]; split; [lia|]; split;
    [first [apply local_within, local_ntoh_fields|apply local_within, transfer_flow_table_local
           |apply local_within, transfer_group_local|apply transfer_flow_entry_in|apply local_within, local_ntoh_func]
    |intros m t dp Hl;
     unfold parse_SET_CONFIG, parse_PORT_MOD, parse_TABLE_MOD, parse_FLOW_MOD, parse_METER_MOD, parse_GROUP_MOD,
       parse_COUNTER_MOD, parse_COUNTER_REQUEST, parse_QUERYALL_REQUEST;
     rewrite ?read_flow_table_app, ?read_flow_entry_app, ?read_meter_app, ?read_group_app, ?read_counter_app by lia;
     same_fields; reflexivity]|]).
  discriminate.
Qed.

(** ** Messages in the buffer *)

(** Handling [m] reads and rewrites its own bytes only, whatever follows it in
    the buffer. *)
Definition self_contained (g : list Z) (u : Z) (m : list Z) : Prop :=
  forall dp e r m' dp' e', pof_parse_msg_from_controller g u m dp e = Some ((r, (m', dp')), e') ->
    length m' = length m /\
    forall tail, pof_parse_msg_from_controller g u (m ++ tail) dp e = Some ((r, (m' ++ tail, dp')), e').

(** The message is as long as its type says, when the type has a struct. *)
Definition struct_size (g : list Z) (u type : Z) : option nat :=
  (fun '(off, size, _, _) => (off + Z.to_nat size)%nat) <$> message_case g u type.
Definition exact_size (g : list Z) (u : Z) (m : list Z) : Prop :=
  (8 <= length m)%nat /\ match struct_size g u (fld m 1 1) with Some n => length m = n | None => True end.

Lemma patch_head m o s n : (n <= o)%nat -> (o + length s <= length m)%nat -> take n (patch m o s) = take n m.
Proof. intros H H'. unfold patch. rewrite take_app_le by (rewrite length_take; lia). rewrite take_take. f_equal. lia. Qed.

Lemma ntoh_func_head o n m m' k : (k <= o)%nat -> POF_NTOH_FUNC o n m = Some m' -> take k m' = take k m.
Proof.
  intros H. unfold POF_NTOH_FUNC. destruct n as [|[|[|[|[|[|[|[|[|]]]]]]]]]; try discriminate; unfold set_fld; intros E.
  all: match type of E with context [(?a <=? ?b)%nat] => destruct (Nat.leb_spec a b) as [Hl|Hl] end; [|discriminate].
  all: apply (inj Some) in E; subst m'; apply patch_head; rewrite ?length_le; lia.
Qed.

(** The type is not converted. *)
Lemma header_type m m1 : pof_NtoH_transfer_header m = Some m1 -> length m1 = length m /\ fld m1 1 1 = fld m 1 1.
Proof.
  intros E. split; [apply (local_ntoh_fields _ _ [] _ E)|]. unfold pof_NtoH_transfer_header in E. cbn [ntoh_fields] in E.
  destruct (POF_NTOH_FUNC 2 2 m) as [m2|] eqn:E1; [|discriminate]. cbn [mbind option_bind] in E. destruct (POF_NTOH_FUNC 4 4 m2) as [m3|] eqn:E2; [|discriminate].
  injection E as <-. apply (ntoh_func_head _ _ _ _ 2) in E1, E2; [|lia|lia]. unfold fld.
  change (take 1 (drop 1 m3)) with (take (2 - 1) (drop 1 m3)). change (take 1 (drop 1 m)) with (take (2 - 1) (drop 1 m)).
  rewrite <- !skipn_firstn_comm. congruence.
Qed.

Lemma body_at_local off size conv m t m' : local_in size conv -> length m = (off + size)%nat ->
  body_at off conv m = Some m' -> length m' = length m /\ body_at off conv (m ++ t) = Some (m' ++ t).
Proof.
  intros Hc Hl E. unfold body_at in *. destruct (conv (drop off m)) as [b|] eqn:Eb; [|discriminate]. injection E as <-.
  destruct (Hc (drop off m) t b) as [Lb Eb']; [rewrite length_drop; lia|exact Eb|]. rewrite length_drop in Lb. rewrite drop_app_le, Eb', take_app_le by lia.
  split; [rewrite length_app, length_take; lia|]. cbn. now rewrite app_assoc.
Qed.

(** The messages without a struct leave the buffer alone. *)
Definition no_struct (type : Z) (msg : mem) (dp : pof_datapath) : St (Z * (mem * pof_datapath)) :=
  if type =? POFT_ECHO_REQUEST then ret ← reply_checked POFT_ECHO_REPLY recv_xid 0 None; mret (ret, (msg, dp))
  else if type =? POFT_GET_CONFIG_REQUEST then '(ret, dp) ← parse_GET_CONFIG_REQUEST dp; mret (ret, (msg, dp))
  else if type =? POFT_FEATURES_REQUEST then '(ret, dp) ← parse_FEATURES_REQUEST dp; mret (ret, (msg, dp))
  else if type =? POFT_PACKET_OUT then _ ← lift (body_at 8 pof_NtoH_transfer_packet_out msg); fault
  else x ← recv_xid; ret ← POF_ERROR_HANDLE_RETURN_UPWARD POFET_BAD_REQUEST POFBRC_BAD_TYPE x; mret (ret, (msg, dp)).

Lemma no_struct_app type m dp e r m' dp' e' : no_struct type m dp e = Some ((r, (m', dp')), e') ->
  m' = m /\ forall m2, no_struct type m2 dp e = Some ((r, (m2, dp')), e').
Proof.
  unfold no_struct. repeat case_match; rewrite run_bind.
  - destruct (reply_checked _ _ _ _ e) as [[ret e1]|] eqn:E1; [|discriminate]. intros [= <- <- <- <-]. split; [done|]. intros m2. now rewrite run_bind, E1.
  - destruct (parse_GET_CONFIG_REQUEST dp e) as [[[ret d] e1]|] eqn:E1; [|discriminate]. intros [= <- <- <- <-]. split; [done|].
    intros m2. now rewrite run_bind, E1.
  - destruct (parse_FEATURES_REQUEST dp e) as [[[ret d] e1]|] eqn:E1; [|discriminate]. intros [= <- <- <- <-]. split; [done|].
    intros m2. now rewrite run_bind, E1.
  - destruct (body_at _ _ _); discriminate.
  - destruct (recv_xid e) as [[x e1]|] eqn:E1; [|discriminate]. rewrite run_bind.
    destruct (POF_ERROR_HANDLE_RETURN_UPWARD _ _ x e1) as [[ret e2]|] eqn:E2; [|discriminate]. intros [= <- <- <- <-]. split; [done|].
    intros m2. now rewrite run_bind, E1, run_bind, E2.
Qed.

Lemma exact_self_contained g u m : exact_size g u m -> self_contained g u m.
Proof.
  unfold exact_size, struct_size. intros [H8 Hs] dp e r m' dp' e' E. unfold pof_parse_msg_from_controller in E |- *.
  rewrite run_bind in E. destruct (pof_NtoH_transfer_header m) as [m1|] eqn:E1; [|discriminate]. cbn [lift] in E.
  destruct (header_type _ _ E1) as [L1 T1]. cbv zeta in E. rewrite T1 in E.
  assert (forall t, pof_NtoH_transfer_header (m ++ t) = Some (m1 ++ t)) as Ht by (intros t; apply (local_ntoh_fields _ _ t _ E1)).
  assert (forall t, fld (m1 ++ t) 1 1 = fld m 1 1 /\ fld (m1 ++ t) 4 4 = fld m1 4 4) as Hf by (intros t; rewrite !fld_app by lia; auto).
  rewrite run_bind in E. unfold mod_env in E at 1. cbv beta iota in E.
  destruct (message_case g u (fld m 1 1)) as [[[[off size] conv] handler]|] eqn:Ec.
  - destruct (message_case_local _ _ _ _ _ _ _ Ec) as (Hz & Hc & Hh). cbn [fmap option_fmap option_map] in Hs. 
    rewrite run_bind in E. destruct (body_at off conv m1) as [m2|] eqn:Eb; [|discriminate]. cbn [lift] in E. rewrite <- L1 in Hs.
    rewrite run_bind in E. unfold room in E. destruct (Z.ltb_spec (blen (drop off m2)) size) as [|Hr]; [discriminate|]. cbn [lift] in E.
    rewrite run_bind in E. destruct (handler _ dp _) as [[[r2 dp2] e2]|] eqn:Eh; [|discriminate]. injection E as <- <- <- <-.
    destruct (body_at_local _ _ _ _ [] _ Hc Hs Eb) as [L2 _]. split; [congruence|]. intros t.
    destruct (body_at_local _ _ _ _ t _ Hc Hs Eb) as [_ Eb']. destruct (Hf t) as [F1 F2].
    rewrite run_bind, Ht. cbn [lift]. cbv zeta. rewrite F1, F2, run_bind. unfold mod_env at 1. cbv beta iota. rewrite Ec.
    rewrite run_bind, Eb'. cbn [lift]. rewrite drop_app_le by lia. unfold room, blen in Hr |- *. rewrite length_app.
    rewrite run_bind, (proj2 (Z.ltb_ge _ _)) by lia. cbn [lift]. rewrite run_bind, Hh, Eh by lia. reflexivity.
  - destruct (no_struct_app _ _ _ _ _ _ _ _ E) as [-> E']. split; [exact L1|]. intros t. destruct (Hf t) as [F1 F2].
    rewrite run_bind, Ht. cbn [lift]. cbv zeta. rewrite F1, F2, run_bind. unfold mod_env at 1. cbv beta iota. rewrite Ec. apply E'.
Qed.
