(* ===== verification/PortMgr.v ===== *)
(** * Port management (local_resource/pof_port.c, datapath/pof_datapath.c)

    How the ports of a slot follow the interfaces of the system: the list of
    interface names, the two maps of the ports (by POF index and by name), the
    creation and removal of a port with its sockets and its listening task, and
    the detection that runs every five seconds.  What a call of the system
    answers may change from one call to the next: [system t] is its state at the
    [t]-th call.  A port and its [nameNode] are one structure in the code; here
    they are cells of two heaps at the same address. *)

From S2P Require Import Prelude Bits Codec Env Hmap IdMap DList Tree LocalRes ByteTransfer Port Parse.
From Stdlib Require String.
Import String.StringSyntax.
#[local] Open Scope string_scope.

(** ** Constants *)

Definition POF_GET_PORT_INFO_FAILURE := EC 0x1000 "POF_GET_PORT_INFO_FAILURE".
Definition POF_CREATE_SOCKET_FAILURE := EC 0x7001 "POF_CREATE_SOCKET_FAILURE".
Definition POF_TASK_CREATE_FAIL := EC 0x700C "POF_TASK_CREATE_FAIL".
Definition POF_TASK_DELETE_FAIL := EC 0x700D "POF_TASK_DELETE_FAIL".
Definition POF_INVALID_TASKID : Z := 0.
Definition POFLRPF_FROM_CUSTOM : Z := 1.
Definition POFPS_LINK_DOWN : Z := 1.
Definition POFPS_LIVE : Z := 4.
Definition PORT_NAME_LEN : Z := 64.
Definition PORT_MAX_QUEUES : Z := 8.
Definition POF_IP_ADDRESS_STRING_LEN : Z := 20.
(** Of the system's headers. *)
Definition IFNAMSIZ : Z := 16.
Definition IFF_UP : Z := 0x1.
Definition IFF_RUNNING : Z := 0x40.

(** ** The system *)

(** What [ioctl] tells of an interface; it may have no IP address. *)
Record iface := mkIface { if_index : Z; if_hwaddr : list Z (* 6 *); if_addr : option (list Z) (* 4 *); if_flags : Z }.

(** The state of the system: the interface of a name, what [getifaddrs] lists
    (a name, and whether the entry is an AF_PACKET address), and what [socket],
    [bind], [pthread_create] and [pthread_cancel] answer. *)
Record sys := mkSys {
  s_iface : list Z -> option iface;
  s_ifaddrs : option (list (list Z * bool));
  s_socket : option Z;
  s_bind : bool;
  s_thread : option Z;
  s_cancel : bool
}.

(** ** State *)

(** [struct portName]; [node] is the [lnode] around it. *)
Record portName := mkPortName { pn_name : list Z (* 64 *); pn_slotID : Z }.

(** A slot with [portIndex], [portNameList] and the number of system calls made. *)
Record pmst := mkPm {
  pm_lr : pof_local_resource;
  portIndex : Z;
  portNameList : dlist portName;
  pm_time : nat
}.
Implicit Types (s : pmst) (lr : pof_local_resource) (p : addr).

Definition with_lr lr s := mkPm lr (portIndex s) (portNameList s) (pm_time s).
Definition with_index i s := mkPm (pm_lr s) i (portNameList s) (pm_time s).
Definition with_list l s := mkPm (pm_lr s) (portIndex s) l (pm_time s).
Definition tick s := mkPm (pm_lr s) (portIndex s) (portNameList s) (S (pm_time s)).

Definition set_port_names ns lr := mkLR (lr_slotID lr) (lr_ports lr) (lr_tables lr) (tableNumMaxEachType lr)
  (tableSizeMax lr) (poflr_key_len_each_type lr) (lr_groups lr) (lr_meters lr) (lr_counters lr) ns (lr_portFlag lr).

(** ** Strings *)

(** The C string at the start of a buffer; [None] when it has no end. *)
Fixpoint cstr (b : list Z) : option (list Z) :=
  match b with
  | [] => None
  | c :: b => if c =? 0 then Some [] else n ← cstr b; Some (c :: n)
  end.

(** [strcpy] of a string over a buffer: past its end is a fault. *)
Definition strcpy (buf name : list Z) : option (list Z) :=
  if (length name <? length buf)%nat then Some (name ++ [0] ++ drop (S (length name)) buf) else None.

Definition ifr_name (name : list Z) : option (list Z) := strcpy (zeros (Z.to_nat IFNAMSIZ)) name.

Definition lo_name : list Z := [108; 111].

(** [inet_ntoa]. *)
Definition dec_byte (b : Z) : list Z :=
  if b <? 10 then [48 + b]
  else if b <? 100 then [48 + b / 10; 48 + b mod 10]
  else [48 + b / 100; 48 + b / 10 mod 10; 48 + b mod 10].
Definition inet_ntoa (a : list Z) : list Z :=
  match a with
  | [b0; b1; b2; b3] => dec_byte b0 ++ [46] ++ dec_byte b1 ++ [46] ++ dec_byte b2 ++ [46] ++ dec_byte b3
  | _ => []
  end.

(** What [strncmp] compares of a string: up to its end, at most [n] bytes. *)
Fixpoint strn (n : nat) (b : list Z) : list Z :=
  match n, b with
  | S n, c :: b => if c =? 0 then [] else c :: strn n b
  | _, _ => []
  end.

(** A caller passes a string, or NULL. *)
Definition map_portHashByName (name : list Z) : option Z := hmap_hashForBytes name (blen name).

(** ** The maps *)

Definition map_portInsert p lr : option pof_local_resource :=
  ps ← res_insert u16 p (lr_ports lr);
  ns ← res_insert u16 p (lr_names lr);
  Some (set_port_names ns (set_ports ps lr)).

Definition map_portCreate lr : St (option addr * pof_local_resource) :=
  '(port, ps) ← res_create res_zero (lr_ports lr);
  mret (port, match port with
              | None => lr
              | Some p => set_port_names (with_heap (lr_names lr) (<[p := Cell 0 None res_zero]> (r_heap (lr_names lr)))) (set_ports ps lr)
              end).

Definition map_portDelete p lr : option pof_local_resource :=
  ps ← res_delete u16 p (lr_ports lr);
  ns ← res_delete u16 p (lr_names lr);
  Some (set_port_names ns (set_ports ps lr)).

Definition poflr_get_port_with_name (name : list Z) lr : option (option addr) :=
  h ← map_portHashByName name; res_get h (lr_names lr).

Definition load_port p s : option portInfo := res_load p (lr_ports (pm_lr s)).
Definition store_port p (port : portInfo) s : option pmst :=
  ps ← res_store p port (lr_ports (pm_lr s)); Some (with_lr (set_ports ps (pm_lr s)) s).

(** ** Members of a port *)

Definition set_info (hwaddr ip : list Z) (sysIndex : Z) (p : portInfo) : portInfo :=
  mkPortInfo (po_pofIndex p) sysIndex (po_pofState p) (po_slotID p) (po_of_enable p) (po_config p)
    hwaddr (po_name p) ip (po_taskID p) (po_queue_fd p) (po_num_queues p).
Definition set_identity (index state slot : Z) (name : list Z) (p : portInfo) : portInfo :=
  mkPortInfo index (po_sysIndex p) state slot POFE_DISABLE (po_config p)
    (po_hwaddr p) name (po_ip p) (po_taskID p) (po_queue_fd p) (po_num_queues p).
Definition set_task (t : Z) (p : portInfo) : portInfo :=
  mkPortInfo (po_pofIndex p) (po_sysIndex p) (po_pofState p) (po_slotID p) (po_of_enable p) (po_config p)
    (po_hwaddr p) (po_name p) (po_ip p) t (po_queue_fd p) (po_num_queues p).
Definition set_queues (fds : list Z) (n : Z) (p : portInfo) : portInfo :=
  mkPortInfo (po_pofIndex p) (po_sysIndex p) (po_pofState p) (po_slotID p) (po_of_enable p) (po_config p)
    (po_hwaddr p) (po_name p) (po_ip p) (po_taskID p) fds n.

Section system.
(** The system, and the thread that makes the calls. *)
Context (system : nat -> sys) (self : Z).

Definition ask {A} (f : sys -> A) s : A * pmst := (f (system (pm_time s)), tick s).
Definition soft_failure (code : ecode) s : St (Z * pmst) :=
  r ← POF_ERROR_HANDLE_RETURN_NO_UPWARD POFET_SOFTWARE_FAILED code; mret (r, s).

(** ** Tasks (common/pof_basefunc.c) *)

(** [pofbf_task_create] of a task whose id is the port's: the id comes back. *)
Definition pofbf_task_create s : St (Z * Z * pmst) :=
  let '(t, s) := ask s_thread s in
  match t with
  | None => '(r, s) ← soft_failure POF_TASK_CREATE_FAIL s; mret (r, POF_INVALID_TASKID, s)
  | Some id => mret (POF_OK, id, s)
  end.

Definition pofbf_task_delete (task_id : Z) s : St (Z * Z * pmst) :=
  if task_id =? POF_INVALID_TASKID then
    '(r, s) ← soft_failure POF_TASK_DELETE_FAIL s; mret (r, task_id, s)
  else if task_id =? self then mret (POF_OK, task_id, s)
  else
    let '(c, s) := ask s_cancel s in
    if negb c then '(r, s) ← soft_failure POF_TASK_DELETE_FAIL s; mret (r, task_id, s)
    else mret (POF_OK, POF_INVALID_TASKID, s).

Definition pofdp_create_port_listen_task p s : St (Z * pmst) :=
  port ← lift (load_port p s);
  '(ret, id, s) ← pofbf_task_create s;
  s ← lift (store_port p (set_task id port) s);
  mret (ret, s).

(** ** What the system knows of a name *)

Definition checkPortNameInSys (name : list Z) s : St (Z * pmst) :=
  let '(sock, s) := ask s_socket s in
  match sock with
  | None => soft_failure POF_CREATE_SOCKET_FAILURE s
  | Some _ =>
      _ ← lift (ifr_name name);
      let '(i, s) := ask (fun y => s_iface y name) s in
      mret (match i with Some _ => POF_OK | None => 0xffffffff end, s)
  end.

(** The common text of [poflr_check_port_link] and [poflr_check_port_up]. *)
Definition check_flag (flag : Z) (name : list Z) s : St (Z * pmst) :=
  let '(sock, s) := ask s_socket s in
  match sock with
  | None => soft_failure POF_CREATE_SOCKET_FAILURE s
  | Some _ =>
      _ ← lift (ifr_name name);
      let '(i, s) := ask (fun y => s_iface y name) s in
      mret (match i with
            | None => POF_ERROR
            | Some i => if Z.land (if_flags i) flag =? 0 then POF_ERROR else POF_OK
            end, s)
  end.
Definition poflr_check_port_link := check_flag IFF_RUNNING.
Definition poflr_check_port_up := check_flag IFF_UP.

Definition pofStateCheck (name : list Z) s : St (Z * pmst) :=
  '(up, s) ← poflr_check_port_up name s;
  if negb (up =? POF_OK) then mret (POFPS_LINK_DOWN, s)
  else
    '(link, s) ← poflr_check_port_link name s;
    mret (if link =? POF_OK then POFPS_LIVE else POFPS_LINK_DOWN, s).

(** The hardware address, the text of the IP address and the index of [port] are
    filled.  When the interface has no IP address the union of [struct ifreq]
    still holds what the earlier calls left where the address would be: the last
    four bytes of the hardware address. *)
Definition poflr_get_hwaddr_index_ip_by_name (name : list Z) (port : portInfo) s : St (Z * portInfo * pmst) :=
  let '(sock, s) := ask s_socket s in
  match sock with
  | None => '(r, s) ← soft_failure POF_CREATE_SOCKET_FAILURE s; mret (r, port, s)
  | Some _ =>
      _ ← lift (ifr_name name);
      let '(i, s) := ask (fun y => s_iface y name) s in
      match i with
      | None => '(r, s) ← soft_failure POF_GET_PORT_INFO_FAILURE s;
                mret (r, set_info (zeros 6) (po_ip port) (po_sysIndex port) port, s)
      | Some i =>
          let hwaddr := if_hwaddr i in
          let '(j, s) := ask (fun y => s_iface y name) s in
          match j with
          | None => '(r, s) ← soft_failure POF_GET_PORT_INFO_FAILURE s;
                    mret (r, set_info hwaddr (po_ip port) (po_sysIndex port) port, s)
          | Some j =>
              let '(k, s) := ask (fun y => s_iface y name) s in
              let sin_addr := default (drop 2 hwaddr) (k ≫= if_addr) in
              ip ← lift (strcpy (po_ip port) (inet_ntoa sin_addr));
              mret (POF_OK, set_info hwaddr ip (if_index j) port, s)
          end
      end
  end.

(** ** Sockets of a port *)

(** A failure ends the program. *)
Definition openPort (port : portInfo) s : St (Z * portInfo * pmst) :=
  let '(sock, s) := ask s_socket s in
  match sock with
  | None => fault
  | Some fd =>
      let '(b, s) := ask s_bind s in
      if negb b then fault else mret (POF_OK, set_queues (<[0%nat := fd]> (po_queue_fd port)) 1 port, s)
  end.

Definition openQueueSocket s : St (Z * Z * pmst) :=
  let '(sock, s) := ask s_socket s in
  match sock with None => fault | Some fd => mret (POF_OK, fd, s) end.

(** The loop over [queue_fd[i]]; [k] queues to come. *)
Fixpoint open_queues (k i : nat) (port : portInfo) s : St (portInfo * pmst) :=
  match k with
  | O => mret (port, s)
  | S k =>
      '(ret, fd, s) ← openQueueSocket s;
      if (i <? length (po_queue_fd port))%nat
      then open_queues k (S i) (set_queues (<[i := fd]> (po_queue_fd port)) (po_num_queues port) port) s
      else fault
  end.

Definition portSlicing (port : portInfo) (num_queues : Z) s : St (Z * portInfo * pmst) :=
  let port := set_queues (po_queue_fd port) (u16 (po_num_queues port + num_queues)) port in
  '(port, s) ← open_queues (Z.to_nat (po_num_queues port) - 1) 1 port s;
  mret (POF_OK, port, s).

(** ** Ports *)

Definition poflr_set_port (name : list Z) p s : St (Z * pmst) :=
  port ← lift (load_port p s);
  '(ret, port, s) ← poflr_get_hwaddr_index_ip_by_name name port s;
  if negb (ret =? POF_OK) then s ← lift (store_port p port s); mret (ret, s)
  else
    '(state, s) ← pofStateCheck name s;
    nm ← lift (strcpy (po_name port) name);
    let port := set_identity (portIndex s) state (lr_slotID (pm_lr s)) nm port in
    h ← lift (map_portHashByName name);
    ns ← lift (res_store p (mkNameNode h) (lr_names (pm_lr s)));
    ns ← lift (res_set_hash p h ns);
    ps ← lift (res_set_hash p (map_portHashByID (portIndex s)) (lr_ports (pm_lr s)));
    let s := with_lr (set_port_names ns (set_ports ps (pm_lr s))) s in
    let s := with_index (u8 (portIndex s + 1)) s in
    '(_, port, s) ← openPort port s;
    '(_, port, s) ← portSlicing port 1 s;
    s ← lift (store_port p port s);
    mret (POF_OK, s).

(** The port is made, filled and inserted; the code of [poflr_set_port] is not looked at. *)
Definition create_port (name : list Z) s : St (Z * option addr * pmst) :=
  '(port, lr) ← map_portCreate (pm_lr s);
  let s := with_lr lr s in
  match port with
  | None => '(r, s) ← soft_failure POF_ALLOCATE_RESOURCE_FAILURE s; mret (r, None, s)
  | Some p =>
      '(_, s) ← poflr_set_port name p s;
      lr ← lift (map_portInsert p (pm_lr s));
      mret (POF_OK, Some p, with_lr lr s)
  end.

Definition poflr_add_port_no_report_no_task (name : list Z) s : St (Z * pmst) :=
  found ← lift (poflr_get_port_with_name name (pm_lr s));
  match found with
  | Some _ => mret (POF_ERROR, s)
  | None =>
      '(c, s) ← checkPortNameInSys name s;
      if negb (c =? POF_OK) then mret (POF_ERROR, s)
      else '(r, _, s) ← create_port name s; mret (r, s)
  end.

Definition poflr_add_port (name : list Z) s : St (Z * pmst) :=
  found ← lift (poflr_get_port_with_name name (pm_lr s));
  match found with
  | Some _ => mret (POF_ERROR, s)
  | None =>
      '(c, s) ← checkPortNameInSys name s;
      if negb (c =? POF_OK) then mret (POF_ERROR, s)
      else
        '(r, port, s) ← create_port name s;
        match port with
        | None => mret (r, s)
        | Some p =>
            info ← lift (load_port p s);
            ret ← poflr_port_report POFPR_ADD info;
            if negb (ret =? POF_OK) then mret (ret, s)
            else
              '(ret, s) ← pofdp_create_port_listen_task p s;
              if negb (ret =? POF_OK) then soft_failure POF_TASK_CREATE_FAIL s
              else mret (POF_OK, s)
        end
  end.

Definition poflr_del_port (name : list Z) s : St (Z * pmst) :=
  found ← lift (poflr_get_port_with_name name (pm_lr s));
  match found with
  | None => mret (POF_ERROR, s)
  | Some p =>
      port ← lift (load_port p s);
      ret ← poflr_port_report POFPR_DELETE port;
      if negb (ret =? POF_OK) then mret (ret, s)
      else
        '(ret, id, s) ← pofbf_task_delete (po_taskID port) s;
        s ← lift (store_port p (set_task id port) s);
        if negb (ret =? POF_OK) then mret (ret, s)
        else lr ← lift (map_portDelete p (pm_lr s)); mret (POF_OK, with_lr lr s)
  end.

(** ** The list of names *)

Definition portNameInsert (name : list Z) (slotID : Z) s : St (Z * pmst) :=
  ok ← malloc;
  if negb ok then
    _ ← pofec_set_error POFET_SOFTWARE_FAILED POF_ALLOCATE_RESOURCE_FAILURE; mret (POF_ERROR, s)
  else
    let l := portNameList s in
    let p := fresh (dom (l_nodes l)) in
    l ← lift (list_nodeInsertTail p (l_alloc p (mkPortName (strncpy name (Z.to_nat PORT_NAME_LEN)) slotID) l));
    mret (POF_OK, with_list l s).

Definition poflr_add_port_only_name (name : list Z) (slotID : Z) s : St (Z * pmst) :=
  '(c, s) ← checkPortNameInSys name s;
  if negb (c =? POF_OK) then mret (POF_ERROR, s)
  else '(_, s) ← portNameInsert name slotID s; mret (POF_OK, s).

(** The loop over what [getifaddrs] lists. *)
Fixpoint insert_names (l : list (list Z * bool)) s : St pmst :=
  match l with
  | [] => mret s
  | (name, packet) :: l =>
      if packet && negb (bool_decide (name = lo_name)) then
        '(_, s) ← portNameInsert name POF_SLOT_ID_BASE s; insert_names l s
      else insert_names l s
  end.

Definition poflr_get_port_num_name_by_getifaddrs s : St (Z * pmst) :=
  let '(l, s) := ask s_ifaddrs s in
  l ← lift l;
  s ← insert_names l s;
  mret (POF_OK, s).

(** The name of the node at [p]. *)
Definition name_at p s : option portName := l_obj <$> l_nodes (portNameList s) !! p.

(** ** Initialisation and detection *)

Definition from_system lr : bool := (Z.land (lr_portFlag lr) POFLRPF_FROM_CUSTOM =? 0) && (lr_slotID lr =? POF_SLOT_ID_BASE).

(** The body of the loop of [poflr_init_port]. *)
Definition init_name p s : St (Z * pmst + pmst) :=
  pn ← lift (name_at p s);
  if negb (pn_slotID pn =? lr_slotID (pm_lr s)) then mret (inr s)
  else
    name ← lift (cstr (pn_name pn));
    '(ret, s) ← poflr_add_port_no_report_no_task name s;
    if negb (ret =? POF_OK) then mret (inl (ret, s)) else mret (inr s).

Definition poflr_init_port s : St (Z * pmst) :=
  m ← hmap_create (r_max (lr_ports (pm_lr s)));
  m' ← hmap_create (r_max (lr_ports (pm_lr s)));
  let ps := lr_ports (pm_lr s) in
  let ns := lr_names (pm_lr s) in
  let s := with_lr (set_port_names (Res (r_heap ns) m' (r_num ns) (r_max ns)) (set_ports (Res (r_heap ps) m (r_num ps) (r_max ps)) (pm_lr s))) s in
  if bool_decide (m = None) || bool_decide (m' = None) then soft_failure POF_ALLOCATE_RESOURCE_FAILURE s
  else
    '(ret, s) ← (if from_system (pm_lr s) then poflr_get_port_num_name_by_getifaddrs s else mret (POF_OK, s));
    if negb (ret =? POF_OK) then mret (ret, s)
    else
      r ← LIST_NODES_IN_STRUCT_TRAVERSE portNameList init_name s;
      mret (match r with inl r => r | inr s => (POF_OK, s) end).

(** The body of the loop of [poflr_port_detect_new_add]. *)
Definition detect_name p s : St (Empty_set + pmst) :=
  pn ← lift (name_at p s);
  name ← lift (cstr (pn_name pn));
  found ← lift (poflr_get_port_with_name name (pm_lr s));
  match found with
  | Some _ => mret (inr s)
  | None => '(_, s) ← poflr_add_port name s; mret (inr s)
  end.

Definition poflr_port_detect_new_add s : St (Z * pmst) :=
  if from_system (pm_lr s) then
    l ← LIST_CLEAR_ALL (portNameList s);
    '(ret, s) ← poflr_get_port_num_name_by_getifaddrs (with_list l s);
    if negb (ret =? POF_OK) then mret (ret, s)
    else
      r ← LIST_NODES_IN_STRUCT_TRAVERSE portNameList detect_name s;
      mret (POF_OK, loop_end r)
  else mret (POF_OK, s).

Definition updatePorts (port portNew : portInfo) : portInfo :=
  mkPortInfo (po_pofIndex port) (po_sysIndex portNew) (po_pofState portNew) (po_slotID port) (po_of_enable port)
    (po_config port) (po_hwaddr portNew) (po_name port) (po_ip port) (po_taskID port) (po_queue_fd port) (po_num_queues port).

Definition comparePorts (p1 p2 : portInfo) : bool :=
  bool_decide (po_hwaddr p1 = po_hwaddr p2) && (po_sysIndex p1 =? po_sysIndex p2) && (po_pofState p1 =? po_pofState p2).

Definition set_pofState (st : Z) (p : portInfo) : portInfo :=
  mkPortInfo (po_pofIndex p) (po_sysIndex p) st (po_slotID p) (po_of_enable p) (po_config p)
    (po_hwaddr p) (po_name p) (po_ip p) (po_taskID p) (po_queue_fd p) (po_num_queues p).

(** The body of the loop of [poflr_port_detect_old]; [tmp] is read only where it
    has been filled. *)
Definition detect_port p s : St (Z * pmst + pmst) :=
  port ← lift (load_port p s);
  name ← lift (cstr (po_name port));
  '(c, s) ← checkPortNameInSys name s;
  if negb (c =? POF_OK) then '(_, s) ← poflr_del_port name s; mret (inr s)
  else
    '(ret, tmp, s) ← poflr_get_hwaddr_index_ip_by_name name port_zero s;
    if negb (ret =? POF_OK) then mret (inl (ret, s))
    else
      '(state, s) ← pofStateCheck name s;
      let tmp := set_pofState state tmp in
      if comparePorts port tmp then mret (inr s)
      else
        let port := updatePorts port tmp in
        s ← lift (store_port p port s);
        ret ← poflr_port_report POFPR_MODIFY port;
        if negb (ret =? POF_OK) then mret (inl (ret, s)) else mret (inr s).

Definition pm_ports s : option (heap portInfo * hmap) := res_hm (lr_ports (pm_lr s)).

Definition poflr_port_detect_old s : St (Z * pmst) :=
  r ← HMAP_NODES_IN_STRUCT_TRAVERSE pm_ports detect_port s;
  mret (match r with inl r => r | inr s => (POF_OK, s) end).

Definition poflr_port_detect_main s : St (Z * pmst) :=
  '(ret, s) ← poflr_port_detect_old s;
  if negb (ret =? POF_OK) then mret (ret, s)
  else
    '(ret, s) ← poflr_port_detect_new_add s;
    if negb (ret =? POF_OK) then mret (ret, s) else mret (POF_OK, s).

(** ** All the slots *)

(** The datapath with the globals of pof_port.c. *)
Record dpst := mkDpst { d_dp : pof_datapath; d_index : Z; d_list : dlist portName; d_time : nat }.

(** One round of the loop of [poflr_port_detect_task]; a failure ends the program. *)
Definition poflr_port_detect_task (d : dpst) : St dpst :=
  r ← HMAP_NODES_IN_STRUCT_TRAVERSE (R := Empty_set) (fun d => res_hm (slotMap (d_dp d)))
    (fun p d =>
       lr ← lift (res_load p (slotMap (d_dp d)));
       '(ret, s) ← poflr_port_detect_main (mkPm lr (d_index d) (d_list d) (d_time d));
       ss ← lift (res_store p (pm_lr s) (slotMap (d_dp d)));
       let d := mkDpst (set_slots ss (d_dp d)) (portIndex s) (portNameList s) (pm_time s) in
       if negb (ret =? POF_OK) then fault else mret (inr d)) d;
  mret (loop_end r).

Definition poflr_ports_task_delete s : St (Z * pmst) :=
  r ← HMAP_NODES_IN_STRUCT_TRAVERSE (R := Z * pmst) pm_ports
    (fun p s =>
       port ← lift (load_port p s);
       if negb (po_taskID port =? POF_INVALID_TASKID) then
         '(ret, id, s) ← pofbf_task_delete (po_taskID port) s;
         s ← lift (store_port p (set_task id port) s);
         if negb (ret =? POF_OK) then mret (inl (ret, s)) else mret (inr s)
       else mret (inr s)) s;
  mret (match r with inl r => r | inr s => (POF_OK, s) end).
End system.

(** The hardware address and the index of the port with an IP address. *)
Definition poflr_get_hwaddr_by_ipaddr (ipaddr_str : list Z) lr : St (Z * option (list Z)) :=
  r ← HMAP_NODES_IN_STRUCT_TRAVERSE (S := resource portInfo) res_hm
    (fun p ps =>
       port ← lift (res_load p ps);
       if bool_decide (strn 20 ipaddr_str = strn 20 (po_ip port)) then mret (inl (po_pofIndex port, Some (po_hwaddr port)))
       else mret (inr ps)) (lr_ports lr);
  mret (match r with inl r => r | inr _ => (POF_ERROR, None) end).
