(* ===== verification/PortSpec.v ===== *)
(** * Detection keeps the ports those of the system

    With a system that stays as it is for the length of a round and services
    that do not fail, one round of the detection of a slot is an abstract
    operation on the map of ports: ports whose interface is gone are removed,
    the others take the address, the index and the state of their interface, the
    new interfaces become ports with the next indices, and the controller is told
    of exactly these changes. *)

From S2P Require Import Prelude Bits Codec Env Hmap IdMap DList Tree LocalRes ByteTransfer ByteRoundtrip FlowEntry Port Parse PortMgr.

Implicit Types (s : pmst) (lr : pof_local_resource) (p : addr) (name : list Z) (port : portInfo).

(** ** Strings *)

Definition text name : Prop := Forall (fun c => 0 < c < 256) name.

Lemma text_bytes name : text name -> bytes_ok name.
Proof. intros H. eapply Forall_impl; [exact H|]. unfold byte_ok. cbn. lia. Qed.

Lemma cstr_app name b : text name -> cstr (name ++ 0 :: b) = Some name.
Proof.
  induction 1 as [|c l Hc _ IH]; cbn; [done|]. rewrite (proj2 (Z.eqb_neq c 0)) by lia. cbn in IH. now rewrite IH.
Qed.

Lemma cstr_text b name : bytes_ok b -> cstr b = Some name -> text name.
Proof.
  intros Hb. revert name. induction Hb as [|c b Hc _ IH]; intros name; cbn; [done|].
  destruct (Z.eqb_spec c 0); [intros [= <-]; constructor|]. destruct (cstr b) as [l|]; [|done]. intros [= <-].
  constructor; [unfold byte_ok in Hc; lia|now apply IH].
Qed.

Lemma strcpy_ok buf name : (length name < length buf)%nat ->
  strcpy buf name = Some (name ++ 0 :: drop (S (length name)) buf).
Proof. intros H. unfold strcpy. rewrite (proj2 (Nat.ltb_lt _ _)) by exact H. reflexivity. Qed.

Lemma length_strcpy buf name : (length name < length buf)%nat ->
  length (name ++ 0 :: drop (S (length name)) buf) = length buf.
Proof. intros H. rewrite length_app. cbn [length]. rewrite length_drop. lia. Qed.

Lemma strncpy_pad name n : text name -> (length name <= n)%nat -> strncpy name n = name ++ zeros (n - length name).
Proof.
  intros H. revert n. induction H as [|c l Hc _ IH]; intros n Hn; cbn [length] in *.
  - now destruct n.
  - destruct n as [|n]; [lia|]. cbn [strncpy]. rewrite (proj2 (Z.eqb_neq c 0)) by lia. cbn. now rewrite IH by lia.
Qed.

Lemma cstr_strncpy name n : text name -> (length name < n)%nat -> cstr (strncpy name n) = Some name.
Proof.
  intros H Hn. rewrite strncpy_pad by (auto; lia). replace (n - length name)%nat with (S (n - length name - 1)) by lia.
  now apply cstr_app.
Qed.

Lemma length_strncpy name n : length (strncpy name n) = n.
Proof.
  revert name. induction n as [|n IH]; intros [|c name]; cbn; try done; [unfold zeros; cbn; now rewrite length_replicate|].
  destruct (c =? 0); cbn; [unfold zeros; cbn; now rewrite length_replicate|now rewrite IH].
Qed.
Lemma bytes_ok_strncpy name n : bytes_ok name -> bytes_ok (strncpy name n).
Proof.
  assert (forall k, bytes_ok (zeros k)) as Hz by (intros k; apply Forall_replicate; unfold byte_ok; lia).
  intros H. revert n. induction H as [|c l Hc Hl IH]; intros [|n]; cbn [strncpy]; try apply Hz; try apply Forall_nil_2.
  destruct (c =? 0); [apply Hz|]. constructor; [exact Hc|apply IH].
Qed.

Lemma inet_ntoa_ok a : length a = 4%nat -> bytes_ok a -> (length (inet_ntoa a) < 20)%nat.
Proof.
  assert (forall b, (length (dec_byte b) <= 3)%nat) as Hd by (intros b; unfold dec_byte; destruct (b <? 10), (b <? 100); cbn; lia).
  destruct a as [|a [|b [|c [|d [|]]]]]; cbn [length]; try lia. intros _ _. cbn [inet_ntoa].
  rewrite !length_app. cbn [length]. pose proof (Hd a). pose proof (Hd b). pose proof (Hd c). pose proof (Hd d). lia.
Qed.
Lemma inet_ntoa_text a : bytes_ok a -> text (inet_ntoa a).
Proof.
  assert (forall b, byte_ok b -> text (dec_byte b)) as Hd.
  { intros b Hb. unfold dec_byte, byte_ok in *. destruct (Z.ltb_spec b 10), (Z.ltb_spec b 100); repeat constructor; lia. }
  assert (forall x y, text x -> text y -> text (x ++ y)) as Ha by (intros; now apply Forall_app).
  assert (text [46]) as Hdot by (constructor; [lia|constructor]).
  intros H. destruct a as [|a [|b [|c [|d [|]]]]]; cbn [inet_ntoa]; try apply Forall_nil_2.
  repeat (apply Forall_cons in H as [? H]). auto 10.
Qed.

Definition hash_of name : Z := hash_words name 0.

Lemma hash_name name : map_portHashByName name = Some (hash_of name).
Proof.
  unfold map_portHashByName, hmap_hashForBytes, sub_buf. pose proof (blen_nonneg name). zcases; try lia.
  cbn. unfold blen. now rewrite Nat2Z.id, firstn_all.
Qed.
Lemma hash_nonneg name : 0 <= hash_of name.
Proof. eapply hash_words_nonneg; [reflexivity|lia]. Qed.

(** The hash does not depend on the order of the 4-byte words. *)
Lemma swapped_names_collide a b : length a = 4%nat -> length b = 4%nat -> hash_of (a ++ b) = hash_of (b ++ a).
Proof.
  unfold hash_of. destruct a as [|a0 [|a1 [|a2 [|a3 [|]]]]], b as [|b0 [|b1 [|b2 [|b3 [|]]]]]; cbn [length]; try lia. intros _ _.
  cbn [app hash_words]. rewrite !Z.lxor_0_l. apply Z.lxor_comm.
Qed.

(** ** The report of a port *)

Record port_wf port : Prop := {
  pw_index : 0 <= po_pofIndex port < 256;
  pw_hwaddr : length (po_hwaddr port) = 6%nat /\ bytes_ok (po_hwaddr port);
  pw_name : length (po_name port) = 64%nat /\ bytes_ok (po_name port);
  pw_text : exists name, cstr (po_name port) = Some name /\ (length name < 16)%nat;
  pw_ip : length (po_ip port) = 20%nat /\ bytes_ok (po_ip port)
}.

Definition raw_status (reason dev : Z) port : list Z := le 1 reason ++ zeros 7 ++ port_report_fill_msg dev port.

(** [pof_port_status] on the wire. *)
Definition status_wire (reason dev : Z) port : list Z := foldl rev_at (raw_status reason dev port) (shift_fields 8 POF_PORT_FIELDS).

(** The message of a report. *)
Definition status_msg (e : env) (xid reason : Z) port : list Z :=
  header_bytes POFT_PORT_STATUS xid 136 ++ status_wire reason (g_poflr_dev_id e) port ++ q_residue e.

Lemma raw_status_ok reason dev port : port_wf port ->
  bytes_ok (raw_status reason dev port) /\ length (raw_status reason dev port) = 128%nat.
Proof.
  intros W. assert (forall k, bytes_ok (zeros k)) as Hz by (intros k; apply Forall_replicate; unfold byte_ok; lia).
  pose proof (pw_hwaddr _ W) as [H1 H2]. pose proof (pw_name _ W) as [N1 N2]. unfold raw_status, port_report_fill_msg. split.
  - repeat (apply Forall_app; split); first [apply bytes_ok_le | apply Hz | exact H2 | now apply bytes_ok_strncpy].
  - rewrite !length_app, !length_le, length_strncpy, H1. unfold zeros. now rewrite !length_replicate.
Qed.

(** The messages of reports; a report does not advance the transaction id. *)
Definition told (e : env) (rs : list (Z * portInfo)) : list (list Z) :=
  if sending e then (fun r => status_msg e (g_upward_xid e) r.1 r.2) <$> rs else [].

(** [e'] is [e] after the reports [rs]. *)
Record told_env (e : env) (rs : list (Z * portInfo)) (e' : env) : Prop := {
  te_reported : reported e e';
  te_xid : g_upward_xid e' = g_upward_xid e;
  te_sent : send_q e' = send_q e ++ told e rs
}.

Lemma told_same e rs e' rs' : told_env e rs e' -> told e' rs' = told e rs'.
Proof.
  intros [R X _]. unfold told, sending, status_msg. now rewrite (rp_conn _ _ R), X, (rp_dev _ _ R), (rp_res _ _ R).
Qed.
Lemma told_in_turn e rs rs' : told e (rs ++ rs') = told e rs ++ told e rs'.
Proof. unfold told. destruct (sending e); [apply fmap_app|done]. Qed.

Lemma told_nil e : env_ok e -> told_env e [] e.
Proof. intros Ok. split; [now apply reported_refl|done|]. unfold told. cbn. destruct (sending e); now rewrite app_nil_r. Qed.
Lemma told_trans e rs e' rs' e'' : told_env e rs e' -> told_env e' rs' e'' -> told_env e (rs ++ rs') e''.
Proof.
  intros A B. split.
  - etrans; [apply A|apply B].
  - rewrite (te_xid _ _ _ B). apply A.
  - rewrite (te_sent _ _ _ B), (te_sent _ _ _ A), told_in_turn, (told_same _ _ _ _ A). now rewrite app_assoc.
Qed.

(** Computations that leave the next transaction id alone. *)
Definition same_xid {A} (m : St A) : Prop := forall e r e', m e = Some (r, e') -> g_upward_xid e' = g_upward_xid e.

Lemma same_xid_bind {A B} (m : St A) (k : A -> St B) : same_xid m -> (forall a, same_xid (k a)) -> same_xid (m ≫= k).
Proof.
  intros Hm Hk e r e'. rewrite run_bind. destruct (m e) as [[a e1]|] eqn:E; [|done]. intros E'.
  etrans; [exact (Hk _ _ _ _ E')|exact (Hm _ _ _ E)].
Qed.
Lemma same_xid_ret {A} (a : A) : same_xid (mret a).
Proof. now intros e r e' [= <- <-]. Qed.
Lemma same_xid_lift {A} (o : option A) : same_xid (lift o).
Proof. intros e r e'. unfold lift. destruct o; [now intros [= <- <-]|done]. Qed.
Lemma same_xid_get : same_xid get_env.
Proof. now intros e r e' [= <- <-]. Qed.
Lemma same_xid_mod f : (forall e, g_upward_xid (f e) = g_upward_xid e) -> same_xid (mod_env f).
Proof. intros H e r e' [= <- <-]. apply H. Qed.
Lemma same_xid_malloc : same_xid malloc.
Proof. intros e r e'. unfold malloc. destruct (mallocs e); now intros [= <- <-]. Qed.
Lemma same_xid_msgsnd m : same_xid (msgsnd m).
Proof. intros e r e'. unfold msgsnd. destruct (msgsnds e) as [|[] ?]; now intros [= <- <-]. Qed.
#[local] Hint Resolve same_xid_ret same_xid_lift same_xid_get same_xid_malloc same_xid_msgsnd : pof.

Lemma same_xid_reply type xid len body : same_xid (pofec_reply_msg type xid len body).
Proof.
  assert (forall t c, same_xid (POF_ERROR_HANDLE_RETURN_NO_UPWARD t c)) as He
    by (intros; apply same_xid_bind; [now apply same_xid_mod|auto with pof]).
  assert (forall f, same_xid (store_msg f)) as Hs
    by (intros; repeat (apply same_xid_bind; [auto with pof|intros]); now apply same_xid_mod).
  assert (forall m l, same_xid (pofbf_queue_write m l POF_WAIT_FOREVER)) as Hq.
  { intros m l. unfold pofbf_queue_write. apply same_xid_bind; [auto with pof|]. intros e0. repeat case_match; auto.
    all: apply same_xid_bind; [auto with pof|]; intros []; cbn [negb]; auto.
    all: apply same_xid_bind; [auto with pof|]; intros; apply same_xid_bind; [auto with pof|]; intros []; cbn [negb]; auto with pof. }
  unfold pofec_reply_msg, pofsc_send_packet_upward. apply same_xid_bind; [auto with pof|]. intros e0.
  repeat case_match; auto with pof.
  all: repeat (apply same_xid_bind; [auto with pof|intros]); repeat case_match; auto with pof.
  all: repeat (apply same_xid_bind; [auto with pof|intros]); repeat case_match; auto with pof.
Qed.

(** [poflr_port_report] sends one message while the connection carries them. *)
Lemma report_ok reason port e : port_wf port -> env_ok e -> quiet e ->
  exists e', poflr_port_report reason port e = Some (POF_OK, e') /\ told_env e [(reason, port)] e'.
Proof.
  intros W Ok Q. destruct (raw_status_ok reason (g_poflr_dev_id e) port W) as [B L].
  assert (pof_HtoN_transfer_port_status (raw_status reason (g_poflr_dev_id e) port) = Some (status_wire reason (g_poflr_dev_id e) port) /\
    bytes_ok (status_wire reason (g_poflr_dev_id e) port) /\ length (status_wire reason (g_poflr_dev_id e) port) = 128%nat) as (E & B' & L').
  { unfold pof_HtoN_transfer_port_status, ByteTransfer.port, ntoh_at, status_wire. rewrite <- L. apply ntoh_fields_rev; [|exact B]. rewrite L.
    cbn. repeat (constructor; [split; [set_solver|cbn; lia]|]). constructor. }
  unfold poflr_port_report. rewrite run_bind. unfold get_env at 1. cbv beta iota. fold (raw_status reason (g_poflr_dev_id e) port).
  rewrite run_bind, E. cbn [lift]. unfold reply_checked. rewrite run_bind. unfold upward_xid_now at 1. rewrite run_bind. unfold get_env at 1. unfold mret at 1, St_ret. cbv beta iota.
  rewrite run_bind. destruct (sending e) eqn:S.
  - destruct (reply_msg_spec e POFT_PORT_STATUS (g_upward_xid e) sizeof_pof_port_status (Some (status_wire reason (g_poflr_dev_id e) port)) Ok (proj2 (proj2 Q)) S)
      as (r & e' & E1 & R & H).
    { unfold body_fits, sizeof_pof_port_status, blen. rewrite L'. split; [lia|]. split; [lia|exact B']. }
    destruct H as [(-> & _ & Sq)|(_ & _ & M)]; [|destruct Q as (Q1 & Q2 & _); rewrite Q1, Q2 in M; cbn in M; lia].
    rewrite E1. exists e'. split; [reflexivity|]. split; [exact R|exact (same_xid_reply _ _ _ _ _ _ _ E1)|].
    rewrite Sq. unfold told. rewrite S. cbn [fmap list_fmap fst snd]. unfold status_msg, body_of, sizeof_pof_port_status.
    change (128 + 8) with 136. rewrite firstn_all2 by (rewrite L'; lia). reflexivity.
  - exists e. unfold pofec_reply_msg. rewrite run_bind. unfold get_env at 1. cbv beta iota.
    assert (told_env e [(reason, port)] e) as T by (split; [now apply reported_refl|done|unfold told; now rewrite S, app_nil_r]).
    unfold sending in S. destruct (conn_state e); first [discriminate | split; [reflexivity|exact T]].
Qed.

(** ** A system that stays as it is *)

Record sys_ok (y : sys) : Prop := {
  so_socket : is_Some (s_socket y);
  so_bind : s_bind y = true;
  so_thread : exists id, s_thread y = Some id /\ id <> POF_INVALID_TASKID;
  so_cancel : s_cancel y = true;
  so_iface : forall name i, s_iface y name = Some i -> text name /\ (length name < 16)%nat /\
    length (if_hwaddr i) = 6%nat /\ bytes_ok (if_hwaddr i) /\
    forall a, if_addr i = Some a -> length a = 4%nat /\ bytes_ok a;
  so_listed : exists l, s_ifaddrs y = Some l /\ forall name, (name, true) ∈ l -> is_Some (s_iface y name)
}.

Definition at_time t s : pmst := mkPm (pm_lr s) (portIndex s) (portNameList s) t.

Definition up_of (i : iface) : Z :=
  if Z.land (if_flags i) IFF_UP =? 0 then POFPS_LINK_DOWN
  else if Z.land (if_flags i) IFF_RUNNING =? 0 then POFPS_LINK_DOWN else POFPS_LIVE.
Definition ip_of (i : iface) : list Z := inet_ntoa (default (drop 2 (if_hwaddr i)) (if_addr i)).

(** The members of a port the system decides. *)
Definition informed (i : iface) port : portInfo :=
  set_info (if_hwaddr i) (ip_of i ++ 0 :: drop (S (length (ip_of i))) (po_ip port)) (if_index i) port.

(** ** The state of a slot's ports *)

Definition name_of port : list Z := default [] (cstr (po_name port)).

Definition ports s : gmap Z portInfo := contents (lr_ports (pm_lr s)).
Definition obj_at s p : option portInfo := c_obj <$> r_heap (lr_ports (pm_lr s)) !! p.
Definition node_at s p : option nameNode := c_obj <$> r_heap (lr_names (pm_lr s)) !! p.

(** The two maps hold the same ports, each under its index and under the hash
    of its name. *)
Record pm_ok s : Prop := {
  pk_ports : res_ok (lr_ports (pm_lr s));
  pk_names : res_ok (lr_names (pm_lr s));
  pk_both : forall p, node_at s p = (fun port => mkNameNode (hash_of (name_of port))) <$> obj_at s p;
  pk_wf : forall p port, obj_at s p = Some port -> port_wf port;
  pk_index : 0 <= portIndex s < 256;
  pk_list : exists ps, lrep (portNameList s) ps
}.

Lemma ports_lookup s k port : pm_ok s -> ports s !! k = Some port <-> exists p, obj_at s p = Some port /\ po_pofIndex port = k.
Proof.
  intros Ok. unfold ports, obj_at. rewrite contents_lookup by apply Ok. split.
  - intros (p & c & Hp & Hk & <-). exists p. now rewrite Hp.
  - intros (p & Hp & Hk). destruct (r_heap (lr_ports (pm_lr s)) !! p) as [c|] eqn:E; [|done]. injection Hp as Hp. exists p, c.
    subst port. auto.
Qed.

(** Only the time differs. *)
Lemma pm_ok_time s t : pm_ok s -> pm_ok (at_time t s).
Proof. now intros [? ? ? ? ? ?]; split. Qed.

Lemma name_text port name : port_wf port -> cstr (po_name port) = Some name -> name_of port = name /\ text name /\ (length name < 16)%nat.
Proof.
  intros W E. destruct (pw_text _ W) as (n & E' & L). rewrite E in E'. injection E' as <-.
  split; [unfold name_of; now rewrite E|]. split; [|exact L]. eapply cstr_text; [apply (pw_name _ W)|exact E].
Qed.

Lemma obj_loaded s p port : obj_at s p = Some port -> exists c, r_heap (lr_ports (pm_lr s)) !! p = Some c /\ c_obj c = port /\ load_port p s = Some port.
Proof.
  unfold obj_at, load_port, res_load. destruct (r_heap (lr_ports (pm_lr s)) !! p) as [c|]; [|done]. intros [= <-]. eauto.
Qed.

(** The names that may occur are told apart by their hashes. *)
Definition apart (U : list Z -> Prop) : Prop := forall a b, U a -> U b -> hash_of a = hash_of b -> a = b.
Definition named (U : list Z -> Prop) s : Prop := forall p port, obj_at s p = Some port -> U (name_of port).

Lemma find_name U s name : apart U -> pm_ok s -> named U s -> U name ->
  exists o, poflr_get_port_with_name name (pm_lr s) = Some o /\
    match o with
    | Some p => exists port, obj_at s p = Some port /\ name_of port = name
    | None => forall p port, obj_at s p = Some port -> name_of port <> name
    end.
Proof.
  intros A Ok N Hn. unfold poflr_get_port_with_name. rewrite hash_name. cbn [mbind option_bind].
  destruct (res_get_ok (lr_names (pm_lr s)) (hash_of name) (pk_names _ Ok) (hash_nonneg name)) as (o & E & Ho).
  exists o. split; [exact E|]. destruct o as [p|].
  - destruct Ho as (c & Hc & _ & Hi & _). pose proof (pk_both _ Ok p) as B. unfold node_at in B. rewrite Hc in B.
    destruct (obj_at s p) as [port|] eqn:Hp; [|done]. exists port. split; [done|]. cbn in B, Hi. injection B as B. rewrite B in Hi.
    apply A; auto. now apply (N p).
  - intros p port Hp Hname. pose proof (pk_both _ Ok p) as B. rewrite Hp in B. unfold node_at in B.
    destruct (r_heap (lr_names (pm_lr s)) !! p) as [c|] eqn:Hc; [|done]. injection B as B.
    assert (contents (lr_names (pm_lr s)) !! hash_of name = Some (c_obj c)) as H; [|congruence].
    apply contents_lookup; [apply Ok|]. exists p, c. split; [done|]. split; [|done]. rewrite B. cbn. now rewrite Hname.
Qed.

Lemma name_unique s p q port port' : pm_ok s -> obj_at s p = Some port -> obj_at s q = Some port' ->
  name_of port = name_of port' -> p = q.
Proof.
  intros Ok Hp Hq E. pose proof (pk_both _ Ok p) as Bp. pose proof (pk_both _ Ok q) as Bq. rewrite Hp in Bp. rewrite Hq in Bq.
  unfold node_at in *. destruct (pk_names _ Ok) as (m & cs & R).
  destruct (r_heap (lr_names (pm_lr s)) !! p) as [c|] eqn:Ec; [|done]. destruct (r_heap (lr_names (pm_lr s)) !! q) as [d|] eqn:Ed; [|done].
  injection Bp as Bp. injection Bq as Bq. apply (rr_uniq _ _ _ R p q c d Ec Ed). rewrite Bp, Bq. cbn. now rewrite E.
Qed.

(** The ports apart, the slot is as it was. *)
Record same_tables lr lr' : Prop := {
  st_flag : lr_portFlag lr' = lr_portFlag lr;
  st_slot : lr_slotID lr' = lr_slotID lr;
  st_tables : lr_tables lr' = lr_tables lr;
  st_groups : lr_groups lr' = lr_groups lr;
  st_meters : lr_meters lr' = lr_meters lr;
  st_counters : lr_counters lr' = lr_counters lr;
  st_types : tableNumMaxEachType lr' = tableNumMaxEachType lr;
  st_size : tableSizeMax lr' = tableSizeMax lr;
  st_keys : poflr_key_len_each_type lr' = poflr_key_len_each_type lr
}.
#[global] Instance same_tables_preorder : PreOrder same_tables.
Proof. split; [now split|]. intros a b c [] []. split; congruence. Qed.

(** The rest of the state is as it was. *)
Record same_rest s s' : Prop := {
  sr_index : portIndex s' = portIndex s;
  sr_list : portNameList s' = portNameList s;
  sr_tables : same_tables (pm_lr s) (pm_lr s')
}.
#[global] Instance same_rest_preorder : PreOrder same_rest.
Proof. split; [now split|]. intros a b c [A1 A2 A3] [B1 B2 B3]. split; [congruence..|]. now trans (pm_lr b). Qed.
Lemma sr_slot s s' : same_rest s s' -> lr_slotID (pm_lr s') = lr_slotID (pm_lr s).
Proof. intros H. apply (st_slot _ _ (sr_tables _ _ H)). Qed.
Lemma sr_flag s s' : same_rest s s' -> lr_portFlag (pm_lr s') = lr_portFlag (pm_lr s).
Proof. intros H. apply (st_flag _ _ (sr_tables _ _ H)). Qed.

Lemma same_rest_time s t : same_rest s (at_time t s).
Proof. now split. Qed.

(** A port that keeps its index and its name is written. *)
Lemma store_port_ok s p port port' : pm_ok s -> obj_at s p = Some port -> po_pofIndex port' = po_pofIndex port ->
  name_of port' = name_of port -> port_wf port' ->
  exists s', store_port p port' s = Some s' /\ pm_ok s' /\ same_rest s s' /\
    (forall q, obj_at s' q = if decide (q = p) then Some port' else obj_at s q) /\
    forall m cs, res_repr (lr_ports (pm_lr s)) m cs -> res_repr (lr_ports (pm_lr s')) m cs.
Proof.
  intros Ok Hp Hi Hn W. destruct (obj_loaded _ _ _ Hp) as (c & Hc & Ec & _).
  assert (res_id port' = res_id (c_obj c)) as Hid by (cbn; congruence).
  destruct (res_store_ok (lr_ports (pm_lr s)) p c port' (pk_ports _ Ok) Hc Hid) as (ps & E & Okp & _ & _ & Hh).
  exists (with_lr (set_ports ps (pm_lr s)) s). unfold store_port. rewrite E. split; [reflexivity|].
  assert (forall q, obj_at (with_lr (set_ports ps (pm_lr s)) s) q = if decide (q = p) then Some port' else obj_at s q) as Ho.
  { intros q. unfold obj_at. cbn. rewrite Hh, lookup_insert. destruct (decide (q = p)) as [->|Hq]; [now rewrite decide_True|].
    now rewrite decide_False by congruence. }
  split; [split|].
  - exact Okp.
  - apply Ok.
  - intros q. rewrite Ho. change (node_at (with_lr (set_ports ps (pm_lr s)) s) q) with (node_at s q).
    destruct (decide (q = p)) as [->|_]; [|apply Ok]. rewrite (pk_both _ Ok), Hp. cbn. now rewrite Hn.
  - intros q port0. rewrite Ho. case_decide; [now intros [= <-]|apply Ok].
  - apply Ok.
  - apply Ok.
  - split; [now split|]. split; [exact Ho|]. intros m cs R.
    destruct (res_store_repr _ m cs p c port' R Hc Hid) as (ps' & E' & R' & _). rewrite E in E'. injection E' as <-. exact R'.
Qed.

(** A port is taken out of both maps. *)
Lemma delete_port_ok s p port : pm_ok s -> obj_at s p = Some port -> forall m cs, res_repr (lr_ports (pm_lr s)) m cs ->
  exists lr', map_portDelete p (pm_lr s) = Some lr' /\ pm_ok (with_lr lr' s) /\ same_rest s (with_lr lr' s) /\
    (forall q, obj_at (with_lr lr' s) q = if decide (q = p) then None else obj_at s q) /\
    exists m' cs' l1 l2, res_repr (lr_ports lr') m' cs' /\ concat cs = l1 ++ p :: l2 /\ concat cs' = l1 ++ l2.
Proof.
  intros Ok Hp m cs R. destruct (obj_loaded _ _ _ Hp) as (c & Hc & Ec & _). pose proof (pk_both _ Ok p) as B. rewrite Hp in B.
  unfold node_at in B. destruct (r_heap (lr_names (pm_lr s)) !! p) as [d|] eqn:Hd; [|done].
  destruct (pk_names _ Ok) as (mn & csn & Rn).
  destruct (res_delete_ok _ _ _ _ _ R Hc) as (ps & m' & cs' & Ep & Rp & _ & _ & l1 & l2 & E1 & E2).
  destruct (res_delete_ok _ _ _ _ _ Rn Hd) as (ns & mn' & csn' & En & Rn' & _).
  pose proof (res_delete_objs _ _ _ _ _ R (ex_intro _ _ Hc) Ep) as Hop. pose proof (res_delete_objs _ _ _ _ _ Rn (ex_intro _ _ Hd) En) as Hon.
  change (res_delete u16 p (lr_ports (pm_lr s)) = Some ps) in Ep. change (res_delete u16 p (lr_names (pm_lr s)) = Some ns) in En.
  eexists. unfold map_portDelete. rewrite Ep. cbn [mbind option_bind]. rewrite En. cbn [mbind option_bind]. split; [reflexivity|].
  split; [|split; [now split|split; [exact Hop|exists m', cs', l1, l2; auto]]]. split.
  - exists m', cs'. exact Rp.
  - exists mn', csn'. exact Rn'.
  - intros q. unfold node_at, obj_at. cbn. rewrite Hop, Hon. case_decide; [done|]. apply Ok.
  - intros q port0. unfold obj_at. cbn. rewrite Hop. case_decide; [done|]. apply Ok.
  - apply Ok.
  - apply Ok.
Qed.

Section static.
Context (system : nat -> sys) (self : Z) (y : sys).
Hypothesis static : forall t, system t = y.
Hypothesis Hy : sys_ok y.

Lemma short_name name : (length name < 16)%nat -> exists b, ifr_name name = Some b.
Proof. intros H. eexists. apply strcpy_ok. unfold zeros, IFNAMSIZ. rewrite length_replicate. lia. Qed.

Lemma check_name name s e : (length name < 16)%nat -> exists t,
  checkPortNameInSys system name s e =
    Some ((match s_iface y name with Some _ => POF_OK | None => 0xffffffff end, at_time t s), e).
Proof.
  intros H. destruct (short_name name H) as [b Eb]. destruct (so_socket _ Hy) as [fd Ef].
  eexists. unfold checkPortNameInSys, ask. rewrite !static, Ef. rewrite run_bind, Eb. cbn [lift]. reflexivity.
Qed.

Lemma check_flag_ok flag name s e i : s_iface y name = Some i -> exists t,
  check_flag system flag name s e = Some ((if Z.land (if_flags i) flag =? 0 then POF_ERROR else POF_OK, at_time t s), e).
Proof.
  intros H. destruct (so_iface _ Hy _ _ H) as (_ & L & _). destruct (short_name name L) as [b Eb]. destruct (so_socket _ Hy) as [fd Ef].
  eexists. unfold check_flag, ask. rewrite !static, Ef. rewrite run_bind, Eb. cbn [lift]. rewrite H. reflexivity.
Qed.

Lemma state_check name s e i : s_iface y name = Some i -> exists t, pofStateCheck system name s e = Some ((up_of i, at_time t s), e).
Proof.
  intros H. unfold pofStateCheck, poflr_check_port_up, poflr_check_port_link, up_of.
  destruct (check_flag_ok IFF_UP name s e i H) as [t E]. rewrite run_bind, E. destruct (Z.land (if_flags i) IFF_UP =? 0); cbn [Z.eqb negb].
  - now exists t.
  - change (negb (POF_OK =? POF_OK)) with false. cbv iota. destruct (check_flag_ok IFF_RUNNING name (at_time t s) e i H) as [t' E']. rewrite run_bind, E'.
    exists t'. destruct (Z.land (if_flags i) IFF_RUNNING =? 0); reflexivity.
Qed.

Lemma ip_fits i name : s_iface y name = Some i -> (length (ip_of i) < 20)%nat /\ text (ip_of i).
Proof.
  intros H. destruct (so_iface _ Hy _ _ H) as (_ & _ & L & B & A). unfold ip_of.
  assert (length (default (drop 2 (if_hwaddr i)) (if_addr i)) = 4%nat /\ bytes_ok (default (drop 2 (if_hwaddr i)) (if_addr i))) as [L4 B4].
  { destruct (if_addr i) as [a|]; cbn [default]; [now apply A|]. split; [rewrite length_drop, L; reflexivity|now apply Forall_drop]. }
  split; [now apply inet_ntoa_ok|now apply inet_ntoa_text].
Qed.

Lemma get_info name port s e i : s_iface y name = Some i -> length (po_ip port) = 20%nat -> exists t,
  poflr_get_hwaddr_index_ip_by_name system name port s e = Some ((POF_OK, informed i port, at_time t s), e).
Proof.
  intros H L. destruct (so_iface _ Hy _ _ H) as (_ & Ln & _). destruct (short_name name Ln) as [b Eb]. destruct (so_socket _ Hy) as [fd Ef].
  destruct (ip_fits i name H) as [Li _].
  eexists. unfold poflr_get_hwaddr_index_ip_by_name, ask. rewrite !static, Ef. rewrite run_bind, Eb. cbn [lift].
  rewrite H, ?static. cbv beta iota. rewrite ?H, ?static. cbv beta iota. rewrite ?H. cbn [mbind option_bind].
  fold (ip_of i). rewrite strcpy_ok by (rewrite L; exact Li). rewrite run_bind. cbn [lift]. reflexivity.
Qed.

(** ** A port of old *)

(** What [map_portDelete] does, and keeping a port, to the links. *)
Definition links s s' p : Prop := forall m cs, res_repr (lr_ports (pm_lr s)) m cs -> exists m' cs',
  res_repr (lr_ports (pm_lr s')) m' cs' /\ forall l rest, concat cs = l ++ p :: rest -> exists l', concat cs' = l' ++ rest.

Lemma links_same s s' p : (forall m cs, res_repr (lr_ports (pm_lr s)) m cs -> res_repr (lr_ports (pm_lr s')) m cs) -> links s s' p.
Proof. intros H m cs R. exists m, cs. split; [auto|]. intros l rest E. exists (l ++ [p]). now rewrite <- app_assoc. Qed.
Lemma links_removed s s' p : (forall m cs, res_repr (lr_ports (pm_lr s)) m cs -> exists m' cs' l1 l2,
  res_repr (lr_ports (pm_lr s')) m' cs' /\ concat cs = l1 ++ p :: l2 /\ concat cs' = l1 ++ l2) -> links s s' p.
Proof.
  intros H m cs R. destruct (H m cs R) as (m' & cs' & l1 & l2 & R' & E1 & E2). exists m', cs'. split; [exact R'|].
  intros l rest E. exists l1. pose proof (rep_nodup _ _ _ (rr_rep _ _ _ R)) as Nd. rewrite E1 in E, Nd.
  destruct (split_nodup _ _ _ _ _ Nd E) as [_ ->]. exact E2.
Qed.

Lemma task_delete t s e : t <> POF_INVALID_TASKID -> exists id t', pofbf_task_delete system self t s e = Some ((POF_OK, id, at_time t' s), e).
Proof.
  intros H. unfold pofbf_task_delete. rewrite (proj2 (Z.eqb_neq _ _)) by exact H. destruct (t =? self).
  - exists t, (pm_time s). now destruct s.
  - unfold ask. rewrite static, (so_cancel _ Hy). eexists _, _. reflexivity.
Qed.

Lemma set_task_wf t port : port_wf port -> port_wf (set_task t port).
Proof. now intros [? ? ? ? ?]; split. Qed.

Context (U : list Z -> Prop).
Hypothesis HU : apart U.

Lemma del_port_ok s p port e : pm_ok s -> named U s -> obj_at s p = Some port -> po_taskID port <> POF_INVALID_TASKID ->
  env_ok e -> quiet e -> exists s' e', poflr_del_port system self (name_of port) s e = Some ((POF_OK, s'), e') /\
    told_env e [(POFPR_DELETE, port)] e' /\ pm_ok s' /\ same_rest s s' /\ links s s' p /\
    forall q, obj_at s' q = if decide (q = p) then None else obj_at s q.
Proof.
  intros Ok N Hp Ht Oe Q. destruct (find_name U s (name_of port) HU Ok N (N _ _ Hp)) as (o & E & Ho).
  destruct o as [p'|]; [|now destruct (Ho _ _ Hp)]. destruct Ho as (port' & Hp' & En).
  assert (p' = p) as -> by (eapply name_unique; eauto). clear port' Hp' En.
  destruct (obj_loaded _ _ _ Hp) as (c & Hc & Ec & El). pose proof (pk_wf _ Ok _ _ Hp) as W.
  destruct (report_ok POFPR_DELETE port e W Oe Q) as (e1 & E1 & T1).
  destruct (task_delete (po_taskID port) s e1 Ht) as (id & t & E2).
  destruct (store_port_ok (at_time t s) p port (set_task id port)) as (s3 & E3 & Ok3 & S3 & O3 & L3);
    [now apply pm_ok_time|exact Hp|reflexivity|reflexivity|now apply set_task_wf|].
  destruct (pk_ports _ Ok) as (m0 & cs0 & R0). assert (obj_at s3 p = Some (set_task id port)) as Hp3 by (now rewrite O3, decide_True).
  destruct (delete_port_ok s3 p _ Ok3 Hp3 m0 cs0 (L3 _ _ R0)) as (lr' & E4 & Ok4 & S4 & O4 & _).
  exists (with_lr lr' s3), e1. unfold poflr_del_port. rewrite run_bind, E. cbn [lift]. rewrite run_bind, El. cbn [lift].
  rewrite run_bind, E1. change (negb (POF_OK =? POF_OK)) with false. cbv iota. rewrite run_bind, E2. cbn [at_time] in *. rewrite run_bind, E3. cbn [lift].
  change (negb (POF_OK =? POF_OK)) with false. cbv iota. rewrite run_bind, E4. split; [reflexivity|]. split; [exact T1|]. split; [exact Ok4|].
  split; [etrans; [apply same_rest_time|etrans; [exact S3|exact S4]]|]. split.
  - apply links_removed. intros m cs R. destruct (delete_port_ok s3 p _ Ok3 Hp3 m cs (L3 _ _ R)) as (lr2 & E5 & _ & _ & _ & H).
    rewrite E4 in E5. injection E5 as <-. exact H.
  - intros q. rewrite O4. case_decide as Hq; [done|]. rewrite O3, decide_False by done. reflexivity.
Qed.

(** What the round makes of a port, and what it tells of it. *)
Definition current (i : iface) port : portInfo :=
  mkPortInfo (po_pofIndex port) (if_index i) (up_of i) (po_slotID port) (po_of_enable port) (po_config port)
    (if_hwaddr i) (po_name port) (po_ip port) (po_taskID port) (po_queue_fd port) (po_num_queues port).
Definition after_port port : option portInfo := (fun i => current i port) <$> s_iface y (name_of port).
Definition unchanged (i : iface) port : bool :=
  bool_decide (po_hwaddr port = if_hwaddr i) && (po_sysIndex port =? if_index i) && (po_pofState port =? up_of i).
Definition change port : list (Z * portInfo) :=
  match s_iface y (name_of port) with
  | None => [(POFPR_DELETE, port)]
  | Some i => if unchanged i port then [] else [(POFPR_MODIFY, current i port)]
  end.

Lemma current_unchanged i port : unchanged i port = true -> current i port = port.
Proof.
  unfold unchanged. rewrite !andb_true_iff, bool_decide_eq_true, !Z.eqb_eq. intros [[E1 E2] E3].
  destruct port. cbn in *. unfold current. cbn. congruence.
Qed.
Lemma current_wf i port : s_iface y (name_of port) = Some i -> port_wf port -> port_wf (current i port).
Proof. intros H [? ? ? ? ?]. destruct (so_iface _ Hy _ _ H) as (_ & _ & L & B & _). now split. Qed.

Lemma detect_port_ok s p port e : pm_ok s -> named U s -> obj_at s p = Some port -> po_taskID port <> POF_INVALID_TASKID ->
  env_ok e -> quiet e -> exists s' e', detect_port system self p s e = Some (inr s', e') /\
    told_env e (change port) e' /\ pm_ok s' /\ same_rest s s' /\ links s s' p /\
    forall q, obj_at s' q = if decide (q = p) then after_port port else obj_at s q.
Proof.
  intros Ok N Hp Ht Oe Q. destruct (obj_loaded _ _ _ Hp) as (c & Hc & Ec & El). pose proof (pk_wf _ Ok _ _ Hp) as W.
  destruct (pw_text _ W) as (name & En & Ln). destruct (name_text _ _ W En) as (Ename & _ & _).
  destruct (check_name name s e Ln) as [t E1].
  unfold detect_port. rewrite run_bind, El. cbn [lift]. rewrite run_bind, En. cbn [lift]. rewrite run_bind, E1.
  unfold after_port, change. rewrite Ename. destruct (s_iface y name) as [i|] eqn:Ei.
  - change (negb (POF_OK =? POF_OK)) with false. cbv iota.
    destruct (get_info name port_zero (at_time t s) e i Ei eq_refl) as [t2 E2]. rewrite run_bind, E2.
    change (negb (POF_OK =? POF_OK)) with false. cbv iota.
    destruct (state_check name (at_time t2 (at_time t s)) e i Ei) as [t3 E3]. rewrite run_bind, E3. cbv zeta.
    change (comparePorts port (set_pofState (up_of i) (informed i port_zero))) with (unchanged i port).
    change (updatePorts port (set_pofState (up_of i) (informed i port_zero))) with (current i port).
    set (s3 := at_time t3 (at_time t2 (at_time t s))). destruct (unchanged i port) eqn:Eu.
    + exists s3, e. split; [reflexivity|]. split; [now apply told_nil|]. split; [now repeat apply pm_ok_time|]. split; [now split|].
      split; [now apply links_same|]. intros q. cbn. rewrite (current_unchanged _ _ Eu). case_decide as Hq; [now subst q|done].
    + assert (s_iface y (name_of port) = Some i) as Ei' by now rewrite Ename.
      destruct (store_port_ok s3 p port (current i port)) as (s4 & E4 & Ok4 & S4 & O4 & L4);
        [now repeat apply pm_ok_time|exact Hp|reflexivity|reflexivity|now apply current_wf|].
      destruct (report_ok POFPR_MODIFY (current i port) e (current_wf _ _ Ei' W) Oe Q) as (e' & E5 & T5).
      exists s4, e'. rewrite run_bind, E4. cbn [lift]. rewrite run_bind, E5. split; [reflexivity|]. split; [exact T5|]. split; [exact Ok4|].
      split; [etrans; [|exact S4]; now split|]. split; [apply links_same; intros m cs R; apply L4; exact R|exact O4].
  - change (negb (0xffffffff =? POF_OK)) with true. cbv iota.
    assert (pm_ok (at_time t s)) as Okt by now apply pm_ok_time.
    destruct (del_port_ok (at_time t s) p port e Okt N Hp Ht Oe Q) as (s2 & e2 & E2 & T2 & Ok2 & S2 & L2 & O2).
    rewrite Ename in E2. exists s2, e2. rewrite run_bind, E2. split; [reflexivity|]. split; [exact T2|]. split; [exact Ok2|].
    split; [etrans; [apply same_rest_time|exact S2]|]. split; [exact L2|exact O2].
Qed.

(** ** All the ports of old *)

(** After the ports at [done]: they are as [after_port] makes them, the others as
    they were. *)
Record round s0 e0 (L : list addr) (done : list addr) s e : Prop := {
  rd_ok : pm_ok s;
  rd_rest : same_rest s0 s;
  rd_obj : forall q, obj_at s q = if decide (q ∈ done) then obj_at s0 q ≫= after_port else obj_at s0 q;
  rd_told : told_env e0 (concat (change <$> omap (obj_at s0) done)) e;
  rd_links : exists m cs l rest, res_repr (lr_ports (pm_lr s)) m cs /\ concat cs = l ++ rest /\ L = done ++ rest
}.

Lemma name_after port port' : after_port port = Some port' -> name_of port' = name_of port /\ po_pofIndex port' = po_pofIndex port /\
  po_taskID port' = po_taskID port.
Proof. unfold after_port. destruct (s_iface y (name_of port)); [|done]. now intros [= <-]. Qed.

Definition listening s : Prop := forall p port, obj_at s p = Some port -> po_taskID port <> POF_INVALID_TASKID.

Lemma detect_old_ok s e : pm_ok s -> named U s -> listening s -> env_ok e -> quiet e ->
  exists s' e' L, poflr_port_detect_old system self s e = Some ((POF_OK, s'), e') /\
    pm_ok s' /\ same_rest s s' /\ NoDup L /\ (forall p, p ∈ L <-> is_Some (obj_at s p)) /\
    told_env e (concat (change <$> omap (obj_at s) L)) e' /\
    forall q, obj_at s' q = obj_at s q ≫= after_port.
Proof.
  intros Ok N Li Oe Q. destruct (pk_ports _ Ok) as (m & cs & R).
  assert (forall p, p ∈ concat cs <-> is_Some (obj_at s p)) as HL.
  { intros p. unfold obj_at. split.
    - intros H. destruct (rep_in _ _ _ _ (rr_rep _ _ _ R) H) as [c ->]. cbn. eauto.
    - intros H. apply (rr_live _ _ _ R). destruct (r_heap (lr_ports (pm_lr s)) !! p); [eauto|]. cbn in H. now apply is_Some_None in H. }
  destruct (traverse_rest (Res := Z * pmst) pm_ports (detect_port system self)
    (fun rest s' e' => exists done, concat cs = done ++ rest /\ round s e (concat cs) done s' e') (fun _ _ => False))
    with (h := r_heap (lr_ports (pm_lr s))) (m := m) (cs := cs) (s := s) (e := e) as (r & e' & E & H).
  - intros rest s1 e1 (done & E & Rd). destruct (rd_links _ _ _ _ _ _ Rd) as (m1 & cs1 & l & rest' & R1 & E1 & E2).
    rewrite E in E2. apply app_inv_head in E2. subst rest'. exists (r_heap (lr_ports (pm_lr s1))), m1, cs1, l.
    split; [unfold pm_ports, res_hm; now rewrite (rr_map _ _ _ R1)|]. split; [apply R1|exact E1].
  - intros p rest s1 e1 (done & E & Rd). pose proof (rep_nodup _ _ _ (rr_rep _ _ _ R)) as Nd. rewrite E in Nd.
    assert (p ∉ done) as Hpd by (apply NoDup_app in Nd as (_ & Nd & _); intros H; apply (Nd _ H); constructor).
    assert (is_Some (obj_at s p)) as [port Hp] by (apply HL; rewrite E; apply elem_of_app; right; constructor).
    assert (obj_at s1 p = Some port) as Hp1 by (now rewrite (rd_obj _ _ _ _ _ _ Rd), decide_False).
    assert (named U s1) as N1.
    { intros q port'. rewrite (rd_obj _ _ _ _ _ _ Rd). case_decide; [|apply N]. destruct (obj_at s q) as [port0|] eqn:Eq; [|done].
      cbn. intros H1. destruct (name_after _ _ H1) as (-> & _). now apply (N q). }
    destruct (detect_port_ok s1 p port e1 (rd_ok _ _ _ _ _ _ Rd) N1 Hp1 (Li _ _ Hp)) as (s2 & e2 & E2 & T2 & Ok2 & S2 & L2 & O2);
      [apply (rd_told _ _ _ _ _ _ Rd)|eapply quiet_reported; [exact Q|apply (rd_told _ _ _ _ _ _ Rd)]|].
    exists (inr s2), e2. split; [exact E2|]. exists (done ++ [p]). split; [now rewrite <- app_assoc|]. split.
    + exact Ok2.
    + etrans; [apply (rd_rest _ _ _ _ _ _ Rd)|exact S2].
    + intros q. rewrite O2. destruct (decide (q = p)) as [->|Hq].
      * rewrite decide_True by (apply elem_of_app; right; constructor). now rewrite Hp.
      * rewrite (rd_obj _ _ _ _ _ _ Rd). apply decide_ext. rewrite elem_of_app, list_elem_of_singleton. tauto.
    + rewrite omap_app, fmap_app, concat_app. eapply told_trans; [apply (rd_told _ _ _ _ _ _ Rd)|]. cbn. rewrite Hp. cbn. now rewrite app_nil_r.
    + destruct (rd_links _ _ _ _ _ _ Rd) as (m1 & cs1 & l & rest' & R1 & E1 & E3).
      rewrite E in E3. apply app_inv_head in E3. subst rest'. destruct (L2 m1 cs1 R1) as (m2 & cs2 & R2 & H2). destruct (H2 l rest E1) as (l' & E4).
      exists m2, cs2, l', rest. split; [exact R2|]. split; [exact E4|]. now rewrite <- app_assoc.
  - unfold pm_ports, res_hm. now rewrite (rr_map _ _ _ R).
  - apply R.
  - exists []. split; [done|]. split; [done|done| |now apply told_nil|exists m, cs, [], (concat cs); auto].
    intros q. now rewrite decide_False by apply not_elem_of_nil.
  - destruct r as [|s']; [now destruct H|]. destruct H as (done & E1 & Rd). rewrite app_nil_r in E1. subst done.
    exists s', e', (concat cs). unfold poflr_port_detect_old. rewrite run_bind, E. split; [reflexivity|].
    split; [apply Rd|]. split; [apply Rd|]. split; [apply (rep_nodup _ _ _ (rr_rep _ _ _ R))|]. split; [exact HL|]. split; [apply Rd|].
    intros q. rewrite (rd_obj _ _ _ _ _ _ Rd). case_decide as Hq; [done|]. rewrite HL in Hq.
    destruct (obj_at s q); [exfalso; eauto|done].
Qed.

(** ** New ports *)

Definition sock_fd : Z := default 0 (s_socket y).
Definition task_id : Z := default 0 (s_thread y).

(** The port of an interface before its task is made. *)
Definition made (i : iface) (idx slot : Z) name : portInfo :=
  mkPortInfo idx (if_index i) (up_of i) slot POFE_DISABLE 0 (if_hwaddr i)
    (name ++ 0 :: drop (S (length name)) (zeros 64)) (ip_of i ++ 0 :: drop (S (length (ip_of i))) (zeros 20))
    0 [sock_fd; sock_fd; 0; 0; 0; 0; 0; 0; 0] 2.

Lemma made_name i idx slot name : text name -> name_of (made i idx slot name) = name.
Proof. intros H. unfold name_of. cbn. now rewrite cstr_app. Qed.

Lemma made_wf i idx slot name : s_iface y name = Some i -> 0 <= idx < 256 -> port_wf (made i idx slot name).
Proof.
  assert (forall k, bytes_ok (zeros k)) as Hz by (intros k; apply Forall_replicate; unfold byte_ok; lia).
  intros H Hi. destruct (so_iface _ Hy _ _ H) as (T & L & L6 & B6 & _). destruct (ip_fits _ _ H) as [Li Ti].
  split; cbn [made po_pofIndex po_hwaddr po_name po_ip].
  - exact Hi.
  - auto.
  - rewrite length_app. cbn [length]. rewrite length_drop. unfold zeros at 1. rewrite length_replicate. split; [lia|].
    apply Forall_app. split; [now apply text_bytes|]. constructor; [unfold byte_ok; lia|apply Forall_drop, Hz].
  - exists name. split; [now apply cstr_app|exact L].
  - rewrite length_app. cbn [length]. rewrite length_drop. unfold zeros at 1. rewrite length_replicate. split; [lia|].
    apply Forall_app. split; [now apply text_bytes|]. constructor; [unfold byte_ok; lia|apply Forall_drop, Hz].
Qed.

(** A cell of both heaps before it is linked. *)
Definition put_cells p (h : Z) port (hn : Z) (nn : nameNode) s : pmst :=
  with_lr (set_port_names (with_heap (lr_names (pm_lr s)) (<[p := Cell hn None nn]> (r_heap (lr_names (pm_lr s)))))
    (set_ports (with_heap (lr_ports (pm_lr s)) (<[p := Cell h None port]> (r_heap (lr_ports (pm_lr s))))) (pm_lr s))) s.

Lemma fill_port s p h port hn nn port' : r_heap (lr_ports (pm_lr s)) !! p = None ->
  store_port p port' (put_cells p h port hn nn s) = Some (put_cells p h port' hn nn s).
Proof. intros Hp. unfold store_port. cbn. rewrite res_fill by exact Hp. reflexivity. Qed.

Lemma open_sockets port s e : length (po_queue_fd port) = 9%nat -> exists t,
  ('(_, port, s) ← openPort system port s; '(_, port, s) ← portSlicing system port 1 s; mret (port, s)) e =
  Some ((set_queues (<[1%nat := sock_fd]> (<[0%nat := sock_fd]> (po_queue_fd port))) 2 port, at_time t s), e).
Proof.
  intros L. destruct (so_socket _ Hy) as [fd Ef]. unfold sock_fd. rewrite Ef. cbn [default].
  unfold openPort, portSlicing, ask. rewrite !static, Ef, (so_bind _ Hy). cbn [negb]. rewrite run_bind. unfold mret at 1, St_ret. cbv beta iota zeta.
  rewrite !run_bind. cbn [po_num_queues set_queues]. change (Z.to_nat (u16 (1 + 1)) - 1)%nat with 1%nat.
  cbn [open_queues]. unfold openQueueSocket, ask. rewrite !static, Ef. rewrite run_bind. unfold mret at 1, St_ret. cbv beta iota.
  cbn [po_queue_fd set_queues]. rewrite length_insert, L. cbn. eexists. reflexivity.
Qed.

Lemma set_port_ok s p name i e : r_heap (lr_ports (pm_lr s)) !! p = None -> r_heap (lr_names (pm_lr s)) !! p = None ->
  s_iface y name = Some i -> 0 <= portIndex s < 256 -> exists t,
  poflr_set_port system name p (put_cells p 0 port_zero 0 (mkNameNode 0) s) e =
  Some ((POF_OK, with_index (u8 (portIndex s + 1)) (put_cells p (portIndex s) (made i (portIndex s) (lr_slotID (pm_lr s)) name)
      (hash_of name) (mkNameNode (hash_of name)) (at_time t s))), e).
Proof.
  intros Hp Hn Hi Hx. destruct (so_iface _ Hy _ _ Hi) as (_ & L & _).
  set (s1 := put_cells p 0 port_zero 0 (mkNameNode 0) s).
  assert (load_port p s1 = Some port_zero) as El by (unfold load_port, res_load; cbn; now rewrite lookup_insert_eq).
  destruct (get_info name port_zero s1 e i Hi eq_refl) as [t1 E1]. destruct (state_check name (at_time t1 s1) e i Hi) as [t2 E2].
  unfold poflr_set_port. rewrite run_bind, El. cbn [lift]. rewrite run_bind, E1. change (negb (POF_OK =? POF_OK)) with false. cbv iota.
  rewrite run_bind, E2. cbn [po_name informed set_info port_zero].
  rewrite strcpy_ok by (unfold zeros; rewrite length_replicate; lia). rewrite run_bind. cbn [lift].
  rewrite hash_name, run_bind. cbn [lift]. cbn [pm_lr at_time]. rewrite run_bind. unfold s1 at 1. cbn [pm_lr put_cells with_lr set_port_names lr_names].
  rewrite res_fill by exact Hn. cbn [lift]. rewrite run_bind, res_hash by exact Hn. cbn [lift].
  rewrite run_bind. change (lr_ports (pm_lr s1)) with (with_heap (lr_ports (pm_lr s)) (<[p := Cell 0 None port_zero]> (r_heap (lr_ports (pm_lr s))))).
  rewrite res_hash by exact Hp. cbn [lift]. cbv zeta.
  change (map_portHashByID (portIndex (at_time t2 (at_time t1 s1)))) with (u8 (portIndex s)). rewrite (u8_small (portIndex s)) by exact Hx.
  match goal with |- context [openPort system ?pt ?st] => set (port0 := pt); set (s4 := st) end.
  destruct (open_sockets port0 s4 e eq_refl) as [t3 E3].
  rewrite run_bind in E3. rewrite run_bind. destruct (openPort system port0 s4 e) as [[[[? port1] s5] e5]|]; [|discriminate].
  rewrite run_bind in E3. rewrite run_bind. destruct (portSlicing system port1 1 s5 e5) as [[[[? port2] s6] e6]|]; [|discriminate].
  injection E3 as -> -> ->. exists t3. rewrite run_bind.
  change (at_time t3 s4) with (with_index (u8 (portIndex s + 1)) (put_cells p (portIndex s) port_zero (hash_of name) (mkNameNode (hash_of name)) (at_time t3 s))).
  unfold store_port. cbn [pm_lr with_index put_cells with_lr set_port_names set_ports lr_ports at_time]. rewrite res_fill by exact Hp. reflexivity.
Qed.

Lemma insert_port_ok s p port : pm_ok s -> obj_at s p = None -> port_wf port ->
  (forall q port', obj_at s q = Some port' -> po_pofIndex port' <> po_pofIndex port /\ hash_of (name_of port') <> hash_of (name_of port)) ->
  exists lr', map_portInsert p (pm_lr (put_cells p (po_pofIndex port) port (hash_of (name_of port)) (mkNameNode (hash_of (name_of port))) s)) = Some lr' /\
    pm_ok (with_lr lr' s) /\ same_rest s (with_lr lr' s) /\
    forall q, obj_at (with_lr lr' s) q = if decide (q = p) then Some port else obj_at s q.
Proof.
  intros Ok Hp W Hf. pose proof (pk_both _ Ok p) as Bp. rewrite Hp in Bp.
  assert (r_heap (lr_ports (pm_lr s)) !! p = None) as Hp0 by (unfold obj_at in Hp; now destruct (r_heap (lr_ports (pm_lr s)) !! p)).
  assert (r_heap (lr_names (pm_lr s)) !! p = None) as Hn0 by (unfold node_at in Bp; now destruct (r_heap (lr_names (pm_lr s)) !! p)).
  set (nn := mkNameNode (hash_of (name_of port))).
  destruct (res_insert_ok (lr_ports (pm_lr s)) p port (pk_ports _ Ok) Hp0 (proj1 (pw_index _ W))) as (ps & E1 & Ok1 & _).
  { destruct (contents (lr_ports (pm_lr s)) !! res_id port) as [v|] eqn:Ev; [|done]. apply (ports_lookup s _ _ Ok) in Ev as (q & Hq & Ei). now destruct (Hf _ _ Hq). }
  destruct (res_insert_ok (lr_names (pm_lr s)) p nn (pk_names _ Ok) Hn0 (hash_nonneg _)) as (ns & E2 & Ok2 & _).
  { destruct (contents (lr_names (pm_lr s)) !! res_id nn) as [v|] eqn:Ev; [|done]. apply contents_lookup in Ev as (q & c & Hq & Ei & _); [|apply Ok].
    pose proof (pk_both _ Ok q) as Bq. unfold node_at in Bq. rewrite Hq in Bq. destruct (obj_at s q) as [port'|] eqn:Eo; [|done].
    injection Bq as Bq. destruct (Hf _ _ Eo) as [_ []]. rewrite Bq in Ei. exact Ei. }
  pose proof (res_insert_objs _ _ _ E1) as O1. pose proof (res_insert_objs _ _ _ E2) as O2. cbn [r_heap with_heap] in O1, O2.
  eexists. unfold map_portInsert. cbn [pm_lr put_cells with_lr set_port_names set_ports lr_ports lr_names].
  change (res_insert u16 p (with_heap (lr_ports (pm_lr s)) (<[p := Cell (po_pofIndex port) None port]> (r_heap (lr_ports (pm_lr s))))) = Some ps) in E1.
  change (res_insert u16 p (with_heap (lr_names (pm_lr s)) (<[p := Cell (hash_of (name_of port)) None nn]> (r_heap (lr_names (pm_lr s))))) = Some ns) in E2.
  rewrite E1. cbn [mbind option_bind]. fold nn. rewrite E2. cbn [mbind option_bind]. split; [reflexivity|].
  match goal with |- pm_ok ?x /\ _ => set (s' := x) end.
  assert (forall q, obj_at s' q = if decide (q = p) then Some port else obj_at s q) as Ho.
  { intros q. unfold obj_at. cbn. rewrite O1, lookup_insert. destruct (decide (q = p)) as [->|Hq]; [now rewrite decide_True|now rewrite decide_False by congruence]. }
  split; [split|split; [now split|exact Ho]].
  - exact Ok1.
  - exact Ok2.
  - intros q. rewrite Ho. unfold node_at. cbn. rewrite O2, lookup_insert. destruct (decide (q = p)) as [->|Hq]; [now rewrite decide_True|].
    rewrite decide_False by congruence. apply Ok.
  - intros q port'. rewrite Ho. case_decide; [now intros [= <-]|apply Ok].
  - apply Ok.
  - apply Ok.
Qed.

(** The next index and the hash of the name are not in use. *)
Definition unused s name : Prop := forall q port, obj_at s q = Some port ->
  po_pofIndex port <> portIndex s /\ hash_of (name_of port) <> hash_of name.

Lemma create_ok s name i e : pm_ok s -> s_iface y name = Some i -> unused s name -> mallocs e = [] ->
  exists p s', create_port system name s e = Some ((POF_OK, Some p, s'), e) /\ pm_ok s' /\ obj_at s p = None /\
    portIndex s' = u8 (portIndex s + 1) /\ portNameList s' = portNameList s /\
    same_tables (pm_lr s) (pm_lr s') /\
    forall q, obj_at s' q = if decide (q = p) then Some (made i (portIndex s) (lr_slotID (pm_lr s)) name) else obj_at s q.
Proof.
  intros Ok Hi Hu Q. set (p := fresh_addr (r_heap (lr_ports (pm_lr s)))).
  assert (r_heap (lr_ports (pm_lr s)) !! p = None) as Hp0 by apply fresh_addr_spec.
  assert (obj_at s p = None) as Hp by (unfold obj_at; now rewrite Hp0).
  assert (r_heap (lr_names (pm_lr s)) !! p = None) as Hn0.
  { pose proof (pk_both _ Ok p) as B. rewrite Hp in B. unfold node_at in B. now destruct (r_heap (lr_names (pm_lr s)) !! p). }
  destruct (set_port_ok s p name i e Hp0 Hn0 Hi (pk_index _ Ok)) as [t E1].
  destruct (so_iface _ Hy _ _ Hi) as (T & _). set (port := made i (portIndex s) (lr_slotID (pm_lr s)) name) in *.
  assert (name_of port = name) as En by now apply made_name.
  set (s1 := with_index (u8 (portIndex s + 1)) (at_time t s)).
  assert (pm_ok s1) as Ok1 by (destruct Ok; split; auto; cbn; apply u8_bound).
  destruct (insert_port_ok s1 p port Ok1 Hp) as (lr' & E2 & Ok2 & S2 & O2).
  { apply made_wf; [done|apply Ok]. }
  { intros q port' Hq. rewrite En. exact (Hu q port' Hq). }
  exists p, (with_lr lr' s1). unfold create_port, map_portCreate. rewrite run_bind, run_bind, (res_create_quiet _ _ Q). fold p. unfold mret at 1, St_ret. cbv beta iota.
  rewrite run_bind.
  change (with_lr (set_port_names (with_heap (lr_names (pm_lr s)) (<[p := Cell 0 None res_zero]> (r_heap (lr_names (pm_lr s)))))
    (set_ports (with_heap (lr_ports (pm_lr s)) (<[p := Cell 0 None res_zero]> (r_heap (lr_ports (pm_lr s))))) (pm_lr s))) s)
    with (put_cells p 0 port_zero 0 (mkNameNode 0) s).
  rewrite E1, run_bind. rewrite En in E2. change (pm_lr (put_cells p (po_pofIndex port) port (hash_of name) (mkNameNode (hash_of name)) s1))
    with (pm_lr (put_cells p (portIndex s) port (hash_of name) (mkNameNode (hash_of name)) (at_time t s))) in E2.
  cbn [pm_lr with_index]. rewrite E2. cbn [lift]. split; [reflexivity|]. split; [exact Ok2|]. split; [exact Hp|].
  split; [apply (sr_index _ _ S2)|]. split; [apply (sr_list _ _ S2)|]. split; [apply (sr_tables _ _ S2)|exact O2].
Qed.

Lemma add_port_ok s name i e : pm_ok s -> named U s -> U name -> s_iface y name = Some i -> unused s name -> env_ok e -> quiet e ->
  exists p s' e', poflr_add_port system name s e = Some ((POF_OK, s'), e') /\ pm_ok s' /\ obj_at s p = None /\
    told_env e [(POFPR_ADD, made i (portIndex s) (lr_slotID (pm_lr s)) name)] e' /\
    portIndex s' = u8 (portIndex s + 1) /\ portNameList s' = portNameList s /\
    same_tables (pm_lr s) (pm_lr s') /\
    forall q, obj_at s' q = if decide (q = p) then Some (set_task task_id (made i (portIndex s) (lr_slotID (pm_lr s)) name)) else obj_at s q.
Proof.
  intros Ok N HUn Hi Hu Oe Q. destruct (so_iface _ Hy _ _ Hi) as (_ & L & _).
  destruct (find_name U s name HU Ok N HUn) as (o & E0 & Ho).
  assert (o = None) as -> by (destruct o as [q|]; [|done]; destruct Ho as (port & Hq & <-); now destruct (Hu _ _ Hq)).
  destruct (check_name name s e L) as [t E1]. rewrite Hi in E1.
  destruct (create_ok (at_time t s) name i e (pm_ok_time _ _ Ok) Hi Hu (proj1 Q)) as (p & s2 & E2 & Ok2 & Hp & X2 & L2 & S2 & O2).
  cbn [portIndex at_time pm_lr] in *. set (port := made i (portIndex s) (lr_slotID (pm_lr s)) name) in *.
  assert (obj_at s2 p = Some port) as Hp2 by (now rewrite O2, decide_True). destruct (obj_loaded _ _ _ Hp2) as (c & _ & _ & El).
  pose proof (pk_wf _ Ok2 _ _ Hp2) as W. destruct (report_ok POFPR_ADD port e W Oe Q) as (e3 & E3 & T3).
  destruct (so_thread _ Hy) as (id & Eid & Hid). assert (task_id = id) as Et by (unfold task_id; now rewrite Eid).
  destruct (store_port_ok (tick s2) p port (set_task id port)) as (s4 & E4 & Ok4 & S4 & O4 & _);
    [exact (pm_ok_time s2 (S (pm_time s2)) Ok2)|exact Hp2|reflexivity|reflexivity|now apply set_task_wf|].
  exists p, s4, e3. unfold poflr_add_port. rewrite run_bind, E0. cbn [lift]. rewrite run_bind, E1. change (negb (POF_OK =? POF_OK)) with false. cbv iota.
  rewrite run_bind, E2. rewrite run_bind, El. cbn [lift]. rewrite run_bind, E3. change (negb (POF_OK =? POF_OK)) with false. cbv iota.
  rewrite run_bind. unfold pofdp_create_port_listen_task. rewrite run_bind, El. cbn [lift]. rewrite run_bind.
  unfold pofbf_task_create, ask. rewrite static, Eid. unfold mret at 1, St_ret. cbv beta iota. rewrite run_bind, E4. cbn [lift].
  unfold mret at 1, St_ret. cbv beta iota. change (negb (POF_OK =? POF_OK)) with false. cbv iota.
  split; [reflexivity|]. split; [exact Ok4|]. split; [exact Hp|]. split; [exact T3|].
  split; [rewrite (sr_index _ _ S4); exact X2|]. split; [rewrite (sr_list _ _ S4); exact L2|].
  split; [etrans; [exact S2|apply S4]|].
  intros q. rewrite O4, Et. case_decide as Hq; [done|]. change (obj_at (tick s2) q) with (obj_at s2 q). now rewrite O2, decide_False.
Qed.

(** ** The names the system lists *)

Definition wanted (n : list Z * bool) : bool := n.2 && negb (bool_decide (n.1 = lo_name)).
Definition listed (l : list (list Z * bool)) : list (list Z) := omap (fun n => if wanted n then Some n.1 else None) l.

(** The nodes [ps] of the name list hold [names], for slot 0. *)
Definition names_at (l : dlist portName) (ps : list addr) (names : list (list Z)) : Prop :=
  Forall2 (fun p name => l_obj <$> l_nodes l !! p = Some (mkPortName (strncpy name 64) 0)) ps names.

(** The same with the slot of each. *)
Definition entries_at (l : dlist portName) (ps : list addr) (es : list (list Z * Z)) : Prop :=
  Forall2 (fun p x => l_obj <$> l_nodes l !! p = Some (mkPortName (strncpy x.1 64) x.2)) ps es.

Lemma entries_names l ps names : names_at l ps names <-> entries_at l ps ((fun n => (n, 0)) <$> names).
Proof. unfold names_at, entries_at. now rewrite Forall2_fmap_r. Qed.

Lemma insert_entry_ok name slot s e ps es : lrep (portNameList s) ps -> entries_at (portNameList s) ps es -> mallocs e = [] ->
  exists l p, portNameInsert name slot s e = Some ((POF_OK, with_list l s), e) /\
    lrep l (ps ++ [p]) /\ entries_at l (ps ++ [p]) (es ++ [(name, slot)]).
Proof.
  intros L F Q. unfold portNameInsert. rewrite run_bind. unfold malloc. rewrite Q. cbn [negb].
  set (p := fresh (dom (l_nodes (portNameList s)))).
  assert (l_nodes (portNameList s) !! p = None) as Hp by (apply not_elem_of_dom, is_fresh).
  assert (p ∉ ps) as Hps by (intros H; apply (lrep_live _ _ _ L) in H as [n H]; congruence).
  set (v := mkPortName (strncpy name (Z.to_nat PORT_NAME_LEN)) slot).
  destruct (insert_tail_spec (l_alloc p v (portNameList s)) ps p (lrep_alloc _ _ _ _ L Hp)) as (l & E & L' & H);
    [cbn; rewrite lookup_insert_eq; eauto|exact Hps|].
  rewrite run_bind, E. cbn [lift]. exists l, p. split; [reflexivity|]. split; [exact L'|]. apply Forall2_app.
  - eapply Forall2_impl; [exact F|]. intros q n Hq. rewrite H. cbn. destruct (decide (q = p)) as [->|]; [rewrite Hp in Hq; discriminate|].
    now rewrite lookup_insert_ne.
  - constructor; [|constructor]. rewrite H. cbn. now rewrite lookup_insert_eq.
Qed.

Lemma insert_name_ok name s e ps names : lrep (portNameList s) ps -> names_at (portNameList s) ps names -> mallocs e = [] ->
  exists l p, portNameInsert name POF_SLOT_ID_BASE s e = Some ((POF_OK, with_list l s), e) /\
    lrep l (ps ++ [p]) /\ names_at l (ps ++ [p]) (names ++ [name]).
Proof.
  intros L F%entries_names Q. destruct (insert_entry_ok name POF_SLOT_ID_BASE s e ps _ L F Q) as (l & p & E & L' & F').
  exists l, p. split; [exact E|]. split; [exact L'|]. apply entries_names. now rewrite fmap_app.
Qed.

Lemma insert_names_ok l s e ps names : lrep (portNameList s) ps -> names_at (portNameList s) ps names -> mallocs e = [] ->
  exists dl ps', insert_names l s e = Some (with_list dl s, e) /\ lrep dl ps' /\ names_at dl ps' (names ++ listed l).
Proof.
  intros L F Q. revert s ps names L F. induction l as [|[name pk] l IH]; intros s ps names L F; cbn [insert_names].
  - exists (portNameList s), ps. cbn. rewrite app_nil_r. destruct s. auto.
  - change (pk && negb (bool_decide (name = lo_name))) with (wanted (name, pk)). cbn [listed omap list_omap].
    destruct (wanted (name, pk)); [|now apply (IH s ps names)].
    destruct (insert_name_ok name s e ps names L F Q) as (dl & p & E & L1 & F1). rewrite run_bind, E.
    destruct (IH (with_list dl s) (ps ++ [p]) (names ++ [name]) L1 F1) as (dl2 & ps2 & E2 & L2 & F2).
    exists dl2, ps2. split; [exact E2|]. split; [exact L2|]. rewrite <- app_assoc in F2. exact F2.
Qed.

(** ** The new ports of a round *)

Fixpoint newcomers (known names : list (list Z)) : list (list Z) :=
  match names with
  | [] => []
  | n :: ns => if decide (n ∈ known) then newcomers known ns else n :: newcomers (n :: known) ns
  end.

Definition made_for (idx slot : Z) name : portInfo :=
  match s_iface y name with Some i => made i idx slot name | None => port_zero end.
Fixpoint add_ports (slot idx : Z) (news : list (list Z)) (M : gmap Z portInfo) : gmap Z portInfo :=
  match news with
  | [] => M
  | n :: ns => add_ports slot (u8 (idx + 1)) ns (<[idx := set_task task_id (made_for idx slot n)]> M)
  end.
Fixpoint add_reports (slot idx : Z) (news : list (list Z)) : list (Z * portInfo) :=
  match news with
  | [] => []
  | n :: ns => (POFPR_ADD, made_for idx slot n) :: add_reports slot (u8 (idx + 1)) ns
  end.

Lemma add_snoc slot news n : forall idx M, 0 <= idx < 256 ->
  add_ports slot idx (news ++ [n]) M =
    <[u8 (idx + Z.of_nat (length news)) := set_task task_id (made_for (u8 (idx + Z.of_nat (length news))) slot n)]> (add_ports slot idx news M) /\
  add_reports slot idx (news ++ [n]) = add_reports slot idx news ++ [(POFPR_ADD, made_for (u8 (idx + Z.of_nat (length news))) slot n)].
Proof.
  induction news as [|n0 news IH]; intros idx M Hi; cbn [app add_ports add_reports length].
  - cbn. rewrite Z.add_0_r, (u8_small idx) by exact Hi. auto.
  - destruct (IH (u8 (idx + 1)) (<[idx := set_task task_id (made_for idx slot n0)]> M) (u8_bound _)) as [E1 E2].
    assert (u8 (u8 (idx + 1) + Z.of_nat (length news)) = u8 (idx + Z.of_nat (S (length news)))) as Eu by mod_lia.
    rewrite Eu in E1, E2. rewrite E1, E2. auto.
Qed.

Lemma add_ports_none slot news : forall idx M k, 0 <= idx < 256 -> M !! k = None ->
  (forall j : nat, (j < length news)%nat -> k <> u8 (idx + Z.of_nat j)) -> add_ports slot idx news M !! k = None.
Proof.
  induction news as [|n news IH]; intros idx M k Hi Hk Hj; cbn [add_ports]; [exact Hk|].
  apply IH; [apply u8_bound| |].
  - rewrite lookup_insert_ne; [exact Hk|]. intros <-. apply (Hj 0%nat); [cbn; lia|]. rewrite Z.add_0_r. symmetry. now apply u8_small.
  - intros j Hl E. apply (Hj (S j)); [cbn; lia|]. rewrite E. mod_lia.
Qed.

(** There are indices for [k] more ports. *)
Definition room_for (k : nat) s : Prop := (k <= 256)%nat /\ forall j : nat, (j < k)%nat -> ports s !! u8 (portIndex s + Z.of_nat j) = None.

(** The loop over the name list: [news] have become ports, the names of [ws] are
    still to come. *)
Record adding s0 e0 (news : list (list Z)) s e : Prop := {
  ad_ok : pm_ok s;
  ad_index : portIndex s = u8 (portIndex s0 + Z.of_nat (length news));
  ad_list : portNameList s = portNameList s0;
  ad_slot : lr_slotID (pm_lr s) = lr_slotID (pm_lr s0) /\ lr_portFlag (pm_lr s) = lr_portFlag (pm_lr s0);
  ad_ports : ports s = add_ports (lr_slotID (pm_lr s0)) (portIndex s0) news (ports s0);
  ad_named : named U s;
  ad_listening : listening s;
  ad_known : forall n, n ∈ rev news \/ (exists p port, obj_at s0 p = Some port /\ name_of port = n) <->
    exists p port, obj_at s p = Some port /\ name_of port = n;
  ad_told : told_env e0 (add_reports (lr_slotID (pm_lr s0)) (portIndex s0) news) e
}.

Lemma set_task_name t port : name_of (set_task t port) = name_of port.
Proof. reflexivity. Qed.

Lemma named_added s0 e0 news s e s' p name port : adding s0 e0 news s e ->
  (forall q, obj_at s' q = if decide (q = p) then Some port else obj_at s q) -> obj_at s p = None -> name_of port = name ->
  U name -> po_taskID port <> POF_INVALID_TASKID -> pm_ok s' ->
  named U s' /\ listening s' /\ ports s' = <[po_pofIndex port := port]> (ports s) /\
  forall n, n ∈ rev (news ++ [name]) \/ (exists p port, obj_at s0 p = Some port /\ name_of port = n) <->
    exists p port, obj_at s' p = Some port /\ name_of port = n.
Proof.
  intros A O Hp En HUn Ht Ok. split; [|split; [|split]].
  - intros q port'. rewrite O. case_decide; [intros [= <-]; congruence|apply A].
  - intros q port'. rewrite O. case_decide; [now intros [= <-]|apply A].
  - apply map_eq. intros k. apply option_eq. intros v. rewrite (ports_lookup s' k v Ok), lookup_insert. split.
    + intros (q & Hq & Hk). rewrite O in Hq. case_decide as Hqp.
      * injection Hq as <-. now rewrite decide_True.
      * rewrite decide_False; [apply ports_lookup; [apply A|eauto]|]. intros Ek.
        destruct (pk_ports _ Ok) as (m & cs & R). apply Hqp.
        assert (obj_at s' p = Some port) as Hp' by now rewrite O, decide_True. assert (obj_at s' q = Some v) as Hq' by now rewrite O, decide_False.
        unfold obj_at in Hp', Hq'. destruct (r_heap (lr_ports (pm_lr s')) !! p) as [c|] eqn:Ec; [|done]. destruct (r_heap (lr_ports (pm_lr s')) !! q) as [d|] eqn:Ed; [|done].
        injection Hp' as Hp'. injection Hq' as Hq'. apply (rr_uniq _ _ _ R q p d c Ed Ec). cbn. congruence.
    + case_decide as Hk.
      * intros [= <-]. exists p. rewrite O, decide_True by done. auto.
      * intros (q & Hq & Ek)%ports_lookup; [|apply A]. exists q. rewrite O, decide_False; [auto|]. intros ->. congruence.
  - intros n. rewrite rev_app_distr. cbn [rev app]. rewrite elem_of_cons. pose proof (ad_known _ _ _ _ _ A n) as K. split.
    + intros [[->|H]|H].
      * exists p, port. rewrite O, decide_True by done. auto.
      * destruct (proj1 K (or_introl H)) as (q & port' & Hq & E'). exists q, port'. rewrite O, decide_False; [auto|]. intros ->. congruence.
      * destruct (proj1 K (or_intror H)) as (q & port' & Hq & E'). exists q, port'. rewrite O, decide_False; [auto|]. intros ->. congruence.
    + intros (q & port' & Hq & E'). rewrite O in Hq. case_decide.
      * injection Hq as <-. left. left. congruence.
      * destruct (proj2 K) as [Hn|Hn]; [eauto|auto|auto].
Qed.

Lemma detect_name_ok s0 e0 news s e p name : adding s0 e0 news s e -> name_at p s = Some (mkPortName (strncpy name 64) 0) ->
  is_Some (s_iface y name) -> U name -> quiet e0 -> 0 <= portIndex s0 < 256 ->
  ((forall q port, obj_at s q = Some port -> name_of port <> name) ->
     (length news < 256)%nat /\ ports s0 !! u8 (portIndex s0 + Z.of_nat (length news)) = None) ->
  exists s' e', detect_name system p s e = Some (inr s', e') /\
    ((exists q port, obj_at s q = Some port /\ name_of port = name) /\ s' = s /\ e' = e \/
     (forall q port, obj_at s q = Some port -> name_of port <> name) /\ adding s0 e0 (news ++ [name]) s' e').
Proof.
  intros A Hp [i Hi] HUn Q Hx Hroom. destruct (so_iface _ Hy _ _ Hi) as (T & L & _).
  unfold detect_name. rewrite run_bind, Hp. cbn [lift pn_name]. rewrite run_bind, cstr_strncpy by (auto; lia). cbn [lift].
  destruct (find_name U s name HU (ad_ok _ _ _ _ _ A) (ad_named _ _ _ _ _ A) HUn) as (o & E & Ho). rewrite run_bind, E. cbn [lift].
  destruct o as [q|].
  - exists s, e. split; [reflexivity|]. left. destruct Ho as (port & ? & ?). eauto 10.
  - destruct (Hroom Ho) as [Hl Hfree]. assert (unused s name) as Hu.
    { intros q port Hq. split.
      - intros Ek. assert (ports s !! portIndex s = Some port) as H by (apply ports_lookup; [apply A|eauto]).
        rewrite (ad_ports _ _ _ _ _ A), (ad_index _ _ _ _ _ A) in H. rewrite add_ports_none in H; [discriminate|exact Hx|exact Hfree|].
        intros j Hj Ej. mod_lia.
      - intros Eh. apply HU in Eh; [now apply (Ho q port)|now apply (ad_named _ _ _ _ _ A q)|done]. }
    destruct (add_port_ok s name i e (ad_ok _ _ _ _ _ A) (ad_named _ _ _ _ _ A) HUn Hi Hu) as (q & s' & e' & E' & Ok' & Hq & T' & X & Ll & [Fl Sl _ _ _ _ _ _ _] & O);
      [apply (ad_told _ _ _ _ _ A)|eapply quiet_reported; [exact Q|apply (ad_told _ _ _ _ _ A)]|].
    exists s', e'. rewrite run_bind, E'. split; [reflexivity|]. right. split; [exact Ho|].
    set (port := made i (portIndex s) (lr_slotID (pm_lr s)) name) in *.
    assert (name_of (set_task task_id port) = name) as En by (rewrite set_task_name; now apply made_name).
    assert (po_taskID (set_task task_id port) <> POF_INVALID_TASKID) as Ht
      by (destruct (so_thread _ Hy) as (id & Eid & Hid); cbn; unfold task_id; rewrite Eid; exact Hid).
    destruct (named_added _ _ _ _ _ s' q name (set_task task_id port) A O Hq En HUn Ht Ok') as (N' & Li' & P' & K').
    destruct (add_snoc (lr_slotID (pm_lr s0)) news name (portIndex s0) (ports s0) Hx) as [E1 E2].
    assert (port = made_for (u8 (portIndex s0 + Z.of_nat (length news))) (lr_slotID (pm_lr s0)) name) as Em
      by (unfold made_for, port; rewrite Hi, (ad_index _ _ _ _ _ A), (proj1 (ad_slot _ _ _ _ _ A)); reflexivity).
    destruct (ad_slot _ _ _ _ _ A) as [As Af]. split; auto.
    + rewrite X, (ad_index _ _ _ _ _ A), length_app. cbn [length]. mod_lia.
    + rewrite Ll. apply A.
    + split; congruence.
    + rewrite P', E1, <- Em, (ad_ports _ _ _ _ _ A). f_equal. cbn. now rewrite (ad_index _ _ _ _ _ A).
    + rewrite E2, <- Em. eapply told_trans; [apply A|exact T'].
Qed.

Definition port_names s : list (list Z) := name_of <$> (map_to_list (ports s)).*2.

Lemma port_names_in s n : pm_ok s -> n ∈ port_names s <-> exists p port, obj_at s p = Some port /\ name_of port = n.
Proof.
  intros Ok. unfold port_names. rewrite list_elem_of_fmap. split.
  - intros (port & -> & ([k port'] & -> & H%elem_of_map_to_list)%list_elem_of_fmap). apply ports_lookup in H as (p & Hp & _); [eauto|done].
  - intros (p & port & Hp & <-). exists port. split; [done|]. apply list_elem_of_fmap. exists (po_pofIndex port, port). split; [done|].
    apply elem_of_map_to_list, ports_lookup; eauto.
Qed.

Lemma newcomers_ext known known' names : (forall n, n ∈ known <-> n ∈ known') -> newcomers known names = newcomers known' names.
Proof.
  revert known known'. induction names as [|n names IH]; intros known known' H; [done|]. cbn [newcomers].
  assert (forall x, x ∈ n :: known <-> x ∈ n :: known') as H' by (intros x; rewrite !elem_of_cons, H; done).
  destruct (decide (n ∈ known)) as [Hn|Hn].
  - rewrite decide_True by now apply H. now apply IH.
  - rewrite decide_False by (rewrite <- H; exact Hn). f_equal. now apply IH.
Qed.

Lemma adding_start s e : pm_ok s -> named U s -> listening s -> env_ok e -> adding s e [] s e.
Proof.
  intros Ok N Li Oe. split; cbn; auto.
  - rewrite Z.add_0_r. symmetry. apply u8_small, Ok.
  - intros n. rewrite elem_of_nil. tauto.
  - now apply told_nil.
Qed.

Lemma names_loop_ok s e ps names : pm_ok s -> named U s -> listening s -> env_ok e -> quiet e ->
  lrep (portNameList s) ps -> names_at (portNameList s) ps names -> (forall n, n ∈ names -> is_Some (s_iface y n) /\ U n) ->
  room_for (length (newcomers (port_names s) names)) s ->
  exists s' e', LIST_NODES_IN_STRUCT_TRAVERSE portNameList (detect_name system) s e = Some (inr s', e') /\
    adding s e (newcomers (port_names s) names) s' e'.
Proof.
  intros Ok N Li Oe Q L F HN [Hr1 Hr2]. set (total := newcomers (port_names s) names) in *.
  destruct (list_traverse_spec portNameList (detect_name system)) with
    (Inv := fun ws s1 e1 => exists news rest done, ps = done ++ ws /\ adding s e news s1 e1 /\ names_at (portNameList s) ws rest /\
       (forall n, n ∈ rest -> n ∈ names) /\ total = news ++ newcomers (rev news ++ port_names s) rest)
    (Post := fun (r : Empty_set + pmst) e' => match r with inl _ => False | inr s' => adding s e total s' e' end)
    (ps := ps) (s := s) (e := e) as (r & e' & E & H).
  - exact L.
  - exists [], names, []. split; [done|]. split; [now apply adding_start|]. auto.
  - intros p ws s1 e1 (news & rest & done & Ep & A & Fw & Hin & Et). split.
    + rewrite (ad_list _ _ _ _ _ A). rewrite Ep in L. now apply (lrep_next _ done).
    + apply Forall2_cons_inv_l in Fw as (name & rest' & Hp & Fw & ->).
      destruct (HN name (Hin name ltac:(constructor))) as [Hi HUn].
      assert (name_at p s1 = Some (mkPortName (strncpy name 64) 0)) as Hp1 by (unfold name_at; rewrite (ad_list _ _ _ _ _ A); exact Hp).
      assert ((name ∈ rev news ++ port_names s) <-> exists q port, obj_at s1 q = Some port /\ name_of port = name) as Hk
        by (rewrite elem_of_app, (port_names_in s name Ok); apply (ad_known _ _ _ _ _ A)).
      assert (ps = (done ++ [p]) ++ ws) as Ep' by now rewrite <- app_assoc.
      assert (forall n, n ∈ rest' -> n ∈ names) as Hin' by (intros n Hn; apply Hin; now right). cbn [newcomers] in Et.
      destruct (detect_name_ok s e news s1 e1 p name A Hp1 Hi HUn Q (pk_index _ Ok)) as (s2 & e2 & E2 & [(Hd & -> & ->)|(Hd & A2)]).
      * intros Hno. rewrite decide_False in Et by (rewrite Hk; intros (q & port & Hq & En); now apply (Hno q port)).
        assert (length news < length total)%nat as Hl by (rewrite Et, length_app; cbn; lia). split; [lia|now apply Hr2].
      * exists (inr s1), e1. split; [exact E2|]. rewrite decide_True in Et by now apply Hk. exists news, rest', (done ++ [p]). auto.
      * exists (inr s2), e2. split; [exact E2|]. rewrite decide_False in Et by (rewrite Hk; intros (q & port & Hq & En); now apply (Hd q port)).
        exists (news ++ [name]), rest', (done ++ [p]). split; [exact Ep'|]. split; [exact A2|]. split; [exact Fw|]. split; [exact Hin'|].
        rewrite Et, <- app_assoc, rev_app_distr. reflexivity.
  - intros s1 e1 (news & rest & done & Ep & A & Fw & _ & Et). apply Forall2_nil_inv_l in Fw as ->. cbn in Et. rewrite app_nil_r in Et. now subst news.
  - destruct r as [|s']; [now destruct H|]. eauto.
Qed.

(** [poflr_port_detect_new_add] of the slot that follows the system. *)
Lemma detect_new_ok s e l : pm_ok s -> named U s -> listening s -> env_ok e -> quiet e -> s_ifaddrs y = Some l ->
  (forall n, n ∈ listed l -> U n) -> from_system (pm_lr s) = true -> room_for (length (newcomers (port_names s) (listed l))) s ->
  exists dl s' e', poflr_port_detect_new_add system s e = Some ((POF_OK, s'), e') /\
    adding (with_list dl s) e (newcomers (port_names s) (listed l)) s' e'.
Proof.
  intros Ok N Li Oe Q El HUl Hfs Hr. destruct (pk_list _ Ok) as (ps & Lps).
  destruct (clear_all_spec (portNameList s) ps e Lps) as (dl0 & E0 & L0 & _).
  set (s1 := tick (with_list dl0 s)).
  destruct (insert_names_ok l s1 e [] [] L0 ltac:(constructor) (proj1 Q)) as (dl & ps1 & E1 & L1 & F1).
  destruct (so_listed _ Hy) as (l' & El' & Hl'). rewrite El in El'. injection El' as <-.
  set (s2 := with_list dl s1). assert (pm_ok s2) as Ok2 by (destruct Ok; split; eauto).
  destruct (names_loop_ok s2 e ps1 (listed l) Ok2 N Li Oe Q L1 F1) as (s' & e' & E2 & A).
  - intros n Hn. split; [|now apply HUl]. unfold listed in Hn. apply list_elem_of_omap in Hn as ([m pk] & Hm & Hw). unfold wanted in Hw. cbn in Hw.
    destruct pk; [|done]. destruct (negb _) in Hw; [|done]. injection Hw as <-. now apply Hl'.
  - exact Hr.
  - exists dl, s', e'. unfold poflr_port_detect_new_add. rewrite Hfs, run_bind, E0, run_bind.
    unfold poflr_get_port_num_name_by_getifaddrs, ask. rewrite static, El. rewrite run_bind. cbn [lift]. fold s1. rewrite run_bind, E1.
    unfold mret at 1, St_ret. cbv beta iota. change (negb (POF_OK =? POF_OK)) with false. cbv iota. fold s2. rewrite run_bind, E2. split; [reflexivity|].
    destruct A as [A1 A2 A3 A4 A5 A6 A7 A8 A9]. split; auto.
Qed.

(** ** A round *)

Definition kept s : gmap Z portInfo := omap after_port (ports s).
Definition kept_names s : list (list Z) := name_of <$> (map_to_list (kept s)).*2.
Definition joining s (l : list (list Z * bool)) : list (list Z) :=
  if from_system (pm_lr s) then newcomers (kept_names s) (listed l) else [].

(** What a round leaves and tells. *)
Record detected s e (news : list (list Z)) s' e' : Prop := {
  dt_ok : pm_ok s';
  dt_named : named U s';
  dt_listening : listening s';
  dt_ports : ports s' = add_ports (lr_slotID (pm_lr s)) (portIndex s) news (kept s);
  dt_index : portIndex s' = u8 (portIndex s + Z.of_nat (length news));
  dt_slot : lr_slotID (pm_lr s') = lr_slotID (pm_lr s) /\ lr_portFlag (pm_lr s') = lr_portFlag (pm_lr s);
  dt_told : exists L, L ≡ₚ (map_to_list (ports s)).*2 /\
    told_env e (concat (change <$> L) ++ add_reports (lr_slotID (pm_lr s)) (portIndex s) news) e'
}.

Lemma nodup_omap {A B} (f : A -> option B) (l : list A) : (forall a b x, f a = Some x -> f b = Some x -> a = b) -> NoDup l -> NoDup (omap f l).
Proof.
  intros Hf. induction 1 as [|a l Ha _ IH]; cbn; [constructor|]. destruct (f a) as [x|] eqn:E; [|exact IH]. constructor; [|exact IH].
  rewrite list_elem_of_omap. intros (b & Hb & Eb). now rewrite (Hf a b x E Eb) in Ha.
Qed.

Lemma omap_objs s L : pm_ok s -> NoDup L -> (forall p, p ∈ L <-> is_Some (obj_at s p)) ->
  omap (obj_at s) L ≡ₚ (map_to_list (ports s)).*2.
Proof.
  intros Ok Nd HL. assert (omap (fun p => (fun port => (po_pofIndex port, port)) <$> obj_at s p) L ≡ₚ map_to_list (ports s)) as P.
  { apply NoDup_Permutation; [|apply NoDup_map_to_list|].
    - apply nodup_omap; [|exact Nd]. intros p q x Hp Hq.
      destruct (obj_at s p) as [a|] eqn:Ea; [|done]. destruct (obj_at s q) as [b|] eqn:Eb; [|done]. cbn in Hp, Hq.
      eapply name_unique; [exact Ok|exact Ea|exact Eb|]. congruence.
    - intros [k port]. rewrite list_elem_of_omap, elem_of_map_to_list, ports_lookup by exact Ok. split.
      + intros (p & Hp & E). destruct (obj_at s p) as [a|] eqn:Ea; [|done]. injection E as <- <-. eauto.
      + intros (p & Hp & <-). exists p. split; [apply HL; eauto|]. now rewrite Hp. }
  rewrite <- P. clear P HL Nd. induction L as [|p L IH]; cbn; [done|]. destruct (obj_at s p); cbn; [f_equiv|]; exact IH.
Qed.

Lemma detect_round s e l : pm_ok s -> named U s -> listening s -> env_ok e -> quiet e -> s_ifaddrs y = Some l ->
  (forall n, n ∈ listed l -> U n) -> (length (joining s l) <= 256)%nat ->
  (forall j : nat, (j < length (joining s l))%nat -> kept s !! u8 (portIndex s + Z.of_nat j) = None) ->
  exists s' e', poflr_port_detect_main system self s e = Some ((POF_OK, s'), e') /\ detected s e (joining s l) s' e' /\
    (from_system (pm_lr s) = true -> forall n, n ∈ port_names s' <-> n ∈ joining s l \/ n ∈ kept_names s).
Proof.
  intros Ok N Li Oe Q El HUl Hr1 Hr2.
  destruct (detect_old_ok s e Ok N Li Oe Q) as (s1 & e1 & L & E1 & Ok1 & S1 & Nd & HL & T1 & O1).
  assert (named U s1) as N1.
  { intros q port'. rewrite O1. destruct (obj_at s q) as [port|] eqn:Eq; [|done]. cbn. intros H. destruct (name_after _ _ H) as (-> & _). now apply (N q). }
  assert (listening s1) as Li1.
  { intros q port'. rewrite O1. destruct (obj_at s q) as [port|] eqn:Eq; [|done]. cbn. intros H. destruct (name_after _ _ H) as (_ & _ & ->). now apply (Li q). }
  assert (ports s1 = kept s) as P1.
  { apply map_eq. intros k. apply option_eq. intros v. unfold kept. rewrite (ports_lookup s1 k v Ok1), lookup_omap_Some. split.
    - intros (p & Hp & Hk). rewrite O1 in Hp. destruct (obj_at s p) as [port|] eqn:Ep; [|done]. cbn in Hp. exists port. split; [exact Hp|].
      apply ports_lookup; [exact Ok|]. exists p. destruct (name_after _ _ Hp) as (_ & Ei & _). split; [done|congruence].
    - intros (port & Ha & (p & Hp & Hk)%ports_lookup); [|exact Ok]. exists p. rewrite O1, Hp. split; [exact Ha|]. destruct (name_after _ _ Ha) as (_ & -> & _). exact Hk. }
  assert (port_names s1 = kept_names s) as Pn by (unfold port_names, kept_names; now rewrite P1).
  pose proof (omap_objs s L Ok Nd HL) as PL.
  assert (from_system (pm_lr s1) = from_system (pm_lr s)) as Fs by (unfold from_system; now rewrite (sr_flag _ _ S1), (sr_slot _ _ S1)).
  assert (env_ok e1 /\ quiet e1) as [Oe1 Q1] by (split; [apply T1|eapply quiet_reported; [exact Q|apply T1]]).
  unfold poflr_port_detect_main. rewrite run_bind, E1. change (negb (POF_OK =? POF_OK)) with false. cbv iota. unfold joining in *.
  destruct (from_system (pm_lr s)) eqn:Ef.
  - destruct (detect_new_ok s1 e1 l Ok1 N1 Li1 Oe1 Q1 El HUl Fs) as (dl & s2 & e2 & E2 & A).
    { rewrite Pn. split; [exact Hr1|]. intros j Hj. rewrite P1, (sr_index _ _ S1). now apply Hr2. }
    rewrite Pn in A. exists s2, e2. rewrite run_bind, E2. split; [reflexivity|]. split.
    + destruct (ad_slot _ _ _ _ _ A) as [A4 A5]. cbn in A4, A5. split; try apply A.
      * rewrite (ad_ports _ _ _ _ _ A). change (ports (with_list dl s1)) with (ports s1). cbn. now rewrite P1, (sr_slot _ _ S1), (sr_index _ _ S1).
      * rewrite (ad_index _ _ _ _ _ A). cbn. now rewrite (sr_index _ _ S1).
      * rewrite A4, A5. split; apply S1.
      * exists (omap (obj_at s) L). split; [exact PL|]. eapply told_trans; [exact T1|]. pose proof (ad_told _ _ _ _ _ A) as T2. cbn in T2.
        now rewrite (sr_slot _ _ S1), (sr_index _ _ S1) in T2.
    + intros _ n. rewrite (port_names_in s2 n) by apply A. rewrite <- (ad_known _ _ _ _ _ A n), <- Pn, (port_names_in s1 n Ok1).
      assert (forall ns : list (list Z), n ∈ rev ns <-> n ∈ ns) as Hrev by (intros ns; rewrite !list_elem_of_In; symmetry; apply in_rev).
      now rewrite Hrev.
  - exists s1, e1. unfold poflr_port_detect_new_add. rewrite run_bind, Fs. split; [reflexivity|]. split; [|discriminate].
    split; try done.
    + cbn. rewrite Z.add_0_r, (u8_small (portIndex s)) by apply Ok. apply S1.
    + split; apply S1.
    + exists (omap (obj_at s) L). split; [exact PL|]. cbn. now rewrite app_nil_r.
Qed.

(** *** A port is that of its interface *)

Definition settled port : Prop := exists i, s_iface y (name_of port) = Some i /\ unchanged i port = true.

Lemma unchanged_current i port : unchanged i (current i port) = true.
Proof. unfold unchanged. cbn. rewrite !Z.eqb_refl, bool_decide_eq_true_2 by done. reflexivity. Qed.

Lemma kept_settled s k port : kept s !! k = Some port -> settled port.
Proof.
  unfold kept. intros (port0 & H & _)%lookup_omap_Some. destruct (name_after _ _ H) as (En & _). unfold after_port in H.
  destruct (s_iface y (name_of port0)) as [i|] eqn:Ei; [|done]. injection H as <-. exists i. rewrite En. split; [exact Ei|apply unchanged_current].
Qed.

Lemma made_for_settled idx slot n : is_Some (s_iface y n) -> settled (set_task task_id (made_for idx slot n)).
Proof.
  intros [i Ei]. destruct (so_iface _ Hy _ _ Ei) as (T & _). unfold made_for. rewrite Ei. exists i.
  rewrite set_task_name, made_name by exact T. split; [exact Ei|]. unfold unchanged. cbn.
  rewrite !Z.eqb_refl, bool_decide_eq_true_2 by done. reflexivity.
Qed.

Lemma add_ports_settled slot news : forall idx M, (forall n, n ∈ news -> is_Some (s_iface y n)) ->
  (forall k port, M !! k = Some port -> settled port) -> forall k port, add_ports slot idx news M !! k = Some port -> settled port.
Proof.
  induction news as [|n news IH]; intros idx M Hn HM; cbn [add_ports]; [exact HM|]. apply IH; [intros; apply Hn; now right|].
  intros k port. rewrite lookup_insert. case_decide; [|apply HM]. intros [= <-]. apply made_for_settled, Hn. constructor.
Qed.

Lemma newcomers_listed known names n : n ∈ newcomers known names <-> n ∈ names /\ n ∉ known.
Proof.
  revert known. induction names as [|m names IH]; intros known; cbn [newcomers]; [rewrite elem_of_nil; tauto|].
  destruct (decide (m ∈ known)) as [Hm|Hm]; rewrite elem_of_cons.
  - rewrite IH. split; [tauto|]. intros [[->|] ?]; tauto.
  - rewrite !elem_of_cons, IH, not_elem_of_cons. destruct (decide (n = m)) as [->|]; tauto.
Qed.

Lemma listed_known l n : s_ifaddrs y = Some l -> n ∈ listed l -> is_Some (s_iface y n).
Proof.
  intros El Hn. destruct (so_listed _ Hy) as (l' & El' & Hl'). rewrite El in El'. injection El' as <-.
  unfold listed in Hn. apply list_elem_of_omap in Hn as ([m pk] & Hm & Hw). unfold wanted in Hw. cbn in Hw.
  destruct pk; [|done]. destruct (negb _) in Hw; [|done]. injection Hw as <-. now apply Hl'.
Qed.

Lemma detected_settled s e l s' e' : s_ifaddrs y = Some l -> detected s e (joining s l) s' e' ->
  forall k port, ports s' !! k = Some port -> settled port.
Proof.
  intros El D k port. rewrite (dt_ports _ _ _ _ _ D). apply add_ports_settled; [|apply kept_settled].
  intros n Hn. unfold joining in Hn. destruct (from_system (pm_lr s)); [|now apply not_elem_of_nil in Hn].
  apply newcomers_listed in Hn as [Hn _]. eapply listed_known; eauto.
Qed.

(** With every port settled and every listed name a port, nothing is kept
    differently, nothing joins and nothing is told. *)
Lemma settled_kept s : pm_ok s -> (forall k port, ports s !! k = Some port -> settled port) ->
  kept s = ports s /\ forall L, L ≡ₚ (map_to_list (ports s)).*2 -> concat (change <$> L) = [].
Proof.
  intros Ok H. split.
  - apply map_eq. intros k. unfold kept. rewrite lookup_omap. destruct (ports s !! k) as [port|] eqn:E; [|done].
    destruct (H _ _ E) as (i & Ei & Eu). cbn. unfold after_port. rewrite Ei. cbn. now rewrite current_unchanged.
  - intros L P. assert (Forall (fun port => change port = []) L) as F.
    { rewrite P, Forall_forall. intros port ([k port'] & -> & Hk%elem_of_map_to_list)%list_elem_of_fmap.
      destruct (H _ _ Hk) as (i & Ei & Eu). cbn. unfold change. now rewrite Ei, Eu. }
    clear P. induction F as [|port L Hp _ IH]; cbn; [done|]. now rewrite Hp.
Qed.

End static.

(** ** Properties *)

(** C7. A round of the detection, in a system that does not change meanwhile,
    returns success: of the ports of the slot exactly those stay whose interface
    exists, with its address, index and state; the listed interfaces without a
    port become ports in their order with the next indices, their sockets and a
    listening task; and the controller is told one message per change, first the
    removals and updates, then the additions, and nothing else. *)
Theorem detect_refines system self y s e l :
  (forall t, system t = y) -> sys_ok y -> s_ifaddrs y = Some l ->
  apart (fun n => n ∈ port_names s \/ n ∈ listed l) -> pm_ok s -> listening s -> env_ok e -> quiet e ->
  (length (joining y s l) <= 256)%nat ->
  (forall j : nat, (j < length (joining y s l))%nat -> kept y s !! u8 (portIndex s + Z.of_nat j) = None) ->
  exists s' e' L, poflr_port_detect_main system self s e = Some ((POF_OK, s'), e') /\ pm_ok s' /\ listening s' /\
    ports s' = add_ports y (lr_slotID (pm_lr s)) (portIndex s) (joining y s l) (kept y s) /\
    portIndex s' = u8 (portIndex s + Z.of_nat (length (joining y s l))) /\
    L ≡ₚ (map_to_list (ports s)).*2 /\
    send_q e' = send_q e ++ told e (concat (change y <$> L) ++ add_reports y (lr_slotID (pm_lr s)) (portIndex s) (joining y s l)).
Proof.
  intros Hs Hy El HU Ok Li Oe Q Hr1 Hr2.
  destruct (detect_round system self y Hs Hy _ HU s e l Ok) as (s' & e' & E & [D1 D2 D3 D4 D5 D6 (L & P & T)] & _); auto.
  - intros p port Hp. left. apply port_names_in; eauto.
  - exists s', e', L. split; [exact E|]. split; [exact D1|]. split; [exact D3|]. split; [exact D4|]. split; [exact D5|]. split; [exact P|apply T].
Qed.

(** C30. After a round of the slot that follows the system its ports are those of
    the system: an interface has a port exactly if it exists and is listed or had
    one, and every port has the address, the index and the state of its
    interface.  A second round changes no port and tells the controller nothing. *)
Theorem detect_settles system self y s e l :
  (forall t, system t = y) -> sys_ok y -> s_ifaddrs y = Some l ->
  apart (fun n => n ∈ port_names s \/ n ∈ listed l) -> pm_ok s -> listening s -> env_ok e -> quiet e ->
  from_system (pm_lr s) = true -> (length (joining y s l) <= 256)%nat ->
  (forall j : nat, (j < length (joining y s l))%nat -> kept y s !! u8 (portIndex s + Z.of_nat j) = None) ->
  exists s' e', poflr_port_detect_main system self s e = Some ((POF_OK, s'), e') /\
    (forall n, n ∈ port_names s' <-> is_Some (s_iface y n) /\ (n ∈ listed l \/ n ∈ port_names s)) /\
    (forall k port, ports s' !! k = Some port -> settled y port) /\
    exists s'' e'', poflr_port_detect_main system self s' e' = Some ((POF_OK, s''), e'') /\
      ports s'' = ports s' /\ send_q e'' = send_q e'.
Proof.
  intros Hs Hy El HU Ok Li Oe Q Ef Hr1 Hr2. set (U := fun n => n ∈ port_names s \/ n ∈ listed l) in *.
  assert (named U s) as N by (intros p port Hp; left; apply port_names_in; eauto).
  destruct (detect_round system self y Hs Hy U HU s e l Ok N Li Oe Q El) as (s1 & e1 & E1 & D1 & K1); [intros n; now right|exact Hr1|exact Hr2|].
  exists s1, e1. split; [exact E1|].
  assert (forall n, n ∈ port_names s1 <-> is_Some (s_iface y n) /\ (n ∈ listed l \/ n ∈ port_names s)) as Hn.
  { intros n. rewrite K1 by exact Ef. unfold joining. rewrite Ef, newcomers_listed.
    assert (n ∈ kept_names y s <-> is_Some (s_iface y n) /\ n ∈ port_names s) as Hk.
    { unfold kept_names, port_names. rewrite !list_elem_of_fmap. split.
      - intros (port & -> & ([k port'] & -> & (port0 & Ha & Hk)%elem_of_map_to_list%lookup_omap_Some)%list_elem_of_fmap).
        cbn. destruct (name_after _ _ _ Ha) as (-> & _). unfold after_port in Ha. destruct (s_iface y (name_of port0)) eqn:Ei; [|done]. split; [eauto|].
        exists port0. split; [done|]. apply list_elem_of_fmap. exists (k, port0). split; [done|]. now apply elem_of_map_to_list.
      - intros ([i Ei] & port & -> & ([k port'] & -> & Hk%elem_of_map_to_list)%list_elem_of_fmap). exists (current i port'). split; [done|].
        apply list_elem_of_fmap. exists (k, current i port'). split; [done|]. apply elem_of_map_to_list, lookup_omap_Some.
        exists port'. split; [|exact Hk]. unfold after_port. cbn in Ei. now rewrite Ei. }
    rewrite Hk. pose proof (listed_known y Hy l n El) as Hl. destruct (decide (n ∈ port_names s)), (decide (is_Some (s_iface y n))); tauto. }
  split; [exact Hn|]. pose proof (detected_settled y Hy U s e l s1 e1 El D1) as St. split; [exact St|].
  destruct (settled_kept y s1 (dt_ok _ _ _ _ _ _ _ D1) St) as [Hkept Hsilent].
  assert (from_system (pm_lr s1) = true) as Ef1.
  { unfold from_system. destruct (dt_slot _ _ _ _ _ _ _ D1) as [-> ->]. exact Ef. }
  assert (joining y s1 l = []) as Hj.
  { destruct (joining y s1 l) as [|n ns] eqn:Ej; [done|]. exfalso. assert (n ∈ joining y s1 l) as Hin by (rewrite Ej; constructor).
    unfold joining in Hin. rewrite Ef1 in Hin. apply newcomers_listed in Hin as [Hl Hnk]. apply Hnk. unfold kept_names. rewrite Hkept.
    apply Hn. split; [now apply (listed_known y Hy l)|now left]. }
  destruct (dt_told _ _ _ _ _ _ _ D1) as (L1 & _ & T1).
  destruct (detect_round system self y Hs Hy U HU s1 e1 l) as (s2 & e2 & E2 & D2 & _);
    [apply D1|apply D1|apply D1|apply T1|eapply quiet_reported; [exact Q|apply T1]|exact El|intros n; now right|rewrite Hj; cbn; lia|rewrite Hj; cbn; lia|].
  exists s2, e2. split; [exact E2|]. split.
  - rewrite (dt_ports _ _ _ _ _ _ _ D2), Hj. cbn. exact Hkept.
  - destruct (dt_told _ _ _ _ _ _ _ D2) as (L2 & P2 & T2). rewrite (te_sent _ _ _ T2), Hj, (Hsilent _ P2). cbn. unfold told. cbn.
    destruct (sending e1); now rewrite app_nil_r.
Qed.

(** *** An example: eth0 is down now, eth1 is new *)

Definition eth (n : Z) : list Z := [101; 116; 104; n].
Definition iface_example (x : Z) : iface := mkIface x [2; 0; 0; 0; 0; x] (Some [10; 0; 0; x]) (Z.lor IFF_UP IFF_RUNNING).
Definition sys_example : sys :=
  mkSys (fun name => if bool_decide (name = lo_name) then Some (iface_example 1)
                     else if bool_decide (name = eth 48) then Some (iface_example 2)
                     else if bool_decide (name = eth 49) then Some (iface_example 3) else None)
    (Some [(lo_name, true); (eth 48, true); (eth 48, false); (eth 49, true)]) (Some 5) true (Some 77) true.
Definition port_example : portInfo :=
  mkPortInfo 1 2 POFPS_LINK_DOWN 0 0 0 [2; 0; 0; 0; 0; 2] (strncpy (eth 48) 64) (zeros 20) 70 (replicate 9 0) 2.
Definition pm_example : pmst :=
  mkPm (mkLR 0 (res_one port_example 40) (res_none 40) [10; 10; 10; 10] 1000 [160; 160; 160; 160] (res_none 8) (res_none 8) (res_none 512)
         (res_one (mkNameNode (hash_of (eth 48))) 40) 0) 2 (DList LNil LNil 0 ∅) 0.
Definition env_example : env :=
  mkEnv 0 7 (POFET_HELLO_FAILED, POFET_HELLO_FAILED) 1 POFCS_CHANNEL_RUN (zeros 2560) true [] (zeros 8) [] [].

Lemma sys_example_ok : sys_ok sys_example.
Proof.
  split; [eexists; reflexivity|reflexivity|exists 77; split; [reflexivity|by_decide]|reflexivity| |].
  - intros name i. cbn. repeat case_bool_decide; subst; try done; intros [= <-]; (split; [repeat constructor; lia|]); (split; [cbn; lia|]);
      (split; [reflexivity|]); (split; [repeat constructor; unfold byte_ok; lia|]); intros a [= <-]; (split; [reflexivity|repeat constructor; unfold byte_ok; lia]).
  - eexists. split; [reflexivity|]. intros name. rewrite !elem_of_cons, elem_of_nil. intros H.
    destruct H as [[= ->]|[[= ->]|[[=]|[[= ->]|[]]]]]; eexists; reflexivity.
Qed.

Lemma pm_example_obj p : obj_at pm_example p = if decide (p = 1%positive) then Some port_example else None.
Proof.
  unfold obj_at. cbn. case_decide as H; [now subst p|]. now rewrite lookup_singleton_ne by congruence.
Qed.

Lemma pm_example_ok : pm_ok pm_example /\ listening pm_example /\ env_ok env_example /\ quiet env_example.
Proof.
  split; [|split; [|split; [|done]]].
  - split.
    + now apply res_one_ok.
    + apply res_one_ok, hash_nonneg.
    + intros p. rewrite pm_example_obj. unfold node_at. cbn. case_decide as H; [now subst p|]. now rewrite lookup_singleton_ne by congruence.
    + intros p port. rewrite pm_example_obj. case_decide; [|done]. intros [= <-].
      assert (text (eth 48)) as T by (repeat constructor; lia).
      split; cbn [port_example po_pofIndex po_hwaddr po_name po_ip].
      * lia.
      * split; [reflexivity|repeat constructor; unfold byte_ok; lia].
      * split; [apply length_strncpy|now apply bytes_ok_strncpy, text_bytes].
      * exists (eth 48). split; [now apply cstr_strncpy; [|cbn; lia]|cbn; lia].
      * split; [reflexivity|apply zeros_ok].
    + cbn. lia.
    + exists []. split; [repeat constructor|constructor|reflexivity].
  - intros p port. rewrite pm_example_obj. case_decide; [|done]. intros [= <-]. by_decide.
  - split; [reflexivity|apply zeros_ok|reflexivity|apply zeros_ok].
Qed.

Lemma example_apart : apart (fun n => n ∈ port_names pm_example \/ n ∈ listed [(lo_name, true); (eth 48, true); (eth 48, false); (eth 49, true)]).
Proof.
  assert (forall n, n ∈ port_names pm_example \/ n ∈ listed [(lo_name, true); (eth 48, true); (eth 48, false); (eth 49, true)] -> n = eth 48 \/ n = eth 49) as H.
  { intros n. change (port_names pm_example) with [eth 48]. change (listed _) with [eth 48; eth 49]. rewrite !elem_of_cons, !elem_of_nil. tauto. }
  intros a b [->| ->]%H [->| ->]%H; first [done | intros E; vm_compute in E; discriminate].
Qed.

Lemma detect_refines_witness : exists s' e' L, poflr_port_detect_main (fun _ => sys_example) 9 pm_example env_example = Some ((POF_OK, s'), e') /\
  pm_ok s' /\ listening s' /\
  ports s' = add_ports sys_example 0 2 [eth 49] (kept sys_example pm_example) /\ portIndex s' = 3 /\
  L ≡ₚ [port_example] /\
  send_q e' = told env_example (concat (change sys_example <$> L) ++ add_reports sys_example 0 2 [eth 49]).
Proof.
  destruct pm_example_ok as (Ok & Li & Oe & Q).
  apply (detect_refines (fun _ => sys_example) 9 sys_example pm_example env_example [(lo_name, true); (eth 48, true); (eth 48, false); (eth 49, true)]);
    [reflexivity|exact sys_example_ok|reflexivity|exact example_apart|exact Ok|exact Li|exact Oe|exact Q| |].
  - change (joining _ _ _) with [eth 49]. cbn. lia.
  - change (joining _ _ _) with [eth 49]. intros j Hj. cbn in Hj. assert (j = 0%nat) as -> by lia. reflexivity.
Defined.

Lemma detect_settles_witness : exists s' e', poflr_port_detect_main (fun _ => sys_example) 9 pm_example env_example = Some ((POF_OK, s'), e') /\
    (forall n, n ∈ port_names s' <-> is_Some (s_iface sys_example n) /\ (n ∈ [eth 48; eth 49] \/ n ∈ [eth 48])) /\
    (forall k port, ports s' !! k = Some port -> settled sys_example port) /\
    exists s'' e'', poflr_port_detect_main (fun _ => sys_example) 9 s' e' = Some ((POF_OK, s''), e'') /\
      ports s'' = ports s' /\ send_q e'' = send_q e'.
Proof.
  destruct pm_example_ok as (Ok & Li & Oe & Q).
  apply (detect_settles (fun _ => sys_example) 9 sys_example pm_example env_example [(lo_name, true); (eth 48, true); (eth 48, false); (eth 49, true)]);
    [reflexivity|exact sys_example_ok|reflexivity|exact example_apart|exact Ok|exact Li|exact Oe|exact Q|reflexivity| |].
  - change (joining _ _ _) with [eth 49]. cbn. lia.
  - change (joining _ _ _) with [eth 49]. intros j Hj. cbn in Hj. assert (j = 0%nat) as -> by lia. reflexivity.
Defined.
