(* ===== verification/Boot.v ===== *)
(** * Starting the datapath (datapath/pof_datapath.c, local_resource/pof_local_resource.c)

    The slots are made one by one from the parameters of the configuration, each
    with its ports, disabled, and its empty tables; then every port gets its
    listening task, and the detection task is started.  A check that ends the
    program on failure is a fault. *)

From S2P Require Import Prelude Bits Codec Env Hmap IdMap DList Tree LocalRes ByteTransfer Port Counter Meter Group FlowTable Slot Parse PortMgr.

Implicit Types (s : pmst) (lr : pof_local_resource) (p : addr) (dv : device).

(** [struct pof_param]. *)
Record pof_param := mkParam {
  pa_portNumMax : Z; pa_portFlag : Z; pa_tableNumMaxEachType : list Z (* 4 *); pa_tableSizeMax : Z;
  pa_groupNumMax : Z; pa_meterNumMax : Z; pa_counterNumMax : Z
}.

Definition with_max {V} (max : Z) (r : resource V) : resource V := Res (r_heap r) (r_map r) (r_num r) max.

(** [portNumMax] is the limit of both maps of the ports. *)
Definition fill_localresource_param lr (param : pof_param) : pof_local_resource :=
  mkLR (lr_slotID lr) (with_max (pa_portNumMax param) (lr_ports lr)) (lr_tables lr) (pa_tableNumMaxEachType param)
    (pa_tableSizeMax param) (poflr_key_len_each_type lr) (with_max (pa_groupNumMax param) (lr_groups lr))
    (with_max (pa_meterNumMax param) (lr_meters lr)) (with_max (pa_counterNumMax param) (lr_counters lr))
    (with_max (pa_portNumMax param) (lr_names lr)) (pa_portFlag param).

Definition set_slotID id lr := mkLR id (lr_ports lr) (lr_tables lr) (tableNumMaxEachType lr)
  (tableSizeMax lr) (poflr_key_len_each_type lr) (lr_groups lr) (lr_meters lr) (lr_counters lr) (lr_names lr) (lr_portFlag lr).

Section system.
Context (system : nat -> sys).

(** [POF_CHECK_RETVALUE_TERMINATE]. *)
Definition check_terminate (ret : Z) : St unit := if negb (ret =? POF_OK) then fault else mret tt.

Definition pof_localresource_init s dv : St (Z * (pmst * device)) :=
  '(ret, s) ← poflr_init_port system s;
  _ ← check_terminate ret;
  '(_, lr) ← poflr_disable_all_port (pm_lr s);
  '(ret, (lr, dv)) ← poflr_init_table_resource lr dv;
  _ ← check_terminate ret;
  mret (POF_OK, (with_lr lr s, dv)).

Definition pm_of lr (d : dpst) : pmst := mkPm lr (d_index d) (d_list d) (d_time d).
Definition dp_of ss dv s : dpst := mkDpst (mkDp ss dv) (portIndex s) (portNameList s) (pm_time s).

(** The loop of [pofdp_slot_init]; [k] slots to come.  The function ends without
    a [return]: [unspecified] is what the caller sees. *)
Fixpoint slots_from (unspecified : Z) (param : pof_param) (k : nat) (slotID : Z) (d : dpst) : St (Z * dpst) :=
  match k with
  | O => mret (unspecified, d)
  | S k =>
      '(lr, ss) ← res_create (V := pof_local_resource) res_zero (slotMap (d_dp d));
      match lr with
      | None => mret (POF_ERROR, d)
      | Some p =>
          ss ← lift (res_store p (set_slotID (u16 slotID) res_zero) ss);
          ss ← lift (res_set_hash p (hmap_hashForLinear slotID) ss);
          ss ← lift (res_insert u32 p ss);
          lr ← lift (res_load p ss);
          '(ret, (s, dv)) ← pof_localresource_init (pm_of (fill_localresource_param lr param) d) (dp_device (d_dp d));
          ss ← lift (res_store p (pm_lr s) ss);
          let d := dp_of ss dv s in
          if negb (ret =? POF_OK) then mret (ret, d) else slots_from unspecified param k (u32 (slotID + 1)) d
      end
  end.

Definition pofdp_slot_init (unspecified : Z) (param : pof_param) (slotNum slotMax : Z) (d : dpst) : St (Z * dpst) :=
  m ← hmap_create slotMax;
  let ss := slotMap (d_dp d) in
  slots_from unspecified param (Z.to_nat slotNum) POF_SLOT_ID_BASE
    (mkDpst (set_slots (Res (r_heap ss) m (r_num ss) (r_max ss)) (d_dp d)) (d_index d) (d_list d) (d_time d)).

(** The listening tasks of a slot's ports: the inner loop of [pof_datapath_init]. *)
Definition start_port p s : St (Z * pmst + pmst) :=
  port ← lift (load_port p s);
  if po_taskID port =? POF_INVALID_TASKID then
    '(ret, s) ← pofdp_create_port_listen_task system p s;
    if negb (ret =? POF_OK) then '(r, s) ← soft_failure POF_TASK_CREATE_FAIL s; mret (inl (r, s)) else mret (inr s)
  else mret (inr s).

Definition start_ports s : St (Z * pmst) :=
  r ← HMAP_NODES_IN_STRUCT_TRAVERSE pm_ports start_port s;
  mret (match r with inl r => r | inr s => (POF_OK, s) end).

(** [g_pofdp_detect_port_task_id] comes back with the state. *)
Definition pof_datapath_init (d : dpst) : St (Z * Z * dpst) :=
  r ← HMAP_NODES_IN_STRUCT_TRAVERSE (R := Z * dpst) (fun d => res_hm (slotMap (d_dp d)))
    (fun p d =>
       lr ← lift (res_load p (slotMap (d_dp d)));
       '(ret, s) ← start_ports (pm_of lr d);
       ss ← lift (res_store p (pm_lr s) (slotMap (d_dp d)));
       let d := dp_of ss (dp_device (d_dp d)) s in
       if negb (ret =? POF_OK) then mret (inl (ret, d)) else mret (inr d)) d;
  match r with
  | inl (ret, d) => mret (ret, POF_INVALID_TASKID, d)
  | inr d =>
      let '(t, time) := (s_thread (system (d_time d)), S (d_time d)) in
      let d := mkDpst (d_dp d) (d_index d) (d_list d) time in
      match t with
      | None => r ← POF_ERROR_HANDLE_RETURN_NO_UPWARD POFET_SOFTWARE_FAILED POF_TASK_CREATE_FAIL; mret (r, POF_INVALID_TASKID, d)
      | Some id => mret (POF_OK, id, d)
      end
  end.
End system.
