(* ===== verification/BootSpec.v ===== *)
(** * A slot after the start

    In a system that stays as it is and with services that do not fail, starting
    a slot that follows the system gives every listed interface a port, disabled,
    with a listening task, in two maps that agree, and empty well-formed tables:
    the state the detection and the handlers of the messages expect. *)

From S2P Require Import Prelude Bits Codec Env Hmap IdMap DList Tree LocalRes ByteTransfer Port Counter Meter Group FlowEntry FlowTable FlowSpec FlowOps TableOps Slot Parse PortMgr PortSpec Boot.

Implicit Types (s : pmst) (lr : pof_local_resource) (p : addr) (name : list Z) (port : portInfo) (dv : device).

(** A slot before its start: no port, no table, no map. *)
Record fresh_slot lr : Prop := {
  fs_ports : fresh_resource (lr_ports lr);
  fs_names : r_heap (lr_names lr) = ∅ /\ r_num (lr_names lr) = 0;
  fs_tables : fresh_resource (lr_tables lr);
  fs_groups : fresh_resource (lr_groups lr);
  fs_meters : fresh_resource (lr_meters lr);
  fs_counters : fresh_resource (lr_counters lr)
}.

Section static.
Context (system : nat -> sys) (y : sys).
Hypothesis static : forall t, system t = y.
Hypothesis Hy : sys_ok y.
Context (U : list Z -> Prop).
Hypothesis HU : apart U.

(** ** The ports of the name list *)

(** The ports of [names] with indices from [idx] on. *)
Fixpoint made_ports (slot idx : Z) (names : list (list Z)) (M : gmap Z portInfo) : gmap Z portInfo :=
  match names with
  | [] => M
  | n :: ns => made_ports slot (u8 (idx + 1)) ns (<[idx := made_for y idx slot n]> M)
  end.

Lemma made_snoc slot names n : forall idx M, 0 <= idx < 256 ->
  made_ports slot idx (names ++ [n]) M =
    <[u8 (idx + Z.of_nat (length names)) := made_for y (u8 (idx + Z.of_nat (length names))) slot n]> (made_ports slot idx names M).
Proof.
  induction names as [|n0 names IH]; intros idx M Hi; cbn [app made_ports length].
  - cbn. rewrite Z.add_0_r. now rewrite (u8_small idx) by exact Hi.
  - rewrite IH by apply u8_bound. replace (u8 (u8 (idx + 1) + Z.of_nat (length names))) with (u8 (idx + Z.of_nat (S (length names)))) by mod_lia. reflexivity.
Qed.

Lemma made_none slot names : forall idx M k, 0 <= idx < 256 -> M !! k = None ->
  (forall j : nat, (j < length names)%nat -> k <> u8 (idx + Z.of_nat j)) -> made_ports slot idx names M !! k = None.
Proof.
  induction names as [|n names IH]; intros idx M k Hi Hk Hj; cbn [made_ports]; [exact Hk|].
  apply IH; [apply u8_bound| |].
  - rewrite lookup_insert_ne; [exact Hk|]. intros <-. apply (Hj 0%nat); [cbn; lia|]. rewrite Z.add_0_r. symmetry. now apply u8_small.
  - intros j Hl E. apply (Hj (S j)); [cbn; lia|]. rewrite E. mod_lia.
Qed.

(** With the task of each made. *)
Lemma made_tasks slot names : forall idx M,
  set_task (task_id y) <$> made_ports slot idx names M = add_ports y slot idx names (set_task (task_id y) <$> M).
Proof.
  induction names as [|n names IH]; intros idx M; cbn [made_ports add_ports]; [done|]. now rewrite IH, fmap_insert.
Qed.

Record starting s0 (names : list (list Z)) s : Prop := {
  sg_ok : pm_ok s;
  sg_index : portIndex s = u8 (portIndex s0 + Z.of_nat (length names));
  sg_list : portNameList s = portNameList s0;
  sg_tables : same_tables (pm_lr s0) (pm_lr s);
  sg_ports : ports s = made_ports (lr_slotID (pm_lr s0)) (portIndex s0) names (ports s0);
  sg_named : forall q port, obj_at s q = Some port -> name_of port ∈ names
}.

Lemma add_no_report_ok s0 names s name e : starting s0 names s -> (forall n, n ∈ names -> U n) -> U name -> name ∉ names ->
  is_Some (s_iface y name) -> mallocs e = [] -> 0 <= portIndex s0 < 256 -> (length names < 256)%nat ->
  ports s0 !! u8 (portIndex s0 + Z.of_nat (length names)) = None ->
  exists s', poflr_add_port_no_report_no_task system name s e = Some ((POF_OK, s'), e) /\ starting s0 (names ++ [name]) s'.
Proof.
  intros G HUs HUn Hnew [i Hi] Q Hx Hl Hfree. destruct (so_iface _ Hy _ _ Hi) as (T & L & _).
  assert (named U s) as N by (intros q port Hq; apply HUs, (sg_named _ _ _ G q port Hq)).
  destruct (find_name U s name HU (sg_ok _ _ _ G) N HUn) as (o & E0 & Ho).
  assert (o = None) as ->.
  { destruct o as [q|]; [|done]. destruct Ho as (port & Hq & En). exfalso. apply Hnew. rewrite <- En. exact (sg_named _ _ _ G q port Hq). }
  destruct (check_name system y static Hy name s e L) as [t E1]. rewrite Hi in E1.
  assert (unused (at_time t s) name) as Hu.
  { intros q port Hq. split.
    - intros Ek. assert (ports s !! portIndex s = Some port) as H by (apply ports_lookup; [apply G|exists q; auto]).
      rewrite (sg_ports _ _ _ G), (sg_index _ _ _ G) in H. rewrite made_none in H; [discriminate|exact Hx|exact Hfree|].
      intros j Hj Ej. mod_lia.
    - intros Eh. apply HU in Eh; [now apply (Ho q port Hq)|now apply (N q)|done]. }
  destruct (create_ok system y static Hy (at_time t s) name i e (pm_ok_time _ _ (sg_ok _ _ _ G)) Hi Hu Q)
    as (p & s2 & E2 & Ok2 & Hp & X2 & L2 & S2 & O2).
  cbn [portIndex at_time pm_lr portNameList] in *. exists s2. unfold poflr_add_port_no_report_no_task. rewrite run_bind, E0. cbn [lift].
  rewrite run_bind, E1. change (negb (POF_OK =? POF_OK)) with false. cbv iota. rewrite run_bind, E2. split; [reflexivity|].
  pose proof (st_slot _ _ (sg_tables _ _ _ G)) as As. set (port := made y i (portIndex s) (lr_slotID (pm_lr s)) name) in *.
  assert (port = made_for y (u8 (portIndex s0 + Z.of_nat (length names))) (lr_slotID (pm_lr s0)) name) as Em
    by (unfold made_for, port; rewrite Hi, (sg_index _ _ _ G), As; reflexivity).
  assert (name_of port = name) as En by now apply made_name.
  split.
  - exact Ok2.
  - rewrite X2, (sg_index _ _ _ G), length_app. cbn [length]. mod_lia.
  - rewrite L2. apply G.
  - etrans; [apply G|exact S2].
  - rewrite made_snoc, <- Em, <- (sg_ports _ _ _ G) by exact Hx. apply map_eq. intros k. apply option_eq. intros v.
    rewrite (ports_lookup s2 k v Ok2), lookup_insert. rewrite <- (sg_index _ _ _ G). split.
    + intros (q & Hq & Hk). rewrite O2 in Hq. case_decide as Hqp.
      * injection Hq as <-. now rewrite decide_True.
      * rewrite decide_False; [apply ports_lookup; [apply G|eauto]|]. intros Ek. destruct (Hu q v Hq) as [Hu1 _]. cbn in Hu1. congruence.
    + case_decide as Hk.
      * intros [= <-]. exists p. rewrite O2, decide_True by done. auto.
      * intros (q & Hq & Ek)%ports_lookup; [|apply G]. exists q. rewrite O2, decide_False; [auto|]. intros ->. unfold obj_at in *. cbn in Hp. congruence.
  - intros q port'. rewrite O2, elem_of_app. case_decide.
    + intros [= <-]. right. rewrite En. constructor.
    + intros Hq. left. exact (sg_named _ _ _ G q port' Hq).
Qed.

(** The names a list has for a slot. *)
Definition for_slot (k : Z) (es : list (list Z * Z)) : list (list Z) := omap (fun x => if x.2 =? k then Some x.1 else None) es.

Lemma for_slot_app k es fs : for_slot k (es ++ fs) = for_slot k es ++ for_slot k fs.
Proof. apply omap_app. Qed.

Lemma for_slot_all k names : for_slot k ((fun n => (n, k)) <$> names) = names.
Proof. unfold for_slot. induction names as [|n names IH]; [done|]. cbn. rewrite Z.eqb_refl. f_equal. exact IH. Qed.

Lemma init_loop_ok s e ps es : let names := for_slot (lr_slotID (pm_lr s)) es in
  starting s [] s -> lrep (portNameList s) ps -> entries_at (portNameList s) ps es ->
  (forall n, n ∈ names -> is_Some (s_iface y n) /\ U n) -> NoDup names -> mallocs e = [] ->
  (length names <= 256)%nat -> ports s = ∅ ->
  exists s', LIST_NODES_IN_STRUCT_TRAVERSE portNameList (init_name system) s e = Some (inr s', e) /\ starting s names s'.
Proof.
  intros names G0 L F HN Nd Q Hl P0. pose proof (pk_index _ (sg_ok _ _ _ G0)) as Hx.
  destruct (list_traverse_spec portNameList (init_name system)) with
    (Inv := fun ws s1 e1 => e1 = e /\ exists fs rest done, ps = done ++ ws /\ es = fs ++ rest /\
       starting s (for_slot (lr_slotID (pm_lr s)) fs) s1 /\ entries_at (portNameList s) ws rest)
    (Post := fun (r : Z * pmst + pmst) e' => e' = e /\ match r with inl _ => False | inr s' => starting s names s' end)
    (ps := ps) (s := s) (e := e) as (r & e' & E & -> & H).
  - exact L.
  - split; [done|]. exists [], es, []. auto.
  - intros p ws s1 e1 (-> & fs & rest & done & Ep & En & G & Fw). split.
    + rewrite (sg_list _ _ _ G). rewrite Ep in L. now apply (lrep_next _ done).
    + apply Forall2_cons_inv_l in Fw as ([name k] & rest' & Hp & Fw & ->). cbn [fst snd] in Hp.
      unfold init_name. rewrite run_bind. unfold name_at. rewrite (sg_list _ _ _ G), Hp. cbn [lift pn_slotID pn_name].
      rewrite (st_slot _ _ (sg_tables _ _ _ G)). destruct (Z.eqb_spec k (lr_slotID (pm_lr s))) as [->|Hk]; cbn [negb].
      * set (seen := for_slot (lr_slotID (pm_lr s)) fs) in *.
        assert (names = seen ++ name :: for_slot (lr_slotID (pm_lr s)) rest') as Es.
        { unfold names. rewrite En, for_slot_app. cbn. now rewrite Z.eqb_refl. }
        assert (name ∈ names) as Hin by (rewrite Es; apply elem_of_app; right; constructor).
        destruct (HN _ Hin) as [Hi HUn]. pose proof Hi as [i Ei]. destruct (so_iface _ Hy _ _ Ei) as (T & Ln & _).
        rewrite Es in Nd. apply NoDup_app in Nd as (_ & Nd & _).
        destruct (add_no_report_ok s seen s1 name e G) as (s2 & E2 & G2).
        -- intros n Hn. apply HN. rewrite Es. apply elem_of_app. now left.
        -- exact HUn.
        -- intros H. apply (Nd _ H). constructor.
        -- exact Hi.
        -- exact Q.
        -- exact Hx.
        -- rewrite Es, length_app in Hl. cbn in Hl. lia.
        -- now rewrite P0, lookup_empty.
        -- exists (inr s2), e. split; [rewrite run_bind, cstr_strncpy by (auto; lia); cbn [lift]; rewrite run_bind, E2; reflexivity|].
           split; [done|]. exists (fs ++ [(name, lr_slotID (pm_lr s))]), rest', (done ++ [p]). rewrite for_slot_app, <- !app_assoc. cbn. rewrite Z.eqb_refl. auto.
      * exists (inr s1), e. split; [reflexivity|]. split; [done|]. exists (fs ++ [(name, k)]), rest', (done ++ [p]).
        rewrite for_slot_app, <- !app_assoc. cbn. rewrite (proj2 (Z.eqb_neq _ _)), app_nil_r by exact Hk. auto.
  - intros s1 e1 (-> & fs & rest & done & Ep & En & G & Fw). split; [done|]. apply Forall2_nil_inv_l in Fw as ->. rewrite app_nil_r in En. now subst fs.
  - destruct r as [|s']; [now destruct H|]. eauto.
Qed.

(** ** [poflr_init_port] *)

(** The list of names as [poflr_init_port] finds it or makes it. *)
Definition loads s e (es : list (list Z * Z)) : Prop :=
  forall lr, from_system lr = from_system (pm_lr s) -> exists dl t ps,
    (if from_system lr then poflr_get_port_num_name_by_getifaddrs system (with_lr lr s) else mret (POF_OK, with_lr lr s)) e
      = Some ((POF_OK, with_list dl (at_time t (with_lr lr s))), e) /\ lrep dl ps /\ entries_at dl ps es.

Lemma loads_system s e l : from_system (pm_lr s) = true -> lrep (portNameList s) [] -> s_ifaddrs y = Some l -> mallocs e = [] ->
  loads s e ((fun n => (n, 0)) <$> listed l).
Proof.
  intros Hfs L El Q lr Elr. rewrite Elr, Hfs. destruct (insert_names_ok l (tick (with_lr lr s)) e [] [] L ltac:(constructor) Q) as (dl & ps & E & L1 & F1).
  exists dl, (S (pm_time s)), ps. unfold poflr_get_port_num_name_by_getifaddrs, ask. rewrite static, El, run_bind. cbn [lift]. rewrite run_bind, E.
  split; [reflexivity|]. split; [exact L1|]. now apply entries_names.
Qed.

Lemma loads_custom s e ps es : from_system (pm_lr s) = false -> lrep (portNameList s) ps -> entries_at (portNameList s) ps es -> loads s e es.
Proof. intros Hfs L F lr Elr. rewrite Elr, Hfs. exists (portNameList s), (pm_time s), ps. auto. Qed.

Lemma init_port_ok s e es : let names := for_slot (lr_slotID (pm_lr s)) es in
  fresh_slot (pm_lr s) -> (exists ps, lrep (portNameList s) ps) -> loads s e es -> 0 <= portIndex s < 256 ->
  (forall n, n ∈ names -> is_Some (s_iface y n) /\ U n) -> NoDup names -> (length names <= 256)%nat -> mallocs e = [] ->
  exists s', poflr_init_port system s e = Some ((POF_OK, s'), e) /\ pm_ok s' /\
    ports s' = made_ports (lr_slotID (pm_lr s)) (portIndex s) names ∅ /\ portIndex s' = u8 (portIndex s + Z.of_nat (length names)) /\
    same_tables (pm_lr s) (pm_lr s') /\ exists ps, lrep (portNameList s') ps /\ entries_at (portNameList s') ps es.
Proof.
  intros names Fs Hls Hld Hx HN Nd Hl Q. destruct (fs_ports _ Fs) as (Hp & Np & Mp). destruct (fs_names _ Fs) as [Hn Nn].
  destruct (hmap_create_quiet (r_heap (lr_ports (pm_lr s))) (r_max (lr_ports (pm_lr s))) e Mp Q) as (m & cs & E1 & R & Ec).
  set (lr1 := set_port_names (Res (r_heap (lr_names (pm_lr s))) (Some m) (r_num (lr_names (pm_lr s))) (r_max (lr_names (pm_lr s))))
    (set_ports (Res (r_heap (lr_ports (pm_lr s))) (Some m) (r_num (lr_ports (pm_lr s))) (r_max (lr_ports (pm_lr s)))) (pm_lr s))).
  set (s1 := with_lr lr1 s).
  assert (forall q, obj_at s1 q = None) as O1 by (intros q; unfold obj_at; cbn; now rewrite Hp, lookup_empty).
  assert (forall V `{Resource V} (mx : Z), res_wrap (V := V) 0 = 0 -> res_ok (Res (V := V) ∅ (Some m) 0 mx)) as Hres.
  { intros V HR mx Hw. exists m, cs. assert (forall p : addr, (∅ : heap V) !! p = None) as He by (intros; apply lookup_empty).
    split; cbn [r_map r_heap r_num]; [done| |intros p [c Hc]; now rewrite He in Hc|intros p c Hc; now rewrite He in Hc
      |intros p q c d Hc; now rewrite He in Hc|rewrite map_size_empty; exact (eq_sym Hw)].
    rewrite Hp in R. destruct R as [R1 R2 R3 R4 R5 R6]. split; auto.
    - clear -R3. induction R3 as [|b c bs cs' Hc _ IH]; constructor; [|exact IH]. destruct c as [|x c]; [exact Hc|].
      destruct Hc as (_ & d & Hd & _). now rewrite lookup_empty in Hd.
    - intros i0 l0 q c Hi Hq Hc. now rewrite He in Hc. }
  assert (pm_ok s1) as Ok1.
  { split.
    - unfold s1, lr1. cbn [pm_lr with_lr set_port_names set_ports lr_ports]. rewrite Hp, Np. now apply (Hres portInfo).
    - unfold s1, lr1. cbn [pm_lr with_lr set_port_names set_ports lr_names]. rewrite Hn, Nn. now apply (Hres nameNode).
    - intros q. rewrite O1. unfold node_at. cbn. now rewrite Hn, lookup_empty.
    - intros q port. now rewrite O1.
    - exact Hx.
    - eauto. }
  assert (ports s1 = ∅) as P1.
  { apply map_empty. intros k. destruct (ports s1 !! k) as [v|] eqn:E; [|done]. apply ports_lookup in E as (q & Hq & _); [|done]. now rewrite O1 in Hq. }
  destruct (Hld lr1 eq_refl) as (dl & t & ps1 & E2 & L1 & F1). fold s1 in E2.
  set (s2 := with_list dl (at_time t s1)) in *. assert (pm_ok s2) as Ok2 by (destruct Ok1; split; eauto).
  destruct (init_loop_ok s2 e ps1 es) as (s' & E3 & G); try done.
  - split; auto; try (split; reflexivity).
    + cbn. rewrite Z.add_0_r. symmetry. now apply u8_small.
    + intros q port. change (obj_at s2 q) with (obj_at s1 q). now rewrite O1.
  - exists s'. unfold poflr_init_port. rewrite run_bind, E1, run_bind, E1. cbv zeta. fold lr1. fold s1.
    rewrite !bool_decide_eq_false_2 by done. cbn [orb]. change (pm_lr s1) with lr1. rewrite run_bind, E2.
    change (negb (POF_OK =? POF_OK)) with false. cbv iota. rewrite run_bind, E3. split; [reflexivity|]. split; [apply G|].
    split; [rewrite (sg_ports _ _ _ G); change (ports s2) with (ports s1); now rewrite P1|].
    split; [apply (sg_index _ _ _ G)|]. split; [etrans; [|apply G]; now split|]. exists ps1. now rewrite (sg_list _ _ _ G).
Qed.

(** ** [pof_localresource_init] *)

(** The ports of a slot with new objects that keep their index and name. *)
Lemma pm_ok_objs s ps (f : portInfo -> portInfo) : pm_ok s -> res_ok ps ->
  (forall q, c_obj <$> r_heap ps !! q = f <$> obj_at s q) ->
  (forall port, name_of (f port) = name_of port) -> (forall port, port_wf port -> port_wf (f port)) ->
  pm_ok (with_lr (set_ports ps (pm_lr s)) s).
Proof.
  intros Ok Okp Ho Hn Hw. split.
  - exact Okp.
  - apply Ok.
  - intros q. unfold obj_at. cbn [pm_lr with_lr set_ports lr_ports]. rewrite Ho. change (node_at _ q) with (node_at s q). rewrite (pk_both _ Ok q).
    destruct (obj_at s q); cbn; [now rewrite Hn|done].
  - intros q port. unfold obj_at. cbn [pm_lr with_lr set_ports lr_ports]. rewrite Ho. destruct (obj_at s q) as [port0|] eqn:E; [|done].
    intros [= <-]. apply Hw, (pk_wf _ Ok q _ E).
  - apply Ok.
  - apply Ok.
Qed.

Lemma made_disabled slot names : (forall n, n ∈ names -> is_Some (s_iface y n)) -> forall idx M,
  disabled (made_ports slot idx names M) = made_ports slot idx names (disabled M).
Proof.
  unfold disabled. induction names as [|n names IH]; intros Hn idx M; cbn [made_ports]; [done|].
  rewrite IH by (intros; apply Hn; now right). rewrite fmap_insert. f_equal. f_equal.
  destruct (Hn n ltac:(constructor)) as [i Ei]. unfold made_for. rewrite Ei. reflexivity.
Qed.

Lemma localresource_init_ok s dv e es n0 n1 n2 n3 : let names := for_slot (lr_slotID (pm_lr s)) es in
  fresh_slot (pm_lr s) -> (exists ps, lrep (portNameList s) ps) -> loads s e es -> 0 <= portIndex s < 256 ->
  (forall n, n ∈ names -> is_Some (s_iface y n) /\ U n) -> NoDup names -> (length names <= 256)%nat -> mallocs e = [] ->
  tableNumMaxEachType (pm_lr s) = [n0; n1; n2; n3] -> 0 <= n0 -> 0 <= n1 -> 0 <= n2 -> 0 <= n3 ->
  exists s' dv', pof_localresource_init system s dv e = Some ((POF_OK, (s', dv')), e) /\ pm_ok s' /\
    resources_ok (pm_lr s') /\ slot_empty (pm_lr s') /\ indexed (pm_lr s') /\
    ports s' = made_ports (lr_slotID (pm_lr s)) (portIndex s) names ∅ /\ portIndex s' = u8 (portIndex s + Z.of_nat (length names)) /\
    lr_slotID (pm_lr s') = lr_slotID (pm_lr s) /\ exists ps, lrep (portNameList s') ps /\ entries_at (portNameList s') ps es.
Proof.
  intros names Fs Hls Hld Hx HN Nd Hl Q En P0 P1 P2 P3.
  destruct (init_port_ok s e es Fs Hls Hld Hx HN Nd Hl Q) as (s1 & E1 & Ok1 & Pt1 & X1 & R1 & Ls1). destruct R1 as [F1 S1 T1 G1 M1 C1 N1 _ _].
  destruct (disable_all_ok (pm_lr s1) e (pk_ports _ Ok1)) as (ps & E2 & Okp & Cp & _ & Ho).
  destruct (init_table_resource_ok (set_ports ps (pm_lr s1)) dv e n0 n1 n2 n3) as (lr3 & dv3 & E3 & Sl & Og & Om & Em & Ix & (Fp & Fn & Fl & Ff) & _);
    cbn [lr_tables lr_groups lr_meters lr_counters tableNumMaxEachType set_ports]; rewrite ?T1, ?G1, ?M1, ?C1, ?N1; try apply Fs; auto.
  assert (pm_ok (with_lr lr3 s1)) as Ok3.
  { pose proof (pm_ok_objs s1 ps (set_of_enable POFE_DISABLE) Ok1 Okp Ho (fun _ => eq_refl)) as H.
    destruct H as [H1 H2 H3 H4 H5 H6]; [intros port [? ? ? ? ?]; now split|].
    split; unfold obj_at, node_at in *; cbn [pm_lr with_lr] in *; rewrite ?Fp, ?Fn; auto. }
  exists (with_lr lr3 s1), dv3. unfold pof_localresource_init. rewrite run_bind, E1. unfold check_terminate.
  change (negb (POF_OK =? POF_OK)) with false. cbv iota. rewrite run_bind. unfold mret at 1, St_ret. cbv beta iota.
  rewrite run_bind, E2, run_bind, E3. rewrite run_bind. unfold mret at 1, St_ret. cbv beta iota. split; [reflexivity|]. split; [exact Ok3|].
  split; [constructor; auto; [cbn [pm_lr with_lr]; rewrite Fp; exact Okp]|]. split; [exact Em|]. split; [exact Ix|]. split; [|split; [exact X1|split; [cbn [pm_lr with_lr]; rewrite Fl; exact S1|exact Ls1]]].
  unfold ports. cbn [pm_lr with_lr]. rewrite Fp. cbn [lr_ports set_ports]. rewrite Cp. change (contents (lr_ports (pm_lr s1))) with (ports s1).
  rewrite Pt1, made_disabled; [unfold disabled; now rewrite fmap_empty|]. intros n Hn. now apply HN.
Qed.

(** ** The listening tasks *)

Definition started port : portInfo := if po_taskID port =? POF_INVALID_TASKID then set_task (task_id y) port else port.

(** The loop of [pm_ports] whose body gives each port a task or takes it away. *)
Lemma tasks_loop {R} (body : addr -> pmst -> St (R + pmst)) (f : portInfo -> option Z) s e : pm_ok s ->
  (forall p s1 port, pm_ok s1 -> obj_at s p = Some port -> obj_at s1 p = Some port -> exists t,
     body p s1 e = match f port with
       | Some id => (s2 ← lift (store_port p (set_task id port) (at_time t s1)); mret (inr s2)) e
       | None => Some (inr s1, e)
       end) ->
  exists s', HMAP_NODES_IN_STRUCT_TRAVERSE pm_ports body s e = Some (inr s', e) /\ pm_ok s' /\ same_rest s s' /\
    forall q, obj_at s' q = (fun port => match f port with Some id => set_task id port | None => port end) <$> obj_at s q.
Proof.
  intros Ok Hb. set (g port := match f port with Some id => set_task id port | None => port end).
  destruct (traverse_reworks (fun s => lr_ports (pm_lr s)) body (fun s1 => pm_ok s1 /\ same_rest s s1) (fun v v' => v' = g v) s e (pk_ports _ Ok))
    as (s' & E & (Ok' & S') & _ & H).
  - now split.
  - intros p c s1 [Ok1 S1] Hp0 Hp. destruct (Hb p s1 (c_obj c) Ok1) as [t Et]; [unfold obj_at; now rewrite Hp0|exact Hp|].
    assert (obj_at (at_time t s1) p = Some (c_obj c)) as Hp1 by exact Hp.
    destruct (store_port_ok (at_time t s1) p (c_obj c) (g (c_obj c)) (pm_ok_time s1 t Ok1) Hp1) as (s2 & E2 & Ok2 & S2 & _ & _);
      [unfold g; now case_match|unfold g; now case_match|unfold g; case_match; [apply set_task_wf|]; apply (pk_wf _ Ok1 p _ Hp)|].
    assert (res_store p (g (c_obj c)) (lr_ports (pm_lr s1)) = Some (lr_ports (pm_lr s2))) as Es.
    { unfold store_port in E2. cbn [pm_lr at_time] in E2. destruct (res_store p (g (c_obj c)) (lr_ports (pm_lr s1))); [|discriminate]. now injection E2 as <-. }
    unfold g in *. destruct (f (c_obj c)) as [id|].
    + exists s2, (set_task id (c_obj c)). rewrite Et, run_bind, E2. cbn [lift]. split; [reflexivity|]. split; [split; [exact Ok2|]|auto].
      etrans; [exact S1|]. etrans; [apply (same_rest_time s1 t)|exact S2].
    + exists s1, (c_obj c). split; [exact Et|]. split; [now split|]. split; [done|]. split; [done|].
      unfold res_store. destruct (r_heap (lr_ports (pm_lr s1)) !! p) as [c1|] eqn:E1; [|done]. injection Hp as Eo. cbn [mbind option_bind]. do 2 f_equal.
      rewrite <- Eo. unfold with_heap. rewrite insert_id; [now destruct (lr_ports (pm_lr s1))|]. rewrite E1. now destruct c1.
  - exists s'. split; [exact E|]. split; [exact Ok'|]. split; [exact S'|]. intros q. specialize (H q). unfold obj_at, reworked in *.
    destruct (r_heap (lr_ports (pm_lr s)) !! q), (r_heap (lr_ports (pm_lr s')) !! q); try done. destruct H as [H _]. cbn. now rewrite H.
Qed.

(** Every port changed in the same way, as a map. *)
Lemma ports_mapped (f : portInfo -> portInfo) s s' : (forall port, po_pofIndex (f port) = po_pofIndex port) -> pm_ok s -> pm_ok s' ->
  (forall q, obj_at s' q = f <$> obj_at s q) -> ports s' = f <$> ports s.
Proof.
  intros Hf Ok Ok' O. unfold ports. rewrite <- (map_fmap_id (contents (lr_ports (pm_lr s')))), <- (map_fmap_id (contents (lr_ports (pm_lr s)))).
  apply contents_reworked; [apply Ok|apply Ok'|]. intros q. specialize (O q). unfold obj_at, reworked in *.
  destruct (r_heap (lr_ports (pm_lr s)) !! q), (r_heap (lr_ports (pm_lr s')) !! q); try done. injection O as ->. split; [done|apply Hf].
Qed.
Lemma started_index port : po_pofIndex (started port) = po_pofIndex port.
Proof. unfold started. now case_match. Qed.

Lemma start_ports_ok s e : pm_ok s -> exists s', start_ports system s e = Some ((POF_OK, s'), e) /\ pm_ok s' /\ same_rest s s' /\
  forall q, obj_at s' q = started <$> obj_at s q.
Proof.
  intros Ok. destruct (tasks_loop (start_port system) (fun port => if po_taskID port =? POF_INVALID_TASKID then Some (task_id y) else None) s e Ok)
    as (s' & E & Ok' & S' & O).
  - intros p s1 port _ _ Hp. destruct (obj_loaded _ _ _ Hp) as (c & _ & _ & El). exists (S (pm_time s1)).
    unfold start_port. rewrite run_bind, El. cbn [lift]. destruct (po_taskID port =? POF_INVALID_TASKID); [|done].
    destruct (so_thread _ Hy) as (id & Eid & _). assert (task_id y = id) as -> by (unfold task_id; now rewrite Eid).
    rewrite run_bind. unfold pofdp_create_port_listen_task. rewrite run_bind, El. cbn [lift]. rewrite run_bind.
    unfold pofbf_task_create, ask. rewrite static, Eid. unfold mret at 1, St_ret. cbv beta iota. rewrite !run_bind.
    change (tick s1) with (at_time (S (pm_time s1)) s1). now destruct (store_port p (set_task id port) (at_time (S (pm_time s1)) s1)).
  - exists s'. unfold start_ports. rewrite run_bind, E. split; [reflexivity|]. split; [exact Ok'|]. split; [exact S'|].
    intros q. rewrite O. unfold started. destruct (obj_at s q) as [port|]; [|done]. cbn. now destruct (po_taskID port =? POF_INVALID_TASKID).
Qed.

Lemma started_listening s s' : (forall q, obj_at s' q = started <$> obj_at s q) -> listening s'.
Proof.
  intros O p port. rewrite O. destruct (obj_at s p) as [port0|]; [|done]. intros [= <-]. unfold started.
  destruct (Z.eqb_spec (po_taskID port0) POF_INVALID_TASKID); [|done]. cbn. destruct (so_thread _ Hy) as (id & Eid & Hid). unfold task_id. now rewrite Eid.
Qed.

Lemma started_made_ports slot names : (forall n, n ∈ names -> is_Some (s_iface y n)) -> forall idx,
  started <$> made_ports slot idx names ∅ = add_ports y slot idx names ∅.
Proof.
  intros Hn idx. assert (set_task (task_id y) <$> made_ports slot idx names ∅ = add_ports y slot idx names ∅) as <- by (rewrite made_tasks; now rewrite fmap_empty).
  assert (forall M : gmap Z portInfo, (forall k port, M !! k = Some port -> po_taskID port = POF_INVALID_TASKID) ->
    forall k port, made_ports slot idx names M !! k = Some port -> po_taskID port = POF_INVALID_TASKID) as Hi.
  { revert idx. induction names as [|n names IH]; intros idx M HM; cbn [made_ports]; [exact HM|]. apply IH; [intros; apply Hn; now right|].
    intros k port. rewrite lookup_insert. case_decide; [|apply HM]. intros [= <-]. unfold made_for.
    destruct (Hn n ltac:(constructor)) as [i Ei]. now rewrite Ei. }
  apply map_fmap_ext. intros k port Hp. unfold started. rewrite (Hi ∅) with (k := k) (port := port); [done| |exact Hp]. intros j port0. now rewrite lookup_empty.
Qed.

(** The names of the ports made, that they have no task, and where they are. *)
Lemma made_named slot names : (forall n, n ∈ names -> is_Some (s_iface y n)) -> forall idx k port,
  made_ports slot idx names ∅ !! k = Some port -> name_of port ∈ names /\ po_taskID port = POF_INVALID_TASKID /\ (0 <= idx -> idx + Z.of_nat (length names) <= 256 -> idx <= k < idx + Z.of_nat (length names)).
Proof.
  intros Hn idx k port H.
  assert (forall M : gmap Z portInfo, made_ports slot idx names M !! k = Some port ->
    (name_of port ∈ names /\ po_taskID port = POF_INVALID_TASKID /\ (0 <= idx -> idx + Z.of_nat (length names) <= 256 -> idx <= k < idx + Z.of_nat (length names))) \/ M !! k = Some port) as Hi.
  { clear H. revert idx. induction names as [|n names IH]; intros idx M; cbn [made_ports length]; [auto|]. intros [(H1 & Ht & H2)|H]%IH; [left| |intros; apply Hn; now right].
    - split; [now right|]. split; [exact Ht|]. intros H3 H4. destruct (Z.eq_dec idx 255) as [->|]; [|rewrite u8_small in H2 by lia; lia].
      destruct names; [|cbn [length] in H4; lia]. now apply elem_of_nil in H1.
    - revert H. rewrite lookup_insert. case_decide as Hk; [|auto]. intros [= <-]. left. subst k. destruct (Hn n ltac:(constructor)) as [i Ei].
      unfold made_for. rewrite Ei. destruct (so_iface _ Hy _ _ Ei) as (T & L & _). rewrite made_name by (auto; lia). split; [left|]. split; [done|lia]. }
  destruct (Hi ∅ H) as [?|?]; [done|]. now rewrite lookup_empty in *.
Qed.

(** A slot that has found its names starts. *)
Lemma slot_started s dv e es n0 n1 n2 n3 : let names := for_slot (lr_slotID (pm_lr s)) es in
  fresh_slot (pm_lr s) -> (exists ps, lrep (portNameList s) ps) -> loads s e es -> 0 <= portIndex s < 256 ->
  (forall n, n ∈ names -> is_Some (s_iface y n) /\ U n) -> NoDup names -> (length names <= 256)%nat -> mallocs e = [] ->
  tableNumMaxEachType (pm_lr s) = [n0; n1; n2; n3] -> 0 <= n0 -> 0 <= n1 -> 0 <= n2 -> 0 <= n3 ->
  exists s1 dv' s2, pof_localresource_init system s dv e = Some ((POF_OK, (s1, dv')), e) /\
    start_ports system s1 e = Some ((POF_OK, s2), e) /\
    pm_ok s2 /\ listening s2 /\ ports s2 = add_ports y (lr_slotID (pm_lr s)) (portIndex s) names ∅ /\
    resources_ok (pm_lr s2) /\ slot_empty (pm_lr s2).
Proof.
  intros names Fs Hls Hld Hx HN Nd Hl Q En P0 P1 P2 P3.
  destruct (localresource_init_ok s dv e es n0 n1 n2 n3 Fs Hls Hld Hx HN Nd Hl Q En P0 P1 P2 P3)
    as (s1 & dv' & E1 & Ok1 & R1 & Em & _ & Pt & _).
  destruct (start_ports_ok s1 e Ok1) as (s2 & E2 & Ok2 & S2 & O2).
  exists s1, dv', s2. split; [exact E1|]. split; [exact E2|]. split; [exact Ok2|]. split; [now apply (started_listening s1)|].
  split; [rewrite (ports_mapped started s1 s2 started_index Ok1 Ok2 O2), Pt; apply started_made_ports; intros n Hn; now apply HN|].
  destruct (sr_tables _ _ S2) as [_ _ T G M C N _ K]. split.
  - destruct R1 as [[A1 A2 A3 A4 A5 A6 A7] Rp Rg Rm]. constructor; [constructor|apply Ok2|..]; rewrite ?T, ?G, ?M, ?C, ?N, ?K; auto.
  - unfold slot_empty. now rewrite T, G, M, C.
Qed.
End static.

(** C8. Starting a slot that follows the system ([pof_localresource_init], then
    the loop of [pof_datapath_init] over its ports) succeeds: the listed
    interfaces have ports with consecutive indices, disabled, each with its
    sockets and a listening task; the maps by index and by name hold the same
    ports; every table, group, meter and counter map is well-formed and empty. *)
Theorem slot_starts system y s dv e l n0 n1 n2 n3 :
  (forall t, system t = y) -> sys_ok y -> s_ifaddrs y = Some l -> NoDup (listed l) -> apart (fun n => n ∈ listed l) ->
  (length (listed l) <= 256)%nat -> fresh_slot (pm_lr s) -> from_system (pm_lr s) = true -> 0 <= portIndex s < 256 ->
  lrep (portNameList s) [] -> mallocs e = [] ->
  tableNumMaxEachType (pm_lr s) = [n0; n1; n2; n3] -> 0 <= n0 -> 0 <= n1 -> 0 <= n2 -> 0 <= n3 ->
  exists s1 dv' s2, pof_localresource_init system s dv e = Some ((POF_OK, (s1, dv')), e) /\
    start_ports system s1 e = Some ((POF_OK, s2), e) /\
    pm_ok s2 /\ listening s2 /\ ports s2 = add_ports y 0 (portIndex s) (listed l) ∅ /\
    resources_ok (pm_lr s2) /\ slot_empty (pm_lr s2).
Proof.
  intros Hs Hy El Nd HU Hl Fs Hfs Hx L Q En P0 P1 P2 P3.
  assert (lr_slotID (pm_lr s) = 0) as S0 by (unfold from_system in Hfs; apply andb_true_iff in Hfs as [_ H]; now apply Z.eqb_eq in H).
  assert (for_slot (lr_slotID (pm_lr s)) ((fun n => (n, 0)) <$> listed l) = listed l) as Ef by (rewrite S0; apply for_slot_all).
  destruct (slot_started system y Hs Hy _ HU s dv e ((fun n => (n, 0)) <$> listed l) n0 n1 n2 n3) as (s1 & dv' & s2 & E1 & E2 & H); rewrite ?Ef; eauto.
  - now apply (loads_system system y Hs s e l).
  - intros n Hn. split; [now apply (listed_known y Hy l)|done].
  - exists s1, dv', s2. rewrite Ef, S0 in H. auto.
Qed.

(** *** An example: the parameters of pof_config.c *)

Definition param_example : pof_param := mkParam 1000 0 [10; 10; 10; 10] 10000 1024 128 512.
Definition pm_boot : pmst := mkPm (fill_localresource_param res_zero param_example) 1 (DList LNil LNil 0 ∅) 0.

Lemma slot_starts_witness : exists s1 dv' s2,
  pof_localresource_init (fun _ => sys_example) pm_boot device_example env_example = Some ((POF_OK, (s1, dv')), env_example) /\
    start_ports (fun _ => sys_example) s1 env_example = Some ((POF_OK, s2), env_example) /\
    pm_ok s2 /\ listening s2 /\ ports s2 = add_ports sys_example 0 1 [eth 48; eth 49] ∅ /\
    resources_ok (pm_lr s2) /\ slot_empty (pm_lr s2).
Proof.
  apply (slot_starts (fun _ => sys_example) sys_example pm_boot device_example env_example
    [(lo_name, true); (eth 48, true); (eth 48, false); (eth 49, true)] 10 10 10 10); try reflexivity; try lia.
  - exact sys_example_ok.
  - change (listed _) with [eth 48; eth 49]. by_decide.
  - intros a b Ha Hb. apply example_apart; now right.
  - change (listed _) with [eth 48; eth 49]. cbn. lia.
  - split; try (split; [reflexivity|]; split; [reflexivity|cbn; lia]). split; reflexivity.
  - cbn. lia.
  - split; [repeat constructor|constructor|reflexivity].
Defined.
