(* ===== verification/EnumSpec.v ===== *)
(** * Enumerations of a map

    A loop over a map visits each of its structures once, in the order of the
    buckets.  What a loop sends or prints is therefore, whatever that order, an
    enumeration of the structures. *)

From S2P Require Import Prelude Codec Env Hmap IdMap LocalRes FlowEntry FlowTable FlowSpec.

(** [vs] are the structures of the map, each once, in some order. *)
Definition enumerates {V} (rs : resource V) (vs : list V) : Prop := ((fun pc => c_obj pc.2) <$> map_to_list (r_heap rs)) ≡ₚ vs.

(** Every structure is in the map. *)
Definition linked {V} (rs : resource V) : Prop :=
  exists m cs, r_map rs = Some m /\ rep (r_heap rs) m cs /\ forall p, is_Some (r_heap rs !! p) -> p ∈ concat cs.

Lemma res_linked {V} `{Resource V} (rs : resource V) : res_ok rs -> linked rs.
Proof. intros (m & cs & [R1 R2 R3 _ _ _]). exists m, cs. auto. Qed.
Lemma entries_linked (rs : resource entryInfo) : entries_ok rs -> linked rs.
Proof. intros (m & cs & [R1 R2 R3 _ _]). exists m, cs. auto. Qed.

(** And the count has not wrapped. *)
Record counted {V} (rs : resource V) : Prop := {
  cd_map : linked rs;
  cd_num : r_num rs = Z.of_nat (size (r_heap rs))
}.

Lemma resource_counted {V} `{Resource V} (rs : resource V) : res_ok rs -> res_wrap (Z.of_nat (size (r_heap rs))) = Z.of_nat (size (r_heap rs)) -> counted rs.
Proof.
  intros Ok E. split; [now apply res_linked|]. destruct Ok as (m & cs & R). rewrite (rr_num _ _ _ R). exact E.
Qed.

Lemma entries_counted (rs : resource entryInfo) : entries_ok rs -> Z.of_nat (size (r_heap rs)) < 4294967296 -> counted rs.
Proof.
  intros Ok E. split; [now apply entries_linked|]. destruct Ok as (m & cs & R). rewrite (er_num _ _ _ R). apply u32_small. lia.
Qed.

(** For a map by ids these are the values of the map, each with its id. *)
Lemma enumerates_pairs {V} `{Resource V} (rs : resource V) vs : res_ok rs -> enumerates rs vs ->
  map_to_list (contents rs) ≡ₚ (fun v => (res_id v, v)) <$> vs.
Proof.
  intros (m & cs & R) <-. unfold contents. rewrite map_to_list_to_map.
  - rewrite <- list_fmap_compose. reflexivity.
  - rewrite <- list_fmap_compose. apply NoDup_fmap_2_strong; [|apply NoDup_map_to_list].
    intros [p c] [q d] Hp%elem_of_map_to_list Hq%elem_of_map_to_list E. cbn in E.
    assert (p = q) as -> by (eapply (rr_uniq _ _ _ R); eauto). congruence.
Qed.
Lemma enumerates_contents {V} `{Resource V} (rs : resource V) vs : res_ok rs -> enumerates rs vs -> (map_to_list (contents rs)).*2 ≡ₚ vs.
Proof. intros Ok En. rewrite (enumerates_pairs rs vs Ok En), <- list_fmap_compose. cbn. unfold compose. cbn. now rewrite list_fmap_id. Qed.

Definition objs {V} (rs : resource V) (ps : list addr) : list V := omap (fun p => c_obj <$> r_heap rs !! p) ps.

Lemma objs_snoc {V} (rs : resource V) ps p v : res_load p rs = Some v -> objs rs (ps ++ [p]) = objs rs ps ++ [v].
Proof.
  unfold objs, res_load. intros E. rewrite omap_app. cbn. destruct (r_heap rs !! p) as [c|]; [|discriminate]. cbn in *. now injection E as ->.
Qed.

(** The nodes of the map in the order of its buckets enumerate it. *)
Lemma objs_enumerate {V} (rs : resource V) m cs : rep (r_heap rs) m cs -> (forall p, is_Some (r_heap rs !! p) -> p ∈ concat cs) ->
  enumerates rs (objs rs (concat cs)) /\ length (objs rs (concat cs)) = size (r_heap rs).
Proof.
  intros R L. pose proof (rep_nodup _ _ _ R) as Nd.
  assert (map_to_list (r_heap rs) ≡ₚ omap (fun p => (fun c => (p, c)) <$> r_heap rs !! p) (concat cs)) as P.
  { apply NoDup_Permutation.
    - apply NoDup_map_to_list.
    - clear R L. induction (concat cs) as [|p ps IH]; cbn; [constructor|]. apply NoDup_cons in Nd as [Hp Nd].
      destruct (r_heap rs !! p) as [c|]; cbn; [|now apply IH]. constructor; [|now apply IH].
      intros (q & Hq & E)%list_elem_of_omap. destruct (r_heap rs !! q); [|discriminate]. injection E as -> _. now apply Hp.
    - intros [p c]. rewrite elem_of_map_to_list, list_elem_of_omap. split.
      + intros Hp. exists p. split; [apply L; eauto|]. now rewrite Hp.
      + intros (q & _ & E). destruct (r_heap rs !! q) eqn:Eq; [|discriminate]. injection E as -> ->. exact Eq. }
  assert (objs rs (concat cs) = (fun pc => c_obj pc.2) <$> omap (fun p => (fun c => (p, c)) <$> r_heap rs !! p) (concat cs)) as ->.
  { unfold objs. clear. induction (concat cs) as [|p ps IH]; [done|]. cbn. destruct (r_heap rs !! p); cbn; rewrite IH; done. }
  split; [unfold enumerates; now rewrite P|]. rewrite length_fmap, <- P, length_map_to_list. reflexivity.
Qed.

(** A loop over a map whose body emits [out v] for each element [v]: [emit] is how
    the state keeps what has been emitted, [I] what the body relies on. *)
Lemma traverse_emits {V S R O} (rs : resource V) (hm : S -> option (heap V * hmap)) body (emit : S -> list O -> S) (I : S -> Prop)
    (out : V -> list O -> Prop) s e :
  linked rs -> emit s [] = s -> (forall a b, emit (emit s a) b = emit s (a ++ b)) -> (forall o, I (emit s o)) ->
  (forall s', I s' -> hm s' = res_hm rs) ->
  (forall p v s', res_load p rs = Some v -> I s' -> exists o, out v o /\ body p s' e = Some (inr (emit s' o), e)) ->
  exists vs outs, enumerates rs vs /\ length vs = size (r_heap rs) /\ Forall2 out vs outs /\
    HMAP_NODES_IN_STRUCT_TRAVERSE (R := R) hm body s e = Some (inr (emit s (concat outs)), e).
Proof.
  intros (m & cs & Rm & Rp & L) E0 E1 HI Hm Hb. destruct (objs_enumerate rs m cs Rp L) as [En Ln].
  destruct (traverse_invariant (Res := R) hm body
    (fun done s' e' => e' = e /\ exists outs, Forall2 out (objs rs done) outs /\ s' = emit s (concat outs)) (fun _ _ => False) cs) with (s := s) (e := e)
    as [(s' & e' & E & -> & outs & F & ->)|(r & e' & _ & [])].
  - intros done s' e' (_ & outs & _ & ->). exists (r_heap rs), m. split; [|exact Rp]. rewrite Hm by apply HI. unfold res_hm. now rewrite Rm.
  - intros done p rest s' e' Ec (-> & outs & F & ->). left.
    destruct (rep_in _ _ _ p Rp) as [c Hc]; [rewrite Ec; apply elem_of_app; right; constructor|].
    assert (res_load p rs = Some (c_obj c)) as Hl by (unfold res_load; now rewrite Hc).
    destruct (Hb p (c_obj c) (emit s (concat outs)) Hl (HI _)) as (o & Ho & E).
    eexists _, e. split; [exact E|]. split; [done|]. exists (outs ++ [o]). rewrite (objs_snoc rs done p (c_obj c) Hl). split.
    + apply Forall2_app; [exact F|now constructor].
    + rewrite E1, concat_app. cbn. now rewrite app_nil_r.
  - split; [done|]. exists []. split; [constructor|]. symmetry. exact E0.
  - exists (objs rs (concat cs)), outs. auto.
Qed.
