(* ===== verification/Text.v ===== *)
(** * Text: what the program uses of C's strings and streams

    A C string is the list of its characters without the terminator; a stream is
    the list of the characters still to come.  What the C standard leaves
    undefined, a conversion out of range or a word longer than its buffer, is
    [None].  [words] is the reference for the scanner: the maximal runs of
    characters that are not spaces. *)

From S2P Require Import Prelude.
From Stdlib Require String Ascii.

Implicit Types (c : Z) (s t w : list Z).

(** A string literal of the code. *)
Definition lit (s : String.string) : list Z := map (fun a => Z.of_nat (Ascii.nat_of_ascii a)) (String.list_ascii_of_string s).

(** ** Characters *)

Definition isspace c : bool := (c =? 32) || ((9 <=? c) && (c <=? 13)).
Definition isdigit c : bool := (48 <=? c) && (c <=? 57).
Definition hexvalue c : option Z :=
  if isdigit c then Some (c - 48)
  else if (65 <=? c) && (c <=? 70) then Some (c - 55)
  else if (97 <=? c) && (c <=? 102) then Some (c - 87)
  else None.

(** The characters before the first that satisfies [f], and those from it on. *)
Fixpoint until (f : Z -> bool) s : list Z :=
  match s with [] => [] | c :: s' => if f c then [] else c :: until f s' end.
Fixpoint from (f : Z -> bool) s : list Z :=
  match s with [] => [] | c :: s' => if f c then s else from f s' end.

(** What a buffer holds as a string once a terminator follows [s]. *)
Definition string_of s : list Z := until (fun c => c =? 0) s.

(** ** Numbers *)

Definition in_base (base : Z) (v : list Z) : Z := fold_left (fun n d => base * n + d) v 0.

Definition sign s : bool * list Z :=
  match s with
  | c :: s' => if c =? 45 then (true, s') else if c =? 43 then (false, s') else (false, s)
  | [] => (false, s)
  end.

(** A value no [int] holds is undefined. *)
Definition atoi s : option Z :=
  let '(neg, s) := sign (from (fun c => negb (isspace c)) s) in
  let v := in_base 10 ((fun c => c - 48) <$> until (fun c => negb (isdigit c)) s) in
  let v := if neg : bool then - v else v in
  if (-2147483648 <=? v) && (v <=? 2147483647) then Some v else None.

Fixpoint hex_digits s : list Z :=
  match s with
  | [] => []
  | c :: s => match hexvalue c with Some d => d :: hex_digits s | None => [] end
  end.
(** The prefix [0x], or [0X], before a digit. *)
Definition skip_0x s : list Z :=
  match s with
  | z :: x :: d :: s' => if (z =? 48) && ((x =? 120) || (x =? 88)) && bool_decide (is_Some (hexvalue d)) then d :: s' else s
  | _ => s
  end.
(** [strtoul(s, NULL, 16)]: out of range gives [ULONG_MAX]. *)
Definition strtoul16 s : Z :=
  let '(neg, s) := sign (from (fun c => negb (isspace c)) s) in
  let v := in_base 16 (hex_digits (skip_0x s)) in
  if 18446744073709551615 <? v then 18446744073709551615 else if neg : bool then u64 (- v) else v.

(** The digits of [%u] and of [%.8x]; an unsigned int has at most ten. *)
Fixpoint digits_in (base : Z) (fuel : nat) (n : Z) (acc : list Z) : list Z :=
  match fuel with
  | O => acc
  | S fuel => if n <? base then n :: acc else digits_in base fuel (n / base) (n mod base :: acc)
  end.
Definition dec (n : Z) : list Z := (fun d => 48 + d) <$> digits_in 10 10 n [].
Definition hexdigit (d : Z) : Z := if d <? 10 then 48 + d else 87 + d.
Definition hex8 (n : Z) : list Z :=
  (fun k => hexdigit (Z.shiftr n (4 * k) mod 16)) <$> [7; 6; 5; 4; 3; 2; 1; 0].

(** ** Streams *)

(** [fscanf(fp, "%s", buf)] with a buffer of [size] characters: the word read, if
    any, and the rest of the stream. *)
Definition fscanf_s (size : Z) s : option (option (list Z) * list Z) :=
  let t := from (fun c => negb (isspace c)) s in
  match t with
  | [] => Some (None, [])
  | _ => let w := until isspace t in
         if blen w <? size then Some (Some (string_of w), from isspace t) else None
  end.

(** [fgets(buf, size, fp)]: at most [size - 1] characters, up to the end of the line. *)
Fixpoint fgets_line (n : nat) s : list Z * list Z :=
  match n, s with
  | S n, c :: s => if c =? 10 then ([c], s) else let '(l, s) := fgets_line n s in (c :: l, s)
  | _, _ => ([], s)
  end.
Definition fgets (size : Z) s : option (list Z * list Z) :=
  match s with [] => None | _ => Some (fgets_line (Z.to_nat (size - 1)) s) end.

(** ** [strtok] *)

(** One call that continues at [s]: the token, and where the next call goes on. *)
Definition strtok_at (sep : Z) s : option (list Z) * list Z :=
  let t := from (fun c => negb (c =? sep)) s in
  match t with
  | [] => (None, [])
  | _ => (Some (until (fun c => c =? sep) t), drop 1 (from (fun c => c =? sep) t))
  end.

(** [count] calls of [strtok]. *)
Fixpoint strtok_times (count : nat) (sep : Z) s : list (option (list Z)) * list Z :=
  match count with
  | O => ([], s)
  | S count => let '(a, s) := strtok_at sep s in let '(l, s) := strtok_times count sep s in (a :: l, s)
  end.

(** [pofbf_split_str] (common/pof_basefunc.c) for a positive [count]: the tokens,
    and where [strtok] stopped.  [saved] is where the last [strtok] of the
    program had stopped: a NULL source goes on from there, and is undefined when
    there is no such place. *)
Definition pofbf_split_str (src : option (list Z)) (sep : Z) (count : nat) (saved : option (list Z))
  : option (list (option (list Z)) * list Z) :=
  s ← match src with Some s => Some s | None => saved end;
  Some (strtok_times count sep s).

(** How the source reads afterwards: the separator after its first token has
    become a terminator. *)
Definition split_source (sep : Z) s : list Z :=
  until (fun c => negb (c =? sep)) s ++ until (fun c => c =? sep) (from (fun c => negb (c =? sep)) s).

(** ** The reference scanner *)

(** The words of a text; [w] is the one being read, reversed. *)
Fixpoint words_from w s : list (list Z) :=
  match s with
  | [] => match w with [] => [] | _ => [rev w] end
  | c :: s => if isspace c then match w with [] => words_from [] s | _ => rev w :: words_from [] s end
              else words_from (c :: w) s
  end.
Definition words s : list (list Z) := words_from [] s.

(** ** Lemmas *)

Lemma until_from (f : Z -> bool) s : until f s ++ from f s = s.
Proof. induction s as [|c s IH]; [done|]. cbn. destruct (f c); [done|]. cbn. now rewrite IH. Qed.

Lemma until_none (f : Z -> bool) s : Forall (fun c => f c = false) s -> until f s = s /\ from f s = [].
Proof. induction 1 as [|c s H _ [IH1 IH2]]; [done|]. cbn. rewrite H, IH1, IH2. done. Qed.

Lemma until_clear (f : Z -> bool) s : Forall (fun c => f c = false) (until f s).
Proof. induction s as [|c s IH]; cbn; [constructor|]. destruct (f c) eqn:E; [constructor|]. now constructor. Qed.

Lemma until_stop (f : Z -> bool) s c t : Forall (fun c => f c = false) s -> f c = true ->
  until f (s ++ c :: t) = s /\ from f (s ++ c :: t) = c :: t.
Proof. intros H Hc. induction H as [|d s Hd _ [IH1 IH2]]; cbn; [now rewrite Hc|]. rewrite Hd, IH1, IH2. done. Qed.

Lemma from_head (f : Z -> bool) s c t : from f s = c :: t -> f c = true.
Proof. induction s as [|d s IH]; cbn; [done|]. destruct (f d) eqn:E; [now intros [= <- _]|exact IH]. Qed.

Lemma words_from_word w s : w <> [] ->
  words_from w s = (rev w ++ until isspace s) :: words (from isspace s).
Proof.
  revert w. induction s as [|c s IH]; intros w Hw; cbn [words_from until from].
  - rewrite app_nil_r. destruct w; [done|]. reflexivity.
  - destruct (isspace c) eqn:E.
    + rewrite app_nil_r. unfold words. cbn [words_from]. rewrite E. destruct w; [done|]. reflexivity.
    + rewrite IH by done. cbn [rev]. rewrite <- app_assoc. reflexivity.
Qed.

Lemma words_skip s : words s = words (from (fun c => negb (isspace c)) s).
Proof.
  induction s as [|c s IH]; [done|]. cbn [from]. destruct (isspace c) eqn:E; cbn [negb]; [|done].
  rewrite <- IH. unfold words. cbn [words_from]. now rewrite E.
Qed.

(** [fscanf] takes the words of the text one by one. *)
Lemma fscanf_words size s :
  match words s with
  | [] => fscanf_s size s = Some (None, [])
  | w :: ws => if blen w <? size then exists s', fscanf_s size s = Some (Some (string_of w), s') /\ words s' = ws /\
                                                 (length s' < length s)%nat
               else fscanf_s size s = None
  end.
Proof.
  rewrite words_skip. unfold fscanf_s. assert (length (from (fun c => negb (isspace c)) s) <= length s)%nat as Hl.
  { rewrite <- (until_from (fun c => negb (isspace c)) s) at 2. rewrite length_app. lia. }
  destruct (from (fun c => negb (isspace c)) s) as [|c t] eqn:Et; [done|].
  pose proof (from_head _ _ _ _ Et) as Hc. cbn in Hc. apply negb_true_iff in Hc.
  assert (words (c :: t) = until isspace (c :: t) :: words (from isspace (c :: t))) as ->.
  { unfold words at 1. cbn [words_from until from]. rewrite Hc. rewrite words_from_word by done. reflexivity. }
  destruct (blen (until isspace (c :: t)) <? size); [|done]. eexists. split; [reflexivity|]. split; [done|].
  pose proof (until_from isspace (c :: t)) as H. rewrite <- H, length_app in Hl. cbn [until] in Hl. rewrite Hc in Hl. cbn [length] in Hl. lia.
Qed.

(** *** Numbers read back *)

Lemma in_base_app base a b : in_base base (a ++ b) = fold_left (fun n d => base * n + d) b (in_base base a).
Proof. unfold in_base. apply fold_left_app. Qed.

Lemma digits_in_value base : 1 < base -> forall fuel n acc, 0 <= n < base ^ Z.of_nat fuel ->
  in_base base (digits_in base fuel n acc) = fold_left (fun n d => base * n + d) acc n.
Proof.
  intros Hb. induction fuel as [|fuel IH]; intros n acc Hn; cbn [digits_in].
  - cbn in Hn. assert (n = 0) as -> by lia. reflexivity.
  - zcases.
    + unfold in_base. cbn [fold_left]. now rewrite Z.mul_0_r.
    + rewrite IH.
      * cbn [fold_left]. f_equal. rewrite <- Z.div_mod by lia. reflexivity.
      * split; [apply Z.div_pos; lia|]. apply Z.div_lt_upper_bound; [lia|].
        rewrite Nat2Z.inj_succ, Z.pow_succ_r in Hn by lia. lia.
Qed.

Lemma digits_in_range base : 1 < base -> forall fuel n acc, 0 <= n -> Forall (fun d => 0 <= d < base) acc ->
  Forall (fun d => 0 <= d < base) (digits_in base fuel n acc).
Proof.
  intros Hb. induction fuel as [|fuel IH]; intros n acc Hn Ha; cbn [digits_in]; [done|]. zcases.
  - constructor; [lia|done].
  - apply IH; [apply Z.div_pos; lia|]. constructor; [apply Z.mod_pos_bound; lia|done].
Qed.

Lemma digits_in_nonempty base fuel : forall n acc, acc <> [] \/ fuel <> O -> digits_in base fuel n acc <> [].
Proof.
  induction fuel as [|fuel IH]; intros n acc H; cbn [digits_in]; [destruct H; done|]. destruct (n <? base); [done|]. apply IH. now left.
Qed.

Lemma isdigit_of d : 0 <= d < 10 -> isdigit (48 + d) = true /\ isspace (48 + d) = false.
Proof. intros. unfold isdigit, isspace. split; zcases. Qed.

Lemma dec_digits n : 0 <= n -> Forall (fun c => isdigit c = true /\ isspace c = false /\ c <> 0) (dec n).
Proof.
  intros Hn. unfold dec. apply Forall_fmap. eapply Forall_impl; [apply (digits_in_range 10); [lia|exact Hn|constructor]|].
  intros d Hd. pose proof Hd as Hd2. destruct (isdigit_of d Hd). split; [done|]. split; [done|]. cbn in Hd |- *. lia.
Qed.

Lemma dec_nonempty n : dec n <> [].
Proof.
  unfold dec. destruct (digits_in 10 10 n []) eqn:E; [|done]. exfalso.
  apply (digits_in_nonempty 10 10 n []); [now right|exact E].
Qed.

(** What [%u] prints, [atoi] reads. *)
Lemma atoi_dec n : 0 <= n <= 2147483647 -> atoi (dec n) = Some n.
Proof.
  intros Hn. pose proof (dec_digits n ltac:(lia)) as Hd. pose proof (dec_nonempty n) as Hne. unfold atoi.
  assert (from (fun c => negb (isspace c)) (dec n) = dec n) as ->.
  { destruct (dec n) as [|c s]; [done|]. apply Forall_cons in Hd as [(_ & Hs & _) _]. cbn. now rewrite Hs. }
  assert (sign (dec n) = (false, dec n)) as ->.
  { destruct (dec n) as [|c s]; [done|]. apply Forall_cons in Hd as [(Hc & _) _]. unfold isdigit in Hc. unfold sign. zcases; reflexivity. }
  destruct (until_none (fun c => negb (isdigit c)) (dec n)) as [-> _].
  { eapply Forall_impl; [exact Hd|]. intros c (-> & _). reflexivity. }
  assert ((fun c => c - 48) <$> dec n = digits_in 10 10 n []) as ->.
  { unfold dec. rewrite <- list_fmap_compose. rewrite <- (list_fmap_id (digits_in 10 10 n [])) at 2.
    apply list_fmap_ext. intros i d _. cbn. lia. }
  rewrite digits_in_value by (cbn; lia). cbn [fold_left]. zcases. reflexivity.
Qed.
