(* ===== verification/Config.v ===== *)
(** * The configuration (switch_control/pof_config.c, pof_switch.c)

    What the configuration file and the options of the command line set before
    the slots are made.  A file is the stream of its characters; the options are
    what [getopt_long] returns one after the other.  An option may end the
    program ([exit(0)]): that is the [Exit] of [run]. *)

From S2P Require Import Prelude Codec Env Hmap IdMap DList LocalRes FlowTable Parse PortMgr Boot Text.
From Stdlib Require String.
Import String.StringSyntax.
#[local] Open Scope string_scope.

(** ** State *)

Definition POF_STRING_PAIR_MAX_LEN : Z := 64.
Definition POF_STRING_MAX_LEN : Z := 100.
Definition POFSwitch_VERSION_STR : list Z := lit "POFSwitch-1.4.0".
Definition POFSWITCH_VERSION_SUB : list Z := lit "015".

(** The pairs of [struct pof_state], by their members. *)
Inductive state_item :=
| ST_devID | ST_version | ST_os_bit | ST_byte_order | ST_debug_on | ST_debug_color_on | ST_debug_print_echo_on | ST_error_print_on
| ST_config_file | ST_perform_after_ctrl_disconn | ST_nomatch | ST_promisc_on | ST_ctrl_ip | ST_conn_port | ST_autoclear_after_disconn
| ST_log_file | ST_verbosity | ST_port_mode | ST_slotNum | ST_listenPort | ST_sd2n | ST_sd2n_after1015 | ST_multiSlot | ST_sht_vxlan.

#[export] Instance state_item_eq_dec : EqDecision state_item.
Proof. solve_decision. Defined.

(** [struct pof_state]: the [cont] of each pair; its [item] never changes. *)
Definition pof_state := state_item -> list Z.

Definition cont_of (s : String.string) : list Z := strncpy (lit s) (Z.to_nat POF_STRING_PAIR_MAX_LEN).

(** [g_states] as the program starts. *)
Definition initial_states : pof_state := fun i => cont_of
  match i with
  | ST_devID | ST_version => ""
  | ST_os_bit => "64" | ST_byte_order => "LITTLE ENDIAN"
  | ST_debug_on | ST_debug_color_on | ST_debug_print_echo_on => "OFF" | ST_error_print_on => "ON"
  | ST_config_file => "NONE" | ST_perform_after_ctrl_disconn => "RE CONNECT" | ST_nomatch => "PACKET IN"
  | ST_promisc_on => "OFF" | ST_ctrl_ip => "192.168.1.1" | ST_conn_port => "6633" | ST_autoclear_after_disconn => "ON"
  | ST_log_file => "OFF" | ST_verbosity => "ERROR" | ST_port_mode => "SYSTEM" | ST_slotNum => "1" | ST_listenPort => "6634"
  | ST_sd2n | ST_sd2n_after1015 | ST_multiSlot => "ON" | ST_sht_vxlan => "OFF"
  end.

Definition set_pair (i : state_item) (cont : list Z) (st : pof_state) : pof_state :=
  fun j => if decide (j = i) then cont else st j.

(** [struct log_util], less its lock and its counter. *)
Record log_util := mkLog { log_fp : option (list Z); colorEnable : bool; dbgEnable : bool; cmdEnable : bool; errEnable : bool }.

(** [dp->filter]. *)
Inductive packet_filter := no_promisc | promisc.

(** The part of [struct pof_datapath], the globals and the list of port names
    the configuration sets. *)
Record config := mkConfig {
  dp_param : pof_param;
  dp_slotNum : Z;
  dp_listenPort : Z;
  dp_filter : packet_filter;
  pofsc_controller_ip_addr : list Z (* 20 *);
  pofsc_controller_port : Z;
  cf_key_len : Z (* [poflr_key_len] *);
  pofc_cmd_auto_clear : bool;
  cf_version : list Z (* [g_versionStr], 99 *);
  g_log : log_util;
  g_states : pof_state;
  cf_strtok : option (list Z) (* where the last [strtok] stopped *);
  cf_names : dlist portName (* [portNameList] *);
  cf_time : nat (* system calls made *)
}.
Implicit Types (cf : config).

Definition set_param x cf := mkConfig x (dp_slotNum cf) (dp_listenPort cf) (dp_filter cf) (pofsc_controller_ip_addr cf)
  (pofsc_controller_port cf) (cf_key_len cf) (pofc_cmd_auto_clear cf) (cf_version cf) (g_log cf) (g_states cf) (cf_strtok cf)
  (cf_names cf) (cf_time cf).
Definition set_slotNum x cf := mkConfig (dp_param cf) x (dp_listenPort cf) (dp_filter cf) (pofsc_controller_ip_addr cf)
  (pofsc_controller_port cf) (cf_key_len cf) (pofc_cmd_auto_clear cf) (cf_version cf) (g_log cf) (g_states cf) (cf_strtok cf)
  (cf_names cf) (cf_time cf).
Definition set_listenPort x cf := mkConfig (dp_param cf) (dp_slotNum cf) x (dp_filter cf) (pofsc_controller_ip_addr cf)
  (pofsc_controller_port cf) (cf_key_len cf) (pofc_cmd_auto_clear cf) (cf_version cf) (g_log cf) (g_states cf) (cf_strtok cf)
  (cf_names cf) (cf_time cf).
Definition set_filter x cf := mkConfig (dp_param cf) (dp_slotNum cf) (dp_listenPort cf) x (pofsc_controller_ip_addr cf)
  (pofsc_controller_port cf) (cf_key_len cf) (pofc_cmd_auto_clear cf) (cf_version cf) (g_log cf) (g_states cf) (cf_strtok cf)
  (cf_names cf) (cf_time cf).
Definition set_ip x cf := mkConfig (dp_param cf) (dp_slotNum cf) (dp_listenPort cf) (dp_filter cf) x (pofsc_controller_port
  cf) (cf_key_len cf) (pofc_cmd_auto_clear cf) (cf_version cf) (g_log cf) (g_states cf) (cf_strtok cf) (cf_names cf) (cf_time
  cf).
Definition set_port x cf := mkConfig (dp_param cf) (dp_slotNum cf) (dp_listenPort cf) (dp_filter cf)
  (pofsc_controller_ip_addr cf) x (cf_key_len cf) (pofc_cmd_auto_clear cf) (cf_version cf) (g_log cf) (g_states cf)
  (cf_strtok cf) (cf_names cf) (cf_time cf).
Definition set_key_len x cf := mkConfig (dp_param cf) (dp_slotNum cf) (dp_listenPort cf) (dp_filter cf)
  (pofsc_controller_ip_addr cf) (pofsc_controller_port cf) x (pofc_cmd_auto_clear cf) (cf_version cf) (g_log cf) (g_states
  cf) (cf_strtok cf) (cf_names cf) (cf_time cf).
Definition set_auto_clear x cf := mkConfig (dp_param cf) (dp_slotNum cf) (dp_listenPort cf) (dp_filter cf)
  (pofsc_controller_ip_addr cf) (pofsc_controller_port cf) (cf_key_len cf) x (cf_version cf) (g_log cf) (g_states cf)
  (cf_strtok cf) (cf_names cf) (cf_time cf).
Definition set_version x cf := mkConfig (dp_param cf) (dp_slotNum cf) (dp_listenPort cf) (dp_filter cf)
  (pofsc_controller_ip_addr cf) (pofsc_controller_port cf) (cf_key_len cf) (pofc_cmd_auto_clear cf) x (g_log cf) (g_states
  cf) (cf_strtok cf) (cf_names cf) (cf_time cf).
Definition set_log x cf := mkConfig (dp_param cf) (dp_slotNum cf) (dp_listenPort cf) (dp_filter cf) (pofsc_controller_ip_addr
  cf) (pofsc_controller_port cf) (cf_key_len cf) (pofc_cmd_auto_clear cf) (cf_version cf) x (g_states cf) (cf_strtok cf)
  (cf_names cf) (cf_time cf).
Definition set_states x cf := mkConfig (dp_param cf) (dp_slotNum cf) (dp_listenPort cf) (dp_filter cf)
  (pofsc_controller_ip_addr cf) (pofsc_controller_port cf) (cf_key_len cf) (pofc_cmd_auto_clear cf) (cf_version cf) (g_log
  cf) x (cf_strtok cf) (cf_names cf) (cf_time cf).
Definition set_strtok x cf := mkConfig (dp_param cf) (dp_slotNum cf) (dp_listenPort cf) (dp_filter cf)
  (pofsc_controller_ip_addr cf) (pofsc_controller_port cf) (cf_key_len cf) (pofc_cmd_auto_clear cf) (cf_version cf) (g_log
  cf) (g_states cf) x (cf_names cf) (cf_time cf).
Definition set_names l t cf := mkConfig (dp_param cf) (dp_slotNum cf) (dp_listenPort cf) (dp_filter cf)
  (pofsc_controller_ip_addr cf) (pofsc_controller_port cf) (cf_key_len cf) (pofc_cmd_auto_clear cf) (cf_version cf) (g_log
  cf) (g_states cf) (cf_strtok cf) l t.

(** [strncpy(g_states.i.cont, s, n)] and [sprintf(g_states.i.cont, ...)]. *)
Definition state_strncpy i s n cf := set_states (set_pair i (strncpy s n ++ drop n (g_states cf i)) (g_states cf)) cf.
Definition state_copy i s cf := state_strncpy i s (Z.to_nat (POF_STRING_PAIR_MAX_LEN - 1)) cf.
Definition state_sprintf i s cf : option config := c ← strcpy (g_states cf i) s; Some (set_states (set_pair i c (g_states cf)) cf).

(** The values the program starts with. *)
Definition initial_param : pof_param := mkParam 100 0 [10; 10; 5; 20] 8000 128 256 512.
Definition initial_config : config :=
  mkConfig initial_param 1 6634 no_promisc (strncpy (lit "192.168.1.1") (Z.to_nat POF_IP_ADDRESS_STRING_LEN)) 6633 160 true
    (zeros (Z.to_nat (POF_STRING_MAX_LEN - 1))) (mkLog None false false true true) initial_states None (DList LNil LNil 0 ∅) 0.

Definition set_tableNumMax (type : nat) n (p : pof_param) := mkParam (pa_portNumMax p) (pa_portFlag p) (<[type := n]> (pa_tableNumMaxEachType p))
  (pa_tableSizeMax p) (pa_groupNumMax p) (pa_meterNumMax p) (pa_counterNumMax p).
Definition set_tableSizeMax n (p : pof_param) := mkParam (pa_portNumMax p) (pa_portFlag p) (pa_tableNumMaxEachType p)
  n (pa_groupNumMax p) (pa_meterNumMax p) (pa_counterNumMax p).
Definition set_groupNumMax n (p : pof_param) := mkParam (pa_portNumMax p) (pa_portFlag p) (pa_tableNumMaxEachType p)
  (pa_tableSizeMax p) n (pa_meterNumMax p) (pa_counterNumMax p).
Definition set_meterNumMax n (p : pof_param) := mkParam (pa_portNumMax p) (pa_portFlag p) (pa_tableNumMaxEachType p)
  (pa_tableSizeMax p) (pa_groupNumMax p) n (pa_counterNumMax p).
Definition set_counterNumMax n (p : pof_param) := mkParam (pa_portNumMax p) (pa_portFlag p) (pa_tableNumMaxEachType p)
  (pa_tableSizeMax p) (pa_groupNumMax p) (pa_meterNumMax p) n.
Definition set_portNumMax n (p : pof_param) := mkParam n (pa_portFlag p) (pa_tableNumMaxEachType p)
  (pa_tableSizeMax p) (pa_groupNumMax p) (pa_meterNumMax p) (pa_counterNumMax p).
Definition set_custom (p : pof_param) := mkParam (pa_portNumMax p) (Z.lor (pa_portFlag p) POFLRPF_FROM_CUSTOM) (pa_tableNumMaxEachType p)
  (pa_tableSizeMax p) (pa_groupNumMax p) (pa_meterNumMax p) (pa_counterNumMax p).

(** ** Setters of the other modules *)

(** pof_switch.c. *)
Definition pofsc_set_controller_ip (ip_str : list Z) cf : config :=
  let n := Z.to_nat POF_IP_ADDRESS_STRING_LEN in
  state_strncpy ST_ctrl_ip ip_str n (set_ip (strncpy ip_str n) cf).
Definition pofsc_set_controller_port (port : Z) cf : option config :=
  let port := u16 port in state_sprintf ST_conn_port (dec port) (set_port port cf).

Definition set_devID (x : Z) (e : env) : env :=
  mkEnv (g_recv_xid e) (g_upward_xid e) (g_pofec_error e) x (conn_state e)
    (queue_msg_buf e) (send_q_valid e) (send_q e) (q_residue e) (mallocs e) (msgsnds e).

(** A computation that may end the program. *)
Inductive run (A : Type) := Exit | Next (a : A).
Arguments Exit {A}.
Arguments Next {A} _.

(** ** The configuration file *)

Definition config_type_str : list (list Z) :=
  [lit "Controller_IP"; lit "Connection_port";
   lit "MM_table_number"; lit "LPM_table_number"; lit "EM_table_number"; lit "DT_table_number";
   lit "Flow_table_size"; lit "Flow_table_key_length";
   lit "Meter_number"; lit "Counter_number"; lit "Group_number";
   lit "Device_port_number_max"].

Definition POFICT_CONTROLLER_IP : Z := 0.
Definition POFICT_CONNECTION_PORT : Z := 1.
Definition POFICT_MM_TABLE_NUMBER : Z := 2.
Definition POFICT_LPM_TABLE_NUMBER : Z := 3.
Definition POFICT_EM_TABLE_NUMBER : Z := 4.
Definition POFICT_DT_TABLE_NUMBER : Z := 5.
Definition POFICT_FLOW_TABLE_SIZE : Z := 6.
Definition POFICT_FLOW_TABLE_KEY_LENGTH : Z := 7.
Definition POFICT_METER_NUMBER : Z := 8.
Definition POFICT_COUNTER_NUMBER : Z := 9.
Definition POFICT_GROUP_NUMBER : Z := 10.
Definition POFICT_DEVICE_PORT_NUMBER_MAX : Z := 11.

(** The loop over [config_type_str]. *)
Fixpoint config_type_from (i : Z) (strs : list (list Z)) (str : list Z) : Z :=
  match strs with
  | [] => 0xff
  | s :: strs => if bool_decide (str = s) then i else config_type_from (i + 1) strs str
  end.
Definition pofsic_get_config_type (str : list Z) : Z := config_type_from 0 config_type_str str.

(** The value, the stream, and whether [*ret_p] was set to [POF_ERROR]. *)
Definition pofsic_get_config_data (fp : list Z) : option (Z * bool * list Z) :=
  '(w, fp) ← fscanf_s POF_STRING_MAX_LEN fp;
  match w with
  | None => Some (POF_ERROR, true, fp)
  | Some str => v ← atoi str; Some (u32 v, false, fp)
  end.

(** The [switch] of [readConfigFile]: [None] in its [default]. *)
Definition store_config_data (config_type data : Z) cf : option (option config) :=
  let param f := Some (Some (set_param (f (dp_param cf)) cf)) in
  if config_type =? POFICT_CONNECTION_PORT then cf ← pofsc_set_controller_port data cf; Some (Some cf)
  else if config_type =? POFICT_MM_TABLE_NUMBER then param (set_tableNumMax (Z.to_nat POF_MM_TABLE) (u16 data))
  else if config_type =? POFICT_LPM_TABLE_NUMBER then param (set_tableNumMax (Z.to_nat POF_LPM_TABLE) (u16 data))
  else if config_type =? POFICT_EM_TABLE_NUMBER then param (set_tableNumMax (Z.to_nat POF_EM_TABLE) (u16 data))
  else if config_type =? POFICT_DT_TABLE_NUMBER then param (set_tableNumMax (Z.to_nat POF_LINEAR_TABLE) (u16 data))
  else if config_type =? POFICT_FLOW_TABLE_SIZE then param (set_tableSizeMax data)
  else if config_type =? POFICT_FLOW_TABLE_KEY_LENGTH then Some (Some (set_key_len (poflr_set_key_len data) cf))
  else if config_type =? POFICT_METER_NUMBER then param (set_meterNumMax data)
  else if config_type =? POFICT_COUNTER_NUMBER then param (set_counterNumMax data)
  else if config_type =? POFICT_GROUP_NUMBER then param (set_groupNumMax data)
  else if config_type =? POFICT_DEVICE_PORT_NUMBER_MAX then param (set_portNumMax (u16 data))
  else Some None.

(** One round of the loop after the word [str]: the code and the state. *)
Definition config_line (str fp : list Z) cf : option (Z * config * list Z) :=
  let config_type := pofsic_get_config_type str in
  if config_type =? POFICT_CONTROLLER_IP then
    '(w, fp) ← fscanf_s POF_STRING_MAX_LEN fp;
    match w with
    | None => Some (POF_ERROR, cf, fp)
    | Some ip_str => Some (POF_OK, pofsc_set_controller_ip ip_str cf, fp)
    end
  else
    '(data, failed, fp) ← pofsic_get_config_data fp;
    stored ← store_config_data config_type data cf;
    match stored with
    | None => Some (POF_ERROR, cf, fp)
    | Some cf => Some (if failed : bool then POF_ERROR else POF_OK, cf, fp)
    end.

(** Every round takes at least one character of the stream. *)
Fixpoint read_lines (fuel : nat) (fp : list Z) cf : option (Z * config) :=
  match fuel with
  | O => None
  | S fuel =>
      '(w, fp) ← fscanf_s POF_STRING_MAX_LEN fp;
      match w with
      | None => Some (POF_OK, cf)
      | Some str =>
          '(ret, cf, fp) ← config_line str fp cf;
          if negb (ret =? POF_OK) then Some (ret, cf) else read_lines fuel fp cf
      end
  end.
Definition readConfigFile (fp : list Z) cf : option (Z * config) := read_lines (S (length fp)) fp cf.

Section files.
(** The files that can be read, and the effective user. *)
Context (system : nat -> sys) (files : list Z -> option (list Z)) (writable : list Z -> bool) (euid : Z).

Definition pofsc_check_root : Z := if euid =? 0 then POF_OK else POF_ERROR.

Definition filename_relative : list Z := lit "./pofswitch_config.conf".
Definition filename_absolute : list Z := lit "/etc/pofswitch/pofswitch_config.conf".

Definition pof_set_init_config_by_file cf : option (Z * config) :=
  let read name fp :=
    let cf := state_copy ST_config_file name cf in
    '(_, cf) ← readConfigFile fp cf; Some (POF_OK, cf) in
  match files filename_relative with
  | Some fp => read filename_relative fp
  | None =>
      match files filename_absolute with
      | Some fp => read filename_absolute fp
      | None => Some (POF_ERROR, cf)
      end
  end.

(** ** The options *)

(** What [start_cmd_*] are given: an option without a value has [NULL]. *)
Implicit Types (optarg : option (list Z)).

Definition start_cmd_slot_num optarg cf : St (run (Z * config)) :=
  arg ← lift optarg;
  n ← lift (atoi arg);
  let slotNum := u16 n in
  cf ← lift (state_sprintf ST_slotNum (dec slotNum) (set_slotNum slotNum cf));
  mret (Next (POF_OK, cf)).

Definition start_cmd_listen_port optarg cf : St (run (Z * config)) :=
  match optarg with
  | None => mret (Next (POF_ERROR, cf))
  | Some arg =>
      n ← lift (atoi arg);
      let port := u16 n in
      cf ← lift (state_sprintf ST_listenPort (dec port) (set_listenPort port cf));
      mret (Next (POF_OK, cf))
  end.

Definition start_cmd_device_id optarg cf : St (run (Z * config)) :=
  arg ← lift optarg;
  let devID := u32 (strtoul16 arg) in
  _ ← mod_env (set_devID devID);
  cf ← lift (state_sprintf ST_devID (lit "0x" ++ hex8 devID) cf);
  mret (Next (POF_OK, cf)).

(** The list of names, as pof_port.c sees it before any slot exists. *)
Definition names_of cf : pmst := mkPm res_zero 0 (cf_names cf) (cf_time cf).
Definition custom_mode cf : config := state_copy ST_port_mode (lit "CUSTOM") (set_param (set_custom (dp_param cf)) cf).

(** [slot < POF_SLOT_ID_BASE] is never true of an unsigned number; the other
    bound is computed in 32 bits. *)
Definition slot_refused (slot : Z) cf : bool := u32 (POF_SLOT_ID_BASE + dp_slotNum cf - 1) <? slot.

Definition start_cmd_add_port optarg cf : St (run (Z * config)) :=
  let cf := custom_mode cf in
  '(args, saved) ← lift (pofbf_split_str optarg 44 2 (cf_strtok cf));
  let cf := set_strtok (Some saved) cf in
  let arg i := default None (args !! i) in
  n ← match arg 1%nat with Some a => lift (atoi a) | None => mret POF_SLOT_ID_BASE end;
  let slot := u16 n in
  if slot_refused slot cf then
    r ← POF_ERROR_HANDLE_RETURN_NO_UPWARD POFET_SOFTWARE_FAILED POF_INVALID_SLOT_ID; mret (Next (r, cf))
  else
    name ← lift (arg 0%nat);
    '(r, s) ← poflr_add_port_only_name system name slot (names_of cf);
    mret (Next (r, set_names (portNameList s) (pm_time s) cf)).

Definition start_cmd_empty optarg cf : St (run (Z * config)) := mret (Next (POF_OK, custom_mode cf)).

Definition start_cmd_promisc optarg cf : St (run (Z * config)) :=
  mret (Next (POF_OK, state_copy ST_promisc_on (lit "ON") (set_filter promisc cf))).

Definition set_enabled (dbg err cmd : bool) cf : config :=
  set_log (mkLog (log_fp (g_log cf)) (colorEnable (g_log cf)) dbg cmd err) cf.

Definition start_cmd_verbosity optarg cf : St (run (Z * config)) :=
  match optarg with
  | None => mret (Next (POF_ERROR, cf))
  | Some arg =>
      let mode on name cf := mret (Next (POF_OK, state_copy ST_verbosity (lit name) (state_copy ST_debug_on (lit on) cf))) in
      if bool_decide (arg = lit "debug") then mode "ON" "DEBUG" (set_enabled true true true cf)
      else if bool_decide (arg = lit "error") then mode "OFF" "ERROR" (set_enabled false true true cf)
      else if bool_decide (arg = lit "mute") then mode "OFF" "MUTE" (set_enabled false false false cf)
      else mret (Next (POF_ERROR, cf))
  end.

Definition start_cmd_ip_addr optarg cf : St (run (Z * config)) :=
  match optarg with
  | None => mret (Next (POF_ERROR, cf))
  | Some arg => mret (Next (POF_OK, pofsc_set_controller_ip arg cf))
  end.

Definition start_cmd_port optarg cf : St (run (Z * config)) :=
  match optarg with
  | None => mret (Next (POF_ERROR, cf))
  | Some arg =>
      n ← lift (atoi arg);
      cf ← lift (pofsc_set_controller_port n cf);
      mret (Next (POF_OK, cf))
  end.

(** The code of [readConfigFile] is not looked at. *)
Definition start_cmd_file optarg cf : St (run (Z * config)) :=
  match optarg with
  | None => mret (Next (POF_ERROR, cf))
  | Some arg =>
      match files arg with
      | None => mret Exit
      | Some fp =>
          '(_, cf) ← lift (readConfigFile fp cf);
          mret (Next (POF_OK, state_copy ST_config_file arg cf))
      end
  end.

Definition start_cmd_man_clear optarg cf : St (run (Z * config)) :=
  mret (Next (POF_OK, state_copy ST_autoclear_after_disconn (lit "OFF") (set_auto_clear false cf))).

(** pof_log_print.c: a file that cannot be opened ends the program. *)
Definition pof_open_log_file (filename : list Z) cf : run config :=
  if writable filename then
    Next (set_log (mkLog (Some filename) (colorEnable (g_log cf)) (dbgEnable (g_log cf)) (cmdEnable (g_log cf)) (errEnable (g_log cf))) cf)
  else Exit.

Definition start_cmd_log_file optarg cf : St (run (Z * config)) :=
  let filename := default (lit "/usr/local/var/log/pofswitch.log") optarg in
  if negb (pofsc_check_root =? POF_OK) then mret Exit
  else
    match pof_open_log_file filename cf with
    | Exit => mret Exit
    | Next cf => mret (Next (POF_OK, state_copy ST_log_file filename cf))
    end.

(** These print and end the program. *)
Definition start_cmd_state optarg cf : St (run (Z * config)) := mret Exit.
Definition start_cmd_test optarg cf : St (run (Z * config)) := mret Exit.
Definition start_cmd_help optarg cf : St (run (Z * config)) := mret Exit.
Definition start_cmd_version optarg cf : St (run (Z * config)) := mret Exit.

(** [CONFIG_CMDS]: the option, whether [getopt_long] takes a value after its
    letter, the long form (whose value is always optional), and the function. *)
Definition CONFIG_CMDS : list (String.string * bool * String.string * (option (list Z) -> config -> St (run (Z * config)))) :=
  [("i", true, "ip-addr", start_cmd_ip_addr); ("p", true, "port", start_cmd_port); ("a", true, "add-port", start_cmd_add_port);
   ("e", false, "empty", start_cmd_empty); ("f", true, "file", start_cmd_file); ("d", true, "device-id", start_cmd_device_id);
   ("l", true, "log-file", start_cmd_log_file); ("s", false, "state", start_cmd_state); ("P", false, "promisc", start_cmd_promisc);
   ("V", true, "verbosity", start_cmd_verbosity); ("L", true, "listen-port", start_cmd_listen_port); ("h", false, "help", start_cmd_help);
   ("v", false, "version", start_cmd_version); ("S", true, "slot-num", start_cmd_slot_num); ("m", false, "man-clear", start_cmd_man_clear);
   ("t", false, "test", start_cmd_test)].

(** The [switch] on an option: ['?'] ends the program, as a failed option does
    after the help; there is nothing else [getopt_long] returns. *)
Definition run_option (ch : list Z) optarg cf : St (run config) :=
  if bool_decide (ch = lit "?") then mret Exit
  else
    match find (fun x => bool_decide (lit x.1.1.1 = ch)) CONFIG_CMDS with
    | None => mret (Next cf)
    | Some (_, _, _, start_cmd) =>
        r ← start_cmd optarg cf;
        match r with
        | Exit => mret Exit
        | Next (ret, cf) => if negb (ret =? POF_OK) then mret Exit else mret (Next cf)
        end
    end.

(** [opts] is what [getopt_long] returns until it returns -1. *)
Fixpoint pof_set_init_config_by_command (opts : list (list Z * option (list Z))) cf : St (run (Z * config)) :=
  match opts with
  | [] => mret (Next (POF_OK, cf))
  | (ch, optarg) :: opts =>
      r ← run_option ch optarg cf;
      match r with Exit => mret Exit | Next cf => pof_set_init_config_by_command opts cf end
  end.

(** Each text is cut to the size given to [snprintf], which fits it. *)
Definition versionInit (version1 version2 : list Z) cf : option config :=
  let text := take (Z.to_nat (POF_STRING_PAIR_MAX_LEN - 2)) (version1 ++ lit "." ++ version2) in
  cf ← state_sprintf ST_version text cf;
  v ← strcpy (cf_version cf) text;
  Some (set_version v cf).

(** The codes of both parts are not looked at. *)
Definition pof_set_init_config (opts : list (list Z * option (list Z))) cf : St (run (Z * config)) :=
  cf ← lift (versionInit POFSwitch_VERSION_STR POFSWITCH_VERSION_SUB cf);
  '(_, cf) ← lift (pof_set_init_config_by_file cf);
  r ← pof_set_init_config_by_command opts cf;
  match r with Exit => mret Exit | Next (_, cf) => mret (Next (POF_OK, cf)) end.

Definition pof_auto_clear cf : bool := pofc_cmd_auto_clear cf.
End files.
