(* ===== verification/ConfigSpec.v ===== *)
(** * What the configuration sets

    A configuration file is read word by word: a file whose words are the print
    of a list of settings, laid out in any way, sets each parameter to its last
    value and nothing else, and reading stops at the first line that is none.
    Options that name ports give the list of names the slots are made from. *)

From S2P Require Import Prelude Codec Env Hmap IdMap DList Tree LocalRes ByteTransfer Port Counter Meter Group FlowEntry FlowTable FlowSpec FlowOps TableOps Slot Parse PortMgr PortSpec Boot BootSpec Text Config.
From Stdlib Require String.
Import String.StringSyntax.
#[local] Open Scope string_scope.

Implicit Types (cf : config) (fp w : list Z) (ws : list (list Z)).

(** ** A configuration the program can be in *)

(** The parameters have their widths. *)
Record param_ok (p : pof_param) : Prop := {
  pa_ports : 0 <= pa_portNumMax p < 65536;
  pa_tables : Forall (fun n => 0 <= n < 65536) (pa_tableNumMaxEachType p) /\ length (pa_tableNumMaxEachType p) = 4%nat;
  pa_size : 0 <= pa_tableSizeMax p < 4294967296;
  pa_groups : 0 <= pa_groupNumMax p < 4294967296;
  pa_meters : 0 <= pa_meterNumMax p < 4294967296;
  pa_counters : 0 <= pa_counterNumMax p < 4294967296
}.

(** The texts fit their arrays, and those of the port and of the version show
    what they are of. *)
Record config_ok cf : Prop := {
  ck_states : forall i, length (g_states cf i) = 64%nat;
  ck_param : param_ok (dp_param cf);
  ck_ip : length (pofsc_controller_ip_addr cf) = 20%nat;
  ck_version : length (cf_version cf) = 99%nat;
  ck_port : 0 <= pofsc_controller_port cf < 65536 /\ cstr (g_states cf ST_conn_port) = Some (dec (pofsc_controller_port cf));
  ck_slots : 0 <= dp_slotNum cf < 65536 /\ cstr (g_states cf ST_slotNum) = Some (dec (dp_slotNum cf));
  ck_listen : 0 <= dp_listenPort cf < 65536 /\ cstr (g_states cf ST_listenPort) = Some (dec (dp_listenPort cf))
}.

Lemma initial_config_ok : config_ok initial_config.
Proof. split; try done; [intros []; reflexivity|split; try (cbn; lia); split; [by_decide|done]|split; [cbn; lia|reflexivity]..]. Qed.

Lemma dec_text n : 0 <= n -> text (dec n).
Proof.
  intros Hn. eapply Forall_impl; [apply dec_digits, Hn|]. intros c (Hd & _ & _). unfold isdigit in Hd. cbn. zcases.
Qed.

Lemma digits_in_length base : forall fuel n acc, (length (digits_in base fuel n acc) <= length acc + fuel)%nat.
Proof.
  induction fuel as [|fuel IH]; intros n acc; cbn [digits_in]; [lia|]. destruct (n <? base); [cbn; lia|].
  specialize (IH (n / base) (n mod base :: acc)). cbn [length] in IH. lia.
Qed.

Lemma dec_length n : (length (dec n) <= 10)%nat.
Proof. unfold dec. rewrite length_fmap. exact (digits_in_length 10 10 n []). Qed.

Lemma state_sprintf_ok i n cf : length (g_states cf i) = 64%nat -> 0 <= n ->
  exists c, state_sprintf i (dec n) cf = Some (set_states (set_pair i c (g_states cf)) cf) /\ length c = 64%nat /\ cstr c = Some (dec n).
Proof.
  intros Hl Hn. pose proof (dec_length n) as Hd. unfold state_sprintf. rewrite strcpy_ok by lia.
  eexists. split; [reflexivity|]. split; [rewrite length_strcpy; lia|]. apply cstr_app, dec_text, Hn.
Qed.

(** A text set by [strncpy]. *)
Lemma state_copy_ok i s cf : i <> ST_conn_port -> i <> ST_slotNum -> i <> ST_listenPort -> config_ok cf -> config_ok (state_copy i s cf).
Proof.
  intros N1 N2 N3 [K1 K2 K3 K4 K5 K6 K7]. unfold state_copy, state_strncpy.
  split; cbn [g_states set_states dp_param pofsc_controller_ip_addr cf_version pofsc_controller_port dp_slotNum dp_listenPort]; try done;
    unfold set_pair; rewrite ?decide_False by congruence; try done.
  intros j. case_decide; [|apply K1]. rewrite length_app, length_strncpy, length_drop, K1. reflexivity.
Qed.

(** ** The parameters of the file *)

(** The parameter of a type, its width, and its value. *)
Definition is_number (t : Z) : Prop := 1 <= t <= 11.
Definition width_of (t : Z) : Z :=
  if bool_decide (t ∈ [POFICT_FLOW_TABLE_SIZE; POFICT_FLOW_TABLE_KEY_LENGTH; POFICT_METER_NUMBER; POFICT_COUNTER_NUMBER; POFICT_GROUP_NUMBER])
  then 4294967296 else 65536.
Definition parameter (t : Z) cf : Z :=
  let p := dp_param cf in
  let table (k : nat) := nth k (pa_tableNumMaxEachType p) 0 in
  if t =? POFICT_CONNECTION_PORT then pofsc_controller_port cf
  else if t =? POFICT_MM_TABLE_NUMBER then table 0%nat
  else if t =? POFICT_LPM_TABLE_NUMBER then table 1%nat
  else if t =? POFICT_EM_TABLE_NUMBER then table 2%nat
  else if t =? POFICT_DT_TABLE_NUMBER then table 3%nat
  else if t =? POFICT_FLOW_TABLE_SIZE then pa_tableSizeMax p
  else if t =? POFICT_FLOW_TABLE_KEY_LENGTH then cf_key_len cf
  else if t =? POFICT_METER_NUMBER then pa_meterNumMax p
  else if t =? POFICT_COUNTER_NUMBER then pa_counterNumMax p
  else if t =? POFICT_GROUP_NUMBER then pa_groupNumMax p
  else pa_portNumMax p.

(** What no line of the file changes. *)
Record file_frame cf cf' : Prop := {
  ff_slots : dp_slotNum cf' = dp_slotNum cf;
  ff_flag : pa_portFlag (dp_param cf') = pa_portFlag (dp_param cf);
  ff_listen : dp_listenPort cf' = dp_listenPort cf;
  ff_filter : dp_filter cf' = dp_filter cf;
  ff_clear : pofc_cmd_auto_clear cf' = pofc_cmd_auto_clear cf;
  ff_version : cf_version cf' = cf_version cf;
  ff_log : g_log cf' = g_log cf;
  ff_strtok : cf_strtok cf' = cf_strtok cf;
  ff_names : cf_names cf' = cf_names cf;
  ff_time : cf_time cf' = cf_time cf;
  ff_states : forall i, i <> ST_ctrl_ip -> i <> ST_conn_port -> g_states cf' i = g_states cf i
}.

#[export] Instance file_frame_preorder : PreOrder file_frame.
Proof.
  split.
  - intros cf. now split.
  - intros a b c [A1 A2 A3 A4 A5 A6 A7 A8 A9 A10 A11] [B1 B2 B3 B4 B5 B6 B7 B8 B9 B10 B11].
    split; try congruence. intros i H1 H2. now rewrite B11, A11.
Qed.

(** Setting one parameter keeps the others in their widths. *)
Ltac set_one := intros []; intros; split; assumption || apply u16_bound.

Lemma set_tableSizeMax_ok n p : param_ok p -> 0 <= n < 4294967296 -> param_ok (set_tableSizeMax n p).
Proof. set_one. Qed.
Lemma set_groupNumMax_ok n p : param_ok p -> 0 <= n < 4294967296 -> param_ok (set_groupNumMax n p).
Proof. set_one. Qed.
Lemma set_meterNumMax_ok n p : param_ok p -> 0 <= n < 4294967296 -> param_ok (set_meterNumMax n p).
Proof. set_one. Qed.
Lemma set_counterNumMax_ok n p : param_ok p -> 0 <= n < 4294967296 -> param_ok (set_counterNumMax n p).
Proof. set_one. Qed.
Lemma set_portNumMax_ok n p : param_ok p -> param_ok (set_portNumMax (u16 n) p).
Proof. set_one. Qed.
Lemma set_custom_ok p : param_ok p -> param_ok (set_custom p).
Proof. set_one. Qed.
Lemma set_tableNumMax_ok k n p : param_ok p -> param_ok (set_tableNumMax k (u16 n) p).
Proof.
  intros [? [Hf Hl] ? ? ? ?]. split; try assumption. cbn. rewrite length_insert. split; [|exact Hl].
  apply Forall_insert; [exact Hf|apply u16_bound].
Qed.
Create HintDb param discriminated.
#[export] Hint Resolve set_tableSizeMax_ok set_groupNumMax_ok set_meterNumMax_ok set_counterNumMax_ok set_portNumMax_ok set_custom_ok set_tableNumMax_ok ck_param : param.

Lemma set_param_ok p cf : config_ok cf -> param_ok p -> config_ok (set_param p cf).
Proof. intros []. now split. Qed.

(** Storing a number in its parameter. *)
Lemma store_number t data cf : config_ok cf -> is_number t -> 0 <= data < 4294967296 ->
  exists cf', store_config_data t data cf = Some (Some cf') /\ config_ok cf' /\ file_frame cf cf' /\
    pofsc_controller_ip_addr cf' = pofsc_controller_ip_addr cf /\
    forall u, is_number u -> parameter u cf' = if u =? t then data mod width_of t else parameter u cf.
Proof.
  intros Ok Ht Hd. pose proof (pa_tables _ (ck_param _ Ok)) as [Hf Hl].
  destruct (pa_tableNumMaxEachType (dp_param cf)) as [|m0 [|m1 [|m2 [|m3 [|]]]]] eqn:Em; try discriminate.
  assert (forall u : Z, is_number u -> u ∈ [1; 2; 3; 4; 5; 6; 7; 8; 9; 10; 11]) as Hn.
  { intros u. unfold is_number. rewrite !elem_of_cons, elem_of_nil. lia. }
  destruct (Z.eqb_spec t POFICT_CONNECTION_PORT) as [->|Hne].
  - destruct (state_sprintf_ok ST_conn_port (u16 data) (set_port (u16 data) cf)) as (c & E & Lc & Cc); [apply Ok|apply u16_bound|].
    eexists. unfold store_config_data. cbn [Z.eqb POFICT_CONNECTION_PORT]. unfold pofsc_set_controller_port.
    rewrite E. cbn [mbind option_bind]. split; [reflexivity|]. split; [|split; [|split; [reflexivity|]]].
    + destruct Ok as [K1 K2 K3 K4 K5 K6 K7]. split; try done; cbn [g_states set_states set_pair]; unfold set_pair.
      * intros i. case_decide; [exact Lc|apply K1].
      * split; [apply u16_bound|exact Cc].
    + split; try done. intros i _ Hi. cbn. unfold set_pair. now rewrite decide_False.
    + intros u Hu%Hn. rewrite !elem_of_cons, elem_of_nil in Hu. destruct_or! Hu; try done; subst u; reflexivity.
  - apply Hn in Ht. rewrite !elem_of_cons, elem_of_nil in Ht. destruct_or! Ht; try done; subst t; eexists;
      (split; [reflexivity|]); (split; [first [now apply set_param_ok; auto with param|destruct Ok; now split]|]); (split; [now split|]); (split; [reflexivity|]);
      intros u Hu%Hn; rewrite !elem_of_cons, elem_of_nil in Hu; destruct_or! Hu; try done; subst u;
      try reflexivity; unfold parameter; cbn [dp_param set_param set_tableNumMax pa_tableNumMaxEachType]; rewrite ?Em; try reflexivity;
      symmetry; apply Z.mod_small; exact Hd.
Qed.

(** ** The settings of a file *)

Inductive setting := Set_ip (ip : list Z) | Set_number (t data : Z).
Implicit Types (x : setting) (xs : list setting).

Definition key_of (t : Z) : list Z := nth (Z.to_nat t) config_type_str [].
Definition show x : list (list Z) :=
  match x with Set_ip ip => [lit "Controller_IP"; ip] | Set_number t data => [key_of t; dec data] end.
Definition setting_ok x : Prop :=
  match x with Set_ip ip => text ip /\ blen ip < 100 | Set_number t data => is_number t /\ 0 <= data <= 2147483647 end.

(** What a setting makes of the parameter of type [t] and of the address. *)
Definition sets (t v : Z) x : Z :=
  match x with Set_number t' data => if t =? t' then data mod width_of t' else v | Set_ip _ => v end.
Definition sets_ip (ip : list Z) x : list Z :=
  match x with Set_ip ip' => strncpy ip' 20 | Set_number _ _ => ip end.

(** [cf'] is [cf] after the settings, the last of each kind in force. *)
Record after xs cf cf' : Prop := {
  af_frame : file_frame cf cf';
  af_number : forall t, is_number t -> parameter t cf' = fold_left (sets t) xs (parameter t cf);
  af_ip : pofsc_controller_ip_addr cf' = fold_left sets_ip xs (pofsc_controller_ip_addr cf)
}.

Lemma after_nil cf : after [] cf cf.
Proof. now split. Qed.

Lemma after_app xs ys a b c : after xs a b -> after ys b c -> after (xs ++ ys) a c.
Proof.
  intros [A1 A2 A3] [B1 B2 B3]. split.
  - now trans b.
  - intros t Ht. now rewrite B2, A2, fold_left_app.
  - now rewrite B3, A3, fold_left_app.
Qed.

Lemma key_type t : is_number t -> pofsic_get_config_type (key_of t) = t /\ (t =? POFICT_CONTROLLER_IP) = false /\
  text (key_of t) /\ blen (key_of t) < 100.
Proof.
  intros Ht. assert (t ∈ [1; 2; 3; 4; 5; 6; 7; 8; 9; 10; 11]) as H.
  { unfold is_number in Ht. rewrite !elem_of_cons, elem_of_nil. lia. }
  rewrite !elem_of_cons, elem_of_nil in H. unfold text. destruct_or! H; try done; subst t; (split; [reflexivity|]); split; try reflexivity; by_decide.
Qed.

Lemma string_of_text w : text w -> string_of w = w.
Proof. intros H. apply until_none. eapply Forall_impl; [exact H|]. cbn. intros. zcases. Qed.

(** A word of the stream is read. *)
Lemma fscanf_text fp w ws : words fp = w :: ws -> text w -> blen w < 100 ->
  exists fp', fscanf_s POF_STRING_MAX_LEN fp = Some (Some w, fp') /\ words fp' = ws /\ (length fp' < length fp)%nat.
Proof.
  intros E T L. pose proof (fscanf_words POF_STRING_MAX_LEN fp) as H. rewrite E in H.
  rewrite (proj2 (Z.ltb_lt _ _)) in H by exact L. now rewrite (string_of_text w T) in H.
Qed.

Lemma fscanf_end fp : words fp = [] -> fscanf_s POF_STRING_MAX_LEN fp = Some (None, []).
Proof. intros E. pose proof (fscanf_words POF_STRING_MAX_LEN fp) as H. now rewrite E in H. Qed.

Lemma dec_word data : 0 <= data -> text (dec data) /\ blen (dec data) < 100.
Proof. intros. split; [now apply dec_text|]. pose proof (dec_length data). unfold blen. lia. Qed.

(** The value of a line. *)
Lemma line_ok x k v fp ws cf : config_ok cf -> setting_ok x -> show x = [k; v] -> words fp = v :: ws ->
  exists cf' fp', config_line k fp cf = Some (POF_OK, cf', fp') /\ words fp' = ws /\ (length fp' < length fp)%nat /\
    config_ok cf' /\ after [x] cf cf'.
Proof.
  intros Ok Hx Es Ew. destruct x as [ip|t data]; cbn [show setting_ok] in *; injection Es as <- <-.
  - destruct Hx as [T L]. destruct (fscanf_text fp ip ws Ew T L) as (fp' & E & Ew' & Hl).
    eexists _, fp'. unfold config_line. change (pofsic_get_config_type _ =? _) with true. cbv iota. rewrite E. cbn [mbind option_bind].
    split; [reflexivity|]. split; [exact Ew'|]. split; [exact Hl|]. destruct Ok as [K1 K2 K3 K4 K5 K6 K7]. split.
    + split; try done; cbn; unfold set_pair.
      * intros i. case_decide; [|apply K1]. rewrite length_app, length_strncpy, length_drop, K1. reflexivity.
      * apply length_strncpy.
    + split; try done. split; try done. intros i Hi _. cbn. unfold set_pair. now rewrite decide_False.
  - destruct Hx as [Ht Hd]. destruct (key_type t Ht) as (Et & En & _ & _). destruct (dec_word data ltac:(lia)) as [T L].
    destruct (fscanf_text fp (dec data) ws Ew T L) as (fp' & E & Ew' & Hl).
    destruct (store_number t data cf Ok Ht ltac:(lia)) as (cf' & Es & Ok' & Fr & Ip & Pa).
    exists cf', fp'. unfold config_line. rewrite Et, En. unfold pofsic_get_config_data. rewrite E. cbn [mbind option_bind].
    rewrite atoi_dec by lia. cbn [mbind option_bind]. rewrite u32_small, Es by lia. cbn [mbind option_bind].
    split; [reflexivity|]. split; [exact Ew'|]. split; [exact Hl|]. split; [exact Ok'|]. split; [exact Fr| |exact Ip].
    intros u Hu. cbn [fold_left sets]. now apply Pa.
Qed.

(** The settings at the front of the stream are read. *)
Lemma lines_ok xs : forall fuel fp cf rest, config_ok cf -> Forall setting_ok xs -> (length fp < fuel)%nat ->
  words fp = concat (show <$> xs) ++ rest ->
  exists fuel' fp' cf', read_lines fuel fp cf = read_lines fuel' fp' cf' /\ (length fp' < fuel')%nat /\ words fp' = rest /\
    config_ok cf' /\ after xs cf cf'.
Proof.
  induction xs as [|x xs IH]; intros fuel fp cf rest Ok Hxs Hf Ew.
  - exists fuel, fp, cf. split; [done|]. split; [done|]. split; [exact Ew|]. split; [done|apply after_nil].
  - apply Forall_cons in Hxs as [Hx Hxs]. destruct fuel as [|fuel]; [lia|]. cbn [fmap list_fmap concat] in Ew.
    assert (exists k v, show x = [k; v] /\ text k /\ blen k < 100) as (k & v & Es & T & L).
    { destruct x as [ip|t data]; cbn [show].
      - exists (lit "Controller_IP"), ip. split; [done|]. unfold text. split; by_decide.
      - exists (key_of t), (dec data). split; [done|]. apply key_type, Hx. }
    rewrite Es in Ew. cbn [app] in Ew.
    destruct (fscanf_text fp k _ Ew T L) as (fp1 & E1 & Ew1 & L1).
    destruct (line_ok x k v fp1 _ cf Ok Hx Es Ew1) as (cf1 & fp2 & E2 & Ew2 & L2 & Ok1 & A1).
    destruct (IH fuel fp2 cf1 rest Ok1 Hxs) as (fuel' & fp' & cf' & E3 & L3 & Ew3 & Ok' & A3); [lia|exact Ew2|].
    exists fuel', fp', cf'. split; [|split; [exact L3|split; [exact Ew3|split; [exact Ok'|apply (after_app [x] xs cf cf1 cf' A1 A3)]]]].
    cbn [read_lines]. rewrite E1. cbn [mbind option_bind]. rewrite E2. cbn [mbind option_bind]. exact E3.
Qed.

(** C13. A configuration file whose words, in whatever layout, are the settings
    printed one after the other is read to its end: every parameter has the last
    value set for it, reduced to its width, the address the last one given, the
    texts shown agree, and nothing else has changed. *)
Theorem config_file_read fp xs cf : config_ok cf -> Forall setting_ok xs -> words fp = concat (show <$> xs) ->
  exists cf', readConfigFile fp cf = Some (POF_OK, cf') /\ config_ok cf' /\ after xs cf cf'.
Proof.
  intros Ok Hxs Ew. destruct (lines_ok xs (S (length fp)) fp cf [] Ok Hxs) as (fuel & fp' & cf' & E & L & Ew' & Ok' & A);
    [lia|now rewrite app_nil_r|].
  exists cf'. split; [|auto]. unfold readConfigFile. rewrite E. destruct fuel; [lia|]. cbn [read_lines]. now rewrite fscanf_end.
Qed.

(** Reading stops at an unknown key, whatever number or other word follows it. *)
Lemma stops fp xs k ws cf : config_ok cf -> Forall setting_ok xs ->
  words fp = concat (show <$> xs) ++ k :: ws -> k ∉ config_type_str -> text k -> blen k < 100 ->
  match ws with [] => True | v :: _ => text v /\ blen v < 100 /\ is_Some (atoi v) end ->
  exists cf', readConfigFile fp cf = Some (POF_ERROR, cf') /\ config_ok cf' /\ after xs cf cf'.
Proof.
  intros Ok Hxs Ew Hk T L Hws. destruct (lines_ok xs (S (length fp)) fp cf (k :: ws) Ok Hxs) as (fuel & fp' & cf' & E & Hf & Ew' & Ok' & A);
    [lia|exact Ew|].
  exists cf'. split; [|auto]. unfold readConfigFile. rewrite E. destruct fuel as [|fuel]; [lia|]. cbn [read_lines].
  destruct (fscanf_text fp' k ws Ew' T L) as (fp1 & E1 & Ew1 & _). rewrite E1. cbn [mbind option_bind].
  assert (pofsic_get_config_type k = 0xff) as Et.
  { unfold pofsic_get_config_type. revert Hk. generalize 0. induction config_type_str as [|s l IH]; intros i Hk; [done|].
    cbn [config_type_from]. apply not_elem_of_cons in Hk as [Hs Hk]. rewrite bool_decide_eq_false_2 by done. now apply IH. }
  unfold config_line. rewrite Et. cbn [Z.eqb POFICT_CONTROLLER_IP]. unfold pofsic_get_config_data. destruct ws as [|v ws].
  - rewrite fscanf_end by exact Ew1. reflexivity.
  - destruct Hws as (Tv & Lv & n & Hn). destruct (fscanf_text fp1 _ ws Ew1 Tv Lv) as (fp2 & E2 & _).
    rewrite E2. cbn [mbind option_bind]. rewrite Hn. reflexivity.
Qed.


(** A file that ends in the middle of a line sets that line's parameter to the
    error code. *)
Lemma config_file_truncated fp xs t cf : config_ok cf -> Forall setting_ok xs -> is_number t ->
  words fp = concat (show <$> xs) ++ [key_of t] ->
  exists cf', readConfigFile fp cf = Some (POF_ERROR, cf') /\ after (xs ++ [Set_number t POF_ERROR]) cf cf'.
Proof.
  intros Ok Hxs Ht Ew. destruct (lines_ok xs (S (length fp)) fp cf [key_of t] Ok Hxs) as (fuel & fp' & cf1 & E & Hf & Ew' & Ok' & A);
    [lia|exact Ew|]. destruct (key_type t Ht) as (Et & En & T & L). destruct (fscanf_text fp' (key_of t) [] Ew' T L) as (fp1 & E1 & Ew1 & _).
  destruct (store_number t POF_ERROR cf1 Ok' Ht ltac:(unfold POF_ERROR; lia)) as (cf' & Es & _ & Fr & Ip & Pa).
  exists cf'. split.
  - unfold readConfigFile. rewrite E. destruct fuel as [|fuel]; [lia|]. cbn [read_lines]. rewrite E1. cbn [mbind option_bind].
    unfold config_line. rewrite Et, En. unfold pofsic_get_config_data. rewrite fscanf_end by exact Ew1. cbn [mbind option_bind].
    now rewrite Es.
  - apply (after_app xs [_] cf cf1 cf' A). split; [exact Fr| |exact Ip]. intros u Hu. now apply Pa.
Qed.

(** ** The options that name ports *)

Definition comma : Z := 44.
Definition no_comma w : Prop := w <> [] /\ Forall (fun c => (c =? comma) = false) w.

Lemma from_stop (f : Z -> bool) w : w <> [] -> Forall (fun c => f c = false) w -> forall t, from (fun c => negb (f c)) (w ++ t) = w ++ t.
Proof. intros Hw H t. destruct H as [|c w Hc _]; [done|]. cbn. now rewrite Hc. Qed.

Lemma split_pair a b saved : no_comma a -> no_comma b ->
  pofbf_split_str (Some (a ++ comma :: b)) comma 2 saved = Some ([Some a; Some b], []).
Proof.
  intros [Ha Fa] [Hb Fb]. unfold pofbf_split_str. cbn [mbind option_bind strtok_times]. unfold strtok_at at 1.
  rewrite (from_stop (fun c => c =? comma)) by done. destruct (until_stop (fun c => c =? comma) a comma b Fa eq_refl) as [-> ->].
  destruct (a ++ comma :: b) eqn:E; [now destruct a|]. clear E. cbn [drop]. rewrite drop_0. unfold strtok_at.
  pose proof (from_stop (fun c => c =? comma) b Hb Fb []) as E. rewrite app_nil_r in E. rewrite E.
  destruct (until_none (fun c => c =? comma) b Fb) as [-> ->]. now destruct b.
Qed.

Lemma dec_no_comma n : 0 <= n -> no_comma (dec n).
Proof.
  intros Hn. split; [apply dec_nonempty|]. eapply Forall_impl; [apply dec_digits, Hn|]. intros c (Hd & _ & _). unfold isdigit in Hd. cbn. unfold comma. zcases.
Qed.

(** The option [-a name,slot]. *)
Definition port_option (pn : list Z * Z) : list Z * option (list Z) := (lit "a", Some (pn.1 ++ comma :: dec pn.2)).

Section options.
Context (system : nat -> sys) (y : sys) (files : list Z -> option (list Z)) (writable : list Z -> bool) (euid : Z).
Hypothesis static : forall t, system t = y.
Hypothesis Hy : sys_ok y.

Definition port_named cf (pn : list Z * Z) : Prop := is_Some (s_iface y pn.1) /\ no_comma pn.1 /\ 0 <= pn.2 < dp_slotNum cf.

(** What the options [-S] and [-a] leave of the configuration. *)
Record option_frame cf cf' : Prop := {
  of_log : g_log cf' = g_log cf;
  of_filter : dp_filter cf' = dp_filter cf;
  of_version : cf_version cf' = cf_version cf;
  of_ip : pofsc_controller_ip_addr cf' = pofsc_controller_ip_addr cf;
  of_port : pofsc_controller_port cf' = pofsc_controller_port cf;
  of_states : forall i, i <> ST_slotNum -> i <> ST_port_mode -> g_states cf' i = g_states cf i
}.
#[export] Instance option_frame_preorder : PreOrder option_frame.
Proof.
  split; [now split|]. intros a b c [A1 A2 A3 A4 A5 A6] [B1 B2 B3 B4 B5 B6]. split; try congruence. intros i H1 H2. now rewrite B6, A6.
Qed.

Lemma add_name_ok pn ps es cf e : config_ok cf -> port_named cf pn -> mallocs e = [] -> lrep (cf_names cf) ps -> entries_at (cf_names cf) ps es ->
  exists cf' p, run_option system files writable euid (lit "a") (Some (pn.1 ++ comma :: dec pn.2)) cf e = Some (Next cf', e) /\
    config_ok cf' /\ lrep (cf_names cf') (ps ++ [p]) /\ entries_at (cf_names cf') (ps ++ [p]) (es ++ [pn]) /\
    dp_slotNum cf' = dp_slotNum cf /\ dp_param cf' = set_custom (dp_param cf) /\ option_frame cf cf'.
Proof.
  intros Ok (Hi & Hc & Hk) Q L F. destruct pn as [name k]. cbn [fst snd] in *. pose proof (ck_slots _ Ok) as [Hs _].
  unfold run_option. change (bool_decide (lit "a" = lit "?")) with false. cbv iota.
  change (find _ _) with (Some ("a", true, "add-port", start_cmd_add_port system)). cbv iota.
  rewrite run_bind. unfold start_cmd_add_port. rewrite run_bind. change 44 with comma. rewrite split_pair by (auto; apply dec_no_comma; lia).
  cbn [lift]. change (default None ([Some name; Some (dec k)] !! 1%nat)) with (Some (dec k)). cbv iota.
  rewrite run_bind. rewrite atoi_dec by lia. cbn [lift]. rewrite u16_small by lia.
  set (cf1 := set_strtok (Some []) (custom_mode cf)).
  assert (slot_refused k cf1 = false) as ->.
  { unfold slot_refused. change (dp_slotNum cf1) with (dp_slotNum cf). unfold POF_SLOT_ID_BASE. rewrite u32_small by lia. apply Z.ltb_ge. lia. }
  rewrite run_bind. change (default None ([Some name; Some (dec k)] !! 0%nat)) with (Some name). cbn [lift]. rewrite run_bind.
  destruct Hi as [i Ei]. destruct (so_iface _ Hy _ _ Ei) as (_ & Ln & _).
  unfold poflr_add_port_only_name. rewrite run_bind.
  destruct (check_name system y static Hy name (names_of cf1) e Ln) as [t E1]. rewrite Ei in E1. rewrite E1. change (negb (POF_OK =? POF_OK)) with false. cbv iota.
  rewrite run_bind. destruct (insert_entry_ok name k (at_time t (names_of cf1)) e ps es L F Q) as (dl & p & E2 & L2 & F2). rewrite E2.
  eexists _, p. split; [reflexivity|]. split; [|split; [exact L2|split; [exact F2|split; [done|split; [done|]]]]].
  2:{ split; try done. intros j _ Hm. cbn. unfold set_pair. now rewrite decide_False. }
  assert (config_ok (custom_mode cf)) as [K1 K2 K3 K4 K5 K6 K7] by (apply state_copy_ok; try done; apply set_param_ok; auto with param). now split.
Qed.

(** Options that name ports extend the list of names, in their order. *)
Lemma port_options_ok pns : forall ps es cf e, config_ok cf -> Forall (port_named cf) pns -> mallocs e = [] ->
  lrep (cf_names cf) ps -> entries_at (cf_names cf) ps es ->
  exists cf' ps', pof_set_init_config_by_command system files writable euid (port_option <$> pns) cf e = Some (Next (POF_OK, cf'), e) /\
    config_ok cf' /\ lrep (cf_names cf') ps' /\ entries_at (cf_names cf') ps' (es ++ pns) /\
    dp_slotNum cf' = dp_slotNum cf /\ dp_param cf' = Nat.iter (length pns) set_custom (dp_param cf) /\ option_frame cf cf'.
Proof.
  induction pns as [|pn pns IH]; intros ps es cf e Ok Hxs Q L F; cbn [fmap list_fmap pof_set_init_config_by_command].
  - exists cf, ps. rewrite app_nil_r. repeat (split; [done|]). reflexivity.
  - apply Forall_cons in Hxs as [Hx Hxs]. unfold port_option at 1. rewrite run_bind.
    destruct (add_name_ok pn ps es cf e Ok Hx Q L F) as (cf1 & p & E1 & Ok1 & L1 & F1 & S1 & P1 & O1). rewrite E1.
    destruct (IH (ps ++ [p]) (es ++ [pn]) cf1 e Ok1) as (cf' & ps' & E & Ok' & L' & F' & S' & P' & O'); auto.
    { eapply Forall_impl; [exact Hxs|]. intros z. unfold port_named. now rewrite S1. }
    exists cf', ps'. rewrite E. split; [reflexivity|]. split; [exact Ok'|]. split; [exact L'|]. rewrite <- app_assoc in F'. split; [exact F'|].
    split; [congruence|]. split; [|now trans cf1]. rewrite P', P1. cbn [length]. symmetry. apply Nat.iter_succ_r.
Qed.
(** The option [-S n]. *)
Lemma slot_num_ok n cf e : config_ok cf -> 0 <= n < 65536 ->
  exists cf', run_option system files writable euid (lit "S") (Some (dec n)) cf e = Some (Next cf', e) /\
    config_ok cf' /\ dp_slotNum cf' = n /\ cf_names cf' = cf_names cf /\ dp_param cf' = dp_param cf /\ option_frame cf cf'.
Proof.
  intros Ok Hn. unfold run_option. change (bool_decide (lit "S" = lit "?")) with false. cbv iota.
  change (find _ _) with (Some ("S", true, "slot-num", start_cmd_slot_num)). cbv iota.
  rewrite run_bind. unfold start_cmd_slot_num. rewrite run_bind. cbn [lift]. rewrite run_bind, atoi_dec by lia. cbn [lift].
  rewrite u16_small by lia.
  destruct (state_sprintf_ok ST_slotNum n (set_slotNum n cf) (ck_states _ Ok _) ltac:(lia)) as (c & E & Lc & Cc).
  rewrite run_bind, E. cbn [lift]. eexists. split; [reflexivity|]. split; [|split; [done|split; [done|split; [done|]]]].
  2:{ split; try done. intros i Hi _. cbn. unfold set_pair. now rewrite decide_False. }
  destruct Ok as [K1 K2 K3 K4 K5 K6 K7]. split; try done. cbn. intros i. unfold set_pair. case_decide; [exact Lc|apply K1].
Qed.

(** The parameters after options that name ports. *)
Lemma custom_param n p : param_ok p -> n <> O -> let p' := Nat.iter n set_custom p in
  param_ok p' /\ pa_tableNumMaxEachType p' = pa_tableNumMaxEachType p /\ Z.land (pa_portFlag p') POFLRPF_FROM_CUSTOM <> 0.
Proof.
  intros Ok Hn. destruct n as [|n]; [done|]. clear Hn. cbn [Nat.iter]. set (q := Nat.iter n set_custom p).
  assert (param_ok q /\ pa_tableNumMaxEachType q = pa_tableNumMaxEachType p) as [H1 H2].
  { unfold q. clear q. induction n as [|n [IH1 IH2]]; cbn; [done|]. split; [now apply set_custom_ok|exact IH2]. }
  split; [now apply set_custom_ok|]. split; [exact H2|]. change (Z.land (Z.lor (pa_portFlag q) 1) 1 <> 0). intros H.
  apply (f_equal (fun v => Z.testbit v 0)) in H. cbv beta in H. rewrite Z.land_spec, Z.lor_spec in H.
  change (Z.testbit 1 0) with true in H. rewrite Bool.orb_true_r in H. discriminate.
Qed.

(** The slot [k] of [pofdp_slot_init], about to be initialised. *)
Definition slot_to_be (k idx : Z) (t : nat) cf : pmst :=
  mkPm (fill_localresource_param (set_slotID k res_zero) (dp_param cf)) idx (cf_names cf) t.

Lemma slot_to_be_fresh k idx t cf : config_ok cf -> fresh_slot (pm_lr (slot_to_be k idx t cf)).
Proof. intros [_ [] _ _ _ _ _]. split; repeat split; try reflexivity; cbn; lia. Qed.
End options.

(** C9. The options [-S n -a name,slot ...] start exactly the ports they name: the
    options are accepted, and each slot [k] initialised from the configuration
    they leave ([pof_localresource_init] and the loop of [pof_datapath_init]) has
    one port with its sockets and its listening task for each interface named
    for [k], in the order of the options, and no other, whatever the system lists. *)
Theorem configured_slot_starts system y files writable euid n pns cf e :
  (forall t, system t = y) -> sys_ok y -> config_ok cf -> lrep (cf_names cf) [] -> mallocs e = [] ->
  0 < n < 65536 -> pns <> [] ->
  Forall (fun pn => is_Some (s_iface y pn.1) /\ no_comma pn.1 /\ 0 <= pn.2 < n) pns ->
  exists cf', pof_set_init_config_by_command system files writable euid ((lit "S", Some (dec n)) :: (port_option <$> pns)) cf e
      = Some (Next (POF_OK, cf'), e) /\ dp_slotNum cf' = n /\
    forall k idx t dv, 0 <= k < n -> 0 <= idx < 256 -> NoDup (for_slot k pns) -> apart (fun a => a ∈ for_slot k pns) ->
      (length (for_slot k pns) <= 256)%nat ->
      exists s1 dv' s2, pof_localresource_init system (slot_to_be k idx t cf') dv e = Some ((POF_OK, (s1, dv')), e) /\
        start_ports system s1 e = Some ((POF_OK, s2), e) /\
        pm_ok s2 /\ listening s2 /\ ports s2 = add_ports y k idx (for_slot k pns) ∅ /\ resources_ok (pm_lr s2) /\ slot_empty (pm_lr s2).
Proof.
  intros Hs Hy Ok L Q Hn Hne Hpns.
  destruct (slot_num_ok system files writable euid n cf e Ok ltac:(lia)) as (cf1 & E1 & Ok1 & S1 & N1 & P1 & _).
  destruct (port_options_ok system y files writable euid Hs Hy pns [] [] cf1 e Ok1) as (cf' & ps & E & Ok' & L' & F & S' & P' & _);
    [|exact Q|now rewrite N1|constructor|].
  { eapply Forall_impl; [exact Hpns|]. intros pn. unfold port_named. now rewrite S1. }
  destruct (custom_param (length pns) (dp_param cf1) (ck_param _ Ok1)) as (_ & _ & Fl); [now destruct pns|]. rewrite <- P' in Fl.
  exists cf'. split; [cbn [pof_set_init_config_by_command]; rewrite run_bind, E1; exact E|]. split; [congruence|].
  intros k idx t dv Hk Hx Nd HU Hl. destruct (pa_tables _ (ck_param _ Ok')) as [Hf Hlen].
  destruct (pa_tableNumMaxEachType (dp_param cf')) as [|n0 [|n1 [|n2 [|n3 [|]]]]] eqn:Em; try discriminate.
  rewrite !Forall_cons in Hf. destruct Hf as (? & ? & ? & ? & _).
  assert (from_system (pm_lr (slot_to_be k idx t cf')) = false) as Hfs.
  { unfold from_system. cbn [pm_lr slot_to_be fill_localresource_param lr_portFlag]. now rewrite (proj2 (Z.eqb_neq _ _) Fl). }
  apply (slot_started system y Hs Hy _ HU (slot_to_be k idx t cf') dv e pns n0 n1 n2 n3); try done; try lia.
  - now apply slot_to_be_fresh.
  - eauto.
  - now apply (loads_custom system _ e ps).
  - intros a Ha. split; [|exact Ha]. unfold for_slot in Ha. apply list_elem_of_omap in Ha as ([m j] & Hm & Hj). cbn in Hj.
    destruct (j =? k); [|done]. injection Hj as <-. rewrite Forall_forall in Hpns. now destruct (Hpns _ Hm).
Qed.

(** ** Examples *)

(** The file src/pofswitch_config.conf. *)
Definition shipped_file : list Z := lit "Controller_IP   192.168.56.101 
Connection_port  6633

MM_table_number 8
LPM_table_number 2
EM_table_number  6
DT_table_number  7

Flow_table_size  6000
Flow_table_key_length 320

Meter_number	  1024
Counter_number   512
Group_number     1024

Device_port_number_max 100
".

Definition shipped_settings : list setting :=
  [Set_ip (lit "192.168.56.101"); Set_number 1 6633; Set_number 2 8; Set_number 3 2; Set_number 4 6; Set_number 5 7;
   Set_number 6 6000; Set_number 7 320; Set_number 8 1024; Set_number 9 512; Set_number 10 1024; Set_number 11 100].

Lemma config_file_read_witness : exists cf', readConfigFile shipped_file initial_config = Some (POF_OK, cf') /\
  config_ok cf' /\ after shipped_settings initial_config cf'.
Proof.
  apply (config_file_read shipped_file shipped_settings initial_config).
  - exact initial_config_ok.
  - unfold shipped_settings. repeat (apply Forall_cons; split; [|]); try apply Forall_nil_2; cbn [setting_ok]; unfold is_number; try lia.
    unfold text. split; by_decide.
  - vm_compute. reflexivity.
Defined.


(** The last word of a file sets 65535. *)
Example truncated_meters :
  (pa_meterNumMax ∘ dp_param ∘ snd <$> readConfigFile (lit "Meter_number") initial_config) = Some 65535.
Proof. vm_compute. reflexivity. Qed.

Lemma configured_slot_starts_witness : exists cf',
  pof_set_init_config_by_command (fun _ => sys_example) (fun _ => None) (fun _ => false) 0
    ((lit "S", Some (dec 2)) :: (port_option <$> [(eth 48, 0); (eth 49, 1)])) initial_config env_example = Some (Next (POF_OK, cf'), env_example) /\
  dp_slotNum cf' = 2 /\
  exists s1 dv' s2, pof_localresource_init (fun _ => sys_example) (slot_to_be 1 1 0 cf') device_example env_example = Some ((POF_OK, (s1, dv')), env_example) /\
    start_ports (fun _ => sys_example) s1 env_example = Some ((POF_OK, s2), env_example) /\
    pm_ok s2 /\ listening s2 /\ ports s2 = add_ports sys_example 1 1 [eth 49] ∅ /\ resources_ok (pm_lr s2) /\ slot_empty (pm_lr s2).
Proof.
  destruct (configured_slot_starts (fun _ => sys_example) sys_example (fun _ => None) (fun _ => false) 0 2 [(eth 48, 0); (eth 49, 1)] initial_config env_example)
    as (cf' & E & S & H); try done; try lia.
  - exact sys_example_ok.
  - exact initial_config_ok.
  - split; [repeat constructor|constructor|reflexivity].
  - repeat (apply Forall_cons; split; [unfold no_comma; cbn [fst snd]; split; [eexists; reflexivity|split; [split; [done|by_decide]|lia]]|]). constructor.
  - exists cf'. split; [exact E|]. split; [exact S|]. apply (H 1 1 0%nat device_example); try lia; change (for_slot 1 _) with [eth 49].
    + by_decide.
    + intros a b Ha Hb. rewrite list_elem_of_singleton in Ha, Hb. congruence.
    + cbn. lia.
Defined.

(** *** Where the code and its README differ *)

(** README 4.2.1 names the key [Controller_port]; a file that uses it is read up
    to that line. *)
Example documented_key_stops :
  (fun r => (r.1, parameter POFICT_METER_NUMBER r.2)) <$> readConfigFile (lit "Controller_port 6633 Meter_number 7") initial_config
    = Some (POF_ERROR, 256).
Proof. vm_compute. reflexivity. Qed.

Definition run_options (files : list Z -> option (list Z)) opts cf : option (run Z) :=
  match pof_set_init_config (fun _ => sys_example) files (fun _ => false) 0 opts cf env_example with
  | Some (Next (_, cf), _) => Some (Next (pofsc_controller_port cf))
  | Some (Exit, _) => Some Exit
  | None => None
  end.

(** README 4.2.3 gives an option precedence over the file; a file named by a later
    option wins. *)
Example later_file_wins :
  run_options (fun _ => Some (lit "Connection_port 1000")) [(lit "p", Some (lit "2000")); (lit "f", Some (lit "x"))] initial_config = Some (Next 1000) /\
  run_options (fun _ => Some (lit "Connection_port 1000")) [(lit "p", Some (lit "2000"))] initial_config = Some (Next 2000).
Proof. split; vm_compute; reflexivity. Qed.

(** README 4.2.2 falls back on the default files when the named one cannot be
    opened; the program ends. *)
Example missing_file_ends : run_options (fun _ => None) [(lit "f", Some (lit "x"))] initial_config = Some Exit.
Proof. vm_compute. reflexivity. Qed.

(** [--file FILE] and [--f FILE], with a space, have no value: the program ends. *)
Example long_option_without_value : run_options (fun _ => None) [(lit "f", None)] initial_config = Some Exit.
Proof. vm_compute. reflexivity. Qed.

(** A port for a slot that a later option makes is refused. *)
Example slot_before_its_option :
  run_options (fun _ => None) [(lit "a", Some (eth 48 ++ comma :: dec 1)); (lit "S", Some (dec 2))] initial_config = Some Exit /\
  run_options (fun _ => None) [(lit "S", Some (dec 2)); (lit "a", Some (eth 48 ++ comma :: dec 1))] initial_config = Some (Next 6633).
Proof. split; vm_compute; reflexivity. Qed.

(** With no slot at all every slot number is accepted. *)
Example no_slot_accepts_all :
  run_options (fun _ => None) [(lit "S", Some (dec 0)); (lit "a", Some (eth 48 ++ comma :: dec 9))] initial_config = Some (Next 6633).
Proof. vm_compute. reflexivity. Qed.

(** An address of 20 characters leaves no terminator in its array. *)
Example long_address : cstr (pofsc_controller_ip_addr (pofsc_set_controller_ip (lit "controller.pof.local") initial_config)) = None.
Proof. vm_compute. reflexivity. Qed.
