(* ===== verification/Listen.v ===== *)
(** * The listening task for pofsctrl (switch_control/pof_switch_listen.c)

    The switch serves one pofsctrl client after the other: it reads commands of
    [sizeof(struct command)] bytes and answers with copies of its structures, the
    elements of each map behind a [responseHead] that counts them.  What is sent
    is the memory of the structures, whose layout is the compiler's: a byte on
    the wire is the [n]-th byte of a structure, and the sizes are parameters. *)

From S2P Require Import Prelude Codec Env Hmap IdMap DList Tree LocalRes ByteTransfer Slot Parse PortMgr Boot Text Config.
From Stdlib Require String.
Import String.StringSyntax.
#[local] Open Scope string_scope.

(** ** Commands (include/pof_command.h, include/pof_switch_listen.h) *)

Inductive usr_cmd :=
| POFUC_help | POFUC_quit | POFUC_exit | POFUC_switch_config | POFUC_switch_feature | POFUC_table_resource
| POFUC_ports | POFUC_tables | POFUC_groups | POFUC_meters | POFUC_counters | POFUC_version | POFUC_state
| POFUC_enable_promisc | POFUC_disable_promisc | POFUC_addport | POFUC_delport | POFUC_test | POFUC_clear_resource
| POFUC_enable_debug | POFUC_disable_debug | POFUC_enable_color | POFUC_disable_color | POFUC_memory.

#[export] Instance usr_cmd_eq_dec : EqDecision usr_cmd.
Proof. solve_decision. Defined.

(** The commands in the order of their numbers, with their words. *)
Definition COMMANDS : list (usr_cmd * list Z) :=
  [(POFUC_help, lit "help"); (POFUC_quit, lit "quit"); (POFUC_exit, lit "exit"); (POFUC_switch_config, lit "switch_config");
   (POFUC_switch_feature, lit "switch_feature"); (POFUC_table_resource, lit "table_resource"); (POFUC_ports, lit "ports");
   (POFUC_tables, lit "tables"); (POFUC_groups, lit "groups"); (POFUC_meters, lit "meters"); (POFUC_counters, lit "counters");
   (POFUC_version, lit "version"); (POFUC_state, lit "state"); (POFUC_enable_promisc, lit "enable_promisc");
   (POFUC_disable_promisc, lit "disable_promisc"); (POFUC_addport, lit "addport"); (POFUC_delport, lit "delport");
   (POFUC_test, lit "test"); (POFUC_clear_resource, lit "clear_resource"); (POFUC_enable_debug, lit "enable_debug");
   (POFUC_disable_debug, lit "disable_debug"); (POFUC_enable_color, lit "enable_color"); (POFUC_disable_color, lit "disable_color");
   (POFUC_memory, lit "memory")].

Definition cmd_of_number (n : Z) : option usr_cmd := fst <$> COMMANDS !! Z.to_nat n.
Fixpoint number_from (i : Z) (l : list (usr_cmd * list Z)) (c : usr_cmd) : Z :=
  match l with [] => 0xff | (d, _) :: l => if decide (c = d) then i else number_from (i + 1) l c end.
Definition number_of_cmd (c : usr_cmd) : Z := number_from 0 COMMANDS c.

(** *** Command lines *)

Definition POF_CMD_WRONG : Z := 0xFF.
Definition POF_CMD_EMPTY : Z := 0xFE.
Definition POF_CMD_STR_LEN : Z := 32.

(** A line as [usr_cmd_gets] (common/pof_command.c) and [cmdGet] (pof_sctrl.c) take
    it: the last character is dropped, whatever it is; the first word is the
    command, the second its argument.  Without a character to drop the byte in
    front of the buffer is overwritten.  Last, where [strtok] stopped. *)
Definition line_words (line : list Z) : option (option (list Z) * option (list Z) * list Z) :=
  match string_of line with
  | [] => None
  | str =>
      let '(cmd_, rest) := strtok_at 32 (removelast str) in
      let '(arg, saved) := strtok_at 32 rest in
      Some (cmd_, arg, saved)
  end.
Definition type_of_word (cmd_ : option (list Z)) : Z :=
  match cmd_ with
  | None => POF_CMD_EMPTY
  | Some w => match find (fun c => bool_decide (c.2 = w)) COMMANDS with
              | Some (c, _) => number_of_cmd c
              | None => POF_CMD_WRONG
              end
  end.
Definition parse_line (line : list Z) : option (Z * option (list Z)) :=
  '(cmd_, arg, _) ← line_words line; Some (type_of_word cmd_, arg).

Definition ARG_LEN : Z := 64.
(** [struct command]: the command and its argument. *)
Definition sizeof_command : Z := 1 + ARG_LEN.

(** ** What goes over the connection *)

(** The structures sent, with their contents. *)
Inductive reply :=
| RConfig (c : pof_switch_config) | RFeature (f : pof_switch_features) | RTableResource (d : pof_flow_table_resource)
| RHead (count : Z) (disc : list Z) | RPort (p : portInfo) | RTable (t : tableInfo) | REntry (n : entryInfo)
| RGroup (g : groupInfo) | RMeter (m : meterInfo) | RCounter (c : counterInfo) | RVersion (text : list Z) | RState (st : pof_state).

Inductive rkind := KConfig | KFeature | KTableResource | KHead | KPort | KTable | KEntry | KGroup | KMeter | KCounter | KVersion | KState.
#[export] Instance rkind_eq_dec : EqDecision rkind.
Proof. solve_decision. Defined.

Definition kind_of (r : reply) : rkind :=
  match r with
  | RConfig _ => KConfig | RFeature _ => KFeature | RTableResource _ => KTableResource | RHead _ _ => KHead | RPort _ => KPort
  | RTable _ => KTable | REntry _ => KEntry | RGroup _ => KGroup | RMeter _ => KMeter | RCounter _ => KCounter
  | RVersion _ => KVersion | RState _ => KState
  end.

(** The byte of a structure at an offset. *)
Record mbyte := MByte { of_reply : reply; at_offset : nat }.

(** *** Sockets *)

(** A connected socket: the segments that are still to arrive, [None] for an
    error; what has been sent; and what the coming calls of [send] do, [None] for
    an error, [Some k] when at most [k] bytes are taken.  No segment left means
    that the peer has closed, no outcome left that all is taken. *)
Record sock (In Out : Type) := Sock { s_in : list (option (list In)); s_out : list Out; s_sends : list (option nat) }.
Arguments Sock {In Out} _ _ _.
Arguments s_in {In Out} _.
Arguments s_out {In Out} _.
Arguments s_sends {In Out} _.

Section sockets.
Context {In Out : Type}.
Implicit Types (k : sock In Out).

Definition send (m : list Out) k : Z * sock In Out :=
  match s_sends k with
  | [] => (Z.of_nat (length m), Sock (s_in k) (s_out k ++ m) [])
  | None :: l => (-1, Sock (s_in k) (s_out k) l)
  | Some n :: l => let m := take n m in (Z.of_nat (length m), Sock (s_in k) (s_out k ++ m) l)
  end.

(** At most [n] bytes of the next segment. *)
Definition recv (n : Z) k : Z * list In * sock In Out :=
  match s_in k with
  | [] => (0, [], k)
  | None :: l => (-1, [], Sock l (s_out k) (s_sends k))
  | Some seg :: l =>
      let got := take (Z.to_nat n) seg in
      let rest := drop (Z.to_nat n) seg in
      (Z.of_nat (length got), got, Sock (match rest with [] => l | _ => Some rest :: l end) (s_out k) (s_sends k))
  end.
End sockets.

(** ** The handlers *)

(** The globals of the configuration, the datapath, and the connection. *)
Record mgst := mkMg { mg_cf : config; mg_d : dpst; mg_sock : sock Z mbyte }.
Implicit Types (s : mgst) (p q : addr) (lr : pof_local_resource).

Definition set_mg_cf cf s := mkMg cf (mg_d s) (mg_sock s).
Definition set_mg_sock k s := mkMg (mg_cf s) (mg_d s) k.

Section task.
Context (sizeof : rkind -> nat) (system : nat -> sys) (self : Z).

(** The memory of a structure. *)
Definition image (r : reply) : list mbyte := MByte r <$> seq 0 (sizeof (kind_of r)).

(** [send] of a whole structure, [<= 0]. *)
Definition send_fails (r : reply) s : bool * mgst :=
  let '(n, k) := send (image r) (mg_sock s) in (n <=? 0, set_mg_sock k s).

Definition send_one (r : reply) s : St (Z * mgst) :=
  let '(failed, s) := send_fails r s in mret (if failed : bool then POF_ERROR else POF_OK, s).

Definition slots_hm s : option (heap pof_local_resource * hmap) := res_hm (slotMap (d_dp (mg_d s))).
Definition slot_at p s : option pof_local_resource := res_load p (slotMap (d_dp (mg_d s))).

(** [HMAP_NODES_IN_STRUCT_TRAVERSE] over a map, each element sent. *)
Definition send_each {V} (rs : resource V) (mk : V -> reply) s : St (Z * mgst + mgst) :=
  HMAP_NODES_IN_STRUCT_TRAVERSE (fun _ => res_hm rs) (fun q s =>
    v ← lift (res_load q rs);
    let '(failed, s) := send_fails (mk v) s in
    mret (if failed : bool then inl (POF_ERROR, s) else inr s)) s.

(** The text the functions for ports, groups, meters and counters share: the
    number of slots, and for each slot the number of its elements and the elements. *)
Definition send_slots (body : pof_local_resource -> mgst -> St (Z * mgst + mgst)) s : St (Z * mgst) :=
  let '(failed, s) := send_fails (RHead (dp_slotNum (mg_cf s)) (lit "slots")) s in
  if failed : bool then mret (POF_ERROR, s)
  else
    r ← HMAP_NODES_IN_STRUCT_TRAVERSE slots_hm (fun p s => lr ← lift (slot_at p s); body lr s) s;
    mret (match r with inl r => r | inr s => (POF_OK, s) end).

Definition send_elements {V} (disc : String.string) (mk : V -> reply) (rs : resource V) s : St (Z * mgst + mgst) :=
  let '(failed, s) := send_fails (RHead (r_num rs) (lit disc)) s in
  if failed : bool then mret (inl (POF_ERROR, s)) else send_each rs mk s.

Definition listen_help s : St (Z * mgst) := mret (POF_OK, s).
Definition listen_quit s : St (Z * mgst) := mret (POF_OK, s).
Definition listen_exit s : St (Z * mgst) := mret (POF_OK, s).
Definition listen_switch_config s : St (Z * mgst) := send_one (RConfig (poflr_switch_config (dp_device (d_dp (mg_d s))))) s.
Definition listen_switch_feature s : St (Z * mgst) := send_one (RFeature (poflr_switch_feature (dp_device (d_dp (mg_d s))))) s.
Definition listen_table_resource s : St (Z * mgst) := send_one (RTableResource (poflr_table_resource_desc (dp_device (d_dp (mg_d s))))) s.
Definition listen_ports : mgst -> St (Z * mgst) := send_slots (fun lr => send_elements "ports" RPort (lr_ports lr)).
Definition listen_groups : mgst -> St (Z * mgst) := send_slots (fun lr => send_elements "groups" RGroup (lr_groups lr)).
Definition listen_meters : mgst -> St (Z * mgst) := send_slots (fun lr => send_elements "meters" RMeter (lr_meters lr)).
Definition listen_counters : mgst -> St (Z * mgst) := send_slots (fun lr => send_elements "counters" RCounter (lr_counters lr)).

(** The tables of a slot, each followed by its entries. *)
Definition send_tables lr s : St (Z * mgst + mgst) :=
  let '(failed, s) := send_fails (RHead (r_num (lr_tables lr)) (lit "tables")) s in
  if failed : bool then mret (inl (POF_ERROR, s))
  else
    HMAP_NODES_IN_STRUCT_TRAVERSE (fun _ => res_hm (lr_tables lr)) (fun q s =>
      table ← lift (res_load q (lr_tables lr));
      let '(failed, s) := send_fails (RTable table) s in
      if failed : bool then mret (inl (POF_ERROR, s))
      else send_elements "entries" REntry (tb_entries table) s) s.
Definition listen_tables : mgst -> St (Z * mgst) := send_slots send_tables.

(** [POF_STRING_MAX_LEN] bytes of an array of one byte less. *)
Definition listen_version s : St (Z * mgst) :=
  text ← lift (sub_buf (cf_version (mg_cf s)) 0 POF_STRING_MAX_LEN);
  send_one (RVersion text) s.

Definition listen_state s : St (Z * mgst) := send_one (RState (g_states (mg_cf s))) s.
Definition listen_enable_promisc s : St (Z * mgst) :=
  mret (POF_OK, set_mg_cf (state_copy ST_promisc_on (lit "ON") (set_filter promisc (mg_cf s))) s).
Definition listen_disable_promisc s : St (Z * mgst) :=
  mret (POF_OK, set_mg_cf (state_copy ST_promisc_on (lit "OFF") (set_filter no_promisc (mg_cf s))) s).

Definition is_custom (cf : config) : bool := negb (Z.land (pa_portFlag (dp_param cf)) POFLRPF_FROM_CUSTOM =? 0).

(** A function of pof_port.c run on the slot at [p]. *)
Definition on_slot_ports p (f : pmst -> St (Z * pmst)) (d : dpst) : St (Z * dpst) :=
  let ss := slotMap (d_dp d) in
  lr ← lift (res_load p ss);
  '(ret, pm) ← f (pm_of lr d);
  ss ← lift (res_store p (pm_lr pm) ss);
  mret (ret, dp_of ss (dp_device (d_dp d)) pm).

(** The name and the slot of an argument; [atoi] of the second token, if any. *)
Definition name_and_slot (args : list (option (list Z))) : St (option (list Z) * Z) :=
  n ← match default None (args !! 1%nat) with Some a => lift (atoi a) | None => mret POF_SLOT_ID_BASE end;
  mret (default None (args !! 0%nat), u16 n).

(** The argument, a string in its 64 bytes, is split at the comma. *)
Definition split_arg (arg : list Z) s : St (list Z * list (option (list Z)) * mgst) :=
  str ← lift (cstr arg);
  '(args, saved) ← lift (pofbf_split_str (Some str) 44 2 (cf_strtok (mg_cf s)));
  mret (str, args, set_mg_cf (set_strtok (Some saved) (mg_cf s)) s).

(** The code of [poflr_add_port] is not looked at. *)
Definition listen_addport (arg : list Z) s : St (Z * mgst) :=
  if negb (is_custom (mg_cf s)) then mret (POF_ERROR, s)
  else
    '(_, args, s) ← split_arg arg s;
    '(name, slot) ← name_and_slot args;
    found ← lift (pofdp_get_local_resource slot (d_dp (mg_d s)));
    match found with
    | None => mret (POF_ERROR, s)
    | Some p =>
        name ← lift name;
        '(_, d) ← on_slot_ports p (poflr_add_port system name) (mg_d s);
        mret (POF_OK, mkMg (mg_cf s) d (mg_sock s))
    end.

(** [return;] in a function that returns a code leaves it [unspecified]; the port
    deleted is the one [arg] names as it reads after the split. *)
Definition listen_delport (unspecified : Z) (arg : list Z) s : St (Z * mgst) :=
  if negb (is_custom (mg_cf s)) then mret (unspecified, s)
  else
    '(str, args, s) ← split_arg arg s;
    '(_, slot) ← name_and_slot args;
    found ← lift (pofdp_get_local_resource slot (d_dp (mg_d s)));
    match found with
    | None => mret (POF_ERROR, s)
    | Some p =>
        '(_, d) ← on_slot_ports p (poflr_del_port system self (split_source 44 str)) (mg_d s);
        mret (POF_OK, mkMg (mg_cf s) d (mg_sock s))
    end.

Definition listen_test s : St (Z * mgst) := mret (POF_OK, s).
Definition listen_clear_resource s : St (Z * mgst) := mret (POF_OK, s).
Definition listen_enable_debug s : St (Z * mgst) := mret (POF_OK, s).
Definition listen_disable_debug s : St (Z * mgst) := mret (POF_OK, s).
Definition listen_enable_color s : St (Z * mgst) := mret (POF_OK, s).
Definition listen_disable_color s : St (Z * mgst) := mret (POF_OK, s).
Definition listen_memory s : St (Z * mgst) := mret (POF_OK, s).

(** [listen_##STRING(cmdRecv->arg, sockfd, dp)]. *)
Definition listen_cmd (unspecified : Z) (c : usr_cmd) (arg : list Z) : mgst -> St (Z * mgst) :=
  match c with
  | POFUC_help => listen_help | POFUC_quit => listen_quit | POFUC_exit => listen_exit
  | POFUC_switch_config => listen_switch_config | POFUC_switch_feature => listen_switch_feature
  | POFUC_table_resource => listen_table_resource | POFUC_ports => listen_ports | POFUC_tables => listen_tables
  | POFUC_groups => listen_groups | POFUC_meters => listen_meters | POFUC_counters => listen_counters
  | POFUC_version => listen_version | POFUC_state => listen_state
  | POFUC_enable_promisc => listen_enable_promisc | POFUC_disable_promisc => listen_disable_promisc
  | POFUC_addport => listen_addport arg | POFUC_delport => listen_delport unspecified arg
  | POFUC_test => listen_test | POFUC_clear_resource => listen_clear_resource
  | POFUC_enable_debug => listen_enable_debug | POFUC_disable_debug => listen_disable_debug
  | POFUC_enable_color => listen_enable_color | POFUC_disable_color => listen_disable_color | POFUC_memory => listen_memory
  end.

(** ** The loop over the commands of a client *)

(** [recvLen] is unsigned: -1 is not [<= 0], and leaves the cleared buffer, which
    reads as the command [help].  Every round takes a segment or a part of one. *)
Fixpoint recv_commands (unspecified : Z) (fuel : nat) s : St (Z * mgst) :=
  match fuel with
  | O => fault
  | S fuel =>
      let '(n, got, k) := recv sizeof_command (mg_sock s) in
      let s := set_mg_sock k s in
      let recvLen := u32 n in
      if recvLen <=? 0 then mret (POF_OK, s)
      else
        let cmdRecv := got ++ zeros (Z.to_nat sizeof_command - length got) in
        match cmd_of_number (byte_at cmdRecv 0) with
        | None => recv_commands unspecified fuel s
        | Some c =>
            '(ret, s) ← listen_cmd unspecified c (drop 1 cmdRecv) s;
            if negb (ret =? POF_OK) then mret (POF_OK, s) else recv_commands unspecified fuel s
        end
  end.

Definition segments_left {A} (l : list (option (list A))) : nat :=
  fold_right (fun seg n => (1 + match seg with Some b => length b | None => 0 end + n)%nat) 0%nat l.
Definition listenRecv (unspecified : Z) s : St (Z * mgst) := recv_commands unspecified (S (segments_left (s_in (mg_sock s)))) s.

(** ** The task *)

(** The clients that connect, one after the other; [None] when [accept] fails and
    the task returns.  With no client left the task waits: it has no code. *)
Fixpoint accept_loop (unspecified : Z) (clients : list (option (sock Z mbyte))) s : St (option Z * mgst) :=
  match clients with
  | [] => mret (None, s)
  | None :: _ => mret (Some POF_OK, s)
  | Some k :: clients =>
      '(_, s) ← listenRecv unspecified (set_mg_sock k s);
      accept_loop unspecified clients s
  end.

(** [sock_ok], [bind_ok], [listen_ok]: whether [socket], [setsockopt] with [bind],
    and [listen] succeed; a failure ends the program. *)
Definition pof_switch_listen_task (unspecified : Z) (sock_ok bind_ok listen_ok : bool) (clients : list (option (sock Z mbyte))) s
  : St (run (option Z * mgst)) :=
  if negb (sock_ok && bind_ok && listen_ok) then mret Exit
  else r ← accept_loop unspecified clients s; mret (Next r).
End task.
