(* ===== verification/Sctrl.v ===== *)
(** * The client pofsctrl (switch_control/pof_sctrl.c)

    A program of its own: it reads command lines, sends the commands to the
    listening task of the switch and prints the structures that come back.  What
    it prints is recorded as the bytes it received for a structure. *)

From S2P Require Import Prelude Codec Env Hmap IdMap LocalRes PortMgr Boot Text Config Listen.
From Stdlib Require String.
Import String.StringSyntax.
#[local] Open Scope string_scope.

(** ** State *)

Definition SCTRL_OK : Z := 0.
Definition SCTRL_QUIT : Z := 1.
Definition SCTRL_RECONN : Z := 2.
Definition SCTRL_ERROR : Z := 3.

(** Standard input, the connection, what has been printed. *)
Record ctst := mkCt { ct_stdin : list Z; ct_sock : sock mbyte Z; ct_printed : list (rkind * list mbyte) }.
Implicit Types (s : ctst).

Definition set_ct_sock k s := mkCt (ct_stdin s) k (ct_printed s).
Definition set_ct_stdin l s := mkCt l (ct_sock s) (ct_printed s).
Definition print (k : rkind) (b : list mbyte) s := mkCt (ct_stdin s) (ct_sock s) (ct_printed s ++ [(k, b)]).

Section client.
Context (sizeof : rkind -> nat).

(** ** Exchanges *)

(** [recvLen] is unsigned: an error is no more [<= 0]. *)
Definition cmdRecv (kind : rkind) s : Z * list mbyte * ctst :=
  let structLen := Z.of_nat (sizeof kind) in
  let '(n, got, k) := recv structLen (ct_sock s) in
  let s := set_ct_sock k s in
  let recvLen := u32 n in
  (if recvLen <=? 0 then SCTRL_RECONN else if negb (recvLen =? u32 structLen) then SCTRL_ERROR else SCTRL_OK, got, s).

(** [struct command] with the argument in its array. *)
Definition command_bytes (c : usr_cmd) (arg : list Z) : list Z := number_of_cmd c :: strncpy arg (Z.to_nat ARG_LEN).
Definition cmdSend (cmd : list Z) s : Z * ctst :=
  let '(n, k) := send cmd (ct_sock s) in (if n <=? 0 then SCTRL_RECONN else SCTRL_OK, set_ct_sock k s).

(** The [count] of a [responseHead] in memory, its first four bytes. *)
Definition count_in (b : list mbyte) : option Z :=
  match b with
  | MByte (RHead a _) 0 :: MByte (RHead b _) 1 :: MByte (RHead c _) 2 :: MByte (RHead d _) 3 :: _ =>
      if (a =? b) && (a =? c) && (a =? d) then Some a else None
  | _ => None
  end.

(** A loop of [n] rounds that ends with the first code that is not [SCTRL_OK]. *)
Fixpoint times (n : nat) (body : ctst -> option (Z * ctst)) s : option (Z * ctst) :=
  match n with
  | O => Some (SCTRL_OK, s)
  | S n => '(ret, s) ← body s; if negb (ret =? SCTRL_OK) then Some (ret, s) else times n body s
  end.

(** [cmdSend], then one [cmdRecv]; each of the functions below begins so. *)
Definition ask_for (c : usr_cmd) (kind : rkind) (k : list mbyte -> ctst -> option (Z * ctst)) s : option (Z * ctst) :=
  let '(ret, s) := cmdSend (command_bytes c []) s in
  if negb (ret =? SCTRL_OK) then Some (ret, s)
  else
    let '(ret, b, s) := cmdRecv kind s in
    if negb (ret =? SCTRL_OK) then Some (ret, s) else k b s.

(** One structure received and printed. *)
Definition recv_print (kind : rkind) s : option (Z * ctst) :=
  let '(ret, b, s) := cmdRecv kind s in
  if negb (ret =? SCTRL_OK) then Some (ret, s) else Some (SCTRL_OK, print kind b s).

(** A head received, and [body] for each of the elements it counts. *)
Definition recv_counted (body : ctst -> option (Z * ctst)) s : option (Z * ctst) :=
  let '(ret, b, s) := cmdRecv KHead s in
  if negb (ret =? SCTRL_OK) then Some (ret, s) else n ← count_in b; times (Z.to_nat n) body s.

Definition cmd_one (c : usr_cmd) (kind : rkind) : ctst -> option (Z * ctst) :=
  ask_for c kind (fun b s => Some (SCTRL_OK, print kind b s)).
Definition cmd_list (c : usr_cmd) (body : ctst -> option (Z * ctst)) : ctst -> option (Z * ctst) :=
  ask_for c KHead (fun b s => n ← count_in b; times (Z.to_nat n) body s).

Definition cmd_help s : option (Z * ctst) := Some (SCTRL_OK, s).
Definition cmd_quit s : option (Z * ctst) := Some (SCTRL_QUIT, s).
Definition cmd_exit s : option (Z * ctst) := Some (SCTRL_QUIT, s).
Definition cmd_switch_config := cmd_one POFUC_switch_config KConfig.
Definition cmd_switch_feature := cmd_one POFUC_switch_feature KFeature.
Definition cmd_table_resource := cmd_one POFUC_table_resource KTableResource.
Definition cmd_ports := cmd_list POFUC_ports (recv_counted (recv_print KPort)).
Definition cmd_groups := cmd_list POFUC_groups (recv_counted (recv_print KGroup)).
Definition cmd_meters := cmd_list POFUC_meters (recv_counted (recv_print KMeter)).
Definition cmd_counters := cmd_list POFUC_counters (recv_counted (recv_print KCounter)).

(** One table: the table, then its entries. *)
Definition recv_table s : option (Z * ctst) :=
  '(ret, s) ← recv_print KTable s;
  if negb (ret =? SCTRL_OK) then Some (ret, s) else recv_counted (recv_print KEntry) s.
Definition cmd_tables := cmd_list POFUC_tables (recv_counted recv_table).

Definition cmd_version := cmd_one POFUC_version KVersion.
Definition cmd_state := cmd_one POFUC_state KState.
Definition cmd_enable_promisc s : option (Z * ctst) := Some (cmdSend (command_bytes POFUC_enable_promisc []) s).
Definition cmd_disable_promisc s : option (Z * ctst) := Some (cmdSend (command_bytes POFUC_disable_promisc []) s).

Definition cmd_with_arg (c : usr_cmd) (arg : option (list Z)) s : option (Z * ctst) :=
  match arg with None => Some (SCTRL_OK, s) | Some a => Some (cmdSend (command_bytes c a) s) end.
Definition cmd_addport := cmd_with_arg POFUC_addport.
Definition cmd_delport := cmd_with_arg POFUC_delport.

Definition cmd_test s : option (Z * ctst) := Some (SCTRL_OK, s).
Definition cmd_clear_resource s : option (Z * ctst) := Some (SCTRL_OK, s).
Definition cmd_enable_debug s : option (Z * ctst) := Some (SCTRL_OK, s).
Definition cmd_disable_debug s : option (Z * ctst) := Some (SCTRL_OK, s).
Definition cmd_enable_color s : option (Z * ctst) := Some (SCTRL_OK, s).
Definition cmd_disable_color s : option (Z * ctst) := Some (SCTRL_OK, s).
Definition cmd_memory s : option (Z * ctst) := Some (SCTRL_OK, s).

Definition cmd_cmd (c : usr_cmd) (arg : option (list Z)) : ctst -> option (Z * ctst) :=
  match c with
  | POFUC_help => cmd_help | POFUC_quit => cmd_quit | POFUC_exit => cmd_exit
  | POFUC_switch_config => cmd_switch_config | POFUC_switch_feature => cmd_switch_feature
  | POFUC_table_resource => cmd_table_resource | POFUC_ports => cmd_ports | POFUC_tables => cmd_tables
  | POFUC_groups => cmd_groups | POFUC_meters => cmd_meters | POFUC_counters => cmd_counters
  | POFUC_version => cmd_version | POFUC_state => cmd_state
  | POFUC_enable_promisc => cmd_enable_promisc | POFUC_disable_promisc => cmd_disable_promisc
  | POFUC_addport => cmd_addport arg | POFUC_delport => cmd_delport arg
  | POFUC_test => cmd_test | POFUC_clear_resource => cmd_clear_resource
  | POFUC_enable_debug => cmd_enable_debug | POFUC_disable_debug => cmd_disable_debug
  | POFUC_enable_color => cmd_enable_color | POFUC_disable_color => cmd_disable_color | POFUC_memory => cmd_memory
  end.

(** ** Command lines *)

Definition cmdGet (arg : option (list Z)) s : option (Z * option (list Z) * ctst) :=
  match fgets POF_CMD_STR_LEN (ct_stdin s) with
  | None => Some (POF_CMD_WRONG, arg, s)
  | Some (line, rest) => '(t, arg) ← parse_line line; Some (t, arg, set_ct_stdin rest s)
  end.

(** Every round takes a character, until the input ends: then the loop goes on
    for ever, which no fuel is enough for. *)
Fixpoint cmd_loop (fuel : nat) (arg : option (list Z)) s : option (Z * ctst) :=
  match fuel with
  | O => None
  | S fuel =>
      '(cmdType, arg, s) ← cmdGet arg s;
      if (cmdType =? number_of_cmd POFUC_quit) || (cmdType =? number_of_cmd POFUC_exit) then Some (SCTRL_QUIT, s)
      else
        match cmd_of_number cmdType with
        | None => cmd_loop fuel arg s
        | Some c => '(ret, s) ← cmd_cmd c arg s; if negb (ret =? SCTRL_OK) then Some (ret, s) else cmd_loop fuel arg s
        end
  end.
Definition cmd s : option (Z * ctst) := cmd_loop (S (length (ct_stdin s))) None s.

(** ** The program *)

Record pofsctrl := mkSctrl { sc_ip : list Z (* 20 *); sc_port : Z }.
Definition initial_sctrl : pofsctrl := mkSctrl (strncpy (lit "127.0.0.1") (Z.to_nat POF_IP_ADDRESS_STRING_LEN)) 6634.

(** [opt_version], [opt_test] and [opt_help] print and end the program. *)
Definition opt_version (p : pofsctrl) : run (Z * pofsctrl) := Exit.
Definition opt_test (p : pofsctrl) : run (Z * pofsctrl) := Exit.
Definition opt_help (p : pofsctrl) : run (Z * pofsctrl) := Exit.
Definition opt_listen_port (optarg : option (list Z)) (p : pofsctrl) : option (run (Z * pofsctrl)) :=
  match optarg with
  | None => Some (Next (POF_ERROR, p))
  | Some a => n ← atoi a; Some (Next (POF_OK, mkSctrl (sc_ip p) (u16 n)))
  end.
Definition opt_ip_addr (optarg : option (list Z)) (p : pofsctrl) : option (run (Z * pofsctrl)) :=
  match optarg with
  | None => Some (Next (POF_ERROR, p))
  | Some a => Some (Next (POF_OK, mkSctrl (strncpy a (Z.to_nat POF_IP_ADDRESS_STRING_LEN)) (sc_port p)))
  end.

(** [OPTIONS]; ['?'] ends the program, and so does a failed option, by [opt_help]. *)
Fixpoint runOption (opts : list (list Z * option (list Z))) (p : pofsctrl) : option (run pofsctrl) :=
  match opts with
  | [] => Some (Next p)
  | (ch, optarg) :: opts =>
      r ← (if bool_decide (ch = lit "?") then Some Exit
           else if bool_decide (ch = lit "i") then opt_ip_addr optarg p
           else if bool_decide (ch = lit "L") then opt_listen_port optarg p
           else if bool_decide (ch = lit "t") then Some (opt_test p)
           else if bool_decide (ch = lit "h") then Some (opt_help p)
           else if bool_decide (ch = lit "v") then Some (opt_version p)
           else Some (Next (POF_OK, p)));
      match r with
      | Exit => Some Exit
      | Next (ret, p) => if negb (ret =? POF_OK) then Some Exit else runOption opts p
      end
  end.

(** The loop of [main]: [connects] is what the coming calls of [connect] give,
    [None] for a failure; with none left the client tries for ever. *)
Fixpoint connect_loop (connects : list (option (sock mbyte Z))) s : option (Z * ctst) :=
  match connects with
  | [] => None
  | None :: connects => connect_loop connects s
  | Some k :: connects =>
      '(ret, s) ← cmd (set_ct_sock k s);
      if (ret =? SCTRL_QUIT) || (ret =? SCTRL_ERROR) then Some (POF_OK, s) else connect_loop connects s
  end.

(** [runOption] ends without a [return]: [unspecified] is what [main] sees.
    [sock_ok]: whether [socket] succeeds. *)
Definition main (unspecified : Z) (sock_ok : bool) (opts : list (list Z * option (list Z))) (connects : list (option (sock mbyte Z))) s
  : option (run (Z * ctst)) :=
  r ← runOption opts initial_sctrl;
  match r with
  | Exit => Some Exit
  | Next _ =>
      if (unspecified =? POF_ERROR) || negb sock_ok then Some Exit
      else r ← connect_loop connects s; Some (Next r)
  end.
End client.
