(* ===== verification/ListenSpec.v ===== *)
(** * A session of pofsctrl with the switch

    The two programs meet only in the order and the sizes of the structures they
    exchange.  When every structure arrives whole, a listing command of the client
    is answered by exactly the structures it expects, and it prints the elements
    of every slot once, whatever the order of the maps. *)

From S2P Require Import Prelude Codec Env Hmap IdMap DList Tree LocalRes ByteTransfer Port Counter Meter Group FlowEntry FlowTable FlowSpec FlowOps TableOps Slot Parse ParseSpec PortMgr PortSpec Boot EnumSpec Text Config Listen Sctrl.
From Stdlib Require String.
Import String.StringSyntax.
#[local] Open Scope string_scope.

Section session.
Context (sizeof : rkind -> nat) (system : nat -> sys) (self : Z).
(** The sizes of the structures; [responseHead] is four bytes and a text. *)
Hypothesis sizes : forall k, (0 < sizeof k)%nat /\ Z.of_nat (sizeof k) < 4294967296.
Hypothesis head_size : sizeof KHead = 104%nat.

Definition images (rs : list reply) : list mbyte := concat (image sizeof <$> rs).

Lemma images_app a b : images (a ++ b) = images a ++ images b.
Proof. unfold images. now rewrite fmap_app, concat_app. Qed.

Lemma length_image r : length (image sizeof r) = sizeof (kind_of r).
Proof. unfold image. now rewrite length_fmap, length_seq. Qed.

(** ** The server *)

Implicit Types (s : mgst) (lr : pof_local_resource) (p : addr).

(** [s] after more structures have been sent. *)
Definition sent s (rs : list reply) : mgst := set_mg_sock (Sock (s_in (mg_sock s)) (s_out (mg_sock s) ++ images rs) []) s.

Lemma sent_sent s a b : sent (sent s a) b = sent s (a ++ b).
Proof. unfold sent. cbn. now rewrite images_app, app_assoc. Qed.

Lemma send_ok r s : s_sends (mg_sock s) = [] -> send_fails sizeof r s = (false, sent s [r]).
Proof.
  intros E. unfold send_fails, send. rewrite E. unfold sent, images. cbn [fmap list_fmap concat]. rewrite app_nil_r, length_image.
  destruct (sizes (kind_of r)) as [H _]. rewrite (proj2 (Z.leb_gt _ _)) by lia. reflexivity.
Qed.

(** A loop over a map whose body sends [out v] for each element [v]. *)
Lemma traverse_sends {V} (rs : resource V) hm body (out : V -> list reply -> Prop) s e :
  counted rs -> s_sends (mg_sock s) = [] -> (forall s', mg_d s' = mg_d s -> hm s' = res_hm rs) ->
  (forall p v s', res_load p rs = Some v -> mg_d s' = mg_d s -> s_sends (mg_sock s') = [] ->
     exists r, out v r /\ body p s' e = Some (inr (sent s' r), e)) ->
  exists vs rss, enumerates rs vs /\ length vs = size (r_heap rs) /\ Forall2 out vs rss /\
    HMAP_NODES_IN_STRUCT_TRAVERSE (R := Z * mgst) hm body s e = Some (inr (sent s (concat rss)), e).
Proof.
  intros Ok Es Hm Hb.
  apply (traverse_emits rs hm body sent (fun s' => mg_d s' = mg_d s /\ s_sends (mg_sock s') = []) out s e (cd_map _ Ok)).
  - unfold sent, images. cbn. rewrite app_nil_r, <- Es. destruct s as [? ? []]. done.
  - intros a b. apply sent_sent.
  - done.
  - intros s' [Ed _]. now apply Hm.
  - intros p v s' Hl [Ed Es']. now apply (Hb p v s').
Qed.

(** What is sent for the elements of a map. *)
Definition elements {V} (disc : String.string) (mk : V -> reply) (rs : resource V) (out : list reply) : Prop :=
  exists vs, enumerates rs vs /\ out = RHead (Z.of_nat (length vs)) (lit disc) :: (mk <$> vs).

Lemma send_elements_ok {V} disc (mk : V -> reply) (rs : resource V) s e : counted rs -> s_sends (mg_sock s) = [] ->
  exists out, elements disc mk rs out /\ send_elements sizeof disc mk rs s e = Some (inr (sent s out), e).
Proof.
  intros Ok Es. pose proof (cd_num _ Ok) as Nm. unfold send_elements. rewrite send_ok by exact Es.
  destruct (traverse_sends rs (fun _ => res_hm rs) (fun q s => v ← lift (res_load q rs); let '(failed, s) := send_fails sizeof (mk v) s in
      mret (if failed : bool then inl (POF_ERROR, s) else inr s)) (fun v r => r = [mk v]) (sent s [RHead (r_num rs) (lit disc)]) e Ok)
    as (vs & rss & En & Ln & F & E); [done|done| |].
  - intros p v s' Hl _ Es'. exists [mk v]. split; [done|]. rewrite run_bind, Hl. cbn [lift]. rewrite send_ok by exact Es'. reflexivity.
  - exists (RHead (r_num rs) (lit disc) :: (mk <$> vs)). split; [exists vs; split; [exact En|]; now rewrite Nm, Ln|].
    unfold send_each. rewrite E, sent_sent. cbn [app]. do 4 f_equal. f_equal. clear - F.
    induction F as [|v r vs rss -> _ IH]; [done|]. cbn. now rewrite IH.
Qed.
(** The tables of a slot with their entries. *)
Definition tables_out lr (out : list reply) : Prop :=
  exists ts outs, enumerates (lr_tables lr) ts /\ Forall2 (fun t o => exists o', elements "entries" REntry (tb_entries t) o' /\ o = RTable t :: o') ts outs /\
    out = RHead (Z.of_nat (length ts)) (lit "tables") :: concat outs.

Lemma send_tables_ok lr s e : counted (lr_tables lr) -> (forall p t, res_load p (lr_tables lr) = Some t -> counted (tb_entries t)) ->
  s_sends (mg_sock s) = [] -> exists out, tables_out lr out /\ send_tables sizeof lr s e = Some (inr (sent s out), e).
Proof.
  intros Ok Hen Es. unfold send_tables. rewrite send_ok by exact Es.
  destruct (traverse_sends (lr_tables lr) (fun _ => res_hm (lr_tables lr)) (fun q s => table ← lift (res_load q (lr_tables lr));
      let '(failed, s) := send_fails sizeof (RTable table) s in
      if failed : bool then mret (inl (POF_ERROR, s)) else send_elements sizeof "entries" REntry (tb_entries table) s)
    (fun t o => exists o', elements "entries" REntry (tb_entries t) o' /\ o = RTable t :: o') (sent s [RHead (r_num (lr_tables lr)) (lit "tables")]) e Ok)
    as (ts & outs & En & Ln & F & E); [done|done| |].
  - intros p t s' Hl _ Es'. destruct (send_elements_ok "entries" REntry (tb_entries t) (sent s' [RTable t]) e (Hen p t Hl) eq_refl) as (o & Ho & E).
    exists (RTable t :: o). split; [eauto|]. rewrite run_bind, Hl. cbn [lift]. rewrite send_ok by exact Es'. rewrite E, sent_sent. reflexivity.
  - exists (RHead (r_num (lr_tables lr)) (lit "tables") :: concat outs). split.
    + exists ts, outs. split; [exact En|]. split; [exact F|]. now rewrite (cd_num _ Ok), Ln.
    + rewrite E, sent_sent. reflexivity.
Qed.

(** Every map of a slot counts its elements. *)
Record slot_counted lr : Prop := {
  sc_ports : counted (lr_ports lr);
  sc_groups : counted (lr_groups lr);
  sc_meters : counted (lr_meters lr);
  sc_counters : counted (lr_counters lr);
  sc_tables : counted (lr_tables lr);
  sc_entries : forall p t, res_load p (lr_tables lr) = Some t -> counted (tb_entries t)
}.

(** The listing commands, and what is sent for a slot. *)
Definition slot_sends (c : usr_cmd) lr : list reply -> Prop :=
  match c with
  | POFUC_ports => elements "ports" RPort (lr_ports lr)
  | POFUC_groups => elements "groups" RGroup (lr_groups lr)
  | POFUC_meters => elements "meters" RMeter (lr_meters lr)
  | POFUC_counters => elements "counters" RCounter (lr_counters lr)
  | POFUC_tables => tables_out lr
  | _ => fun _ => False
  end.
Definition listing : list usr_cmd := [POFUC_ports; POFUC_tables; POFUC_groups; POFUC_meters; POFUC_counters].

Lemma send_slots_ok body out s e : counted (slotMap (d_dp (mg_d s))) -> dp_slotNum (mg_cf s) = r_num (slotMap (d_dp (mg_d s))) ->
  s_sends (mg_sock s) = [] ->
  (forall p lr s', slot_at p s = Some lr -> s_sends (mg_sock s') = [] -> exists o, out lr o /\ body lr s' e = Some (inr (sent s' o), e)) ->
  exists lrs outs, enumerates (slotMap (d_dp (mg_d s))) lrs /\ Forall2 out lrs outs /\
    send_slots sizeof body s e = Some ((POF_OK, sent s (RHead (Z.of_nat (length lrs)) (lit "slots") :: concat outs)), e).
Proof.
  intros Ok Nm Es Hb. unfold send_slots. rewrite send_ok by exact Es.
  destruct (traverse_sends (slotMap (d_dp (mg_d s))) slots_hm (fun p s => lr ← lift (slot_at p s); body lr s) out
      (sent s [RHead (dp_slotNum (mg_cf s)) (lit "slots")]) e Ok) as (lrs & outs & En & Ln & F & E); [done| | |].
  - intros s' Ed. unfold slots_hm. now rewrite Ed.
  - intros p lr s' Hl Ed Es'. destruct (Hb p lr s' Hl Es') as (o & Ho & E). exists o. split; [exact Ho|].
    rewrite run_bind. unfold slot_at. rewrite Ed. change (mg_d (sent s _)) with (mg_d s). rewrite Hl. cbn [lift]. exact E.
  - exists lrs, outs. split; [exact En|]. split; [exact F|]. rewrite run_bind, E, sent_sent. cbn [app]. rewrite Nm, (cd_num _ Ok), Ln. reflexivity.
Qed.

Lemma listing_sends c unspecified arg s e : c ∈ listing -> counted (slotMap (d_dp (mg_d s))) ->
  dp_slotNum (mg_cf s) = r_num (slotMap (d_dp (mg_d s))) -> (forall p lr, slot_at p s = Some lr -> slot_counted lr) -> s_sends (mg_sock s) = [] ->
  exists lrs outs, enumerates (slotMap (d_dp (mg_d s))) lrs /\ Forall2 (slot_sends c) lrs outs /\
    listen_cmd sizeof system self unspecified c arg s e = Some ((POF_OK, sent s (RHead (Z.of_nat (length lrs)) (lit "slots") :: concat outs)), e).
Proof.
  intros Hc Ok Nm Hs Es. unfold listing in Hc. rewrite !elem_of_cons, elem_of_nil in Hc.
  destruct_or! Hc; try done; subst c; cbn [listen_cmd slot_sends]; apply send_slots_ok; try done; intros p lr s' Hl Es';
    first [apply send_elements_ok|apply send_tables_ok]; try exact Es'; apply (Hs p lr Hl).
Qed.

(** ** The client *)

Implicit Types (k : sock mbyte Z) (t : ctst) (r : reply) (o : list reply).

(** What is to arrive: whole structures, any number of them in a segment. *)
Definition arrives (groups : list (list reply)) : list (option (list mbyte)) := (fun g => Some (images g)) <$> groups.
Definition stream k (rs : list reply) : Prop :=
  exists groups, Forall (fun g => g <> []) groups /\ concat groups = rs /\ s_in k = arrives groups.

Lemma stream_nil k : stream k [] -> s_in k = [].
Proof. intros (groups & F & E & ->). destruct F as [|g gs Hg _]; [done|]. now destruct g. Qed.

Lemma recv_stream k r rs : stream k (r :: rs) ->
  exists k', recv (Z.of_nat (sizeof (kind_of r))) k = (Z.of_nat (sizeof (kind_of r)), image sizeof r, k') /\
    stream k' rs /\ s_out k' = s_out k /\ s_sends k' = s_sends k.
Proof.
  intros (groups & F & E & Ei). destruct F as [|g gs Hg F]; [discriminate|]. destruct g as [|r' g]; [done|]. injection E as -> E.
  unfold recv. rewrite Ei. cbn [arrives fmap list_fmap]. rewrite Nat2Z.id.
  change (images (r :: g)) with (image sizeof r ++ images g). rewrite take_app_length', drop_app_length' by (symmetry; apply length_image). rewrite length_image.
  eexists. split; [reflexivity|]. split; [|done]. destruct g as [|r2 g].
  - exists gs. auto.
  - exists ((r2 :: g) :: gs). split; [now constructor|]. split; [exact E|]. cbn [s_in].
    assert (images (r2 :: g) <> []) as Hn.
    { intros H. apply (f_equal length) in H. unfold images in H. cbn in H. rewrite length_app, length_image in H. destruct (sizes (kind_of r2)) as [? _]. cbn in H. lia. }
    destruct (images (r2 :: g)) as [|b bs] eqn:Eb; [done|]. cbn [arrives fmap list_fmap]. now rewrite Eb.
Qed.

Lemma recv_whole r rs t : stream (ct_sock t) (r :: rs) ->
  exists t', cmdRecv sizeof (kind_of r) t = (SCTRL_OK, image sizeof r, t') /\ stream (ct_sock t') rs /\
    s_out (ct_sock t') = s_out (ct_sock t) /\ ct_stdin t' = ct_stdin t /\ ct_printed t' = ct_printed t.
Proof.
  intros S. destruct (recv_stream _ r rs S) as (k' & E & S' & O & _). destruct (sizes (kind_of r)) as [H1 H2].
  exists (set_ct_sock k' t). unfold cmdRecv. rewrite E. rewrite u32_small by lia. rewrite (proj2 (Z.leb_gt _ _)), Z.eqb_refl by lia. done.
Qed.

(** The structures printed: all but the heads. *)
Definition prints o : list (rkind * list mbyte) :=
  (fun r => (kind_of r, image sizeof r)) <$> filter (fun r => kind_of r <> KHead) o.

Lemma prints_app a b : prints (a ++ b) = prints a ++ prints b.
Proof. unfold prints. now rewrite filter_app, fmap_app. Qed.

(** [body] takes exactly the structures [o] from the connection and prints them. *)
Definition reads (body : ctst -> option (Z * ctst)) o : Prop :=
  forall t rest, stream (ct_sock t) (o ++ rest) -> exists t', body t = Some (SCTRL_OK, t') /\ stream (ct_sock t') rest /\
    s_out (ct_sock t') = s_out (ct_sock t) /\ ct_stdin t' = ct_stdin t /\ ct_printed t' = ct_printed t ++ prints o.

Lemma reads_print r : kind_of r <> KHead -> reads (recv_print sizeof (kind_of r)) [r].
Proof.
  intros Hk t rest S. destruct (recv_whole r rest t S) as (t1 & E & S1 & O1 & I1 & P1).
  exists (print (kind_of r) (image sizeof r) t1). unfold recv_print. rewrite E. cbn [Z.eqb SCTRL_OK negb]. split; [reflexivity|].
  split; [exact S1|]. split; [exact O1|]. split; [exact I1|]. cbn [print ct_printed]. rewrite P1. unfold prints. rewrite filter_cons_True by done. reflexivity.
Qed.

Lemma reads_times body os : Forall (reads body) os -> reads (times (length os) body) (concat os).
Proof.
  induction 1 as [|o os Ho _ IH]; intros t rest S; cbn [length times concat] in *.
  - exists t. unfold prints. cbn. rewrite app_nil_r. auto.
  - rewrite <- app_assoc in S. destruct (Ho t _ S) as (t1 & E1 & S1 & O1 & I1 & P1). rewrite E1. cbn [mbind option_bind Z.eqb SCTRL_OK negb].
    destruct (IH t1 rest S1) as (t2 & E2 & S2 & O2 & I2 & P2). exists t2. split; [exact E2|]. split; [exact S2|].
    split; [congruence|]. split; [congruence|]. now rewrite P2, P1, prints_app, app_assoc.
Qed.

Lemma count_image n d : count_in (image sizeof (RHead n d)) = Some n.
Proof. unfold image. cbn [kind_of]. rewrite head_size. cbn. now rewrite Z.eqb_refl. Qed.

Lemma reads_counted body os d : Forall (reads body) os -> reads (recv_counted sizeof body) (RHead (Z.of_nat (length os)) d :: concat os).
Proof.
  intros F t rest S. destruct (recv_whole (RHead (Z.of_nat (length os)) d) _ t S) as (t1 & E1 & S1 & O1 & I1 & P1).
  unfold recv_counted. cbn [kind_of] in E1. rewrite E1. cbn [Z.eqb SCTRL_OK negb]. rewrite count_image. cbn [mbind option_bind]. rewrite Nat2Z.id.
  destruct (reads_times body os F t1 rest S1) as (t2 & E2 & S2 & O2 & I2 & P2). exists t2. split; [exact E2|]. split; [exact S2|].
  split; [congruence|]. split; [congruence|]. rewrite P2, P1. reflexivity.
Qed.

Lemma concat_singles {A} (l : list A) : concat ((fun x => [x]) <$> l) = l.
Proof. induction l as [|x l IH]; [done|]. cbn. now rewrite IH. Qed.

Lemma elements_read {V} disc (mk : V -> reply) (rs : resource V) kind o : (forall v, kind_of (mk v) = kind) -> kind <> KHead ->
  elements disc mk rs o -> reads (recv_counted sizeof (recv_print sizeof kind)) o.
Proof.
  intros Hk Hh (vs & _ & ->). pose proof (reads_counted (recv_print sizeof kind) ((fun r => [r]) <$> (mk <$> vs)) (lit disc)) as H.
  rewrite !length_fmap, concat_singles in H. apply H. apply Forall_fmap, Forall_fmap, Forall_true. intros v. cbn. rewrite <- (Hk v) in *. now apply reads_print.
Qed.

Lemma tables_read lr o : tables_out lr o -> reads (recv_counted sizeof (recv_table sizeof)) o.
Proof.
  intros (ts & outs & _ & F & ->). rewrite (Forall2_length _ _ _ F). apply reads_counted.
  clear - F sizes head_size. induction F as [|tb o ts outs (o' & Ho & ->) _ IH]; constructor; [|exact IH]. intros t rest S.
  destruct (reads_print (RTable tb) ltac:(done) t (o' ++ rest) S) as (t1 & E1 & S1 & O1 & I1 & P1).
  destruct (elements_read "entries" REntry (tb_entries tb) KEntry o' (fun _ => eq_refl) ltac:(done) Ho t1 rest S1) as (t2 & E2 & S2 & O2 & I2 & P2).
  exists t2. unfold recv_table. cbn [kind_of] in E1. rewrite E1. cbn [mbind option_bind Z.eqb SCTRL_OK negb]. split; [exact E2|]. split; [exact S2|].
  split; [congruence|]. split; [congruence|]. change (RTable tb :: o') with ([RTable tb] ++ o'). rewrite prints_app, app_assoc, <- P1. exact P2.
Qed.

(** The listing command of the client takes what the server sends for the slots. *)
Lemma listing_read c lrs outs t : c ∈ listing -> Forall2 (slot_sends c) lrs outs ->
  stream (ct_sock t) (RHead (Z.of_nat (length lrs)) (lit "slots") :: concat outs) -> s_sends (ct_sock t) = [] ->
  exists t', cmd_cmd sizeof c None t = Some (SCTRL_OK, t') /\ s_in (ct_sock t') = [] /\
    s_out (ct_sock t') = s_out (ct_sock t) ++ command_bytes c [] /\ ct_stdin t' = ct_stdin t /\
    ct_printed t' = ct_printed t ++ prints (concat outs).
Proof.
  intros Hc F S Es.
  assert (exists body, cmd_cmd sizeof c None = cmd_list sizeof c body /\ Forall (reads body) outs) as (body & -> & Fr).
  { unfold listing in Hc. rewrite !elem_of_cons, elem_of_nil in Hc.
    destruct_or! Hc; try done; subst c; eexists; (split; [reflexivity|]); clear - F sizes head_size; induction F as [|lr o lrs outs Ho _ IH];
      constructor; try exact IH; first [apply (tables_read lr), Ho|eapply elements_read; [|done|exact Ho]; done]. }
  unfold cmd_list, ask_for, cmdSend, send. rewrite Es. cbn [length command_bytes]. 
  rewrite (proj2 (Z.leb_gt _ _)) by lia. cbn [Z.eqb SCTRL_OK negb].
  set (t1 := set_ct_sock _ t). destruct (recv_whole (RHead (Z.of_nat (length lrs)) (lit "slots")) (concat outs) t1 S) as (t2 & E2 & S2 & O2 & I2 & P2).
  cbn [kind_of] in E2. rewrite E2. cbn [Z.eqb SCTRL_OK negb]. rewrite count_image. cbn [mbind option_bind]. rewrite Nat2Z.id, (Forall2_length _ _ _ F).
  destruct (reads_times body outs Fr t2 []) as (t3 & E3 & S3 & O3 & I3 & P3); [now rewrite app_nil_r|].
  exists t3. split; [exact E3|]. split; [now apply stream_nil|]. split; [now rewrite O3, O2|]. split; [now rewrite I3, I2|]. now rewrite P3, P2.
Qed.

(** ** A session *)

(** What a listing prints for a slot. *)
Definition all_printed {V} (mk : V -> reply) (rs : resource V) (ps : list (rkind * list mbyte)) : Prop :=
  exists vs, enumerates rs vs /\ ps = (fun v => (kind_of (mk v), image sizeof (mk v))) <$> vs.
Definition table_printed (tb : tableInfo) (ps : list (rkind * list mbyte)) : Prop :=
  exists es, all_printed REntry (tb_entries tb) es /\ ps = (KTable, image sizeof (RTable tb)) :: es.
Definition slot_printed (c : usr_cmd) lr (ps : list (rkind * list mbyte)) : Prop :=
  match c with
  | POFUC_ports => all_printed RPort (lr_ports lr) ps
  | POFUC_groups => all_printed RGroup (lr_groups lr) ps
  | POFUC_meters => all_printed RMeter (lr_meters lr) ps
  | POFUC_counters => all_printed RCounter (lr_counters lr) ps
  | POFUC_tables => exists ts pss, enumerates (lr_tables lr) ts /\ Forall2 table_printed ts pss /\ ps = concat pss
  | _ => False
  end.

Lemma elements_prints {V} disc (mk : V -> reply) (rs : resource V) o : (forall v, kind_of (mk v) <> KHead) ->
  elements disc mk rs o -> all_printed mk rs (prints o).
Proof.
  intros Hk (vs & En & ->). exists vs. split; [exact En|]. unfold prints. rewrite filter_cons_False by (intros H; now apply H).
  clear En. induction vs as [|v vs IH]; [done|]. cbn [fmap list_fmap]. rewrite filter_cons_True by apply Hk. cbn [fmap list_fmap]. now rewrite IH.
Qed.

Lemma slot_prints c lr o : slot_sends c lr o -> slot_printed c lr (prints o).
Proof.
  destruct c; cbn [slot_sends slot_printed]; try done; try (apply elements_prints; done).
  intros (ts & outs & En & F & ->). exists ts, (prints <$> outs). split; [exact En|]. split.
  - apply Forall2_fmap_r. eapply Forall2_impl; [exact F|]. intros tb o (o' & Ho & ->). exists (prints o').
    split; [now apply (elements_prints "entries")|]. unfold prints. now rewrite filter_cons_True.
  - unfold prints at 1. rewrite filter_cons_False by (intros H; now apply H). clear F. induction outs as [|o outs IH]; [done|].
    cbn [concat fmap list_fmap]. rewrite <- IH. apply prints_app.
Qed.

Lemma number_cmd c : cmd_of_number (number_of_cmd c) = Some c.
Proof. destruct c; reflexivity. Qed.

(** The task receives one command and handles it. *)
Lemma recv_one c unspecified s s' e : mg_sock s = Sock [Some (command_bytes c [])] [] [] ->
  listen_cmd sizeof system self unspecified c (zeros 64) (set_mg_sock (Sock [] [] []) s) e = Some ((POF_OK, s'), e) -> s_in (mg_sock s') = [] ->
  exists s2, listenRecv sizeof system self unspecified s e = Some ((POF_OK, s2), e) /\ s2 = set_mg_sock (mg_sock s') s'.
Proof.
  intros Ek El Ei. unfold listenRecv. rewrite Ek. change (segments_left _) with (S 65). generalize 65%nat. intros n. cbn [recv_commands]. rewrite Ek.
  unfold recv at 1. cbn [s_in s_out s_sends]. change (take (Z.to_nat sizeof_command) (command_bytes c [])) with (command_bytes c []).
  change (drop (Z.to_nat sizeof_command) (command_bytes c [])) with (@nil Z). cbv iota.
  change (u32 (Z.of_nat (length (command_bytes c []))) <=? 0) with false. cbv iota.
  change (command_bytes c [] ++ zeros (Z.to_nat sizeof_command - length (command_bytes c []))) with (number_of_cmd c :: zeros 64).
  change (byte_at (number_of_cmd c :: zeros 64) 0) with (number_of_cmd c). rewrite number_cmd. change (drop 1 (number_of_cmd c :: zeros 64)) with (zeros 64).
  rewrite run_bind, El. change (negb (POF_OK =? POF_OK)) with false. cbv iota. unfold recv. rewrite Ei.
  change (u32 0 <=? 0) with true. cbv iota. eexists. split; reflexivity.
Qed.
End session.

(** C12. A listing command of pofsctrl ([ports], [tables], [groups], [meters] or
    [counters]) that reaches the switch is answered with whole structures, the
    switch staying as it is; and however these arrive, as long as no segment cuts
    a structure, pofsctrl takes all of them and prints the elements of every slot,
    each exactly once, tables with their entries. *)
Theorem listing_session sizeof system self unspecified c s e :
  (forall k, (0 < sizeof k)%nat /\ Z.of_nat (sizeof k) < 4294967296) -> sizeof KHead = 104%nat ->
  c ∈ listing -> counted (slotMap (d_dp (mg_d s))) -> dp_slotNum (mg_cf s) = r_num (slotMap (d_dp (mg_d s))) ->
  (forall p lr, slot_at p s = Some lr -> slot_counted lr) -> mg_sock s = Sock [Some (command_bytes c [])] [] [] ->
  exists s' rs lrs, listenRecv sizeof system self unspecified s e = Some ((POF_OK, s'), e) /\
    mg_d s' = mg_d s /\ mg_cf s' = mg_cf s /\ s_out (mg_sock s') = images sizeof rs /\ enumerates (slotMap (d_dp (mg_d s))) lrs /\
    forall groups t, Forall (fun g => g <> []) groups -> concat groups = rs -> ct_sock t = Sock (arrives sizeof groups) [] [] ->
      exists t' pss, cmd_cmd sizeof c None t = Some (SCTRL_OK, t') /\ ct_sock t' = Sock [] (command_bytes c []) (s_sends (ct_sock t')) /\
        Forall2 (slot_printed sizeof c) lrs pss /\ ct_printed t' = ct_printed t ++ concat pss.
Proof.
  intros Sz Hd Hc Ok Nm Hs Ek.
  destruct (listing_sends sizeof system self Sz Hd c unspecified (zeros 64) (set_mg_sock (Sock [] [] []) s) e Hc Ok Nm Hs eq_refl) as (lrs & outs & En & F & E).
  destruct (recv_one sizeof system self c unspecified s _ e Ek E eq_refl) as (s2 & E2 & ->).
  eexists _, _, lrs. split; [exact E2|]. split; [done|]. split; [done|]. split; [reflexivity|]. split; [exact En|].
  intros groups t Fg Eg Et.
  destruct (listing_read sizeof Sz Hd c lrs outs t Hc F) as (t' & E3 & I3 & O3 & _ & P3); [exists groups; now rewrite Et|now rewrite Et|].
  exists t', (prints sizeof <$> outs). split; [exact E3|]. split; [destruct (ct_sock t'); cbn in *; rewrite I3, O3, Et; reflexivity|].
  split; [apply Forall2_fmap_r; eapply Forall2_impl; [exact F|]; intros lr o; apply slot_prints|].
  rewrite P3. f_equal. clear. induction outs as [|o outs IH]; [done|]. cbn. rewrite <- IH. apply prints_app.
Qed.

(** The condition on the slots follows from the invariant of the handlers while no
    count has reached the end of its width. *)
Lemma resources_counted lr : resources_ok lr ->
  Z.of_nat (size (r_heap (lr_ports lr))) < 65536 -> Z.of_nat (size (r_heap (lr_tables lr))) < 65536 ->
  Z.of_nat (size (r_heap (lr_groups lr))) < 4294967296 -> Z.of_nat (size (r_heap (lr_meters lr))) < 4294967296 ->
  Z.of_nat (size (r_heap (lr_counters lr))) < 4294967296 ->
  (forall p t, res_load p (lr_tables lr) = Some t -> Z.of_nat (size (r_heap (tb_entries t))) < 4294967296) -> slot_counted lr.
Proof.
  intros [[T W C _ _ _ _] P G M] Hp Ht Hg Hm Hc He.
  split; try (apply resource_counted; [assumption|]; first [apply u16_small|apply u32_small]; lia).
  intros p t Hl. apply entries_counted; [|now apply (He p)]. unfold res_load in Hl. destruct (r_heap (lr_tables lr) !! p) as [c|] eqn:Ec; [|discriminate].
  cbn in Hl. injection Hl as <-. apply (W (tb_id (c_obj c))). apply contents_lookup; [exact T|]. eauto.
Qed.

(** ** Where a session goes wrong *)

Section faults.
Context (sizeof : rkind -> nat) (system : nat -> sys) (self : Z).
Implicit Types (t : ctst) (s : mgst).

(** A segment that ends within a structure ends pofsctrl: it does not wait for the
    rest. *)
Lemma short_segment_quits kind seg rest t : (0 < length seg < sizeof kind)%nat -> Z.of_nat (sizeof kind) < 4294967296 ->
  s_in (ct_sock t) = Some seg :: rest -> exists got t', cmdRecv sizeof kind t = (SCTRL_ERROR, got, t').
Proof.
  intros Hl Hs E. unfold cmdRecv, recv. rewrite E, Nat2Z.id, take_ge by lia. rewrite !u32_small by lia.
  rewrite (proj2 (Z.leb_gt _ _)), (proj2 (Z.eqb_neq _ _)) by lia. cbn [negb]. eauto.
Qed.

(** An error of [recv] is taken for a wrong length, not for a lost connection. *)
Lemma recv_error_quits kind rest t : Z.of_nat (sizeof kind) < 4294967295 -> s_in (ct_sock t) = None :: rest ->
  exists got t', cmdRecv sizeof kind t = (SCTRL_ERROR, got, t').
Proof.
  intros Hs E. unfold cmdRecv, recv. rewrite E. change (u32 (-1)) with 4294967295. rewrite u32_small by lia.
  change (4294967295 <=? 0) with false. rewrite (proj2 (Z.eqb_neq _ _)) by lia. cbn [negb]. eauto.
Qed.

(** In the switch an error of [recv] passes for the command [help], and the loop
    goes on. *)
Lemma recv_error_is_help unspecified fuel rest s e : s_in (mg_sock s) = None :: rest ->
  recv_commands sizeof system self unspecified (S fuel) s e =
  recv_commands sizeof system self unspecified fuel (set_mg_sock (Sock rest (s_out (mg_sock s)) (s_sends (mg_sock s))) s) e.
Proof. intros E. cbn [recv_commands]. unfold recv. rewrite E. reflexivity. Qed.

(** The version is read one byte past its array. *)
Lemma version_overrun s e : length (cf_version (mg_cf s)) = 99%nat -> listen_version sizeof s e = None.
Proof.
  intros Hl. unfold listen_version, sub_buf. assert (blen (cf_version (mg_cf s)) = 99) as -> by (unfold blen; now rewrite Hl). reflexivity.
Qed.

(** When the input ends pofsctrl goes round for ever. *)
Lemma end_of_input_hangs fuel : forall arg t, ct_stdin t = [] -> cmd_loop sizeof fuel arg t = None.
Proof.
  induction fuel as [|fuel IH]; intros arg t E; [done|]. cbn [cmd_loop]. unfold cmdGet, fgets. rewrite E. cbn [mbind option_bind].
  change ((POF_CMD_WRONG =? _) || _) with false. cbv iota. change (cmd_of_number POF_CMD_WRONG) with (@None usr_cmd). cbv iota. now apply IH.
Qed.
End faults.

(** A line of 31 characters and more is cut, loses the last character of what is
    read, and goes on as another command. *)
Example long_line : fgets POF_CMD_STR_LEN (lit "addport enp0s31f6v100veth9,1,x quit
") = Some (lit "addport enp0s31f6v100veth9,1,x ", lit "quit
") /\ parse_line (lit "addport enp0s31f6v100veth9,1,x ") = Some (15, Some (lit "enp0s31f6v100veth9,1,x")).
Proof. split; vm_compute; reflexivity. Qed.

(** [delport ,eth0] looks for a port named [,eth0]. *)
Example delport_leading_comma : pofbf_split_str (Some (lit ",eth0,1")) 44 2 None = Some ([Some (lit "eth0"); Some (lit "1")], []) /\
  split_source 44 (lit ",eth0,1") = lit ",eth0".
Proof. split; vm_compute; reflexivity. Qed.

(** *** An example: the tables of a switch with one slot *)

Definition size_example (k : rkind) : nat := match k with KHead => 104 | KVersion => 100 | _ => 8 end.
Definition mg_example (c : usr_cmd) : mgst :=
  mkMg initial_config (mkDpst dp_example 1 (DList LNil LNil 0 ∅) 0) (Sock [Some (command_bytes c [])] [] []).

Lemma res_one_load {V} `{Resource V} (v w : V) max p : res_load p (res_one v max) = Some w -> w = v.
Proof.
  unfold res_load, res_one. cbn [r_heap]. destruct (_ !! p) as [c|] eqn:E; [|discriminate].
  apply lookup_singleton_Some in E as [_ <-]. now intros [= <-].
Qed.

Lemma slot_example p lr : slot_at p (mg_example POFUC_tables) = Some lr -> lr = lr_table.
Proof.
  apply (res_one_load lr_table).
Qed.

Lemma listing_session_witness : exists s' rs lrs,
  listenRecv size_example (fun _ => PortSpec.sys_example) 7 0 (mg_example POFUC_tables) PortSpec.env_example = Some ((POF_OK, s'), PortSpec.env_example) /\
  mg_d s' = mg_d (mg_example POFUC_tables) /\ mg_cf s' = initial_config /\ s_out (mg_sock s') = images size_example rs /\
  enumerates (slotMap dp_example) lrs /\
  forall groups t, Forall (fun g => g <> []) groups -> concat groups = rs -> ct_sock t = Sock (arrives size_example groups) [] [] ->
    exists t' pss, cmd_cmd size_example POFUC_tables None t = Some (SCTRL_OK, t') /\
      ct_sock t' = Sock [] (command_bytes POFUC_tables []) (s_sends (ct_sock t')) /\
      Forall2 (slot_printed size_example POFUC_tables) lrs pss /\ ct_printed t' = ct_printed t ++ concat pss.
Proof.
  apply (listing_session size_example _ 7 0 POFUC_tables (mg_example POFUC_tables) PortSpec.env_example).
  - intros []; cbn; lia.
  - reflexivity.
  - unfold listing. by_decide.
  - apply resource_counted; [exact (dp_slots _ dp_example_ok)|vm_compute; reflexivity].
  - vm_compute. reflexivity.
  - intros p lr ->%slot_example. apply resources_counted; [exact lr_table_resources|vm_compute; reflexivity..|].
    intros q t ->%res_one_load. vm_compute. reflexivity.
  - reflexivity.
Defined.
