(* ===== verification/Command.v ===== *)
(** * The console (common/pof_command.c)

    The commands typed at the terminal of the switch.  Of what is printed the
    structures and the headings of the slots are recorded, on the terminal and in
    the log file; prompts, echoes and hints are left out ([printf] of a missing
    slot prints "(null)" with the C library of the target).  The console holds
    the lock of the log while a command runs, except around the calls its author
    has marked: a message of the switch printed meanwhile by the same task waits
    for that lock for ever. *)

From S2P Require Import Prelude Codec Env Hmap IdMap DList LocalRes ByteTransfer Slot Parse PortMgr Boot Text Config Listen.
From Stdlib Require String.
Import String.StringSyntax.
#[local] Open Scope string_scope.

(** ** State *)

(** The heading of a slot, or a structure. *)
Inductive shown := Heading (slotID : Z) | Shown (r : reply).

(** The configuration, the datapath, standard input, and what has been printed. *)
Record cmst := mkCm { cm_cf : config; cm_d : dpst; cm_stdin : list Z; cm_term : list shown; cm_logged : list shown }.
Implicit Types (s : cmst) (p q : addr) (lr : pof_local_resource).

Definition set_cm_cf cf s := mkCm cf (cm_d s) (cm_stdin s) (cm_term s) (cm_logged s).
Definition set_cm_d d s := mkCm (cm_cf s) d (cm_stdin s) (cm_term s) (cm_logged s).
Definition set_cm_stdin l s := mkCm (cm_cf s) (cm_d s) l (cm_term s) (cm_logged s).

(** [POF_COMMAND_PRINT]: to the log file, if there is one, and to the terminal, if
    the commands are enabled. *)
Definition show (x : list shown) s : cmst :=
  let g := g_log (cm_cf s) in
  mkCm (cm_cf s) (cm_d s) (cm_stdin s) (if cmdEnable g then cm_term s ++ x else cm_term s)
    (match log_fp g with Some _ => cm_logged s ++ x | None => cm_logged s end).
Definition print_reply (r : reply) s : cmst := show [Shown r] s.

(** [SET_DBG_ENABLED] and the others. *)
Definition set_dbg (b : bool) cf : config :=
  set_log (mkLog (log_fp (g_log cf)) (colorEnable (g_log cf)) b (cmdEnable (g_log cf)) (errEnable (g_log cf))) cf.
Definition set_color (b : bool) cf : config :=
  set_log (mkLog (log_fp (g_log cf)) b (dbgEnable (g_log cf)) (cmdEnable (g_log cf)) (errEnable (g_log cf))) cf.

Section console.
Context (system : nat -> sys) (self : Z).

(** ** Listings *)

Definition print_each {V} (rs : resource V) (mk : V -> reply) s : St cmst :=
  r ← HMAP_NODES_IN_STRUCT_TRAVERSE (R := Empty_set) (fun _ => res_hm rs)
        (fun q s => v ← lift (res_load q rs); mret (inr (print_reply (mk v) s))) s;
  mret (loop_end r).

(** The loop the listing commands share: the slots with their headings. *)
Definition print_slots (body : pof_local_resource -> cmst -> St cmst) s : St cmst :=
  r ← HMAP_NODES_IN_STRUCT_TRAVERSE (R := Empty_set) (fun s => res_hm (slotMap (d_dp (cm_d s))))
        (fun p s =>
           lr ← lift (res_load p (slotMap (d_dp (cm_d s))));
           s ← body lr (show [Heading (lr_slotID lr)] s);
           mret (inr s)) s;
  mret (loop_end r).

Definition cmdPrintFlowEntrys (table : tableInfo) : cmst -> St cmst := print_each (tb_entries table) REntry.
Definition cmdPrintFlowTable (table : tableInfo) s : St cmst := cmdPrintFlowEntrys table (print_reply (RTable table) s).
Definition print_tables lr s : St cmst :=
  r ← HMAP_NODES_IN_STRUCT_TRAVERSE (R := Empty_set) (fun _ => res_hm (lr_tables lr))
        (fun q s => table ← lift (res_load q (lr_tables lr)); s ← cmdPrintFlowTable table s; mret (inr s)) s;
  mret (loop_end r).
Definition cmdPrintFlowTables : cmst -> St cmst := print_slots print_tables.

Definition usr_cmd_tables : cmst -> St cmst := cmdPrintFlowTables.
Definition usr_cmd_ports : cmst -> St cmst := print_slots (fun lr => print_each (lr_ports lr) RPort).
Definition usr_cmd_groups : cmst -> St cmst := print_slots (fun lr => print_each (lr_groups lr) RGroup).
Definition usr_cmd_meters : cmst -> St cmst := print_slots (fun lr => print_each (lr_meters lr) RMeter).
Definition usr_cmd_counters : cmst -> St cmst := print_slots (fun lr => print_each (lr_counters lr) RCounter).

Definition usr_cmd_switch_config s : St cmst := mret (print_reply (RConfig (poflr_switch_config (dp_device (d_dp (cm_d s))))) s).
Definition usr_cmd_switch_feature s : St cmst := mret (print_reply (RFeature (poflr_switch_feature (dp_device (d_dp (cm_d s))))) s).
Definition usr_cmd_table_resource s : St cmst := mret (print_reply (RTableResource (poflr_table_resource_desc (dp_device (d_dp (cm_d s))))) s).
Definition usr_cmd_version s : St cmst := text ← lift (cstr (cf_version (cm_cf s))); mret (print_reply (RVersion text) s).
Definition usr_cmd_state s : St cmst := mret (print_reply (RState (g_states (cm_cf s))) s).

(** The commands in their order. *)
Definition cmdPrintHelp s : St cmst := mret s.
Definition usr_cmd_help s : St cmst := cmdPrintHelp s.

(** ** Ports *)

Definition split_arg_into (n : nat) (arg : option (list Z)) s : St (list (option (list Z)) * cmst) :=
  '(args, saved) ← lift (pofbf_split_str arg 44 n (cf_strtok (cm_cf s)));
  mret (args, set_cm_cf (set_strtok (Some saved) (cm_cf s)) s).

(** The lock is off while [poflr_add_port] runs. *)
Definition usr_cmd_addport (arg : option (list Z)) s : St cmst :=
  if negb (is_custom (cm_cf s)) then mret s
  else
    '(args, s) ← split_arg_into 2 arg s;
    match default None (args !! 0%nat) with
    | None => mret s
    | Some name =>
        '(_, slot) ← name_and_slot args;
        found ← lift (pofdp_get_local_resource slot (d_dp (cm_d s)));
        match found with
        | None => mret s
        | Some p => '(_, d) ← on_slot_ports p (poflr_add_port system name) (cm_d s); mret (set_cm_d d s)
        end
    end.

(** The lock is on while [poflr_del_port] runs: every error but that of a port not
    found is printed, and does not return. *)
Definition usr_cmd_delport (arg : option (list Z)) s : St cmst :=
  if negb (is_custom (cm_cf s)) then mret s
  else
    '(args, s) ← split_arg_into 2 arg s;
    match default None (args !! 0%nat) with
    | None => mret s
    | Some name =>
        '(_, slot) ← name_and_slot args;
        found ← lift (pofdp_get_local_resource slot (d_dp (cm_d s)));
        match found with
        | None => mret s
        | Some p =>
            '(ret, d) ← on_slot_ports p (poflr_del_port system self name) (cm_d s);
            if (ret =? POF_OK) || (ret =? POF_ERROR) then mret (set_cm_d d s) else fault
        end
    end.

(** The lock is off while the slots are cleared. *)
Definition usr_cmd_clear_resource s : St cmst :=
  '(_, dp) ← each_slot poflr_clear_resource (d_dp (cm_d s));
  mret (set_cm_d (mkDpst dp (d_index (cm_d s)) (d_list (cm_d s)) (d_time (cm_d s))) s).

(** ** Switches *)

Definition usr_cmd_enable_debug s : St cmst := mret (set_cm_cf (state_copy ST_debug_on (lit "ON") (set_dbg true (cm_cf s))) s).
Definition usr_cmd_disable_debug s : St cmst := mret (set_cm_cf (state_copy ST_debug_on (lit "OFF") (set_dbg false (cm_cf s))) s).
Definition usr_cmd_enable_color s : St cmst := mret (set_cm_cf (state_copy ST_debug_color_on (lit "ON") (set_color true (cm_cf s))) s).
Definition usr_cmd_disable_color s : St cmst := mret (set_cm_cf (state_copy ST_debug_color_on (lit "OFF") (set_color false (cm_cf s))) s).
Definition usr_cmd_enable_promisc s : St cmst := mret (set_cm_cf (state_copy ST_promisc_on (lit "ON") (set_filter promisc (cm_cf s))) s).
Definition usr_cmd_disable_promisc s : St cmst := mret (set_cm_cf (state_copy ST_promisc_on (lit "OFF") (set_filter no_promisc (cm_cf s))) s).

(** Without MALLOC_DEBUG. *)
Definition usr_cmd_memory s : St cmst := mret s.
Definition usr_cmd_test (arg : option (list Z)) s : St cmst := '(_, s) ← split_arg_into 4 arg s; mret s.
Definition usr_cmd_quit s : St cmst := mret s.
Definition usr_cmd_exit s : St cmst := mret s.

(** ** The loop *)

(** [usr_cmd_##STRING(arg, dp)]. *)
Definition usr_cmd_run (c : usr_cmd) (arg : option (list Z)) : cmst -> St cmst :=
  match c with
  | POFUC_help => usr_cmd_help | POFUC_quit => usr_cmd_quit | POFUC_exit => usr_cmd_exit
  | POFUC_switch_config => usr_cmd_switch_config | POFUC_switch_feature => usr_cmd_switch_feature
  | POFUC_table_resource => usr_cmd_table_resource | POFUC_ports => usr_cmd_ports | POFUC_tables => usr_cmd_tables
  | POFUC_groups => usr_cmd_groups | POFUC_meters => usr_cmd_meters | POFUC_counters => usr_cmd_counters
  | POFUC_version => usr_cmd_version | POFUC_state => usr_cmd_state
  | POFUC_enable_promisc => usr_cmd_enable_promisc | POFUC_disable_promisc => usr_cmd_disable_promisc
  | POFUC_addport => usr_cmd_addport arg | POFUC_delport => usr_cmd_delport arg
  | POFUC_test => usr_cmd_test arg | POFUC_clear_resource => usr_cmd_clear_resource
  | POFUC_enable_debug => usr_cmd_enable_debug | POFUC_disable_debug => usr_cmd_disable_debug
  | POFUC_enable_color => usr_cmd_enable_color | POFUC_disable_color => usr_cmd_disable_color | POFUC_memory => usr_cmd_memory
  end.

(** The command, [*arg], and the state. *)
Definition usr_cmd_gets (arg : option (list Z)) s : St (Z * option (list Z) * cmst) :=
  match fgets POF_CMD_STR_LEN (cm_stdin s) with
  | None => mret (0xff, arg, s)
  | Some (line, rest) =>
      '(cmd_, arg, saved) ← lift (line_words line);
      mret (type_of_word cmd_, arg, set_cm_stdin rest (set_cm_cf (set_strtok (Some saved) (cm_cf s)) s))
  end.

(** Every round takes a character, until the input ends: then the loop goes on
    for ever, which no fuel is enough for. *)
Fixpoint console_loop (fuel : nat) (arg : option (list Z)) s : St cmst :=
  match fuel with
  | O => fault
  | S fuel =>
      '(usr_cmd_type, arg, s) ← usr_cmd_gets arg s;
      if (usr_cmd_type =? number_of_cmd POFUC_quit) || (usr_cmd_type =? number_of_cmd POFUC_exit) then mret s
      else
        match cmd_of_number usr_cmd_type with
        | None => console_loop fuel arg s
        | Some c => s ← usr_cmd_run c arg s; console_loop fuel arg s
        end
  end.
Definition pof_runing_command s : St cmst := console_loop (S (length (cm_stdin s))) None s.
End console.
