(* ===== verification/CommandSpec.v ===== *)
(** * A session at the console

    Commands typed one per line are run in their order until [quit].  Each does to
    the slots, the ports, the switches and the controller exactly what an abstract
    console does, and what it prints is an enumeration of what the maps hold. *)

From S2P Require Import Prelude Bits Codec Env Hmap IdMap DList Tree LocalRes ByteTransfer Port Counter Meter Group FlowEntry FlowTable FlowSpec FlowOps TableOps Slot Parse ParseSpec PortMgr PortSpec Boot BootSpec EnumSpec Text Config ConfigSpec Listen Command.
From Stdlib Require String.
Import String.StringSyntax.
#[local] Open Scope string_scope.

(** ** Lines *)

(** A word of a command line. *)
Definition plain (w : list Z) : Prop := w <> [] /\ Forall (fun c => c <> 0 /\ c <> 10 /\ c <> 32) w.

(** What is typed: a command alone, [addport] or [delport] with a port and its
    slot, any other command with words it does not look at, or a line that is no
    command. *)
Inductive console_cmd :=
| CAlone (c : usr_cmd)
| CPort (add : bool) (name : list Z) (slot : Z)
| CExtra (c : usr_cmd) (words : list Z)
| COther (line : list Z).

Definition port_cmd (add : bool) : usr_cmd := if add then POFUC_addport else POFUC_delport.
Definition word_of (c : usr_cmd) : list Z := default [] (snd <$> COMMANDS !! Z.to_nat (number_of_cmd c)).
Definition line_of (x : console_cmd) : list Z :=
  match x with
  | CAlone c => word_of c
  | CPort add name slot => word_of (port_cmd add) ++ 32 :: name ++ comma :: dec slot
  | CExtra c words => word_of c ++ 32 :: words
  | COther line => line
  end.
Definition typed (x : console_cmd) : list Z := line_of x ++ [10].

(** The words of a line: the command, its argument, and where [strtok] stopped. *)
Definition line_cmd (l : list Z) : option (list Z) := (strtok_at 32 l).1.
Definition line_arg (l : list Z) : option (list Z) := (strtok_at 32 (strtok_at 32 l).2).1.
Definition line_saved (l : list Z) : list Z := (strtok_at 32 (strtok_at 32 l).2).2.

(** The commands that look at their argument. *)
Definition takes_arg (c : usr_cmd) : Prop := c ∈ [POFUC_addport; POFUC_delport; POFUC_test].

(** A line fits the buffer of the console and is read as it was meant. *)
Definition typeable (x : console_cmd) : Prop :=
  (length (line_of x) < 31)%nat /\
  match x with
  | CAlone c => c <> POFUC_quit /\ c <> POFUC_exit
  | CPort _ name slot => plain name /\ no_comma name /\ 0 <= slot < 65536
  | CExtra c words => (c <> POFUC_quit /\ c <> POFUC_exit) /\ ~ takes_arg c /\ Forall (fun c => c <> 0 /\ c <> 10) words
  | COther line => Forall (fun c => c <> 0 /\ c <> 10) line /\ forall w, line_cmd line = Some w -> forall c, w <> word_of c
  end.

Lemma word_plain c : plain (word_of c).
Proof. destruct c; (split; [done|by_decide]). Qed.
Lemma word_found c : type_of_word (Some (word_of c)) = number_of_cmd c.
Proof. now destruct c. Qed.
Lemma number_found c : cmd_of_number (number_of_cmd c) = Some c.
Proof. now destruct c. Qed.
Lemma number_ends c : (number_of_cmd c =? number_of_cmd POFUC_quit) || (number_of_cmd c =? number_of_cmd POFUC_exit) =
  bool_decide (c = POFUC_quit \/ c = POFUC_exit).
Proof. now destruct c. Qed.

Lemma plain_app a b : Forall (fun c => c <> 0 /\ c <> 10) a -> Forall (fun c => c <> 0 /\ c <> 10) b -> Forall (fun c : Z => c <> 0 /\ c <> 10) (a ++ b).
Proof. intros. now apply Forall_app. Qed.

Lemma fgets_line_of (w rest : list Z) n : Forall (fun c => c <> 0 /\ c <> 10) w -> (length w < n)%nat ->
  fgets_line n (w ++ 10 :: rest) = (w ++ [10], rest).
Proof.
  intros H. revert n. induction H as [|c w [_ Hc] _ IH]; intros n Hn; destruct n as [|n]; cbn [length] in Hn; try lia; cbn [app fgets_line]; [done|].
  rewrite (proj2 (Z.eqb_neq _ _)) by exact Hc. now rewrite IH by lia.
Qed.

Lemma string_line w : Forall (fun c => c <> 0 /\ c <> 10) w -> string_of (w ++ [10]) = w ++ [10].
Proof.
  intros H. unfold string_of. apply until_none. apply Forall_app. split; [|now repeat constructor].
  eapply Forall_impl; [exact H|]. cbn. intros c [Hc _]. now apply Z.eqb_neq.
Qed.

Lemma strtok_last sep w : w <> [] -> Forall (fun c => (c =? sep) = false) w -> strtok_at sep w = (Some w, []).
Proof.
  intros Hn H. unfold strtok_at. pose proof (from_stop (fun c => c =? sep) w Hn H []) as E. rewrite app_nil_r in E. rewrite E.
  destruct (until_none (fun c => c =? sep) w H) as [-> ->]. now destruct w.
Qed.
Lemma strtok_first sep w t : w <> [] -> Forall (fun c => (c =? sep) = false) w -> strtok_at sep (w ++ sep :: t) = (Some w, t).
Proof.
  intros Hn H. unfold strtok_at. rewrite (from_stop (fun c => c =? sep) w Hn H (sep :: t)).
  destruct (until_stop (fun c => c =? sep) w sep t H (Z.eqb_refl _)) as [-> ->]. now destruct w.
Qed.

Lemma plain_space w : plain w -> w <> [] /\ Forall (fun c => (c =? 32) = false) w.
Proof. intros [Hn H]. split; [done|]. eapply Forall_impl; [exact H|]. cbn. intros c (_ & _ & Hc). now apply Z.eqb_neq. Qed.
Lemma plain_line w : plain w -> Forall (fun c => c <> 0 /\ c <> 10) w.
Proof. intros [_ H]. eapply Forall_impl; [exact H|]. cbn. intros c (? & ? & _). done. Qed.

Lemma dec_plain n : 0 <= n -> plain (dec n).
Proof.
  intros Hn. split; [apply dec_nonempty|]. eapply Forall_impl; [apply dec_digits, Hn|]. intros c (Hd & _ & _). unfold isdigit in Hd. cbn.
  apply andb_true_iff in Hd as [H1 H2]. apply Z.leb_le in H1. apply Z.leb_le in H2. lia.
Qed.
Lemma arg_plain name slot : plain name -> 0 <= slot -> plain (name ++ comma :: dec slot).
Proof.
  intros [Hn P] Hs. split; [now destruct name|].
  apply Forall_app. split; [exact P|]. constructor; [unfold comma; lia|]. now apply dec_plain.
Qed.

Lemma typed_chars x : typeable x -> Forall (fun c => c <> 0 /\ c <> 10) (line_of x).
Proof.
  destruct x as [c|add name slot|c words|line]; cbn [line_of]; intros [_ T].
  - apply plain_line, word_plain.
  - destruct T as (P & _ & Hs). apply plain_app; [apply plain_line, word_plain|]. constructor; [lia|]. now apply plain_line, arg_plain.
  - destruct T as (_ & _ & W). apply plain_app; [apply plain_line, word_plain|]. constructor; [lia|exact W].
  - apply T.
Qed.

(** One line is read. *)
Lemma gets_line l arg s e rest : Forall (fun c => c <> 0 /\ c <> 10) l -> (length l < 31)%nat -> cm_stdin s = l ++ 10 :: rest ->
  usr_cmd_gets arg s e = Some ((type_of_word (line_cmd l), line_arg l,
    set_cm_stdin rest (set_cm_cf (set_strtok (Some (line_saved l)) (cm_cf s)) s)), e).
Proof.
  intros L Hl Es. unfold usr_cmd_gets, fgets. rewrite Es. destruct (l ++ 10 :: rest) eqn:E; [now destruct l|]. rewrite <- E.
  rewrite fgets_line_of by (try exact L; exact Hl).
  assert (line_words (l ++ [10]) = Some (line_cmd l, line_arg l, line_saved l)) as ->; [|reflexivity].
  unfold line_words. rewrite string_line by exact L. destruct (l ++ [10]) eqn:E'; [now destruct l|]. rewrite <- E', removelast_last.
  unfold line_cmd, line_arg, line_saved. destruct (strtok_at 32 l) as [w t]. cbn [fst snd]. now destruct (strtok_at 32 t).
Qed.

Lemma strtok_word c t : strtok_at 32 (word_of c ++ 32 :: t) = (Some (word_of c), t).
Proof. destruct (plain_space _ (word_plain c)). now apply strtok_first. Qed.
Lemma strtok_word_alone c : strtok_at 32 (word_of c) = (Some (word_of c), []).
Proof. destruct (plain_space _ (word_plain c)). now apply strtok_last. Qed.

(** A word that is no command. *)
Lemma word_unknown w : (forall c, w <> word_of c) -> type_of_word (Some w) = POF_CMD_WRONG.
Proof.
  intros Hw. unfold type_of_word. destruct (find _ COMMANDS) as [[c v]|] eqn:Ef; [|done].
  apply find_some in Ef as [Hin Hv]. apply bool_decide_eq_true in Hv. cbn [snd] in Hv. subst v.
  destruct (Hw c). assert (Forall (fun d => d.2 = word_of d.1) COMMANDS) as Hall by by_decide.
  rewrite Forall_forall in Hall. specialize (Hall (c, w)). apply Hall. now apply list_elem_of_In.
Qed.

(** ** The abstract console *)

(** A slot as finite maps. *)
Record aslot := mkASlot {
  a_ports : gmap Z portInfo; a_tables : gmap Z tableInfo; a_groups : gmap Z groupInfo;
  a_meters : gmap Z meterInfo; a_counters : gmap Z counterInfo
}.
Definition abs_slot (lr : pof_local_resource) : aslot :=
  mkASlot (contents (lr_ports lr)) (contents (lr_tables lr)) (contents (lr_groups lr)) (contents (lr_meters lr)) (contents (lr_counters lr)).
Definition with_ports ps a := mkASlot ps (a_tables a) (a_groups a) (a_meters a) (a_counters a).
Definition cleared a : aslot := mkASlot (disabled (a_ports a)) ∅ ∅ ∅ ∅.

(** The slots, the index of the next port, the switches, what the controller has
    been told, what has been printed; and what no command changes. *)
Record console := mkConsole {
  a_slots : gmap Z aslot; a_index : Z; a_debug : bool; a_color : bool; a_promisc : bool;
  a_reports : list (Z * portInfo); a_out : list shown;
  a_custom : bool; a_device : device; a_version : list Z
}.
Implicit Types (A B : console) (a : aslot) (s : cmst) (lr : pof_local_resource).

Definition prints o A := mkConsole (a_slots A) (a_index A) (a_debug A) (a_color A) (a_promisc A) (a_reports A) (a_out A ++ o)
  (a_custom A) (a_device A) (a_version A).
Definition with_slots m A := mkConsole m (a_index A) (a_debug A) (a_color A) (a_promisc A) (a_reports A) (a_out A)
  (a_custom A) (a_device A) (a_version A).
Definition with_next i A := mkConsole (a_slots A) i (a_debug A) (a_color A) (a_promisc A) (a_reports A) (a_out A)
  (a_custom A) (a_device A) (a_version A).
Definition with_switches d c p A := mkConsole (a_slots A) (a_index A) d c p (a_reports A) (a_out A)
  (a_custom A) (a_device A) (a_version A).
Definition tells r A := mkConsole (a_slots A) (a_index A) (a_debug A) (a_color A) (a_promisc A) (a_reports A ++ [r]) (a_out A)
  (a_custom A) (a_device A) (a_version A).

Definition on_off (b : bool) : list Z := if b then lit "ON" else lit "OFF".

(** A table of states shows the switches. *)
Definition states_show A (st : pof_state) : Prop :=
  cstr (st ST_debug_on) = Some (on_off (a_debug A)) /\ cstr (st ST_debug_color_on) = Some (on_off (a_color A)) /\
  cstr (st ST_promisc_on) = Some (on_off (a_promisc A)).

(** Every value of a map, once. *)
Definition all_shown {V} (mk : V -> reply) (m : gmap Z V) (o : list shown) : Prop :=
  exists vs, (map_to_list m).*2 ≡ₚ vs /\ o = (fun v => Shown (mk v)) <$> vs.
Definition tables_shown (m : gmap Z tableInfo) (o : list shown) : Prop :=
  exists ts os, (map_to_list m).*2 ≡ₚ ts /\
    Forall2 (fun t o => exists es, enumerates (tb_entries t) es /\ o = Shown (RTable t) :: ((fun n => Shown (REntry n)) <$> es)) ts os /\
    o = concat os.
Definition slots_shown (body : aslot -> list shown -> Prop) (m : gmap Z aslot) (o : list shown) : Prop :=
  exists ks os, map_to_list m ≡ₚ ks /\ Forall2 (fun k o => exists o', body k.2 o' /\ o = Heading k.1 :: o') ks os /\ o = concat os.

Section console.
Context (system : nat -> sys) (self : Z) (y : sys).
Hypothesis static : forall t, system t = y.
Hypothesis Hy : sys_ok y.
Context (U : list Z -> Prop).
Hypothesis HU : apart U.

(** What [addport] and [delport] do. *)
Definition adds (name : list Z) (slot : Z) A B : Prop :=
  match a_slots A !! slot with
  | None => B = A
  | Some a =>
      (exists k port, a_ports a !! k = Some port /\ name_of port = name) /\ B = A \/
      (forall k port, a_ports a !! k = Some port -> name_of port <> name) /\
      match s_iface y name with
      | None => B = A
      | Some i =>
          let port := made y i (a_index A) slot name in
          B = tells (POFPR_ADD, port) (with_next (a_index A + 1)
                (with_slots (<[slot := with_ports (<[a_index A := set_task (task_id y) port]> (a_ports a)) a]> (a_slots A)) A))
      end
  end.
Definition deletes (name : list Z) (slot : Z) A B : Prop :=
  match a_slots A !! slot with
  | None => B = A
  | Some a =>
      (forall k port, a_ports a !! k = Some port -> name_of port <> name) /\ B = A \/
      exists k port, a_ports a !! k = Some port /\ name_of port = name /\
        B = tells (POFPR_DELETE, port) (with_slots (<[slot := with_ports (delete k (a_ports a)) a]> (a_slots A)) A)
  end.

Definition listed_by (c : usr_cmd) : option (aslot -> list shown -> Prop) :=
  match c with
  | POFUC_ports => Some (fun a => all_shown RPort (a_ports a))
  | POFUC_tables => Some (fun a => tables_shown (a_tables a))
  | POFUC_groups => Some (fun a => all_shown RGroup (a_groups a))
  | POFUC_meters => Some (fun a => all_shown RMeter (a_meters a))
  | POFUC_counters => Some (fun a => all_shown RCounter (a_counters a))
  | _ => None
  end.

(** What a command alone does; [addport] and [delport] ask for an argument. *)
Definition acts_alone (c : usr_cmd) A B : Prop :=
  match listed_by c with
  | Some body => exists o, slots_shown body (a_slots A) o /\ B = prints o A
  | None =>
      match c with
      | POFUC_switch_config => B = prints [Shown (RConfig (poflr_switch_config (a_device A)))] A
      | POFUC_switch_feature => B = prints [Shown (RFeature (poflr_switch_feature (a_device A)))] A
      | POFUC_table_resource => B = prints [Shown (RTableResource (poflr_table_resource_desc (a_device A)))] A
      | POFUC_version => B = prints [Shown (RVersion (a_version A))] A
      | POFUC_state => exists st, states_show A st /\ B = prints [Shown (RState st)] A
      | POFUC_enable_debug => B = with_switches true (a_color A) (a_promisc A) A
      | POFUC_disable_debug => B = with_switches false (a_color A) (a_promisc A) A
      | POFUC_enable_color => B = with_switches (a_debug A) true (a_promisc A) A
      | POFUC_disable_color => B = with_switches (a_debug A) false (a_promisc A) A
      | POFUC_enable_promisc => B = with_switches (a_debug A) (a_color A) true A
      | POFUC_disable_promisc => B = with_switches (a_debug A) (a_color A) false A
      | POFUC_clear_resource => B = with_slots (cleared <$> a_slots A) A
      | _ => B = A
      end
  end.

Definition acts (x : console_cmd) A B : Prop :=
  match x with
  | CAlone c | CExtra c _ => acts_alone c A B
  | COther _ => B = A
  | CPort add name slot => if a_custom A then if add : bool then adds name slot A B else deletes name slot A B else B = A
  end.

Inductive act_all : list console_cmd -> console -> console -> Prop :=
| acts_nil A : act_all [] A A
| acts_cons x xs A B C : acts x A B -> act_all xs B C -> act_all (x :: xs) A C.

(** ** The state of the console *)

(** A slot between two commands, whatever the globals of the port manager. *)
Definition bare lr : pmst := mkPm lr 0 (DList LNil LNil 0 ∅) 0.
Record slot_fine lr : Prop := {
  sf_res : resources_ok lr;
  sf_pm : pm_ok (bare lr);
  sf_named : named U (bare lr);
  sf_listening : listening (bare lr)
}.

Record config_shows A cf : Prop := {
  cs_debug : dbgEnable (g_log cf) = a_debug A;
  cs_color : colorEnable (g_log cf) = a_color A;
  cs_promisc : dp_filter cf = if a_promisc A then promisc else no_promisc;
  cs_states : states_show A (g_states cf);
  cs_length : forall i, length (g_states cf i) = 64%nat;
  cs_cmd : cmdEnable (g_log cf) = true;
  cs_custom : is_custom cf = a_custom A;
  cs_version : cstr (cf_version cf) = Some (a_version A)
}.

Definition slots_of s : resource pof_local_resource := slotMap (d_dp (cm_d s)).

(** The state [s] is the abstract console [A]; the controller has been told the
    reports since [e0]. *)
Record console_ok A s (e0 e : env) : Prop := {
  co_slots : res_ok (slots_of s);
  co_fine : forall q c, r_heap (slots_of s) !! q = Some c -> slot_fine (c_obj c);
  co_abs : abs_slot <$> contents (slots_of s) = a_slots A;
  co_index : d_index (cm_d s) = a_index A;
  co_low : forall k a i, a_slots A !! k = Some a -> is_Some (a_ports a !! i) -> i < a_index A;
  co_range : 0 <= a_index A < 256;
  co_list : exists ps, lrep (d_list (cm_d s)) ps;
  co_told : told_env e0 (a_reports A) e;
  co_quiet : quiet e0;
  co_config : config_shows A (cm_cf s);
  co_term : cm_term s = a_out A;
  co_log : match log_fp (g_log (cm_cf s)) with Some _ => cm_logged s = a_out A | None => True end;
  co_device : dp_device (d_dp (cm_d s)) = a_device A
}.

(** ** What is printed *)

Lemma show_app s (o o' : list shown) : show o' (show o s) = show (o ++ o') s.
Proof.
  unfold show. destruct s as [cf d i t l]. cbn. destruct (cmdEnable (g_log cf)), (log_fp (g_log cf)); now rewrite ?app_assoc.
Qed.
Lemma show_nil s : show [] s = s.
Proof. unfold show. destruct s as [cf d i t l]. cbn. destruct (cmdEnable (g_log cf)), (log_fp (g_log cf)); now rewrite ?app_nil_r. Qed.

Lemma show_ok o A s e0 e : console_ok A s e0 e -> console_ok (prints o A) (show o s) e0 e.
Proof.
  intros [O1 O2 O3 O4 O5 O6 O7 O8 O9 [C1 C2 C3 C4 C5 C6 C7 C8] O11 O12 O13]. split; try done.
  - cbn. rewrite C6. now rewrite O11.
  - cbn. destruct (log_fp (g_log (cm_cf s))); [now rewrite O12|done].
Qed.

Lemma print_each_ok {V} (rs : resource V) mk s e : linked rs ->
  exists vs, enumerates rs vs /\ print_each rs mk s e = Some (show ((fun v => Shown (mk v)) <$> vs) s, e).
Proof.
  intros L. unfold print_each.
  destruct (traverse_emits (R := Empty_set) rs (fun _ => res_hm rs) (fun q s => v ← lift (res_load q rs); mret (inr (print_reply (mk v) s)))
    (fun s o => show o s) (fun _ => True) (fun v o => o = [Shown (mk v)]) s e L (show_nil s)) as (vs & os & En & _ & F & E); try done.
  - intros o o'. apply show_app.
  - intros p v s' Hl _. exists [Shown (mk v)]. split; [done|]. rewrite run_bind, Hl. reflexivity.
  - exists vs. split; [exact En|]. rewrite run_bind, E. cbn [loop_end]. unfold mret, St_ret. do 3 f_equal.
    clear - F. induction F as [|v o vs os -> _ IH]; [done|]. cbn. now rewrite IH.
Qed.

Lemma print_slots_ok body (out : pof_local_resource -> list shown -> Prop) s e : linked (slots_of s) ->
  (forall p lr s', res_load p (slots_of s) = Some lr -> exists o, out lr o /\ body lr s' e = Some (show o s', e)) ->
  exists lrs os, enumerates (slots_of s) lrs /\ Forall2 (fun lr o => exists o', out lr o' /\ o = Heading (lr_slotID lr) :: o') lrs os /\
    print_slots body s e = Some (show (concat os) s, e).
Proof.
  intros L Hb. unfold print_slots.
  destruct (traverse_emits (R := Empty_set) (slots_of s) (fun s => res_hm (slotMap (d_dp (cm_d s))))
    (fun p s => lr ← lift (res_load p (slotMap (d_dp (cm_d s)))); s ← body lr (show [Heading (lr_slotID lr)] s); mret (inr s))
    (fun s o => show o s) (fun s' => cm_d s' = cm_d s) (fun lr o => exists o', out lr o' /\ o = Heading (lr_slotID lr) :: o') s e L (show_nil s))
    as (lrs & os & En & _ & F & E); try done.
  - intros o o'. apply show_app.
  - intros s' ->. reflexivity.
  - intros p lr s' Hl Ed. destruct (Hb p lr (show [Heading (lr_slotID lr)] s') Hl) as (o & Ho & E).
    exists (Heading (lr_slotID lr) :: o). split; [eauto|]. rewrite run_bind, Ed. unfold slots_of in Hl. rewrite Hl. cbn [lift].
    rewrite run_bind, E, show_app. reflexivity.
  - exists lrs, os. split; [exact En|]. split; [exact F|]. now rewrite run_bind, E.
Qed.

Lemma slots_listed body out s e0 e A : console_ok A s e0 e ->
  (forall lr o, slot_fine lr -> out lr o -> body (abs_slot lr) o) ->
  forall lrs os, enumerates (slots_of s) lrs -> Forall2 (fun lr o => exists o', out lr o' /\ o = Heading (lr_slotID lr) :: o') lrs os ->
  slots_shown body (a_slots A) (concat os).
Proof.
  intros Ok Hb lrs os En F. exists ((fun lr => (lr_slotID lr, abs_slot lr)) <$> lrs), os. split; [|split; [|done]].
  - rewrite <- (co_abs _ _ _ _ Ok), map_to_list_fmap, (enumerates_pairs _ _ (co_slots _ _ _ _ Ok) En), <- list_fmap_compose. reflexivity.
  - rewrite Forall2_fmap_l.
    assert (Forall slot_fine lrs) as Hf.
    { rewrite <- En. apply Forall_fmap, Forall_forall. intros [q c] Hq%elem_of_map_to_list. exact (co_fine _ _ _ _ Ok q c Hq). }
    clear En. revert Hf. induction F as [|lr o lrs os (o' & Ho & ->) _ IH]; intros Hf; [constructor|].
    apply Forall_cons in Hf as [Hlr Hf]. constructor; [|now apply IH]. cbn. eauto.
Qed.

Lemma fine_at s e0 e A p lr : console_ok A s e0 e -> res_load p (slots_of s) = Some lr -> slot_fine lr.
Proof.
  intros Ok Hl. unfold res_load in Hl. destruct (r_heap (slots_of s) !! p) as [c|] eqn:E; [|discriminate]. injection Hl as <-. exact (co_fine _ _ _ _ Ok p c E).
Qed.

(** A listing of one map of each slot. *)
Lemma listing_ok {V} `{Resource V} (rs : pof_local_resource -> resource V) mk body s e0 e A : console_ok A s e0 e ->
  (forall lr, slot_fine lr -> res_ok (rs lr)) -> (forall lr o, all_shown mk (contents (rs lr)) o -> body (abs_slot lr) o) ->
  exists o, slots_shown body (a_slots A) o /\ print_slots (fun lr => print_each (rs lr) mk) s e = Some (show o s, e).
Proof.
  intros Ok Hr Hb. destruct (print_slots_ok (fun lr => print_each (rs lr) mk)
    (fun lr o => exists vs, enumerates (rs lr) vs /\ o = (fun v => Shown (mk v)) <$> vs) s e (res_linked _ (co_slots _ _ _ _ Ok))) as (lrs & os & En & F & E).
  - intros p lr s' Hl. destruct (print_each_ok (rs lr) mk s' e (res_linked _ (Hr lr (fine_at _ _ _ _ _ _ Ok Hl)))) as (vs & Ev & E). eauto 10.
  - exists (concat os). split; [|exact E]. apply (slots_listed body _ s e0 e A Ok) with (2 := En) (3 := F).
    intros lr o Hf (vs & Ev & ->). apply Hb. exists vs. split; [|done]. apply enumerates_contents; [now apply Hr|exact Ev].
Qed.

Lemma tables_listing_ok s e0 e A : console_ok A s e0 e ->
  exists o, slots_shown (fun a => tables_shown (a_tables a)) (a_slots A) o /\ usr_cmd_tables s e = Some (show o s, e).
Proof.
  intros Ok.
  set (tout := fun (t : tableInfo) o => exists es, enumerates (tb_entries t) es /\ o = Shown (RTable t) :: ((fun n => Shown (REntry n)) <$> es)).
  destruct (print_slots_ok print_tables
    (fun lr o => exists ts os, enumerates (lr_tables lr) ts /\ Forall2 tout ts os /\ o = concat os) s e (res_linked _ (co_slots _ _ _ _ Ok))) as (lrs & os & En & F & E).
  - intros p lr s' Hl. pose proof (fine_at _ _ _ _ _ _ Ok Hl) as Hf. destruct (ro_slot _ (sf_res _ Hf)) as [St Wf _ _ _ _ _].
    unfold print_tables.
    destruct (traverse_emits (R := Empty_set) (lr_tables lr) (fun _ => res_hm (lr_tables lr))
      (fun q s => table ← lift (res_load q (lr_tables lr)); s ← cmdPrintFlowTable table s; mret (inr s))
      (fun s o => show o s) (fun _ => True) tout s' e (res_linked _ St) (show_nil s')) as (ts & os & Et & _ & F & E); try done.
    + intros o o'. apply show_app.
    + intros q t s2 Ht _.
      assert (entries_ok (tb_entries t)) as Oe.
      { apply (Wf (res_id t) t). unfold res_load in Ht. destruct (r_heap (lr_tables lr) !! q) as [c|] eqn:Eq; [|discriminate]. injection Ht as <-.
        apply contents_lookup; [exact St|]. eauto. }
      destruct (print_each_ok (tb_entries t) REntry (show [Shown (RTable t)] s2) e (entries_linked _ Oe)) as (es & Ee & E).
      eexists. split; [exists es; split; [exact Ee|reflexivity]|]. rewrite run_bind, Ht. cbn [lift]. rewrite run_bind. unfold cmdPrintFlowTable, cmdPrintFlowEntrys, print_reply.
      rewrite E, show_app. reflexivity.
    + exists (concat os). split; [eauto|]. now rewrite run_bind, E.
  - exists (concat os). split; [|exact E]. apply (slots_listed _ _ s e0 e A Ok) with (2 := En) (3 := F).
    intros lr o Hf (ts & os' & Et & F' & ->). exists ts, os'. split; [|auto]. apply enumerates_contents; [apply (sl_tables _ (ro_slot _ (sf_res _ Hf)))|exact Et].
Qed.

(** ** The switches *)

Lemma config_ok_switched d c p cf A s e0 e : console_ok A s e0 e -> config_shows (with_switches d c p A) cf ->
  log_fp (g_log cf) = log_fp (g_log (cm_cf s)) -> console_ok (with_switches d c p A) (set_cm_cf cf s) e0 e.
Proof. intros [O1 O2 O3 O4 O5 O6 O7 O8 O9 O10 O11 O12 O13] Hc Hl. split; try done. cbn. rewrite Hl. exact O12. Qed.

Lemma strtok_ok x A s e0 e : console_ok A s e0 e -> console_ok A (set_cm_cf (set_strtok x (cm_cf s)) s) e0 e.
Proof.
  intros Ok. destruct Ok as [O1 O2 O3 O4 O5 O6 O7 O8 O9 [C1 C2 C3 C4 C5 C6 C7 C8] O11 O12 O13]. split; try done.
Qed.

Lemma copy_states i w cf : text w -> (length w < 63)%nat -> (forall j, length (g_states cf j) = 64%nat) ->
  cstr (g_states (state_copy i w cf) i) = Some w /\ (forall j, j <> i -> g_states (state_copy i w cf) j = g_states cf j) /\
  forall j, length (g_states (state_copy i w cf) j) = 64%nat.
Proof.
  intros T L H. unfold state_copy, state_strncpy. cbn [g_states set_states]. unfold set_pair. split; [|split].
  - rewrite decide_True by done. change (Z.to_nat (POF_STRING_PAIR_MAX_LEN - 1)) with 63%nat. rewrite strncpy_pad by (auto; lia).
    rewrite <- app_assoc. destruct (63 - length w)%nat as [|k] eqn:E; [lia|]. cbn [zeros replicate app]. now apply cstr_app.
  - intros j Hj. now rewrite decide_False.
  - intros j. case_decide; [|apply H]. rewrite length_app, length_strncpy, length_drop, H. reflexivity.
Qed.

Lemma on_off_text b : text (on_off b) /\ (length (on_off b) < 63)%nat.
Proof. destruct b; split; try (unfold text; by_decide); cbn; lia. Qed.

(** A switch and its text set together. *)
Lemma switched_ok i (b d c p : bool) cf A s e0 e : console_ok A s e0 e -> (forall j, g_states cf j = g_states (cm_cf s) j) ->
  log_fp (g_log cf) = log_fp (g_log (cm_cf s)) -> cmdEnable (g_log cf) = true -> is_custom cf = a_custom A -> cf_version cf = cf_version (cm_cf s) ->
  dbgEnable (g_log cf) = d -> colorEnable (g_log cf) = c -> dp_filter cf = (if p then promisc else no_promisc) ->
  i = ST_debug_on /\ b = d /\ c = a_color A /\ p = a_promisc A \/
  i = ST_debug_color_on /\ b = c /\ d = a_debug A /\ p = a_promisc A \/
  i = ST_promisc_on /\ b = p /\ d = a_debug A /\ c = a_color A ->
  console_ok (with_switches d c p A) (set_cm_cf (state_copy i (on_off b) cf) s) e0 e.
Proof.
  intros Ok Hst Hl Hc Hcu Hv Hd Hco Hp Hi. destruct (co_config _ _ _ _ Ok) as [C1 C2 C3 (S1 & S2 & S3) C5 C6 C7 C8].
  destruct (on_off_text b) as [T L].
  destruct (copy_states i (on_off b) cf T L) as (E1 & E2 & E3); [intros j; now rewrite Hst|].
  apply config_ok_switched; [exact Ok| |exact Hl].
  split; [exact Hd|exact Hco|exact Hp| |exact E3|exact Hc|exact Hcu|cbn; rewrite Hv; exact C8].
  destruct Hi as [(-> & -> & -> & ->)|[(-> & -> & -> & ->)|(-> & -> & -> & ->)]]; (split; [|split]); cbn [a_debug a_color a_promisc with_switches];
    first [exact E1|rewrite E2, Hst by done; assumption].
Qed.

(** ** A slot is worked on *)

Lemma resources_same lr lr' : resources_ok lr -> same_tables lr lr' -> res_ok (lr_ports lr') -> resources_ok lr'.
Proof.
  intros [[A1 A2 A3 A4 A5 A6 A7] _ Hg Hm] [_ _ T G M C N _ K] Hp. constructor; [constructor|exact Hp|..]; rewrite ?T, ?G, ?M, ?C, ?N, ?K; auto.
Qed.

Lemma pm_ok_move (pm : pmst) i l t : pm_ok pm -> 0 <= i < 256 -> (exists ps, lrep l ps) -> pm_ok (mkPm (pm_lr pm) i l t).
Proof. intros [P1 P2 P3 P4 _ _] Hi Hl. split; auto. Qed.

Lemma slot_fine_of (pm : pmst) : pm_ok pm -> named U pm -> listening pm -> resources_ok (pm_lr pm) -> slot_fine (pm_lr pm).
Proof.
  intros Ok N L R. split; [exact R| |exact N|exact L]. apply pm_ok_move; [exact Ok|lia|]. exists []. split; [repeat constructor|constructor|reflexivity].
Qed.

Definition changed slots idx rs A := mkConsole slots idx (a_debug A) (a_color A) (a_promisc A) (a_reports A ++ rs) (a_out A)
  (a_custom A) (a_device A) (a_version A).

Lemma stored_ok A s e0 e e' p c (pm : pmst) idx rs f ret : console_ok A s e0 e -> r_heap (slots_of s) !! p = Some c ->
  slot_fine (pm_lr pm) -> lr_slotID (pm_lr pm) = lr_slotID (c_obj c) -> portIndex pm = idx -> 0 <= idx < 256 ->
  (exists ps, lrep (portNameList pm) ps) -> told_env e rs e' -> a_index A <= idx ->
  (forall k, is_Some (a_ports (abs_slot (pm_lr pm)) !! k) -> k < idx) ->
  f (pm_of (c_obj c) (cm_d s)) e = Some ((ret, pm), e') ->
  exists d, on_slot_ports p f (cm_d s) e = Some ((ret, d), e') /\
    console_ok (changed (<[lr_slotID (c_obj c) := abs_slot (pm_lr pm)]> (a_slots A)) idx rs A) (set_cm_d d s) e0 e'.
Proof.
  intros Ok Hp Hf Hid Hi Hr Hl Ht Hle Hlow E. pose proof (co_slots _ _ _ _ Ok) as Os.
  destruct (res_store_ok (slots_of s) p c (pm_lr pm) Os Hp Hid) as (ss & Es & Oss & Cs & _ & Hh).
  exists (dp_of ss (dp_device (d_dp (cm_d s))) pm). split.
  - unfold on_slot_ports. rewrite run_bind. unfold res_load. fold (slots_of s). rewrite Hp. cbn [mbind option_bind lift].
    rewrite run_bind, E, run_bind, Es. reflexivity.
  - destruct Ok as [O1 O2 O3 O4 O5 O6 O7 O8 O9 O10 O11 O12 O13]. split; try done.
    + intros q d. cbn. rewrite Hh, lookup_insert. case_decide; [now intros [= <-]|apply O2].
    + cbn. rewrite Cs, fmap_insert, <- O3. cbn. now rewrite Hid.
    + intros k a i. cbn [a_slots changed a_index]. rewrite lookup_insert. case_decide.
      * intros [= <-]. apply Hlow.
      * intros Ha Hia. specialize (O5 k a i Ha Hia). lia.
    + cbn. eapply told_trans; eauto.
    + destruct O10 as [C1 C2 C3 C4 C5 C6 C7 C8]. now split.
Qed.

Lemma abs_at A s e0 e p c : console_ok A s e0 e -> r_heap (slots_of s) !! p = Some c ->
  a_slots A !! lr_slotID (c_obj c) = Some (abs_slot (c_obj c)).
Proof.
  intros Ok Hp. rewrite <- (co_abs _ _ _ _ Ok), lookup_fmap.
  assert (contents (slots_of s) !! lr_slotID (c_obj c) = Some (c_obj c)) as ->; [|done].
  apply contents_lookup; [apply Ok|]. eauto.
Qed.

(** Nothing done to the slot. *)
Lemma untouched_ok A s e0 e p c t f ret : console_ok A s e0 e -> r_heap (slots_of s) !! p = Some c ->
  f (pm_of (c_obj c) (cm_d s)) e = Some ((ret, at_time t (pm_of (c_obj c) (cm_d s))), e) ->
  exists d, on_slot_ports p f (cm_d s) e = Some ((ret, d), e) /\ console_ok A (set_cm_d d s) e0 e.
Proof.
  intros Ok Hp E. pose proof (co_slots _ _ _ _ Ok) as Os. pose proof (co_quiet _ _ _ _ Ok) as Q. pose proof (co_told _ _ _ _ Ok) as Ht.
  pose proof (abs_at A s e0 e p c Ok Hp) as Ha.
  destruct (stored_ok A s e0 e e p c (at_time t (pm_of (c_obj c) (cm_d s))) (a_index A) [] f ret Ok Hp) as (d & E1 & Ok1); cbn; try done.
  - exact (co_fine _ _ _ _ Ok p c Hp).
  - apply Ok.
  - apply Ok.
  - apply Ok.
  - apply told_nil. apply Ht.
  - intros k Hk. exact (co_low _ _ _ _ Ok _ _ k Ha Hk).
  - exists d. split; [exact E1|]. cbn in Ok1. rewrite (insert_id (a_slots A)) in Ok1 by exact Ha.
    assert (changed (a_slots A) (a_index A) [] A = A) as Ec by (unfold changed; rewrite app_nil_r; now destruct A). now rewrite Ec in Ok1.
Qed.

(** ** [addport] and [delport] *)

Lemma split_typed name slot s e : no_comma name -> 0 <= slot < 65536 ->
  split_arg_into 2 (Some (name ++ comma :: dec slot)) s e =
    Some (([Some name; Some (dec slot)], set_cm_cf (set_strtok (Some []) (cm_cf s)) s), e).
Proof.
  intros Hn Hs. unfold split_arg_into. change 44 with comma. rewrite run_bind, split_pair by (auto; apply dec_no_comma; lia). reflexivity.
Qed.

Lemma slot_named name slot e : 0 <= slot < 65536 -> name_and_slot [Some name; Some (dec slot)] e = Some ((Some name, slot), e).
Proof. intros Hs. unfold name_and_slot. change (default None ([Some name; Some (dec slot)] !! 1%nat)) with (Some (dec slot)). rewrite run_bind, atoi_dec by lia. cbn [lift]. now rewrite u16_small by lia. Qed.

(** The slot found by its id. *)
Lemma slot_found A s e0 e slot : console_ok A s e0 e -> 0 <= slot ->
  match a_slots A !! slot with
  | None => pofdp_get_local_resource slot (d_dp (cm_d s)) = Some None
  | Some a => exists p c, pofdp_get_local_resource slot (d_dp (cm_d s)) = Some (Some p) /\ r_heap (slots_of s) !! p = Some c /\
      lr_slotID (c_obj c) = slot /\ a = abs_slot (c_obj c)
  end.
Proof.
  intros Ok Hs. unfold pofdp_get_local_resource, hmap_hashForLinear.
  destruct (res_get_ok (slots_of s) slot (co_slots _ _ _ _ Ok) Hs) as (o & E & Ho). unfold slots_of in E. rewrite E.
  rewrite <- (co_abs _ _ _ _ Ok), lookup_fmap. destruct o as [p|].
  - destruct Ho as (c & Hc & _ & Hi & ->). cbn. eauto 10.
  - now rewrite Ho.
Qed.

(** The ports of a slot that is worked on. *)
Definition at_work lr s : pmst := pm_of lr (cm_d s).

Lemma work_ok A s e0 e p c : console_ok A s e0 e -> r_heap (slots_of s) !! p = Some c ->
  pm_ok (at_work (c_obj c) s) /\ named U (at_work (c_obj c) s) /\ listening (at_work (c_obj c) s) /\
  ports (at_work (c_obj c) s) = a_ports (abs_slot (c_obj c)) /\ portIndex (at_work (c_obj c) s) = a_index A /\
  env_ok e /\ quiet e /\ resources_ok (c_obj c).
Proof.
  intros Ok Hp. destruct (co_fine _ _ _ _ Ok p c Hp) as [R P N L]. pose proof (co_told _ _ _ _ Ok) as [Rp _ _].
  split; [apply (pm_ok_move (bare (c_obj c))); [exact P|cbn; rewrite (co_index _ _ _ _ Ok); apply Ok|apply Ok]|].
  split; [exact N|]. split; [exact L|]. split; [reflexivity|]. split; [apply Ok|]. split; [apply Rp|].
  split; [eapply quiet_reported; [apply Ok|exact Rp]|exact R].
Qed.

(** The ports of the abstract slot are those of its heap. *)
Lemma named_ports A s e0 e p c name : console_ok A s e0 e -> r_heap (slots_of s) !! p = Some c ->
  (forall q port, obj_at (at_work (c_obj c) s) q = Some port -> name_of port <> name) <->
  (forall k port, a_ports (abs_slot (c_obj c)) !! k = Some port -> name_of port <> name).
Proof.
  intros Ok Hp. destruct (work_ok A s e0 e p c Ok Hp) as (Pm & _ & _ & <- & _). split; intros H.
  - intros k port (q & Hq & _)%ports_lookup; [|exact Pm]. eauto.
  - intros q port Hq. apply (H (po_pofIndex port)). apply ports_lookup; [exact Pm|]. eauto.
Qed.

(** The next index and a name not in the slot are free. *)
Lemma work_unused A s e0 e p c name : console_ok A s e0 e -> r_heap (slots_of s) !! p = Some c -> U name ->
  (forall q port, obj_at (at_work (c_obj c) s) q = Some port -> name_of port <> name) -> unused (at_work (c_obj c) s) name.
Proof.
  intros Ok Hp HUn Ho q port Hq. destruct (work_ok A s e0 e p c Ok Hp) as (Pm & N & _ & Ps & Ix & _). split.
  - assert (is_Some (a_ports (abs_slot (c_obj c)) !! po_pofIndex port)) as Hk
      by (rewrite <- Ps; exists port; apply ports_lookup; [exact Pm|eauto]).
    pose proof (co_low _ _ _ _ Ok _ _ _ (abs_at _ _ _ _ _ _ Ok Hp) Hk). rewrite Ix. lia.
  - intros Eh. apply HU in Eh; [now apply (Ho q port)|now apply (N q)|done].
Qed.

(** A port more, and a port less, in the map of the slot. *)
Lemma added_contents (pm pm' : pmst) q port : pm_ok pm -> pm_ok pm' -> obj_at pm q = None ->
  (forall q' port', obj_at pm q' = Some port' -> po_pofIndex port' <> po_pofIndex port) ->
  (forall q', obj_at pm' q' = if decide (q' = q) then Some port else obj_at pm q') -> ports pm' = <[po_pofIndex port := port]> (ports pm).
Proof.
  intros Pm Pm' Hq Hu O. apply map_eq. intros k. apply option_eq. intros v. rewrite (ports_lookup pm' k v Pm'), lookup_insert. split.
  - intros (q' & Hq' & Hk). rewrite O in Hq'. case_decide as Hd; [injection Hq' as <-; now rewrite decide_True|].
    rewrite decide_False; [apply ports_lookup; [exact Pm|eauto]|]. intros Hk'. apply (Hu q' v Hq'). congruence.
  - case_decide as Hk; [intros [= <-]; exists q; rewrite O, decide_True by done; auto|].
    intros (q' & Hq' & Hk')%ports_lookup; [|exact Pm]. exists q'. rewrite O, decide_False; [auto|]. intros ->. congruence.
Qed.
Lemma deleted_contents (pm pm' : pmst) q port : pm_ok pm -> pm_ok pm' -> obj_at pm q = Some port ->
  (forall q', obj_at pm' q' = if decide (q' = q) then None else obj_at pm q') -> ports pm' = delete (po_pofIndex port) (ports pm).
Proof.
  intros Pm Pm' Hq O. apply map_eq. intros k. apply option_eq. intros v. rewrite (ports_lookup pm' k v Pm'), lookup_delete. split.
  - intros (q' & Hq' & Hk). rewrite O in Hq'. case_decide as Hd; [done|]. rewrite decide_False; [apply ports_lookup; [exact Pm|eauto]|].
    intros Hk'. apply Hd. destruct (pk_ports _ Pm) as (m & cs & R). unfold obj_at in *.
    destruct (r_heap (lr_ports (pm_lr pm)) !! q') as [c1|] eqn:E1; [|done]. destruct (r_heap (lr_ports (pm_lr pm)) !! q) as [c2|] eqn:E2; [|done].
    injection Hq' as Hv. injection Hq as Hp. apply (rr_uniq _ _ _ R q' q c1 c2 E1 E2). rewrite Hv, Hp. cbn. congruence.
  - case_decide as Hk; [done|]. intros (q' & Hq' & Hk')%ports_lookup; [|exact Pm]. exists q'. rewrite O, decide_False; [auto|]. intros ->. congruence.
Qed.

Lemma abs_same lr lr' : same_tables lr lr' -> abs_slot lr' = with_ports (contents (lr_ports lr')) (abs_slot lr).
Proof. intros [_ _ T G M C _ _ _]. unfold abs_slot, with_ports. cbn. now rewrite T, G, M, C. Qed.

Lemma new_port_ok A s e0 e p c name i : console_ok A s e0 e -> r_heap (slots_of s) !! p = Some c -> U name -> a_index A < 255 ->
  s_iface y name = Some i -> (forall q port, obj_at (at_work (c_obj c) s) q = Some port -> name_of port <> name) ->
  let slot := lr_slotID (c_obj c) in let port := made y i (a_index A) slot name in
  exists d e', on_slot_ports p (poflr_add_port system name) (cm_d s) e = Some ((POF_OK, d), e') /\
    console_ok (tells (POFPR_ADD, port) (with_next (a_index A + 1) (with_slots
      (<[slot := with_ports (<[a_index A := set_task (task_id y) port]> (a_ports (abs_slot (c_obj c)))) (abs_slot (c_obj c))]> (a_slots A)) A)))
      (set_cm_d d s) e0 e'.
Proof.
  intros Ok Hp HUn Hx Ei Ho slot port. destruct (work_ok A s e0 e p c Ok Hp) as (Pm & N & Li & Ps & Ix & Oe & Q & R).
  pose proof (work_unused A s e0 e p c name Ok Hp HUn Ho) as Hu. pose proof (abs_at A s e0 e p c Ok Hp) as Ha.
  destruct (add_port_ok system y static Hy U HU _ name i e Pm N HUn Ei Hu Oe Q) as (q & pm & e' & E & Pm' & Hq & T & X & Ll & St & O).
  rewrite Ix in *. change (lr_slotID (pm_lr (at_work (c_obj c) s))) with slot in *. fold port in T, O.
  destruct (so_iface _ Hy _ _ Ei) as (Tn & _). pose proof (co_range _ _ _ _ Ok) as Hr.
  assert (name_of (set_task (task_id y) port) = name) as Enm by (rewrite set_task_name; now apply made_name).
  assert (po_taskID (set_task (task_id y) port) <> POF_INVALID_TASKID) as Ht
    by (destruct (so_thread _ Hy) as (id & Eid & Hid); cbn; unfold task_id; rewrite Eid; exact Hid).
  assert (contents (lr_ports (pm_lr pm)) = <[a_index A := set_task (task_id y) port]> (a_ports (abs_slot (c_obj c)))) as Cp.
  { rewrite <- Ps. apply (added_contents (at_work (c_obj c) s) pm q (set_task (task_id y) port) Pm Pm' Hq); [|exact O].
    intros q' port' Hq'. cbn. change (po_pofIndex port) with (a_index A). rewrite <- Ix. apply (Hu q' port' Hq'). }
  destruct (stored_ok A s e0 e e' p c pm (a_index A + 1) [(POFPR_ADD, port)] (poflr_add_port system name) POF_OK Ok Hp) as (d & Ed & Ok'); try done.
  - apply slot_fine_of; [exact Pm'| | |exact (resources_same _ _ R St (pk_ports _ Pm'))]; intros q' port'; rewrite O; case_decide.
    + intros [= <-]. rewrite Enm. exact HUn.
    + apply N.
    + intros [= <-]. exact Ht.
    + apply Li.
  - apply St.
  - rewrite X, u8_small by lia. done.
  - lia.
  - rewrite Ll. apply Ok.
  - lia.
  - intros k. cbn [abs_slot a_ports]. rewrite Cp, lookup_insert. case_decide; [intros; lia|].
    intros Hk. pose proof (co_low _ _ _ _ Ok _ _ _ Ha Hk). lia.
  - exists d, e'. split; [exact Ed|]. rewrite (abs_same _ _ St), Cp in Ok'. exact Ok'.
Qed.

Lemma adding_ok A s e0 e p c name : console_ok A s e0 e -> r_heap (slots_of s) !! p = Some c -> U name -> (length name < 16)%nat ->
  a_index A < 255 ->
  exists ret d e' B, on_slot_ports p (poflr_add_port system name) (cm_d s) e = Some ((ret, d), e') /\
    adds name (lr_slotID (c_obj c)) A B /\ console_ok B (set_cm_d d s) e0 e' /\ a_index A <= a_index B <= a_index A + 1.
Proof.
  intros Ok Hp HUn Ln Hx. destruct (work_ok A s e0 e p c Ok Hp) as (Pm & N & _ & Ps & _).
  unfold adds. rewrite (abs_at A s e0 e p c Ok Hp).
  destruct (find_name U (at_work (c_obj c) s) name HU Pm N HUn) as (o & E0 & Ho). destruct o as [q|].
  - destruct (untouched_ok A s e0 e p c (d_time (cm_d s)) (poflr_add_port system name) POF_ERROR Ok Hp) as (d & E & Ok').
    { unfold poflr_add_port. rewrite run_bind. unfold at_work in E0. rewrite E0. reflexivity. }
    exists POF_ERROR, d, e, A. split; [exact E|]. split; [|split; [exact Ok'|lia]]. left. split; [|done].
    destruct Ho as (port & Hq & En). exists (po_pofIndex port), port. split; [|exact En]. rewrite <- Ps. apply ports_lookup; [exact Pm|]. eauto.
  - pose proof (proj1 (named_ports A s e0 e p c name Ok Hp) Ho) as Hno. destruct (s_iface y name) as [i|] eqn:Ei.
    + destruct (new_port_ok A s e0 e p c name i Ok Hp HUn Hx Ei Ho) as (d & e' & E & Ok').
      eexists POF_OK, d, e', _. split; [exact E|]. split; [right; split; [exact Hno|reflexivity]|]. split; [exact Ok'|]. cbn. lia.
    + destruct (check_name system y static Hy name (at_work (c_obj c) s) e Ln) as [t Ec]. rewrite Ei in Ec.
      destruct (untouched_ok A s e0 e p c t (poflr_add_port system name) POF_ERROR Ok Hp) as (d & E & Ok').
      { unfold poflr_add_port. rewrite run_bind. unfold at_work in *. rewrite E0. cbn [lift]. now rewrite run_bind, Ec. }
      exists POF_ERROR, d, e, A. split; [exact E|]. split; [now right|]. split; [exact Ok'|lia].
Qed.

Lemma deleting_ok A s e0 e p c name : console_ok A s e0 e -> r_heap (slots_of s) !! p = Some c -> U name ->
  exists ret d e' B, on_slot_ports p (poflr_del_port system self name) (cm_d s) e = Some ((ret, d), e') /\
    (ret = POF_OK \/ ret = POF_ERROR) /\ deletes name (lr_slotID (c_obj c)) A B /\ console_ok B (set_cm_d d s) e0 e' /\ a_index B = a_index A.
Proof.
  intros Ok Hp HUn. destruct (work_ok A s e0 e p c Ok Hp) as (Pm & N & Li & Ps & Ix & Oe & Q & R).
  pose proof (abs_at A s e0 e p c Ok Hp) as Ha. unfold deletes. rewrite Ha.
  destruct (find_name U (at_work (c_obj c) s) name HU Pm N HUn) as (o & E0 & Ho). destruct o as [q|].
  - destruct Ho as (port & Hq & <-).
    destruct (del_port_ok system self y static Hy U HU _ q port e Pm N Hq (Li _ _ Hq) Oe Q) as (pm & e' & E & T & Pm' & [Sx Sl St] & _ & O).
    assert (contents (lr_ports (pm_lr pm)) = delete (po_pofIndex port) (a_ports (abs_slot (c_obj c)))) as Cp
      by (rewrite <- Ps; exact (deleted_contents _ pm q port Pm Pm' Hq O)).
    destruct (stored_ok A s e0 e e' p c pm (a_index A) [(POFPR_DELETE, port)] (poflr_del_port system self (name_of port)) POF_OK Ok Hp) as (d & Ed & Ok'); try done.
    + apply slot_fine_of; [exact Pm'| | |exact (resources_same _ _ R St (pk_ports _ Pm'))]; intros q' port'; rewrite O; (case_decide; [done|]);
        [apply N|apply Li].
    + apply St.
    + congruence.
    + apply Ok.
    + rewrite Sl. apply Ok.
    + intros k. cbn [abs_slot a_ports]. rewrite Cp, lookup_delete. case_decide; [now intros []|]. exact (co_low _ _ _ _ Ok _ _ _ Ha).
    + eexists POF_OK, d, e', _. split; [exact Ed|]. split; [now left|]. split; [|split; [rewrite (abs_same _ _ St), Cp in Ok'; exact Ok'|reflexivity]].
      right. exists (po_pofIndex port), port. split; [rewrite <- Ps; apply ports_lookup; [exact Pm|eauto]|done].
  - destruct (untouched_ok A s e0 e p c (d_time (cm_d s)) (poflr_del_port system self name) POF_ERROR Ok Hp) as (d & E & Ok').
    { unfold poflr_del_port. rewrite run_bind. unfold at_work in E0. rewrite E0. reflexivity. }
    exists POF_ERROR, d, e, A. split; [exact E|]. split; [now right|]. split; [|auto]. left. split; [|done]. exact (proj1 (named_ports A s e0 e p c name Ok Hp) Ho).
Qed.

Lemma addport_ok name slot A s e0 e : console_ok A s e0 e -> no_comma name -> 0 <= slot < 65536 -> U name -> (length name < 16)%nat -> a_index A < 255 ->
  exists s' e' B, usr_cmd_addport system (Some (name ++ comma :: dec slot)) s e = Some (s', e') /\
    (if a_custom A then adds name slot A B else B = A) /\ console_ok B s' e0 e' /\ cm_stdin s' = cm_stdin s /\ a_index A <= a_index B <= a_index A + 1.
Proof.
  intros Ok Hc Hs HUn Ln Hx. unfold usr_cmd_addport. rewrite (cs_custom _ _ (co_config _ _ _ _ Ok)).
  destruct (a_custom A) eqn:Eu; cbn [negb]; [|exists s, e, A; auto with lia].
  rewrite run_bind, split_typed by done. set (s1 := set_cm_cf _ s). assert (console_ok A s1 e0 e) as Ok1 by now apply strtok_ok.
  change (default None ([Some name; Some (dec slot)] !! 0%nat)) with (Some name). cbv beta iota. rewrite run_bind, slot_named by done. rewrite run_bind.
  pose proof (slot_found A s1 e0 e slot Ok1 ltac:(lia)) as Hf. destruct (a_slots A !! slot) as [a|] eqn:Ea.
  - destruct Hf as (p & c & -> & Hp & Hid & Ha). cbn [lift]. destruct (adding_ok A s1 e0 e p c name Ok1 Hp HUn Ln Hx) as (ret & d & e' & B & E & Hadd & OkB & Hi).
    exists (set_cm_d d s1), e', B. rewrite run_bind, E. rewrite Hid in Hadd. auto.
  - rewrite Hf. cbn [lift]. exists s1, e, A. split; [reflexivity|]. split; [unfold adds; now rewrite Ea|]. split; [exact Ok1|]. split; [done|lia].
Qed.

Lemma delport_ok name slot A s e0 e : console_ok A s e0 e -> no_comma name -> 0 <= slot < 65536 -> U name ->
  exists s' e' B, usr_cmd_delport system self (Some (name ++ comma :: dec slot)) s e = Some (s', e') /\
    (if a_custom A then deletes name slot A B else B = A) /\ console_ok B s' e0 e' /\ cm_stdin s' = cm_stdin s /\ a_index B = a_index A.
Proof.
  intros Ok Hc Hs HUn. unfold usr_cmd_delport. rewrite (cs_custom _ _ (co_config _ _ _ _ Ok)).
  destruct (a_custom A) eqn:Eu; cbn [negb]; [|exists s, e, A; auto].
  rewrite run_bind, split_typed by done. set (s1 := set_cm_cf _ s). assert (console_ok A s1 e0 e) as Ok1 by now apply strtok_ok.
  change (default None ([Some name; Some (dec slot)] !! 0%nat)) with (Some name). cbv beta iota. rewrite run_bind, slot_named by done. rewrite run_bind.
  pose proof (slot_found A s1 e0 e slot Ok1 ltac:(lia)) as Hf. destruct (a_slots A !! slot) as [a|] eqn:Ea.
  - destruct Hf as (p & c & -> & Hp & Hid & Ha). cbn [lift]. destruct (deleting_ok A s1 e0 e p c name Ok1 Hp HUn) as (ret & d & e' & B & E & Hr & Hdel & OkB & Hi).
    exists (set_cm_d d s1), e', B. rewrite run_bind, E. rewrite Hid in Hdel. destruct Hr as [-> | ->]; cbn; auto.
  - rewrite Hf. cbn [lift]. exists s1, e, A. split; [reflexivity|]. split; [unfold deletes; now rewrite Ea|]. auto.
Qed.

(** ** [clear_resource] *)

(** A loop over the slots that works on each. *)
Lemma each_slot_maps f dp e (R : pof_local_resource -> pof_local_resource -> Prop) : res_ok (slotMap dp) ->
  (forall q c, r_heap (slotMap dp) !! q = Some c -> exists ret lr', f (c_obj c) e = Some ((ret, lr'), e) /\ R (c_obj c) lr' /\ lr_slotID lr' = lr_slotID (c_obj c)) ->
  exists ret ss, each_slot f dp e = Some ((ret, set_slots ss dp), e) /\ res_ok ss /\
    forall q, reworked R (r_heap (slotMap dp) !! q) (r_heap ss !! q).
Proof.
  intros Ok Hf. unfold each_slot.
  match goal with |- context [HMAP_NODES_IN_STRUCT_TRAVERSE _ ?body _] =>
    destruct (traverse_reworks (R := Empty_set) snd body (fun _ => True) R (POF_OK, slotMap dp) e Ok I) as ([ret ss] & E & _ & Oss & H) end.
  - intros p c [r1 ss1] _ Hp0 Hp. cbn [snd] in *. destruct (Hf p c Hp0) as (r2 & lr2 & E2 & HR & Hid).
    destruct (r_heap ss1 !! p) as [c1|] eqn:Hp1; [|done]. injection Hp as Eo.
    eexists (r2, _), lr2. cbv beta iota. unfold res_load, res_store. rewrite run_bind, Hp1. cbn [mbind option_bind lift]. rewrite Eo, run_bind, E2, run_bind.
    cbn [lift]. split; [reflexivity|]. auto.
  - exists ret, ss. rewrite run_bind. cbn [snd] in *. rewrite E. auto.
Qed.

Lemma clear_fine lr e : slot_fine lr -> exists lr', poflr_clear_resource lr e = Some ((POF_OK, lr'), e) /\
  slot_fine lr' /\ abs_slot lr' = cleared (abs_slot lr) /\ lr_slotID lr' = lr_slotID lr.
Proof.
  intros [R P N L]. destruct (clear_resource_empties lr e R) as (lr' & E & R' & (T & G & M & C) & Cp & _ & _ & _ & _ & Nm & Id & O).
  exists lr'. split; [exact E|]. assert (forall q, obj_at (bare lr') q = set_of_enable POFE_DISABLE <$> obj_at (bare lr) q) as Ho by exact O.
  split; [|split; [unfold abs_slot, cleared; cbn; now rewrite T, G, M, C, Cp|exact Id]]. split.
  - exact R'.
  - destruct (pm_ok_objs (bare lr) (lr_ports lr') (set_of_enable POFE_DISABLE) P (ro_ports _ R') O (fun _ => eq_refl)) as [H1 H2 H3 H4 H5 H6];
      [intros port [? ? ? ? ?]; now split|]. split; unfold obj_at, node_at in *; cbn [pm_lr with_lr bare] in *; rewrite ?Nm; auto.
  - intros q port. rewrite Ho. destruct (obj_at (bare lr) q) as [port0|] eqn:Eq; [|done]. intros [= <-]. exact (N q port0 Eq).
  - intros q port. rewrite Ho. destruct (obj_at (bare lr) q) as [port0|] eqn:Eq; [|done]. intros [= <-]. exact (L q port0 Eq).
Qed.

Lemma clearing_ok A s e0 e : console_ok A s e0 e -> exists s', usr_cmd_clear_resource s e = Some (s', e) /\
  console_ok (with_slots (cleared <$> a_slots A) A) s' e0 e /\ cm_stdin s' = cm_stdin s.
Proof.
  intros Ok. destruct (each_slot_maps poflr_clear_resource (d_dp (cm_d s)) e (fun lr lr' => slot_fine lr' /\ abs_slot lr' = cleared (abs_slot lr)) (co_slots _ _ _ _ Ok))
    as (ret & ss & E & Oss & H).
  - intros q c Hq. destruct (clear_fine (c_obj c) e (co_fine _ _ _ _ Ok q c Hq)) as (lr' & E & ? & ? & ?). eauto 10.
  - eexists. unfold usr_cmd_clear_resource. rewrite run_bind, E. split; [reflexivity|]. split; [|done].
    destruct Ok as [O1 O2 O3 O4 O5 O6 O7 O8 O9 [C1 C2 C3 C4 C5 C6 C7 C8] O11 O12 O13]. split; try done.
    + intros q c' Hq. specialize (H q). change (r_heap ss !! q = Some c') in Hq. unfold reworked in H. rewrite Hq in H. destruct (r_heap (slotMap (d_dp (cm_d s))) !! q); [|done]. apply H.
    + change (abs_slot <$> contents ss = cleared <$> a_slots A). rewrite <- O3. apply contents_reworked; [exact O1|exact Oss|].
      intros q. specialize (H q). unfold slots_of, reworked in *. destruct (r_heap (slotMap (d_dp (cm_d s))) !! q), (r_heap ss !! q); try done. tauto.
    + intros k a i. cbn [a_slots with_slots a_index]. rewrite lookup_fmap. destruct (a_slots A !! k) as [a0|] eqn:Ea; [|done]. intros [= <-].
      cbn [a_ports cleared]. unfold disabled. rewrite lookup_fmap, fmap_is_Some. exact (O5 k a0 i Ea).
Qed.

(** ** A command, and the session *)

(** A line that can be typed, its port one of [U] with a name that fits an
    [ifreq]. *)
Definition cmd_ok (x : console_cmd) : Prop :=
  typeable x /\ match x with CPort _ name _ => U name /\ (length name < 16)%nat | _ => True end.

(** [run] does to [s] what an action does to [A]. *)
Definition simulated (act : console -> Prop) A s (e0 : env) (out : option (cmst * env)) : Prop :=
  exists s' e' B, out = Some (s', e') /\ act B /\ console_ok B s' e0 e' /\ cm_stdin s' = cm_stdin s /\ a_index A <= a_index B <= a_index A + 1.

Lemma shown_ok o act A s e0 e : console_ok A s e0 e -> act (prints o A) -> simulated act A s e0 (Some (show o s, e)).
Proof. intros Ok Ha. exists (show o s), e, (prints o A). split; [done|]. split; [exact Ha|]. split; [now apply show_ok|]. split; [done|cbn; lia]. Qed.
Lemma idle_ok x act A s e0 e : console_ok A s e0 e -> act A -> simulated act A s e0 (Some (set_cm_cf (set_strtok x (cm_cf s)) s, e)).
Proof. intros Ok Ha. eexists _, e, A. split; [done|]. split; [exact Ha|]. split; [now apply strtok_ok|]. split; [done|lia]. Qed.

Lemma listings_ok c body A s e0 e : console_ok A s e0 e -> listed_by c = Some body ->
  exists o, slots_shown body (a_slots A) o /\ usr_cmd_run system self c None s e = Some (show o s, e).
Proof.
  intros Ok Hb. destruct c; try discriminate; injection Hb as <-; cbn [usr_cmd_run].
  - apply (listing_ok lr_ports RPort _ s e0 e A Ok); [|done]. intros lr Hf. apply (ro_ports _ (sf_res _ Hf)).
  - apply (tables_listing_ok s e0 e A Ok).
  - apply (listing_ok lr_groups RGroup _ s e0 e A Ok); [|done]. intros lr Hf. apply (ro_groups _ (sf_res _ Hf)).
  - apply (listing_ok lr_meters RMeter _ s e0 e A Ok); [|done]. intros lr Hf. apply (ro_meters _ (sf_res _ Hf)).
  - apply (listing_ok lr_counters RCounter _ s e0 e A Ok); [|done]. intros lr Hf. apply (sl_counters _ (ro_slot _ (sf_res _ Hf))).
Qed.

Lemma alone_ok c A s e0 e : console_ok A s e0 e -> (takes_arg c -> cf_strtok (cm_cf s) = Some []) ->
  simulated (acts_alone c A) A s e0 (usr_cmd_run system self c None s e).
Proof.
  intros Ok Hs. destruct (listed_by c) as [body|] eqn:El.
  { destruct (listings_ok c body A s e0 e Ok El) as (o & Ho & ->). apply shown_ok; [exact Ok|]. unfold acts_alone. rewrite El. eauto. }
  pose proof (co_config _ _ _ _ Ok) as Cf. pose proof (cs_cmd _ _ Cf) as C6. pose proof (cs_custom _ _ Cf) as C7.
  assert (simulated (fun B => B = A) A s e0 (Some (s, e))) as Hidle by (exists s, e, A; split; [done|]; split; [done|]; split; [done|]; split; [done|lia]).
  assert (forall i b d cc p cf, (forall j, g_states cf j = g_states (cm_cf s) j) -> log_fp (g_log cf) = log_fp (g_log (cm_cf s)) ->
      cmdEnable (g_log cf) = true -> is_custom cf = a_custom A -> cf_version cf = cf_version (cm_cf s) -> dbgEnable (g_log cf) = d ->
      colorEnable (g_log cf) = cc -> dp_filter cf = (if p : bool then promisc else no_promisc) ->
      i = ST_debug_on /\ b = d /\ cc = a_color A /\ p = a_promisc A \/ i = ST_debug_color_on /\ b = cc /\ d = a_debug A /\ p = a_promisc A \/
      i = ST_promisc_on /\ b = p /\ d = a_debug A /\ cc = a_color A ->
      simulated (fun B => B = with_switches d cc p A) A s e0 (Some (set_cm_cf (state_copy i (on_off b) cf) s, e))) as Hsw.
  { intros i b d cc p cf H1 H2 H3 H4 H5 H6 H7 H8 H9. eexists _, e, _. split; [reflexivity|]. split; [reflexivity|].
    split; [now apply (switched_ok i b d cc p cf A s e0 e Ok)|]. split; [done|cbn; lia]. }
  pose proof (cs_debug _ _ Cf) as C1. pose proof (cs_color _ _ Cf) as C2. pose proof (cs_promisc _ _ Cf) as C3.
  destruct c; try discriminate El; unfold acts_alone; cbn [listed_by usr_cmd_run]; try exact Hidle.
  - apply shown_ok; [exact Ok|]. now rewrite (co_device _ _ _ _ Ok).
  - apply shown_ok; [exact Ok|]. now rewrite (co_device _ _ _ _ Ok).
  - apply shown_ok; [exact Ok|]. now rewrite (co_device _ _ _ _ Ok).
  - unfold usr_cmd_version. rewrite run_bind, (cs_version _ _ Cf). apply shown_ok; [exact Ok|done].
  - apply shown_ok; [exact Ok|]. exists (g_states (cm_cf s)). split; [apply Cf|done].
  - apply (Hsw ST_promisc_on true); auto 10.
  - apply (Hsw ST_promisc_on false); auto 10.
  - unfold usr_cmd_addport. destruct (negb (is_custom (cm_cf s))); [exact Hidle|]. unfold split_arg_into. rewrite Hs by (unfold takes_arg; set_solver). now apply idle_ok.
  - unfold usr_cmd_delport. destruct (negb (is_custom (cm_cf s))); [exact Hidle|]. unfold split_arg_into. rewrite Hs by (unfold takes_arg; set_solver). now apply idle_ok.
  - unfold usr_cmd_test, split_arg_into. rewrite Hs by (unfold takes_arg; set_solver). now apply idle_ok.
  - destruct (clearing_ok A s e0 e Ok) as (s' & E & Ok' & Hi). exists s', e, (with_slots (cleared <$> a_slots A) A). split; [exact E|].
    split; [done|]. split; [exact Ok'|]. split; [exact Hi|cbn; lia].
  - apply (Hsw ST_debug_on true); auto 10.
  - apply (Hsw ST_debug_on false); auto 10.
  - apply (Hsw ST_debug_color_on true); auto 10.
  - apply (Hsw ST_debug_color_on false); auto 10.
Qed.

(** What is read of a line, and what the loop makes of it. *)
Lemma alone_extra c arg s : ~ takes_arg c -> usr_cmd_run system self c arg s = usr_cmd_run system self c None s.
Proof. unfold takes_arg. intros Hc. destruct c; try reflexivity; destruct Hc; set_solver. Qed.

Lemma runs_command c arg fuel s e : c <> POFUC_quit -> c <> POFUC_exit ->
  (if (number_of_cmd c =? number_of_cmd POFUC_quit) || (number_of_cmd c =? number_of_cmd POFUC_exit) then mret s
   else match cmd_of_number (number_of_cmd c) with
        | None => console_loop system self fuel arg s
        | Some c => s ← usr_cmd_run system self c arg s; console_loop system self fuel arg s
        end) e = (s ← usr_cmd_run system self c arg s; console_loop system self fuel arg s) e.
Proof. intros H1 H2. rewrite number_ends, bool_decide_eq_false_2, number_found; [done|]. now intros []. Qed.

(** One turn of the loop. *)
Lemma turn_ok x fuel arg A s e0 e rest : console_ok A s e0 e -> cmd_ok x -> a_index A < 255 -> cm_stdin s = typed x ++ rest ->
  exists arg' s' e' B, console_loop system self (S fuel) arg s e = console_loop system self fuel arg' s' e' /\
    acts x A B /\ console_ok B s' e0 e' /\ cm_stdin s' = rest /\ a_index A <= a_index B <= a_index A + 1.
Proof.
  intros Ok [T Hx] Hi Es. unfold typed in Es. rewrite <- app_assoc in Es.
  pose proof (gets_line _ arg s e rest (typed_chars x T) (proj1 T) Es) as G. destruct T as [_ Ht].
  cbn [console_loop]. rewrite run_bind, G. set (s1 := set_cm_stdin _ _).
  assert (console_ok A s1 e0 e) as Ok1 by (pose proof (strtok_ok (Some (line_saved (line_of x))) A s e0 e Ok) as H; destruct H; now split).
  assert (forall c arg', ~ (c = POFUC_quit \/ c = POFUC_exit) -> type_of_word (line_cmd (line_of x)) = number_of_cmd c -> line_arg (line_of x) = arg' ->
    simulated (acts x A) A s1 e0 (usr_cmd_run system self c arg' s1 e) ->
    exists arg' s' e' B, (if (type_of_word (line_cmd (line_of x)) =? number_of_cmd POFUC_quit) || (type_of_word (line_cmd (line_of x)) =? number_of_cmd POFUC_exit) then mret s1
      else match cmd_of_number (type_of_word (line_cmd (line_of x))) with
           | None => console_loop system self fuel (line_arg (line_of x)) s1
           | Some c => s ← usr_cmd_run system self c (line_arg (line_of x)) s1; console_loop system self fuel (line_arg (line_of x)) s
           end) e = console_loop system self fuel arg' s' e' /\
      acts x A B /\ console_ok B s' e0 e' /\ cm_stdin s' = rest /\ a_index A <= a_index B <= a_index A + 1) as Run.
  { intros c arg' Hc -> -> (s' & e' & B & E & Ha & Ok' & Hr & Hb). exists arg', s', e', B.
    rewrite runs_command, run_bind, E by tauto. split; [done|]. split; [exact Ha|]. split; [exact Ok'|]. now split. }
  destruct x as [c|add name slot|c words|line]; cbn [line_of acts] in *.
  - apply (Run c None); [tauto|unfold line_cmd; rewrite strtok_word_alone; apply word_found|unfold line_arg; now rewrite strtok_word_alone|].
    apply alone_ok; [exact Ok1|]. intros _. cbn. unfold line_saved. now rewrite strtok_word_alone.
  - destruct Ht as (P & Hc & Hsl), Hx as [HUn Ln]. destruct (plain_space _ (arg_plain name slot P (proj1 Hsl))) as [An As].
    apply (Run (port_cmd add) (Some (name ++ comma :: dec slot))); [now destruct add; intros []|unfold line_cmd; rewrite strtok_word; apply word_found| |].
    { unfold line_arg. rewrite strtok_word. cbn [snd]. now rewrite strtok_last. }
    destruct add; cbn [port_cmd usr_cmd_run].
    + destruct (addport_ok name slot A s1 e0 e Ok1 Hc Hsl HUn Ln Hi) as (s' & e' & B & E & Ha & Ok' & H). exists s', e', B. auto.
    + destruct (delport_ok name slot A s1 e0 e Ok1 Hc Hsl HUn) as (s' & e' & B & E & Ha & Ok' & Hst & Hb). exists s', e', B. rewrite Hb. auto with lia.
  - destruct Ht as (Hq & Ht & W). apply (Run c (line_arg (word_of c ++ 32 :: words))); [tauto|unfold line_cmd; rewrite strtok_word; apply word_found|done|].
    rewrite alone_extra by exact Ht. apply alone_ok; [exact Ok1|]. intros H. now destruct Ht.
  - destruct Ht as [_ Hw]. exists (line_arg line), s1, e, A. split; [|split; [done|split; [exact Ok1|split; [done|lia]]]].
    destruct (line_cmd line) as [w|]; [rewrite word_unknown by now apply Hw|]; reflexivity.
Qed.

Lemma length_typed x : (0 < length (typed x))%nat.
Proof. unfold typed. rewrite length_app. cbn. lia. Qed.

(** The loop of the console on typed lines. *)
Lemma console_loop_ok xs : forall fuel arg A s e0 e rest, console_ok A s e0 e -> Forall cmd_ok xs ->
  cm_stdin s = concat (typed <$> xs) ++ lit "quit" ++ 10 :: rest -> (length (cm_stdin s) < fuel)%nat ->
  a_index A + Z.of_nat (length xs) < 256 ->
  exists s' e' B, console_loop system self fuel arg s e = Some (s', e') /\ act_all xs A B /\ console_ok B s' e0 e' /\ cm_stdin s' = rest.
Proof.
  induction xs as [|x xs IH]; intros fuel arg A s e0 e rest Ok Hxs Es Hf Hi; (destruct fuel as [|fuel]; [lia|]); cbn [fmap list_fmap concat] in *.
  - pose proof (gets_line (lit "quit") arg s e rest ltac:(by_decide) ltac:(cbn; lia) Es) as E.
    cbn [console_loop]. rewrite run_bind, E. eexists _, e, A. split; [reflexivity|]. split; [constructor|]. split; [|done].
    pose proof (strtok_ok (Some []) A s e0 e Ok) as Ok1. destruct Ok1. now split.
  - apply Forall_cons in Hxs as [Hx Hxs]. rewrite <- app_assoc in Es. cbn [length] in Hi.
    destruct (turn_ok x fuel arg A s e0 e _ Ok Hx ltac:(lia) Es) as (arg' & s1 & e1 & B & E & Ha & Ok1 & H1 & Hb). rewrite E.
    destruct (IH fuel arg' B s1 e0 e1 rest Ok1 Hxs H1) as (s' & e' & C & E' & Hall & Ok' & Hr).
    + rewrite H1. rewrite Es, length_app in Hf. pose proof (length_typed x). lia.
    + lia.
    + exists s', e', C. split; [exact E'|]. split; [now apply (acts_cons x xs A B C)|]. auto.
Qed.
End console.

(** C10. A session at the console, up to [quit].  Each line of fewer than 31
    characters is a command alone, a command with words it does not look at,
    [addport name,slot] or [delport name,slot] with a name of fewer than 16
    characters among the interfaces [U] and a slot number below 65536, or a line
    that is no command, blank ones included ([cmd_ok]; a longer name overruns a
    request, [long_port_name], and [test] with arguments is left out); and there
    are fewer lines than port indices left.  Then the console runs the lines in
    their order and returns, without a fault; the slots, the ports with their
    sockets and tasks, the three switches with their texts and the messages to
    the controller are those of an abstract console on finite maps, a line that
    is no command does nothing, and each listing prints what the maps hold, every
    element once. *)
Theorem console_refines system self y U xs A s e rest :
  (forall t, system t = y) -> sys_ok y -> apart U -> console_ok U A s e e -> Forall (cmd_ok U) xs ->
  cm_stdin s = concat (typed <$> xs) ++ lit "quit" ++ 10 :: rest -> a_index A + Z.of_nat (length xs) < 256 ->
  exists s' e' B, pof_runing_command system self s e = Some (s', e') /\ act_all y xs A B /\ console_ok U B s' e e' /\ cm_stdin s' = rest.
Proof. intros Hs Hy HU Ok Hxs Es Hi. apply (console_loop_ok system self y Hs Hy U HU xs _ None A s e e rest Ok Hxs Es); [lia|exact Hi]. Qed.

(** ** Examples *)

Definition cm_example (cmds : list Z) : cmst :=
  mkCm (custom_mode initial_config) (mkDpst (mkDp (res_one lr_table 1) device_example) 1 (DList LNil LNil 0 ∅) 0) cmds [] [].
Definition console_example : console :=
  mkConsole {[0 := abs_slot lr_table]} 1 false false false [] [] true device_example [].

Lemma lr_table_fine U : slot_fine U lr_table.
Proof.
  split.
  - exact lr_table_resources.
  - assert (forall q, obj_at (bare lr_table) q = None /\ node_at (bare lr_table) q = None) as Hn
      by (intros q; unfold obj_at, node_at; cbn; now rewrite !lookup_empty).
    split; [apply res_none_ok|apply res_none_ok| | |cbn; lia|].
    + intros q. destruct (Hn q) as [-> ->]. done.
    + intros q port. destruct (Hn q) as [-> _]. done.
    + exists []. split; [repeat constructor|constructor|reflexivity].
  - intros p port. unfold obj_at. cbn. now rewrite lookup_empty.
  - intros p port. unfold obj_at. cbn. now rewrite lookup_empty.
Qed.

Lemma console_example_ok U cmds : console_ok U console_example (cm_example cmds) env_example env_example.
Proof.
  assert (res_ok (slotMap (d_dp (cm_d (cm_example cmds))))) as Hs by exact (res_one_ok lr_table 1 ltac:(by_decide)).
  destruct pm_example_ok as (_ & _ & Oe & Q). split; try done; cbn [cm_d cm_cf cm_example].
  - intros q c. cbn. rewrite lookup_singleton. case_decide; [|done]. intros [= <-]. apply lr_table_fine.
  - intros k a i. cbn. rewrite lookup_singleton. case_decide; [|done]. intros [= <-]. change (a_ports (abs_slot lr_table)) with (∅ : gmap Z portInfo). rewrite lookup_empty. now intros [].
  - exists []. split; [repeat constructor|constructor|reflexivity].
  - now apply told_nil.
  - split; try done. intros []; reflexivity.
Qed.

Definition session_example : list console_cmd :=
  [COther []; CExtra POFUC_enable_debug (lit "please"); COther (lit "ports?"); CPort true (eth 48) 0; CAlone POFUC_ports; CPort false (eth 48) 0; CPort true (eth 49) 3; CAlone POFUC_clear_resource].
Definition named_example (n : list Z) : Prop := n ∈ [eth 48; eth 49].

Lemma named_example_apart : apart named_example.
Proof. intros a b Ha Hb. unfold named_example in *. rewrite !elem_of_cons, elem_of_nil in *. intros E. destruct_or! Ha; destruct_or! Hb; subst; try done; vm_compute in E; discriminate. Qed.

Lemma session_example_ok : Forall (cmd_ok named_example) session_example.
Proof.
  unfold session_example.
  repeat (apply Forall_cons; split); try apply Forall_nil_2; (split; [split; [vm_compute; lia|]|]); try exact I; cbn [typeable].
  1: split; [constructor|intros w [=]].
  1: split; [by_decide|split; [unfold takes_arg; by_decide|by_decide]].
  1: split; [by_decide|intros w [= <-] c; destruct c; vm_compute; discriminate].
  all: first [by_decide|split; [split; [done|by_decide]|split; [split; [done|by_decide]|lia]]|split; [unfold named_example; set_solver|cbn; lia]].
Qed.

Lemma console_refines_witness : exists s' e' B,
  pof_runing_command (fun _ => sys_example) 9 (cm_example (concat (typed <$> session_example) ++ lit "quit" ++ [10])) env_example = Some (s', e') /\
  act_all sys_example session_example console_example B /\ console_ok named_example B s' env_example e' /\ cm_stdin s' = [].
Proof.
  apply (console_refines (fun _ => sys_example) 9 sys_example named_example session_example console_example _ env_example []).
  - done.
  - exact sys_example_ok.
  - exact named_example_apart.
  - apply console_example_ok.
  - exact session_example_ok.
  - done.
  - cbn. lia.
Defined.

(** What the session leaves: debugging on, and no port. *)
Example session_leaves :
  match pof_runing_command (fun _ => sys_example) 9 (cm_example (concat (typed <$> session_example) ++ lit "quit" ++ [10])) env_example with
  | Some (s, _) => dbgEnable (g_log (cm_cf s)) = true /\ d_index (cm_d s) = 2 /\ length (cm_term s) = 2%nat
  | None => False
  end.
Proof. vm_compute. auto. Qed.

(** At the end of the input the console asks for ever. *)
Lemma console_end_of_input system self fuel : forall arg s e, cm_stdin s = [] -> console_loop system self fuel arg s e = None.
Proof.
  induction fuel as [|fuel IH]; intros arg s e Es; [done|]. cbn [console_loop]. rewrite run_bind. unfold usr_cmd_gets, fgets. rewrite Es.
  cbn. now apply IH.
Qed.

(** A name of 16 characters overruns the request of checkPortNameInSys. *)
Example long_port_name :
  usr_cmd_addport (fun _ => sys_example) (Some (lit "enp0s31f6v100eth,0")) (cm_example []) env_example = None /\
  is_Some (usr_cmd_addport (fun _ => sys_example) (Some (lit "enp0s31f6v100et,0")) (cm_example []) env_example).
Proof. split; [vm_compute; reflexivity|eexists; vm_compute; reflexivity]. Qed.

(** When the task of a port cannot be cancelled, the error is printed while the
    console holds the lock of the log, and [delport] does not return. *)
Example failed_delport :
  let stuck := mkSys (s_iface sys_example) (s_ifaddrs sys_example) (s_socket sys_example) (s_bind sys_example) (s_thread sys_example) false in
  (usr_cmd_addport (fun _ => stuck) (Some (eth 48 ++ lit ",0")) (cm_example []) ≫= usr_cmd_delport (fun _ => stuck) 9 (Some (eth 48 ++ lit ",0"))) env_example = None.
Proof. vm_compute. reflexivity. Qed.
