(* ===== verification/Program.v ===== *)
(** * The program from its start to its end (switch_control/pof_switch.c, common/pof_basefunc.c)

    [main] configures the switch, makes the slots, starts the communication with
    the controller and the datapath, serves the console, and takes everything
    down.  The tasks it starts run elsewhere (Switch.v, PortMgr.v, Listen.v); what
    they do to the globals while [main] sleeps is the parameter [meanwhile].
    Every path through [main] leaves the process: the result is its last state. *)

From S2P Require Import Prelude Codec Env Hmap IdMap DList LocalRes Slot Parse PortMgr Boot Text Config Listen Command.
From Stdlib Require String.
Import String.StringSyntax.
#[local] Open Scope string_scope.

Definition POF_QUEUE_CREATE_FAIL := EC 0x700A "POF_QUEUE_CREATE_FAIL".
Definition POF_QUEUE_DELETE_FAIL := EC 0x700B "POF_QUEUE_DELETE_FAIL".
Definition POF_TIMER_CREATE_FAIL := EC 0x700E "POF_TIMER_CREATE_FAIL".
Definition POF_TIMER_DELETE_FAIL := EC 0x700F "POF_TIMER_DELETE_FAIL".
Definition POF_INVALID_QUEUEID : Z := 0xffffffff. (* -1 in a [uint32_t] *)
Definition POF_INVALID_TIMERID : Z := 0.
Definition POF_VALID_TIMERID : Z := 1.
Definition POF_CONNECTION_MAX_RETRY_TIME : Z := 0xffffffff.
Definition POF_CONNECTION_RETRY_INTERVAL : Z := 2.
Definition POF_ECHO_INTERVAL : Z := 2000.
Definition POF_SLOT_MAX : Z := 16.

(** ** State *)

(** What the system keeps of the process and of others: the message queues with
    their keys, the next queue id, the timer (interval and value, each in seconds
    and microseconds), and whether SIGALRM calls the echo timer. *)
Record kernel := mkKernel { k_queues : list (Z * Z); k_next : Z; k_timer : option (Z * Z * Z * Z); k_alarm : bool }.

(** How the calls of the system go: [ftok(".", i)], and whether [msgget],
    [msgctl], [signal] and [setitimer] succeed. *)
Record calls := mkCalls { y_ftok : Z -> Z; y_msgget : bool; y_msgctl : bool; y_signal : bool; y_setitimer : bool }.

(** The attributes of the connection: [controller_ip], [controller_port],
    [conn_retry_max], [conn_retry_interval] and [echo_interval]. *)
Record conn_attr := mkAttr { at_ip : list Z (* 20 *); at_port : Z; at_retry_max : Z; at_retry_interval : Z; at_echo : Z }.

Record proc := mkProc {
  pr_cm : cmst;
  pr_kernel : kernel;
  pr_attr : conn_attr;
  pofsc_main_task_id : Z;
  pofsc_send_task_id : Z;
  pofsc_listen_task_id : Z;
  g_pofdp_detect_port_task_id : Z;
  pofsc_send_q_id : Z;
  pofsc_echo_timer_id : Z;
  pofbf_key : Z;
  pofsc_terminate_flag : bool
}.
Implicit Types (pr : proc) (k : kernel) (s : cmst).

Definition pr_cf pr : config := cm_cf (pr_cm pr).
Definition pr_d pr : dpst := cm_d (pr_cm pr).

Definition set_cm s pr := mkProc s (pr_kernel pr) (pr_attr pr) (pofsc_main_task_id pr) (pofsc_send_task_id pr) (pofsc_listen_task_id pr)
  (g_pofdp_detect_port_task_id pr) (pofsc_send_q_id pr) (pofsc_echo_timer_id pr) (pofbf_key pr) (pofsc_terminate_flag pr).
Definition set_kernel x pr := mkProc (pr_cm pr) x (pr_attr pr) (pofsc_main_task_id pr) (pofsc_send_task_id pr) (pofsc_listen_task_id pr)
  (g_pofdp_detect_port_task_id pr) (pofsc_send_q_id pr) (pofsc_echo_timer_id pr) (pofbf_key pr) (pofsc_terminate_flag pr).
Definition set_attr x pr := mkProc (pr_cm pr) (pr_kernel pr) x (pofsc_main_task_id pr) (pofsc_send_task_id pr) (pofsc_listen_task_id pr)
  (g_pofdp_detect_port_task_id pr) (pofsc_send_q_id pr) (pofsc_echo_timer_id pr) (pofbf_key pr) (pofsc_terminate_flag pr).
Definition set_tasks m sd l d pr := mkProc (pr_cm pr) (pr_kernel pr) (pr_attr pr) m sd l d (pofsc_send_q_id pr) (pofsc_echo_timer_id pr)
  (pofbf_key pr) (pofsc_terminate_flag pr).
Definition set_queue_id x pr := mkProc (pr_cm pr) (pr_kernel pr) (pr_attr pr) (pofsc_main_task_id pr) (pofsc_send_task_id pr)
  (pofsc_listen_task_id pr) (g_pofdp_detect_port_task_id pr) x (pofsc_echo_timer_id pr) (pofbf_key pr) (pofsc_terminate_flag pr).
Definition set_timer_id x pr := mkProc (pr_cm pr) (pr_kernel pr) (pr_attr pr) (pofsc_main_task_id pr) (pofsc_send_task_id pr)
  (pofsc_listen_task_id pr) (g_pofdp_detect_port_task_id pr) (pofsc_send_q_id pr) x (pofbf_key pr) (pofsc_terminate_flag pr).
Definition set_key x pr := mkProc (pr_cm pr) (pr_kernel pr) (pr_attr pr) (pofsc_main_task_id pr) (pofsc_send_task_id pr)
  (pofsc_listen_task_id pr) (g_pofdp_detect_port_task_id pr) (pofsc_send_q_id pr) (pofsc_echo_timer_id pr) x (pofsc_terminate_flag pr).
Definition set_terminate x pr := mkProc (pr_cm pr) (pr_kernel pr) (pr_attr pr) (pofsc_main_task_id pr) (pofsc_send_task_id pr)
  (pofsc_listen_task_id pr) (g_pofdp_detect_port_task_id pr) (pofsc_send_q_id pr) (pofsc_echo_timer_id pr) (pofbf_key pr) x.

Definition set_pr_d d pr := set_cm (set_cm_d d (pr_cm pr)) pr.
Definition set_pr_cf cf pr := set_cm (set_cm_cf cf (pr_cm pr)) pr.

Definition set_send_q_valid (b : bool) (e : env) : env :=
  mkEnv (g_recv_xid e) (g_upward_xid e) (g_pofec_error e) (g_poflr_dev_id e) (conn_state e)
    (queue_msg_buf e) b (send_q e) (q_residue e) (mallocs e) (msgsnds e).

Section program.
Context (system : nat -> sys) (self : Z) (c : calls).

(** An error of pof_basefunc.c. *)
Definition base_failure (code : ecode) pr : St (Z * proc) :=
  r ← POF_ERROR_HANDLE_RETURN_NO_UPWARD POFET_SOFTWARE_FAILED code; mret (r, pr).

(** ** Message queues *)

(** [msgget(key, IPC_CREAT|0666)]: the queue of the key, made when there is none;
    the key 0 ([IPC_PRIVATE]) always makes one. *)
Definition msgget (key : Z) k : Z * kernel :=
  match (if key =? 0 then None else find (fun q => q.2 =? key) (k_queues k)) with
  | Some q => (q.1, k)
  | None => (k_next k, mkKernel ((k_next k, key) :: k_queues k) (k_next k + 1) (k_timer k) (k_alarm k))
  end.

Definition pofbf_queue_create pr : St (Z * proc) :=
  e ← get_env;
  let key := if pofbf_key pr =? 0 then y_ftok c (g_poflr_dev_id e) else pofbf_key pr in
  let pr := set_key key pr in
  if negb (y_msgget c) then
    _ ← mod_env (set_send_q_valid false);
    base_failure POF_QUEUE_CREATE_FAIL (set_queue_id POF_INVALID_QUEUEID pr)
  else
    let '(id, k) := msgget key (pr_kernel pr) in
    _ ← mod_env (set_send_q_valid true);
    mret (POF_OK, set_queue_id id (set_key (key + 1) (set_kernel k pr))).

Definition drop_queue (id : Z) k : kernel :=
  mkKernel (filter (fun q => q.1 <> id) (k_queues k)) (k_next k) (k_timer k) (k_alarm k).

(** [IPC_RMID] of a queue that is gone is an error. *)
Definition pofbf_queue_delete pr : St (Z * proc) :=
  let id := pofsc_send_q_id pr in
  if id =? POF_INVALID_QUEUEID then base_failure POF_QUEUE_DELETE_FAIL pr
  else if negb (y_msgctl c && existsb (fun q => q.1 =? id) (k_queues (pr_kernel pr))) then base_failure POF_QUEUE_DELETE_FAIL pr
  else
    _ ← mod_env (set_send_q_valid false);
    mret (POF_OK, set_queue_id POF_INVALID_QUEUEID (set_kernel (drop_queue id (pr_kernel pr)) pr)).

(** ** The timer *)

(** On Linux [setitimer] with no new value disarms the timer, and the handler NULL
    of [signal] is the default one. *)

Definition with_alarm b k := mkKernel (k_queues k) (k_next k) (k_timer k) b.
Definition with_timer t k := mkKernel (k_queues k) (k_next k) t (k_alarm k).

Definition pofbf_timer_create (delay interval : Z) pr : St (Z * proc) :=
  let val := (interval / 1000, interval mod 1000 * 1000, delay / 1000, delay mod 1000 * 1000) in
  if negb (y_signal c) then base_failure POF_TIMER_CREATE_FAIL pr
  else
    let k := with_alarm true (pr_kernel pr) in
    if negb (y_setitimer c) then base_failure POF_TIMER_CREATE_FAIL (set_kernel k pr)
    else mret (POF_OK, set_timer_id POF_VALID_TIMERID (set_kernel (with_timer (Some val) k) pr)).

Definition pofbf_timer_delete pr : St (Z * proc) :=
  if pofsc_echo_timer_id pr =? POF_INVALID_TIMERID then base_failure POF_TIMER_DELETE_FAIL pr
  else if negb (y_setitimer c) then base_failure POF_TIMER_DELETE_FAIL pr
  else
    let k := with_timer None (pr_kernel pr) in
    if negb (y_signal c) then base_failure POF_TIMER_DELETE_FAIL (set_kernel k pr)
    else mret (POF_OK, set_timer_id POF_INVALID_TIMERID (set_kernel (with_alarm false k) pr)).

(** ** Tasks *)

(** The globals of pof_port.c, for a task that is no port's. *)
Definition globals (d : dpst) : pmst := mkPm res_zero (d_index d) (d_list d) (d_time d).
Definition called (s : pmst) pr : proc := set_pr_d (mkDpst (d_dp (pr_d pr)) (d_index (pr_d pr)) (d_list (pr_d pr)) (pm_time s)) pr.

Definition new_task pr : St (Z * Z * proc) :=
  '(ret, id, s) ← pofbf_task_create system (globals (pr_d pr)); mret (ret, id, called s pr).

(** The deletion of a task whose id is valid; its code is not looked at. *)
Definition end_task (id : Z) pr : St (Z * proc) :=
  if id =? POF_INVALID_TASKID then mret (id, pr)
  else '(_, id, s) ← pofbf_task_delete system self id (globals (pr_d pr)); mret (id, called s pr).

(** ** The end *)

Definition pof_close_log_file (cf : config) : config :=
  match log_fp (g_log cf) with
  | None => cf
  | Some _ => set_log (mkLog None (colorEnable (g_log cf)) (dbgEnable (g_log cf)) (cmdEnable (g_log cf)) (errEnable (g_log cf))) cf
  end.

(** The tasks of the ports of every slot. *)
Definition end_ports (d : dpst) : St dpst :=
  r ← HMAP_NODES_IN_STRUCT_TRAVERSE (R := Empty_set) (fun d => res_hm (slotMap (d_dp d)))
        (fun p d => '(_, d) ← on_slot_ports p (poflr_ports_task_delete system self) d; mret (inr d)) d;
  mret (loop_end r).

Definition pofsc_destroy pr : St (Z * proc) :=
  '(m, pr) ← end_task (pofsc_main_task_id pr) pr;
  let pr := set_tasks m (pofsc_send_task_id pr) (pofsc_listen_task_id pr) (g_pofdp_detect_port_task_id pr) pr in
  '(sd, pr) ← end_task (pofsc_send_task_id pr) pr;
  let pr := set_tasks (pofsc_main_task_id pr) sd (pofsc_listen_task_id pr) (g_pofdp_detect_port_task_id pr) pr in
  '(l, pr) ← end_task (pofsc_listen_task_id pr) pr;
  let pr := set_tasks (pofsc_main_task_id pr) (pofsc_send_task_id pr) l (g_pofdp_detect_port_task_id pr) pr in
  '(_, pr) ← (if negb (pofsc_echo_timer_id pr =? POF_INVALID_TIMERID) then pofbf_timer_delete pr else mret (POF_OK, pr));
  d ← end_ports (pr_d pr);
  let pr := set_pr_d d pr in
  '(_, pr) ← (if negb (pofsc_send_q_id pr =? POF_INVALID_QUEUEID) then pofbf_queue_delete pr else mret (POF_OK, pr));
  mret (POF_OK, set_pr_cf (pof_close_log_file (pr_cf pr)) pr).

(** Whether the process has ended ([exit(0)]), and its state; a second call returns. *)
Definition terminate_process pr : St (bool * proc) :=
  if pofsc_terminate_flag pr then mret (false, pr)
  else '(_, pr) ← pofsc_destroy (set_terminate true pr); mret (true, pr).

(** [POF_CHECK_RETVALUE_TERMINATE], and what follows. *)
Definition check_then (ret : Z) (next : proc -> St proc) pr : St proc :=
  if negb (ret =? POF_OK) then
    '(ended, pr) ← terminate_process pr; if ended : bool then mret pr else next pr
  else next pr.

(** ** The start *)

(** [memcpy] of the address without its terminator over the cleared description. *)
Definition pofsc_set_conn_attr (controller_ip : list Z) (port retry_max retry_interval : Z) pr : St (Z * proc) :=
  _ ← mod_env (set_conn_state POFCS_CHANNEL_INVALID);
  ip ← lift (cstr controller_ip);
  mret (POF_OK, set_attr (mkAttr (strncpy ip (Z.to_nat POF_IP_ADDRESS_STRING_LEN)) port retry_max retry_interval POF_ECHO_INTERVAL) pr).

Definition pofsc_init pr : St (Z * proc) :=
  '(_, pr) ← pofsc_set_conn_attr (pofsc_controller_ip_addr (pr_cf pr)) (pofsc_controller_port (pr_cf pr))
               POF_CONNECTION_MAX_RETRY_TIME POF_CONNECTION_RETRY_INTERVAL pr;
  '(ret, pr) ← pofbf_queue_create pr;
  if negb (ret =? POF_OK) then mret (POF_ERROR, pr)
  else
    '(ret, id, pr) ← new_task pr;
    let pr := set_tasks id (pofsc_send_task_id pr) (pofsc_listen_task_id pr) (g_pofdp_detect_port_task_id pr) pr in
    if negb (ret =? POF_OK) then mret (POF_ERROR, pr)
    else
      '(ret, id, pr) ← new_task pr;
      let pr := set_tasks (pofsc_main_task_id pr) id (pofsc_listen_task_id pr) (g_pofdp_detect_port_task_id pr) pr in
      if negb (ret =? POF_OK) then mret (POF_ERROR, pr)
      else
        '(ret, id, pr) ← new_task pr;
        let pr := set_tasks (pofsc_main_task_id pr) (pofsc_send_task_id pr) id (g_pofdp_detect_port_task_id pr) pr in
        if negb (ret =? POF_OK) then mret (POF_ERROR, pr)
        else
          '(ret, pr) ← pofbf_timer_create 1000 POF_ECHO_INTERVAL pr;
          if negb (ret =? POF_OK) then mret (POF_ERROR, pr) else mret (POF_OK, pr).

(** In the mute mode there is no console, and the loop never ends. *)
Definition pofsc_wait_exit pr : St proc :=
  v ← lift (cstr (g_states (pr_cf pr) ST_verbosity));
  if bool_decide (v = lit "MUTE") then fault
  else
    s ← pof_runing_command system self (pr_cm pr);
    '(_, pr) ← terminate_process (set_cm s pr);
    mret pr.

Section main.
Context (files : list Z -> option (list Z)) (writable : list Z -> bool) (euid : Z).
(** What the other tasks do while [main] sleeps for a second; the value
    [pofdp_slot_init] leaves to its caller. *)
Context (meanwhile : proc -> St proc) (unspecified : Z).

(** The configuration is that of the globals it sets: the key length of the
    device, the list of names. *)
Definition with_key_len x (dv : device) : device :=
  mkDevice (poflr_switch_config dv) (poflr_switch_feature dv) (poflr_table_resource_desc dv) x (g_versionStr dv).
Definition configured cf pr : proc :=
  let d := pr_d pr in
  set_pr_d (mkDpst (mkDp (slotMap (d_dp d)) (with_key_len (cf_key_len cf) (dp_device (d_dp d)))) (d_index d) (cf_names cf) (cf_time cf))
    (set_pr_cf cf pr).

Definition pofswitch_main (opts : list (list Z * option (list Z))) pr : St proc :=
  r ← pof_set_init_config system files writable euid opts (pr_cf pr);
  match r with
  | Exit => mret pr
  | Next (ret, cf) =>
      check_then ret (fun pr =>
        if negb (pofsc_check_root euid =? POF_OK) then mret pr
        else
          '(ret, d) ← pofdp_slot_init system unspecified (dp_param (pr_cf pr)) (dp_slotNum (pr_cf pr)) POF_SLOT_MAX (pr_d pr);
          check_then ret (fun pr =>
            '(ret, pr) ← pofsc_init pr;
            check_then ret (fun pr =>
              pr ← meanwhile pr;
              '(ret, id, d) ← pof_datapath_init system (pr_d pr);
              let pr := set_tasks (pofsc_main_task_id pr) (pofsc_send_task_id pr) (pofsc_listen_task_id pr) id (set_pr_d d pr) in
              check_then ret pofsc_wait_exit pr) pr) (set_pr_d d pr)) (configured cf pr)
  end.
End main.
End program.
