(* ===== verification/ProgramSpec.v ===== *)
(** * What the program leaves, and that it gets there

    However the program ends, the tasks it has started (but one), its queue and
    its timer are gone, and each port has lost its listening task and nothing
    else.  From the command line to [quit] the program runs without a fault: the
    configuration file, the options, the slots, the tasks, the console, the end. *)

From S2P Require Import Prelude Bits Codec Env Hmap IdMap DList Tree LocalRes ByteTransfer Port Counter Meter Group FlowEntry FlowTable FlowSpec FlowOps TableOps Slot Parse MessageSpec PortMgr PortSpec Boot BootSpec EnumSpec Text Config ConfigSpec Listen ListenSpec Command CommandSpec Program.
From Stdlib Require String.
Import String.StringSyntax.
#[local] Open Scope string_scope.

Implicit Types (pr : proc) (k : kernel) (d : dpst) (lr : pof_local_resource) (e : env).

(** ** A loop over the slots *)

Lemma slots_loop {R} (f : pmst -> St (Z * pmst)) (body : addr -> dpst -> St (R + dpst)) (Q : pof_local_resource -> pof_local_resource -> Prop) d e :
  res_ok (slotMap (d_dp d)) ->
  (forall p c t, r_heap (slotMap (d_dp d)) !! p = Some c -> exists pm, f (mkPm (c_obj c) (d_index d) (d_list d) t) e = Some ((POF_OK, pm), e) /\
     portIndex pm = d_index d /\ portNameList pm = d_list d /\ Q (c_obj c) (pm_lr pm) /\ lr_slotID (pm_lr pm) = lr_slotID (c_obj c)) ->
  (forall p d1 d2, on_slot_ports p f d1 e = Some ((POF_OK, d2), e) -> body p d1 e = Some (inr d2, e)) ->
  exists d', HMAP_NODES_IN_STRUCT_TRAVERSE (fun d => res_hm (slotMap (d_dp d))) body d e = Some (inr d', e) /\
    d_index d' = d_index d /\ d_list d' = d_list d /\ dp_device (d_dp d') = dp_device (d_dp d) /\ res_ok (slotMap (d_dp d')) /\
    forall q, reworked Q (r_heap (slotMap (d_dp d)) !! q) (r_heap (slotMap (d_dp d')) !! q).
Proof.
  intros Ok Hf Hb. destruct (traverse_reworks (fun d => slotMap (d_dp d)) body
    (fun d1 => d_index d1 = d_index d /\ d_list d1 = d_list d /\ dp_device (d_dp d1) = dp_device (d_dp d)) Q d e Ok) as (d' & E & (I & L & D) & Ok' & H).
  - done.
  - intros p c d1 (I1 & L1 & D1) Hp0 Hp. destruct (Hf p c (d_time d1) Hp0) as (pm & E & I2 & L2 & HQ & Hid).
    destruct (r_heap (slotMap (d_dp d1)) !! p) as [c1|] eqn:Hp1; [|done]. injection Hp as Eo.
    set (ss := with_heap (slotMap (d_dp d1)) (<[p := Cell (c_hash c1) (c_next c1) (pm_lr pm)]> (r_heap (slotMap (d_dp d1))))).
    exists (dp_of ss (dp_device (d_dp d1)) pm), (pm_lr pm). split; [|split; [cbn; repeat split; congruence|split; [exact HQ|split; [exact Hid|]]]].
    + apply Hb. unfold on_slot_ports, pm_of, res_load, res_store. rewrite I1, L1, run_bind, Hp1. cbn [mbind option_bind lift].
      rewrite Eo, run_bind, E, run_bind. reflexivity.
    + unfold res_store. rewrite Hp1. reflexivity.
  - exists d'. auto 10.
Qed.

(** ** The end *)

Section the_end.
Context (system : nat -> sys) (self : Z) (c : calls).
Hypothesis cancels : forall t, s_cancel (system t) = true.
Hypothesis removes : y_msgctl c = true.

Definition idle port : portInfo := set_task POF_INVALID_TASKID port.

(** The ports of a slot, and that no listening task makes the call. *)
Record slot_stops lr : Prop := {
  ss_pm : pm_ok (bare lr);
  ss_self : forall q port, obj_at (bare lr) q = Some port -> po_taskID port = POF_INVALID_TASKID \/ po_taskID port <> self
}.
Record datapath_stops d : Prop := {
  ds_slots : res_ok (slotMap (d_dp d));
  ds_each : forall p c, r_heap (slotMap (d_dp d)) !! p = Some c -> slot_stops (c_obj c);
  ds_index : 0 <= d_index d < 256;
  ds_list : exists ps, lrep (d_list d) ps
}.

Lemma task_cancelled t s e : t <> POF_INVALID_TASKID -> t <> self ->
  pofbf_task_delete system self t s e = Some ((POF_OK, POF_INVALID_TASKID, tick s), e).
Proof.
  intros Ht Hs. unfold pofbf_task_delete, ask. rewrite (proj2 (Z.eqb_neq _ _)) by exact Ht. rewrite (proj2 (Z.eqb_neq _ _)) by exact Hs.
  rewrite cancels. reflexivity.
Qed.

Lemma ports_end_ok s e : pm_ok s -> (forall q port, obj_at s q = Some port -> po_taskID port = POF_INVALID_TASKID \/ po_taskID port <> self) ->
  exists s', poflr_ports_task_delete system self s e = Some ((POF_OK, s'), e) /\ pm_ok s' /\ same_rest s s' /\
    forall q, obj_at s' q = idle <$> obj_at s q.
Proof.
  intros Ok Hs. unfold poflr_ports_task_delete.
  match goal with |- context [HMAP_NODES_IN_STRUCT_TRAVERSE _ ?body _] =>
    destruct (tasks_loop body (fun port => if po_taskID port =? POF_INVALID_TASKID then None else Some POF_INVALID_TASKID) s e Ok) as (s' & E & Ok' & S' & O) end.
  - intros p s1 port _ Hp0 Hp. destruct (obj_loaded _ _ _ Hp) as (d & _ & _ & El). exists (S (pm_time s1)).
    rewrite run_bind, El. cbn [lift]. destruct (Z.eqb_spec (po_taskID port) POF_INVALID_TASKID) as [Ht|Ht]; cbn [negb]; [done|].
    rewrite run_bind, task_cancelled by (destruct (Hs p port Hp0); done). rewrite !run_bind. change (tick s1) with (at_time (S (pm_time s1)) s1).
    now destruct (store_port p (set_task POF_INVALID_TASKID port) (at_time (S (pm_time s1)) s1)).
  - exists s'. rewrite run_bind, E. split; [reflexivity|]. split; [exact Ok'|]. split; [exact S'|]. intros q. rewrite O.
    destruct (obj_at s q) as [port|]; [|done]. cbn. unfold idle. destruct (Z.eqb_spec (po_taskID port) POF_INVALID_TASKID) as [Ht|]; [|done].
    f_equal. rewrite <- Ht. now destruct port.
Qed.

(** What the end makes of a slot. *)
Definition ended a : aslot := with_ports (idle <$> a_ports a) a.

Lemma end_ports_ok d e : datapath_stops d -> exists d', end_ports system self d e = Some (d', e) /\
  d_index d' = d_index d /\ d_list d' = d_list d /\ dp_device (d_dp d') = dp_device (d_dp d) /\ res_ok (slotMap (d_dp d')) /\
  abs_slot <$> contents (slotMap (d_dp d')) = ended <$> (abs_slot <$> contents (slotMap (d_dp d))).
Proof.
  intros [Os Each Ix Ls]. unfold end_ports.
  match goal with |- context [HMAP_NODES_IN_STRUCT_TRAVERSE _ ?body _] =>
    destruct (slots_loop (poflr_ports_task_delete system self) body (fun lr lr' => abs_slot lr' = ended (abs_slot lr)) d e Os) as (d' & E & I & L & D & Os' & H) end.
  - intros p cl t Hp. destruct (Each p cl Hp) as [P S].
    assert (pm_ok (mkPm (c_obj cl) (d_index d) (d_list d) t)) as P1 by (apply (pm_ok_move (bare (c_obj cl))); [exact P|lia|exact Ls]).
    destruct (ports_end_ok _ e P1) as (pm & E & P2 & S2 & O); [exact S|].
    exists pm. split; [exact E|]. destruct S2 as [-> -> T]. cbn [portIndex portNameList pm_lr] in *. split; [done|]. split; [done|].
    split; [|apply T]. rewrite (abs_same _ _ T). unfold ended. f_equal. exact (ports_mapped idle _ _ (fun _ => eq_refl) P1 P2 O).
  - intros p d1 d2 E. now rewrite run_bind, E.
  - exists d'. rewrite run_bind, E. split; [reflexivity|]. split; [exact I|]. split; [exact L|]. split; [exact D|]. split; [exact Os'|].
    now apply contents_reworked.
Qed.

(** A call of the system has been made. *)
Definition at_call t pr : proc := set_pr_d (mkDpst (d_dp (pr_d pr)) (d_index (pr_d pr)) (d_list (pr_d pr)) t) pr.

Lemma end_task_ok id pr e : id = POF_INVALID_TASKID \/ id <> self -> exists t, end_task system self id pr e = Some ((POF_INVALID_TASKID, at_call t pr), e).
Proof.
  intros H. unfold end_task. destruct (Z.eqb_spec id POF_INVALID_TASKID) as [->|Hi].
  - exists (d_time (pr_d pr)). unfold mret, St_ret. do 3 f_equal. destruct pr as [[cf [] ? ? ?] ? ? ? ? ? ? ? ? ? ?]. reflexivity.
  - rewrite run_bind, task_cancelled; [|exact Hi|now destruct H]. eexists. reflexivity.
Qed.

(** A process that can be taken down: none of its tasks is the one that does it. *)
Record process_ok pr : Prop := {
  pf_slots : datapath_stops (pr_d pr);
  pf_main : pofsc_main_task_id pr = POF_INVALID_TASKID \/ pofsc_main_task_id pr <> self;
  pf_send : pofsc_send_task_id pr = POF_INVALID_TASKID \/ pofsc_send_task_id pr <> self;
  pf_listen : pofsc_listen_task_id pr = POF_INVALID_TASKID \/ pofsc_listen_task_id pr <> self;
  pf_queue : pofsc_send_q_id pr = POF_INVALID_QUEUEID /\ (forall q, q ∈ k_queues (pr_kernel pr) -> q.1 <> POF_INVALID_QUEUEID) \/
    exists key, (pofsc_send_q_id pr, key) ∈ k_queues (pr_kernel pr) /\ pofsc_send_q_id pr <> POF_INVALID_QUEUEID;
  pf_timer : if pofsc_echo_timer_id pr =? POF_INVALID_TIMERID then k_timer (pr_kernel pr) = None else y_signal c = true /\ y_setitimer c = true;
  pf_flag : pofsc_terminate_flag pr = false
}.

(** The process [pr'] is [pr] taken down. *)
Record taken_down pr pr' : Prop := {
  td_tasks : pofsc_main_task_id pr' = POF_INVALID_TASKID /\ pofsc_send_task_id pr' = POF_INVALID_TASKID /\ pofsc_listen_task_id pr' = POF_INVALID_TASKID;
  td_detect : g_pofdp_detect_port_task_id pr' = g_pofdp_detect_port_task_id pr;
  td_queue : pofsc_send_q_id pr' = POF_INVALID_QUEUEID /\
    k_queues (pr_kernel pr') = filter (fun q => q.1 <> pofsc_send_q_id pr) (k_queues (pr_kernel pr));
  td_timer : pofsc_echo_timer_id pr' = POF_INVALID_TIMERID /\ k_timer (pr_kernel pr') = None /\
    (pofsc_echo_timer_id pr <> POF_INVALID_TIMERID -> k_alarm (pr_kernel pr') = false);
  td_log : log_fp (g_log (pr_cf pr')) = None;
  td_flag : pofsc_terminate_flag pr' = true;
  td_slots : abs_slot <$> contents (slotMap (d_dp (pr_d pr'))) = ended <$> (abs_slot <$> contents (slotMap (d_dp (pr_d pr))));
  td_shown : cm_term (pr_cm pr') = cm_term (pr_cm pr) /\ cm_logged (pr_cm pr') = cm_logged (pr_cm pr)
}.

Definition queue_gone pr e : env := if pofsc_send_q_id pr =? POF_INVALID_QUEUEID then e else set_send_q_valid false e.

Lemma queue_deleted pr e : (exists key, (pofsc_send_q_id pr, key) ∈ k_queues (pr_kernel pr)) -> pofsc_send_q_id pr <> POF_INVALID_QUEUEID ->
  pofbf_queue_delete c pr e = Some ((POF_OK, set_queue_id POF_INVALID_QUEUEID (set_kernel (drop_queue (pofsc_send_q_id pr) (pr_kernel pr)) pr)), set_send_q_valid false e).
Proof.
  intros [key Hk] Hq. unfold pofbf_queue_delete. rewrite (proj2 (Z.eqb_neq _ _)) by exact Hq. rewrite removes.
  assert (existsb (fun q => q.1 =? pofsc_send_q_id pr) (k_queues (pr_kernel pr)) = true) as ->; [|reflexivity].
  apply existsb_exists. exists (pofsc_send_q_id pr, key). split; [now apply list_elem_of_In|apply Z.eqb_refl].
Qed.
Lemma timer_deleted pr e : y_signal c = true -> y_setitimer c = true -> pofsc_echo_timer_id pr <> POF_INVALID_TIMERID ->
  pofbf_timer_delete c pr e = Some ((POF_OK, set_timer_id POF_INVALID_TIMERID (set_kernel (with_alarm false (with_timer None (pr_kernel pr))) pr)), e).
Proof.
  intros Y1 Y2 Ht. unfold pofbf_timer_delete. rewrite (proj2 (Z.eqb_neq _ _)) by exact Ht. rewrite Y1, Y2. reflexivity.
Qed.

Lemma log_closed cf : log_fp (g_log (pof_close_log_file cf)) = None.
Proof. unfold pof_close_log_file. now destruct (log_fp (g_log cf)) eqn:E. Qed.

Lemma terminate_ok pr e : process_ok pr -> exists pr', terminate_process system self c pr e = Some ((true, pr'), queue_gone pr e) /\ taken_down pr pr'.
Proof.
  intros [Ds M Sd L Q T F]. unfold terminate_process. rewrite F. unfold pofsc_destroy.
  destruct (end_task_ok (pofsc_main_task_id pr) (set_terminate true pr) e M) as [t1 E1].
  rewrite run_bind, run_bind. cbn [pofsc_main_task_id set_terminate]. rewrite E1. cbv beta iota zeta.
  set (pr1 := set_tasks _ _ _ _ _). destruct (end_task_ok (pofsc_send_task_id pr1) pr1 e Sd) as [t2 E2].
  rewrite run_bind, E2. cbv beta iota zeta. set (pr2 := set_tasks _ _ _ _ _). destruct (end_task_ok (pofsc_listen_task_id pr2) pr2 e L) as [t3 E3].
  rewrite run_bind, E3. cbv beta iota zeta. set (pr3 := set_tasks _ _ _ _ _).
  assert (exists pr4, (if negb (pofsc_echo_timer_id pr3 =? POF_INVALID_TIMERID) then pofbf_timer_delete c pr3 else mret (POF_OK, pr3)) e = Some ((POF_OK, pr4), e) /\
    pofsc_echo_timer_id pr4 = POF_INVALID_TIMERID /\ k_timer (pr_kernel pr4) = None /\ (pofsc_echo_timer_id pr <> POF_INVALID_TIMERID -> k_alarm (pr_kernel pr4) = false) /\ k_queues (pr_kernel pr4) = k_queues (pr_kernel pr) /\
    pr4 = set_timer_id POF_INVALID_TIMERID (set_kernel (pr_kernel pr4) pr3)) as (pr4 & E4 & T1 & T2 & T3 & T4 & T5).
  { change (pofsc_echo_timer_id pr3) with (pofsc_echo_timer_id pr). destruct (Z.eqb_spec (pofsc_echo_timer_id pr) POF_INVALID_TIMERID) as [Ht|Ht]; cbn [negb].
    - exists pr3. split; [reflexivity|]. split; [exact Ht|]. split; [exact T|]. split; [done|]. split; [done|].
      rewrite <- Ht. destruct pr. reflexivity.
    - destruct T as [Y1 Y2]. rewrite (timer_deleted pr3 e Y1 Y2 Ht). eexists. split; [reflexivity|]. split; [done|]. split; [done|]. split; [done|]. split; [done|]. reflexivity. }
  rewrite run_bind, E4. cbv beta iota. destruct (end_ports_ok (pr_d pr4) e) as (d & E5 & _ & _ & _ & Os & Ab).
  { rewrite T5. destruct Ds as [D1 D2 D3 D4]. now split. }
  rewrite run_bind, E5. cbv zeta. set (pr5 := set_pr_d d pr4). assert (pofsc_send_q_id pr5 = pofsc_send_q_id pr) as Eq by (subst pr5; rewrite T5; reflexivity).
  assert (k_queues (pr_kernel pr5) = k_queues (pr_kernel pr)) as Ek by exact T4.
  assert (exists pr6, (if negb (pofsc_send_q_id pr5 =? POF_INVALID_QUEUEID) then pofbf_queue_delete c pr5 else mret (POF_OK, pr5)) e = Some ((POF_OK, pr6), queue_gone pr e) /\
    pofsc_send_q_id pr6 = POF_INVALID_QUEUEID /\ k_queues (pr_kernel pr6) = filter (fun q => q.1 <> pofsc_send_q_id pr) (k_queues (pr_kernel pr)) /\
    k_timer (pr_kernel pr6) = None /\ (pofsc_echo_timer_id pr <> POF_INVALID_TIMERID -> k_alarm (pr_kernel pr6) = false) /\
    pr6 = set_queue_id POF_INVALID_QUEUEID (set_kernel (pr_kernel pr6) pr5)) as (pr6 & E6 & Q1 & Q2 & Q3 & Q4 & Q5).
  { unfold queue_gone. rewrite Eq. destruct Q as [[Hq Hn]|(key & Hk & Hq)].
    - rewrite Hq, Z.eqb_refl. exists pr5. split; [reflexivity|]. split; [congruence|]. split; [|split; [exact T2|split; [exact T3|]]].
      + rewrite Ek. symmetry. rewrite <- (app_nil_r (filter _ _)). clear -Hn. induction (k_queues (pr_kernel pr)) as [|q qs IH]; [done|].
        rewrite filter_cons_True by (apply Hn; left). cbn. f_equal. apply IH. intros q' Hq'. apply Hn. now right.
      + rewrite <- Hq, <- Eq. now destruct pr5.
    - rewrite (proj2 (Z.eqb_neq _ _)) by exact Hq. cbn [negb]. rewrite queue_deleted by (rewrite ?Eq, ?Ek; eauto).
      eexists. split; [reflexivity|]. split; [done|]. split; [rewrite <- Ek, <- Eq; reflexivity|]. split; [exact T2|]. split; [exact T3|]. reflexivity. }
  assert (forall A (f : proc -> A), (forall x pr, f (set_queue_id x pr) = f pr) -> (forall x pr, f (set_kernel x pr) = f pr) ->
    (forall x pr, f (set_timer_id x pr) = f pr) -> f pr6 = f (set_pr_d d pr3)) as K.
  { intros A f F1 F2 F3. rewrite Q5, F1, F2. unfold pr5. rewrite T5. transitivity (f (set_timer_id POF_INVALID_TIMERID (set_kernel (pr_kernel pr4) (set_pr_d d pr3)))); [reflexivity|]. now rewrite F3, F2. }
  rewrite run_bind, E6. eexists. split; [reflexivity|]. split.
  - split; [|split]; [apply (K _ pofsc_main_task_id)|apply (K _ pofsc_send_task_id)|apply (K _ pofsc_listen_task_id)]; reflexivity.
  - apply (K _ g_pofdp_detect_port_task_id); reflexivity.
  - split; [exact Q1|exact Q2].
  - split; [|split; [exact Q3|exact Q4]]. transitivity (pofsc_echo_timer_id pr6); [reflexivity|]. now rewrite Q5.
  - apply log_closed.
  - apply (K _ pofsc_terminate_flag); reflexivity.
  - transitivity (abs_slot <$> contents (slotMap (d_dp (pr_d pr6)))); [reflexivity|].
    rewrite (K _ (fun pr => abs_slot <$> contents (slotMap (d_dp (pr_d pr))))) by reflexivity.
    transitivity (ended <$> (abs_slot <$> contents (slotMap (d_dp (pr_d pr4))))); [exact Ab|]. rewrite T5. reflexivity.
  - split; [apply (K _ (fun pr => cm_term (pr_cm pr)))|apply (K _ (fun pr => cm_logged (pr_cm pr)))]; reflexivity.
Qed.
End the_end.

(** ** The start of the communication *)

Section the_start.
Context (system : nat -> sys) (self : Z) (c : calls).
Hypothesis threads : forall t id, s_thread (system t) = Some id -> id <> POF_INVALID_TASKID /\ id <> self.

(** Before [pofsc_init]: no task, no queue, no timer. *)
Record process_new pr : Prop := {
  pn_slots : datapath_stops self (pr_d pr);
  pn_tasks : pofsc_main_task_id pr = POF_INVALID_TASKID /\ pofsc_send_task_id pr = POF_INVALID_TASKID /\ pofsc_listen_task_id pr = POF_INVALID_TASKID;
  pn_queue : pofsc_send_q_id pr = POF_INVALID_QUEUEID;
  pn_kernel : k_next (pr_kernel pr) <> POF_INVALID_QUEUEID /\ forall q, q ∈ k_queues (pr_kernel pr) -> q.1 <> POF_INVALID_QUEUEID;
  pn_timer : pofsc_echo_timer_id pr = POF_INVALID_TIMERID /\ k_timer (pr_kernel pr) = None;
  pn_flag : pofsc_terminate_flag pr = false;
  pn_ip : is_Some (cstr (pofsc_controller_ip_addr (pr_cf pr)))
}.

(** The communication runs. *)
Record communicates pr : Prop := {
  cm_tasks : pofsc_main_task_id pr <> POF_INVALID_TASKID /\ pofsc_send_task_id pr <> POF_INVALID_TASKID /\ pofsc_listen_task_id pr <> POF_INVALID_TASKID;
  cm_queue : exists key, (pofsc_send_q_id pr, key) ∈ k_queues (pr_kernel pr) /\ pofsc_send_q_id pr <> POF_INVALID_QUEUEID;
  cm_timer : pofsc_echo_timer_id pr = POF_VALID_TIMERID /\ k_timer (pr_kernel pr) = Some (2, 0, 1, 0) /\ k_alarm (pr_kernel pr) = true
}.

Lemma new_task_ok pr e : exists ret id t e', new_task system pr e = Some ((ret, id, at_call t pr), e') /\
  ((ret <> POF_OK /\ id = POF_INVALID_TASKID /\ s_thread (system (d_time (pr_d pr))) = None) \/
   (ret = POF_OK /\ id <> POF_INVALID_TASKID /\ id <> self /\ e' = e)).
Proof.
  unfold new_task, pofbf_task_create, ask. cbn [pm_time globals]. destruct (s_thread (system (d_time (pr_d pr)))) as [id|] eqn:E.
  - destruct (threads _ _ E). eexists _, id, _, e. split; [reflexivity|]. right. auto.
  - eexists _, _, _, _. split; [reflexivity|]. left. done.
Qed.

Lemma msgget_ok key k : k_next k <> POF_INVALID_QUEUEID -> (forall q, q ∈ k_queues k -> q.1 <> POF_INVALID_QUEUEID) ->
  let '(id, k') := msgget key k in exists key', (id, key') ∈ k_queues k' /\ id <> POF_INVALID_QUEUEID /\ k_timer k' = k_timer k /\
    forall q, q ∈ k_queues k' -> q ∈ k_queues k \/ q.1 = id.
Proof.
  intros Hn Hq. unfold msgget. set (found := if key =? 0 then None else _).
  assert (forall q, found = Some q -> q ∈ k_queues k) as Hf.
  { intros q. unfold found. destruct (key =? 0); [done|]. intros [H _]%find_some. now apply list_elem_of_In. }
  destruct found as [q|].
  - specialize (Hf q eq_refl). exists q.2. destruct q as [id key']. split; [exact Hf|]. split; [exact (Hq _ Hf)|]. auto.
  - exists key. cbn. split; [left|]. split; [exact Hn|]. split; [done|]. intros q [->|H]%elem_of_cons; auto.
Qed.

(** What [pofsc_init] has of the state it got. *)
Definition since t (s : cmst) : cmst := set_cm_d (mkDpst (d_dp (cm_d s)) (d_index (cm_d s)) (d_list (cm_d s)) t) s.

Lemma stops_later d t : datapath_stops self d -> datapath_stops self (mkDpst (d_dp d) (d_index d) (d_list d) t).
Proof. intros []. now split. Qed.

(** A task of [pofsc_init] is not created: what follows is not done. *)
Ltac stage_fails H Hok Sd L :=
  let Hr := fresh in let Hi := fresh in let Hs := fresh in destruct H as (Hr & Hi & Hs);
  rewrite (proj2 (Z.eqb_neq _ _) Hr); cbn [negb]; eexists _, _, _, _; split; [reflexivity|]; split; [reflexivity|];
  split; [apply Hok; cbn [fst snd]; rewrite ?Sd, ?L; auto|];
  split; [assumption|]; left; split; [done|]; let H' := fresh in intros (_ & H' & _);
  match type of Hs with s_thread (system ?t) = None => specialize (H' t); rewrite Hs in H'; now apply is_Some_None in H' end.

Lemma init_ok pr e : process_new pr -> exists ret pr1 e1 t, pofsc_init system c pr e = Some ((ret, pr1), e1) /\
  pr_cm pr1 = since t (pr_cm pr) /\ process_ok self c pr1 /\
  (forall q, q ∈ k_queues (pr_kernel pr1) -> q ∈ k_queues (pr_kernel pr) \/ q.1 = pofsc_send_q_id pr1) /\
  (ret = POF_ERROR /\ ~ (y_msgget c = true /\ (forall t, is_Some (s_thread (system t))) /\ y_signal c = true /\ y_setitimer c = true) \/
   ret = POF_OK /\ communicates pr1 /\ e1 = set_send_q_valid true (set_conn_state POFCS_CHANNEL_INVALID e)).
Proof.
  intros [Ds (M & Sd & L) Q (Kn & Kq) (T & Kt) F [ip Eip]]. unfold pofsc_init, pofsc_set_conn_attr.
  rewrite !run_bind. unfold mod_env at 1. rewrite run_bind, Eip. cbn [lift]. unfold mret at 1, St_ret. cbv beta iota zeta.
  rewrite run_bind. set (e0 := set_conn_state POFCS_CHANNEL_INVALID e). set (pr0 := set_attr _ pr).
  assert (exists t, pr_cm pr = since t (pr_cm pr)) as [t0 Et0] by (exists (d_time (pr_d pr)); destruct pr as [[? [] ? ? ?]]; reflexivity).
  unfold pofbf_queue_create. rewrite run_bind. unfold get_env at 1. cbv beta iota zeta.
  set (key := if pofbf_key pr0 =? 0 then _ else _). destruct (y_msgget c) eqn:Ym; cbn [negb].
  2:{ rewrite run_bind. unfold mod_env at 1. unfold base_failure at 1. eexists _, _, _, t0. split; [reflexivity|]. split; [exact Et0|]. split.
      { split; cbn; auto. rewrite T. exact Kt. }
      split; [auto|]. left. split; [done|]. intros (H & _). congruence. }
  pose proof (msgget_ok key (pr_kernel pr0) Kn Kq) as Hm. change (pr_kernel (set_key key pr0)) with (pr_kernel pr0). destruct (msgget key (pr_kernel pr0)) as [id k] eqn:Em.
  destruct Hm as (key' & Hin & Hid & Ht & Hqs). rewrite run_bind. unfold mod_env at 1. unfold mret at 1, St_ret. cbv beta iota.
  change (negb (POF_OK =? POF_OK)) with false. cbv iota. set (e1 := set_send_q_valid true e0). set (pr1 := set_queue_id id _).
  assert (forall t ids, process_ok self c (set_tasks ids.1.1 ids.1.2 ids.2 (g_pofdp_detect_port_task_id pr1) (at_call t pr1)) <->
    (ids.1.1 = POF_INVALID_TASKID \/ ids.1.1 <> self) /\ (ids.1.2 = POF_INVALID_TASKID \/ ids.1.2 <> self) /\ (ids.2 = POF_INVALID_TASKID \/ ids.2 <> self)) as Hok.
  { intros t [[a b] d]. cbn [fst snd]. split.
    - intros [_ H1 H2 H3 _ _ _]. auto.
    - intros (H1 & H2 & H3). split; try done; [now apply stops_later|right; exists key'; auto|]. cbn. rewrite T. cbn. rewrite Ht. exact Kt. }
  rewrite run_bind. destruct (new_task_ok pr1 e1) as (r1 & i1 & t1 & e2 & E2 & H1); rewrite E2; cbv beta iota zeta.
  destruct H1 as [H1|(-> & Hi1 & Hs1 & ->)]; [stage_fails H1 (Hok t1 (i1, pofsc_send_task_id pr, pofsc_listen_task_id pr)) Sd L|].
  change (negb (POF_OK =? POF_OK)) with false. cbv iota. set (pr2 := set_tasks i1 _ _ _ _).
  rewrite run_bind. destruct (new_task_ok pr2 e1) as (r2 & i2 & t2 & e3 & E3 & H2); rewrite E3; cbv beta iota zeta.
  destruct H2 as [H2|(-> & Hi2 & Hs2 & ->)]; [stage_fails H2 (Hok t2 (i1, i2, pofsc_listen_task_id pr)) Sd L|].
  change (negb (POF_OK =? POF_OK)) with false. cbv iota. set (pr3 := set_tasks _ i2 _ _ _).
  rewrite run_bind. destruct (new_task_ok pr3 e1) as (r3 & i3 & t3 & e4 & E4 & H3); rewrite E4; cbv beta iota zeta.
  destruct H3 as [H3|(-> & Hi3 & Hs3 & ->)]; [stage_fails H3 (Hok t3 (i1, i2, i3)) Sd L|].
  change (negb (POF_OK =? POF_OK)) with false. cbv iota. set (pr4 := set_tasks _ _ i3 _ _).
  assert (process_ok self c pr4) as Ok4 by (apply (Hok t3 (i1, i2, i3)); cbn; auto).
  rewrite run_bind. unfold pofbf_timer_create. destruct (y_signal c) eqn:Ys; cbn [negb].
  2:{ eexists _, _, _, t3. split; [reflexivity|]. split; [reflexivity|]. split; [exact Ok4|]. split; [exact Hqs|]. left. split; [done|]. intros (_ & _ & H & _). congruence. }
  destruct (y_setitimer c) eqn:Yt; cbn [negb].
  2:{ eexists _, _, _, t3. split; [reflexivity|]. split; [reflexivity|]. split; [destruct Ok4; now split|]. split; [exact Hqs|]. left. split; [done|]. intros (_ & _ & _ & H). congruence. }
  eexists _, _, _, t3. split; [reflexivity|]. split; [reflexivity|]. split; [destruct Ok4; now split|]. split; [exact Hqs|]. right.
  split; [done|]. split; [|done]. split; [done|exists key'; auto|done].
Qed.
End the_start.

(** ** The slots *)

(** The slots from [slot] on, the ports of each named in [pns]; [f] gives a slot
    its ports. *)
Fixpoint boots (f : Z -> Z -> list (list Z) -> gmap Z portInfo) (pns : list (list Z * Z)) (n : nat) (slot idx : Z) (M : gmap Z aslot) : gmap Z aslot :=
  match n with
  | O => M
  | S n => let names := for_slot slot pns in
      boots f pns n (slot + 1) (idx + Z.of_nat (length names)) (<[slot := mkASlot (f slot idx names) ∅ ∅ ∅ ∅]> M)
  end.
(** The index after their ports. *)
Fixpoint indexed_to (pns : list (list Z * Z)) (n : nat) (slot idx : Z) : Z :=
  match n with O => idx | S n => indexed_to pns n (slot + 1) (idx + Z.of_nat (length (for_slot slot pns))) end.

Lemma indexed_counts pns n : forall slot idx, indexed_to pns n slot idx = idx + Z.of_nat (length (filter (fun pn => slot <= pn.2 < slot + Z.of_nat n) pns)).
Proof.
  induction n as [|n IH]; intros slot idx; cbn [indexed_to].
  - rewrite (list_filter_iff _ (fun _ => False)) by lia. induction pns as [|pn pns IH]; [cbn; lia|]. now rewrite filter_cons_False.
  - rewrite IH, <- Z.add_assoc, <- Nat2Z.inj_add. do 2 f_equal. clear IH. unfold for_slot. induction pns as [|[m k] pns IHp]; [done|].
    cbn [omap list_omap snd fst]. destruct (Z.eqb_spec k slot) as [->|Hk].
    + rewrite (filter_cons_False _ (m, slot)) by (cbn; lia). rewrite filter_cons_True by (cbn; lia). cbn [length]. rewrite <- IHp. reflexivity.
    + rewrite !filter_cons. cbn [snd]. destruct (decide (slot + 1 <= k < slot + 1 + Z.of_nat n)), (decide (slot <= k < slot + Z.of_nat (S n))); try lia; cbn [length]; rewrite ?Nat.add_succ_r, IHp; done.
Qed.
Lemma indexed_all pns n : (forall pn, pn ∈ pns -> 0 <= pn.2 < n) -> indexed_to pns (Z.to_nat n) 0 1 = 1 + Z.of_nat (length pns).
Proof.
  intros H. rewrite indexed_counts. do 2 f_equal. f_equal. induction pns as [|pn pns IH]; [done|].
  rewrite filter_cons_True by (specialize (H pn ltac:(left)); lia). f_equal. apply IH. intros; apply H; now right.
Qed.
Lemma indexed_mono pns n : forall slot idx, idx <= indexed_to pns n slot idx.
Proof. intros. rewrite indexed_counts. lia. Qed.

Lemma boots_map f g pns (G : aslot -> aslot) n : (forall slot idx, G (mkASlot (f slot idx (for_slot slot pns)) ∅ ∅ ∅ ∅) = mkASlot (g slot idx (for_slot slot pns)) ∅ ∅ ∅ ∅) -> forall slot idx M,
  G <$> boots f pns n slot idx M = boots g pns n slot idx (G <$> M).
Proof.
  intros H. induction n as [|n IH]; intros slot idx M; cbn [boots]; [done|]. rewrite IH, fmap_insert. now rewrite H.
Qed.

Lemma slot_linked (ss : resource pof_local_resource) slot e : res_ok ss -> mallocs e = [] -> 0 <= slot ->
  (forall q c, r_heap ss !! q = Some c -> lr_slotID (c_obj c) < slot) -> let v := set_slotID slot res_zero in
  exists p ss1 ss2 ss3 ss4, res_create res_zero ss e = Some ((Some p, ss1), e) /\ res_store p v ss1 = Some ss2 /\
    res_set_hash p slot ss2 = Some ss3 /\ res_insert u32 p ss3 = Some ss4 /\ res_ok ss4 /\ contents ss4 = <[slot := v]> (contents ss) /\
    c_obj <$> r_heap ss4 !! p = Some v /\ forall q, q <> p -> c_obj <$> r_heap ss4 !! q = c_obj <$> r_heap ss !! q.
Proof.
  intros Ok Q Hs Hlt v. pose proof (fresh_addr_spec (r_heap ss)) as Hp. set (p := fresh_addr (r_heap ss)) in *.
  assert (contents ss !! slot = None) as Hn.
  { destruct (contents ss !! slot) as [w|] eqn:E; [|done]. apply contents_lookup in E as (q & c & Hq & Hid & _); [|exact Ok].
    specialize (Hlt q c Hq). cbn in Hid. lia. }
  destruct (res_insert_ok ss p v Ok Hp Hs Hn) as (ss4 & E4 & Ok4 & C4 & _).
  exists p, (with_heap ss (<[p := Cell 0 None res_zero]> (r_heap ss))), (with_heap ss (<[p := Cell 0 None v]> (r_heap ss))),
    (with_heap ss (<[p := Cell slot None v]> (r_heap ss))), ss4.
  split; [now apply res_create_quiet|]. split; [now apply res_fill|]. split; [now apply res_hash|]. split; [exact E4|]. split; [exact Ok4|]. split; [exact C4|].
  pose proof (res_insert_objs _ _ _ E4) as O. split.
  - rewrite O. cbn [with_heap r_heap]. now rewrite lookup_insert_eq.
  - intros q Hq. rewrite O. cbn [with_heap r_heap]. now rewrite lookup_insert_ne.
Qed.

Section the_boot.
Context (system : nat -> sys) (y : sys).
Hypothesis static : forall t, system t = y.
Hypothesis Hy : sys_ok y.
Context (U : list Z -> Prop).
Hypothesis HU : apart U.
Context (pns : list (list Z * Z)) (param : pof_param).
Hypothesis Hpns : forall pn, pn ∈ pns -> is_Some (s_iface y pn.1) /\ U pn.1.
Hypothesis Hdistinct : forall slot, NoDup (for_slot slot pns).
Hypothesis Hparam : param_ok param.
Hypothesis Hcustom : Z.land (pa_portFlag param) POFLRPF_FROM_CUSTOM <> 0.

Lemma for_slot_in slot n : n ∈ for_slot slot pns -> is_Some (s_iface y n) /\ U n.
Proof.
  unfold for_slot. intros ([m j] & Hm & Hj)%list_elem_of_omap. cbn in Hj. destruct (j =? slot); [|done]. injection Hj as <-. exact (Hpns _ Hm).
Qed.

(** A slot whose ports have no tasks yet. *)
Record slot_made lr : Prop := {
  sm_res : resources_ok lr;
  sm_pm : pm_ok (bare lr);
  sm_named : named U (bare lr)
}.

Definition made_slot (slot idx : Z) (names : list (list Z)) : gmap Z portInfo := made_ports y slot idx names ∅.

(** The list of names, wherever its nodes are. *)
Definition lists d : Prop := exists ps, lrep (d_list d) ps /\ entries_at (d_list d) ps pns.

Lemma slots_from_ok n : forall slot d e, res_ok (slotMap (d_dp d)) ->
  (forall q c, r_heap (slotMap (d_dp d)) !! q = Some c -> lr_slotID (c_obj c) < slot /\ slot_made (c_obj c)) ->
  lists d -> mallocs e = [] -> 0 <= slot -> slot + Z.of_nat n < 65536 -> 0 <= d_index d -> indexed_to pns n slot (d_index d) < 256 ->
  exists d', slots_from system POF_OK param n slot d e = Some ((POF_OK, d'), e) /\ res_ok (slotMap (d_dp d')) /\
    (forall q c, r_heap (slotMap (d_dp d')) !! q = Some c -> slot_made (c_obj c)) /\ lists d' /\ d_index d' = indexed_to pns n slot (d_index d) /\
    abs_slot <$> contents (slotMap (d_dp d')) = boots made_slot pns n slot (d_index d) (abs_slot <$> contents (slotMap (d_dp d))).
Proof.
  induction n as [|n IH]; intros slot d e Ok Hs Hl Q H0 Hn Hi Hx; cbn [slots_from].
  - exists d. cbn [boots indexed_to]. split; [reflexivity|]. split; [exact Ok|]. split; [intros q c Hq; now apply (Hs q)|]. auto.
  - destruct (slot_linked (slotMap (d_dp d)) slot e Ok Q H0) as (p & ss1 & ss2 & ss3 & ss4 & E1 & E2 & E3 & E4 & Ok4 & C4 & Hp & Hq); [intros q c Hq; now apply (Hs q)|].
    cbn [indexed_to boots] in *. set (names := for_slot slot pns) in *. pose proof (indexed_mono pns n (slot + 1) (d_index d + Z.of_nat (length names))) as Hm.
    rewrite run_bind, E1, run_bind. rewrite u16_small by lia. rewrite E2. cbn [lift]. rewrite run_bind. unfold hmap_hashForLinear. rewrite E3. cbn [lift].
    rewrite run_bind, E4. cbn [lift]. rewrite run_bind. unfold res_load. destruct (r_heap ss4 !! p) as [c4|] eqn:Hp4; [|done]. injection Hp as Ev. cbn [mbind option_bind lift].
    rewrite Ev, run_bind. set (lr0 := fill_localresource_param _ param).
    destruct (pa_tables _ Hparam) as [Hf Hlen]. destruct (pa_tableNumMaxEachType param) as [|n0 [|n1 [|n2 [|n3 [|]]]]] eqn:Em; try discriminate.
    rewrite !Forall_cons in Hf. destruct Hf as (? & ? & ? & ? & _). destruct Hl as (ps & L & F).
    assert (from_system lr0 = false) as Hfs by (unfold from_system, lr0; cbn [fill_localresource_param lr_portFlag]; now rewrite (proj2 (Z.eqb_neq _ _) Hcustom)).
    destruct (localresource_init_ok system y static Hy U HU (pm_of lr0 d) (dp_device (d_dp d)) e pns n0 n1 n2 n3)
      as (s' & dv' & E5 & Okm & R & Em' & _ & Pt & X & Id & Ls); try lia; try done.
    + destruct Hparam. split; repeat split; try reflexivity; cbn; lia.
    + eauto.
    + now apply (loads_custom system _ e ps).
    + cbn. lia.
    + intros m. exact (for_slot_in slot m).
    + change (lr_slotID (pm_lr (pm_of lr0 d))) with slot. fold names. lia.
    + cbn [pm_of pm_lr portIndex] in Pt, X, Id. change (lr_slotID lr0) with slot in Pt, X, Id. fold names in Pt, X. rewrite u8_small in X by lia.
      rewrite E5, run_bind.
      destruct (res_store_ok ss4 p c4 (pm_lr s') Ok4 Hp4) as (ss5 & E6 & Ok5 & C5 & _ & H5); [rewrite Ev; exact Id|].
      rewrite E6. cbn [lift]. cbv zeta. change (negb (POF_OK =? POF_OK)) with false. cbv iota. rewrite u32_small by lia.
      assert (slot_made (pm_lr s')) as Hmade.
      { split; [exact R|apply (pm_ok_move s'); [exact Okm|lia|exists []; split; [repeat constructor|constructor|reflexivity]]|].
        intros q port Hq'. apply (for_slot_in slot). apply (made_named y Hy slot names (fun m Hm' => proj1 (for_slot_in slot m Hm')) (d_index d) (po_pofIndex port) port).
        rewrite <- Pt. apply ports_lookup; [exact Okm|]. exists q. split; [exact Hq'|done]. }
      destruct (IH (slot + 1) (dp_of ss5 dv' s') e) as (d' & E7 & Ok' & Hs' & Ls' & X' & Ab); try done; try lia.
      * cbn [dp_of d_dp slotMap]. intros q c'. rewrite H5, lookup_insert. case_decide as Hqp.
        -- intros [= <-]. cbn [c_obj]. split; [rewrite Id; lia|exact Hmade].
        -- intros Hq'. specialize (Hq q ltac:(congruence)). rewrite Hq' in Hq. destruct (r_heap (slotMap (d_dp d)) !! q) as [c0|] eqn:E0; [|done].
           injection Hq as ->. destruct (Hs q c0 E0). split; [lia|done].
      * cbn [dp_of d_index]. rewrite X. lia.
      * cbn [dp_of d_index]. rewrite X. exact Hx.
      * exists d'. split; [exact E7|]. split; [exact Ok'|]. split; [exact Hs'|]. split; [exact Ls'|]. cbn [dp_of d_index d_dp slotMap] in X', Ab. rewrite X in X', Ab. split; [exact X'|].
        rewrite Ab, C5, C4. cbn [res_id slot_resource]. rewrite Id, insert_insert_eq, fmap_insert. do 2 f_equal.
        unfold abs_slot, made_slot. destruct Em' as (-> & -> & -> & ->). f_equal. exact Pt.
Qed.

Lemma slot_init_ok n d e : r_heap (slotMap (d_dp d)) = ∅ -> r_num (slotMap (d_dp d)) = 0 -> lists d -> mallocs e = [] -> 0 <= n < 65536 ->
  0 <= d_index d -> indexed_to pns (Z.to_nat n) 0 (d_index d) < 256 ->
  exists d', pofdp_slot_init system POF_OK param n POF_SLOT_MAX d e = Some ((POF_OK, d'), e) /\ res_ok (slotMap (d_dp d')) /\
    (forall q c, r_heap (slotMap (d_dp d')) !! q = Some c -> slot_made (c_obj c)) /\ lists d' /\ d_index d' = indexed_to pns (Z.to_nat n) 0 (d_index d) /\
    abs_slot <$> contents (slotMap (d_dp d')) = boots made_slot pns (Z.to_nat n) 0 (d_index d) ∅.
Proof.
  intros Eh En Hl Q Hn Hi Hx. destruct (hmap_create_quiet (∅ : heap pof_local_resource) POF_SLOT_MAX e) as (m & cs & E & R & _); [unfold POF_SLOT_MAX; lia|exact Q|].
  unfold pofdp_slot_init. rewrite run_bind, E. rewrite Eh, En. set (ss := Res ∅ (Some m) 0 (r_max (slotMap (d_dp d)))).
  assert (forall p : addr, (∅ : heap pof_local_resource) !! p = None) as He by (intros; apply lookup_empty).
  assert (res_ok ss) as Os.
  { exists m, cs. constructor; cbn [ss r_map r_heap r_num].
    - done.
    - exact R.
    - intros p [c Hc]. now rewrite He in Hc.
    - intros p c Hc. now rewrite He in Hc.
    - intros p q c d0 Hc. now rewrite He in Hc.
    - by rewrite map_size_empty. }
  destruct (slots_from_ok (Z.to_nat n) 0 (mkDpst (set_slots ss (d_dp d)) (d_index d) (d_list d) (d_time d)) e) as (d' & E' & Ok' & Hs & Ls & X & Ab);
    try done; try lia.
  - exists d'. split; [exact E'|]. split; [exact Ok'|]. split; [exact Hs|]. split; [exact Ls|]. split; [exact X|].
    rewrite Ab. cbn [d_dp d_index set_slots slotMap]. now replace (contents ss) with (∅ : gmap Z pof_local_resource) by (unfold contents; cbn [ss r_heap]; now rewrite map_to_list_empty).
Qed.

(** Every port of the slots gets its task, and the detection starts. *)
Definition add_slot (slot idx : Z) (names : list (list Z)) : gmap Z portInfo := add_ports y slot idx names ∅.

Lemma datapath_init_ok n d e : res_ok (slotMap (d_dp d)) -> (forall q c, r_heap (slotMap (d_dp d)) !! q = Some c -> slot_made (c_obj c)) ->
  lists d -> 0 <= d_index d < 256 -> abs_slot <$> contents (slotMap (d_dp d)) = boots made_slot pns n 0 1 ∅ ->
  exists id d', pof_datapath_init system d e = Some ((POF_OK, id, d'), e) /\ id <> POF_INVALID_TASKID /\ res_ok (slotMap (d_dp d')) /\
    (forall q c, r_heap (slotMap (d_dp d')) !! q = Some c -> slot_fine U (c_obj c)) /\ d_index d' = d_index d /\ lists d' /\
    dp_device (d_dp d') = dp_device (d_dp d) /\ abs_slot <$> contents (slotMap (d_dp d')) = boots add_slot pns n 0 1 ∅.
Proof.
  intros Os Each (ps & L & F) Hx Ab. unfold pof_datapath_init. set (start a := with_ports (started y <$> a_ports a) a).
  match goal with |- context [HMAP_NODES_IN_STRUCT_TRAVERSE _ ?body _] =>
    destruct (slots_loop (start_ports system) body (fun lr lr' => slot_fine U lr' /\ abs_slot lr' = start (abs_slot lr)) d e Os) as (d1 & E & I & Ls & D & Os' & H) end.
  - intros p c t Hp. destruct (Each p c Hp) as [R P N].
    assert (pm_ok (mkPm (c_obj c) (d_index d) (d_list d) t)) as P1 by (apply (pm_ok_move (bare (c_obj c))); [exact P|exact Hx|eauto]).
    destruct (start_ports_ok system y static Hy _ e P1) as (pm & E & P2 & S2 & O).
    exists pm. split; [exact E|]. destruct S2 as [-> -> T]. cbn [portIndex portNameList pm_lr] in *. split; [done|]. split; [done|]. split; [|apply T]. split.
    + apply slot_fine_of.
      * exact P2.
      * intros q port. rewrite O. destruct (obj_at _ q) as [port0|] eqn:Eq; [|done]. intros [= <-].
        assert (name_of (started y port0) = name_of port0) as -> by (unfold started; now case_match). exact (N q port0 Eq).
      * exact (started_listening y Hy _ pm O).
      * apply (resources_same (c_obj c)); [exact R|exact T|apply P2].
    + rewrite (abs_same _ _ T). unfold start. f_equal. exact (ports_mapped (started y) _ _ (started_index y) P1 P2 O).
  - intros p d1 d2 E. unfold on_slot_ports in E. cbv zeta in E. rewrite run_bind in E. rewrite run_bind. destruct (lift (res_load p (slotMap (d_dp d1))) e) as [[lr e1]|]; [|done].
    rewrite run_bind in E. rewrite run_bind. destruct (start_ports system (pm_of lr d1) e1) as [[[ret s] e2]|]; [|done].
    rewrite run_bind in E. rewrite run_bind. destruct (lift (res_store p (pm_lr s) (slotMap (d_dp d1))) e2) as [[ss e3]|]; [|done].
    injection E as -> <- ->. reflexivity.
  - rewrite run_bind, E, static. destruct (so_thread _ Hy) as (id & -> & Hid). eexists id, _. split; [reflexivity|]. cbn [d_dp d_index d_list].
    split; [exact Hid|]. split; [exact Os'|]. split; [|split; [exact I|split; [exists ps; now rewrite Ls|split; [exact D|]]]].
    + intros q c Hq. specialize (H q). rewrite Hq in H. destruct (r_heap (slotMap (d_dp d)) !! q); [|done]. apply H.
    + rewrite (contents_reworked (slotMap (d_dp d)) (slotMap (d_dp d1)) abs_slot start Os Os').
      2:{ intros q. specialize (H q). unfold reworked in *. destruct (r_heap (slotMap (d_dp d)) !! q), (r_heap (slotMap (d_dp d1)) !! q); tauto. }
      rewrite Ab, (boots_map made_slot add_slot), fmap_empty; [done|]. intros slot idx. unfold start, with_ports, made_slot, add_slot. cbn. f_equal.
      apply (started_made_ports y). intros m Hm. apply (for_slot_in slot m Hm).
Qed.

(** The ports the slots start with: below the next index, each with its task. *)
Lemma boots_each f (P : Z -> portInfo -> Prop) n : (forall slot idx i port, 0 <= idx -> idx + Z.of_nat (length (for_slot slot pns)) <= 256 ->
    f slot idx (for_slot slot pns) !! i = Some port -> P i port /\ i < idx + Z.of_nat (length (for_slot slot pns))) -> forall slot idx M,
  0 <= idx -> indexed_to pns n slot idx <= 256 -> (forall j a i port, M !! j = Some a -> a_ports a !! i = Some port -> P i port /\ i < idx) ->
  forall j a i port, boots f pns n slot idx M !! j = Some a -> a_ports a !! i = Some port -> P i port /\ i < indexed_to pns n slot idx.
Proof.
  intros Hf. induction n as [|n IH]; intros slot idx M Hi Hx HM; cbn [boots indexed_to] in *; [exact HM|].
  pose proof (indexed_mono pns n (slot + 1) (idx + Z.of_nat (length (for_slot slot pns)))).
  apply IH; [lia|exact Hx|]. intros j a i port. rewrite lookup_insert. case_decide.
  - intros [= <-]. cbn [a_ports]. apply Hf; lia.
  - intros Ha Hp. destruct (HM j a i port Ha Hp). split; [done|lia].
Qed.

Lemma made_slot_each slot idx i port : 0 <= idx -> idx + Z.of_nat (length (for_slot slot pns)) <= 256 ->
  made_slot slot idx (for_slot slot pns) !! i = Some port -> po_taskID port = POF_INVALID_TASKID /\ i < idx + Z.of_nat (length (for_slot slot pns)).
Proof.
  intros Hi Hx Hp. apply (made_named y Hy slot (for_slot slot pns)) in Hp as (_ & Ht & Hp); [split; [done|lia]|]. intros m Hm. apply (for_slot_in slot m Hm).
Qed.

Lemma add_slot_each slot idx i port : 0 <= idx -> idx + Z.of_nat (length (for_slot slot pns)) <= 256 ->
  add_slot slot idx (for_slot slot pns) !! i = Some port -> po_taskID port = task_id y /\ i < idx + Z.of_nat (length (for_slot slot pns)).
Proof.
  intros Hi Hx. unfold add_slot. rewrite <- (fmap_empty (set_task (task_id y))), <- (made_tasks y slot). rewrite lookup_fmap. intros (p0 & Hp & ->)%fmap_Some.
  split; [done|]. apply (made_named y Hy slot (for_slot slot pns)) in Hp as (_ & _ & Hp); [lia|]. intros m Hm. apply (for_slot_in slot m Hm).
Qed.
End the_boot.

(** ** The configuration *)

(** What the console starts from: nothing printed to a file, no debugging, no
    colours, no promiscuous ports; not mute. *)
Definition untouched : list state_item := [ST_debug_on; ST_debug_color_on; ST_promisc_on; ST_verbosity].
Lemma touched i : i ∈ untouched -> i <> ST_ctrl_ip /\ i <> ST_conn_port /\ i <> ST_slotNum /\ i <> ST_port_mode /\ i <> ST_config_file.
Proof. unfold untouched. rewrite !elem_of_cons, elem_of_nil. intros H. destruct_or! H; subst; done. Qed.
Definition version_shown : list Z := lit "POFSwitch-1.4.0.015".
Record plain_config cf : Prop := {
  pc_log : g_log cf = mkLog None false false true true;
  pc_filter : dp_filter cf = no_promisc;
  pc_version : cstr (cf_version cf) = Some version_shown;
  pc_states : Forall (fun i => g_states cf i = initial_states i) untouched;
  pc_ip : is_Some (cstr (pofsc_controller_ip_addr cf))
}.

Definition address_fits (x : setting) : Prop := match x with Set_ip ip => blen ip < 20 | Set_number _ _ => True end.

Lemma address_set xs : forall ip, is_Some (cstr ip) -> Forall setting_ok xs -> Forall address_fits xs -> is_Some (cstr (fold_left sets_ip xs ip)).
Proof.
  induction xs as [|x xs IH]; intros ip Hip Hok Hf; [exact Hip|]. apply Forall_cons in Hok as [Ho Hok], Hf as [Hx Hf]. cbn [fold_left]. apply IH; [|done..].
  destruct x as [w|]; [|exact Hip]. cbn [sets_ip]. rewrite cstr_strncpy; [eauto|apply Ho|unfold address_fits, blen in Hx; lia].
Qed.

Lemma plain_after_file xs cf cf' : plain_config cf -> Forall setting_ok xs -> Forall address_fits xs -> after xs cf cf' -> plain_config cf'.
Proof.
  intros [P1 P2 P3 P4 P5] Ho Hf [[] _ Ip]. split; try congruence.
  - rewrite Forall_forall in P4 |- *. intros i Hi. rewrite <- (P4 i Hi). apply ff_states; intros ->; apply touched in Hi; tauto.
  - rewrite Ip. now apply address_set.
Qed.
Lemma plain_after_options cf cf' : plain_config cf -> option_frame cf cf' -> plain_config cf'.
Proof.
  intros [P1 P2 P3 P4 P5] []. split; try congruence.
  rewrite Forall_forall in P4 |- *. intros i Hi. rewrite <- (P4 i Hi). apply of_states; intros ->; apply touched in Hi; tauto.
Qed.

Lemma version_set : exists cf, versionInit POFSwitch_VERSION_STR POFSWITCH_VERSION_SUB initial_config = Some cf /\ config_ok cf /\ plain_config cf /\
  cf_names cf = DList LNil LNil 0 ∅.
Proof.
  eexists. split; [reflexivity|]. split; [|split; [|reflexivity]].
  - destruct initial_config_ok as [K1 K2 K3 K4 K5 K6 K7]. split; try done; intros []; reflexivity.
  - split; try reflexivity; [repeat constructor|eexists; reflexivity].
Qed.

Lemma options_configure system y files writable euid n pns fp xs e : (forall t, system t = y) -> sys_ok y ->
  files filename_relative = Some fp -> words fp = concat (ConfigSpec.show <$> xs) -> Forall setting_ok xs -> Forall address_fits xs ->
  0 < n < 65536 -> pns <> [] -> Forall (fun pn => is_Some (s_iface y pn.1) /\ no_comma pn.1 /\ 0 <= pn.2 < n) pns -> mallocs e = [] ->
  exists cf', pof_set_init_config system files writable euid ((lit "S", Some (dec n)) :: (port_option <$> pns)) initial_config e = Some (Next (POF_OK, cf'), e) /\
    config_ok cf' /\ plain_config cf' /\ dp_slotNum cf' = n /\ Z.land (pa_portFlag (dp_param cf')) POFLRPF_FROM_CUSTOM <> 0 /\
    exists ps, lrep (cf_names cf') ps /\ entries_at (cf_names cf') ps pns.
Proof.
  intros Hs Hy Hfile Ew Hxs Hfit Hn Hne Hpns Q. unfold pof_set_init_config.
  destruct version_set as (cf1 & -> & Ok1 & Pl1 & N1). rewrite run_bind. cbn [lift]. rewrite run_bind. unfold pof_set_init_config_by_file. rewrite Hfile.
  set (cf2 := state_copy ST_config_file filename_relative cf1).
  assert (config_ok cf2) as Ok2 by (apply state_copy_ok; done).
  assert (plain_config cf2) as Pl2.
  { destruct Pl1 as [P1 P2 P3 P4 P5]. split; try done. rewrite Forall_forall in P4 |- *. intros i Hi. rewrite <- (P4 i Hi). cbn. unfold set_pair.
    rewrite decide_False; [done|]. intros ->. apply touched in Hi. tauto. }
  destruct (lines_ok xs (S (length fp)) fp cf2 [] Ok2 Hxs) as (fuel & fp' & cf3 & E3 & L3 & Ew3 & Ok3 & A3); [lia|now rewrite app_nil_r|].
  unfold readConfigFile. rewrite E3. destruct fuel; [lia|]. cbn [read_lines]. rewrite fscanf_end by exact Ew3. cbn [mbind option_bind lift].
  pose proof (plain_after_file xs cf2 cf3 Pl2 Hxs Hfit A3) as Pl3.
  destruct (slot_num_ok system files writable euid n cf3 e Ok3 ltac:(lia)) as (cf4 & E4 & Ok4 & S4 & N4 & P4 & O4).
  destruct (port_options_ok system y files writable euid Hs Hy pns [] [] cf4 e Ok4) as (cf' & ps & E & Ok' & L' & F & S' & P' & O').
  { eapply Forall_impl; [exact Hpns|]. intros pn. unfold port_named. now rewrite S4. }
  { exact Q. }
  { rewrite N4, (ff_names _ _ (af_frame _ _ _ A3)). cbn. rewrite N1. split; [repeat constructor|constructor|reflexivity]. }
  { constructor. }
  exists cf'. rewrite run_bind. cbn [pof_set_init_config_by_command]. rewrite run_bind, E4, E. split; [reflexivity|]. split; [exact Ok'|].
  split; [apply (plain_after_options cf3); [exact Pl3|now trans cf4]|]. split; [congruence|]. split; [|eauto].
  destruct (custom_param (length pns) (dp_param cf4) (ck_param _ Ok4)) as (_ & _ & Fl); [now destruct pns|]. now rewrite P'.
Qed.

(** ** The tasks of the ports *)

(** Every port of the console has the task of the system. *)
Definition tasked y A : Prop := forall j a i port, a_slots A !! j = Some a -> a_ports a !! i = Some port -> po_taskID port = task_id y.

Lemma acts_tasked y x A B : tasked y A -> acts y x A B -> tasked y B.
Proof.
  intros T. assert (forall B, a_slots B = a_slots A -> tasked y B) as Same by (intros B0 E j a i port; rewrite E; apply T).
  assert (forall cmd B, acts_alone cmd A B -> tasked y B) as Alone.
  { clear B. intros cmd B. unfold acts_alone. destruct (listed_by cmd) as [body|]; [intros (o & _ & ->); now apply Same|].
    destruct cmd; try (intros ->; now apply Same); try (intros (st & _ & ->); now apply Same).
    intros ->. intros j a i port. cbn [a_slots with_slots]. rewrite lookup_fmap. intros (a0 & Ha & ->)%fmap_Some. cbn [a_ports cleared]. unfold disabled.
    rewrite lookup_fmap. intros (p0 & Hp & ->)%fmap_Some. exact (T j a0 i p0 Ha Hp). }
  destruct x as [cmd|[] name slot|cmd ws|line]; cbn [acts]; [apply Alone| | |apply Alone|intros ->; exact T].
  - destruct (a_custom A); [|intros ->; now apply Same]. unfold adds. destruct (a_slots A !! slot) as [a0|] eqn:E0; [|intros ->; now apply Same].
    intros [[_ ->]|[_ H]]; [now apply Same|]. destruct (s_iface y name); [|subst; now apply Same]. subst B. intros j a i1 port. cbn [a_slots tells with_next with_slots].
    rewrite lookup_insert. case_decide; [|apply T]. intros [= <-]. cbn [a_ports with_ports]. rewrite lookup_insert. case_decide; [now intros [= <-]|]. now apply (T slot a0).
  - destruct (a_custom A); [|intros ->; now apply Same]. unfold deletes. destruct (a_slots A !! slot) as [a0|] eqn:E0; [|intros ->; now apply Same].
    intros [[_ ->]|(i0 & p0 & _ & _ & ->)]; [now apply Same|]. intros j a i port. cbn [a_slots tells with_slots].
    rewrite lookup_insert. case_decide; [|apply T]. intros [= <-]. cbn [a_ports with_ports]. rewrite lookup_delete. case_decide; [done|]. now apply (T slot a0).
Qed.

Lemma session_tasked y xs A B : act_all y xs A B -> tasked y A -> tasked y B.
Proof. induction 1 as [|x xs A B C Hx _ IH]; [done|]. intros T. apply IH. exact (acts_tasked y x A B T Hx). Qed.

(** What holds of the ports of a map of slots holds of the structures. *)
Lemma slots_ports (P : portInfo -> Prop) (ss : resource pof_local_resource) M : res_ok ss -> abs_slot <$> contents ss = M ->
  (forall j a i port, M !! j = Some a -> a_ports a !! i = Some port -> P port) ->
  forall q cl, r_heap ss !! q = Some cl -> pm_ok (bare (c_obj cl)) -> forall p port, obj_at (bare (c_obj cl)) p = Some port -> P port.
Proof.
  intros Os <- H q cl Hq P1 p port Hp. apply (H (lr_slotID (c_obj cl)) (abs_slot (c_obj cl)) (po_pofIndex port)).
  - rewrite lookup_fmap. assert (contents ss !! lr_slotID (c_obj cl) = Some (c_obj cl)) as ->; [|done]. apply contents_lookup; [exact Os|]. eauto.
  - change (a_ports (abs_slot (c_obj cl))) with (ports (bare (c_obj cl))). apply ports_lookup; [exact P1|]. eauto.
Qed.

(** ** The whole program *)

(** The process as [main] finds it. *)
Record process_initial pr : Prop := {
  pi_cf : pr_cf pr = initial_config;
  pi_slots : r_heap (slotMap (d_dp (pr_d pr))) = ∅ /\ r_num (slotMap (d_dp (pr_d pr))) = 0;
  pi_index : d_index (pr_d pr) = 1;
  pi_tasks : pofsc_main_task_id pr = POF_INVALID_TASKID /\ pofsc_send_task_id pr = POF_INVALID_TASKID /\ pofsc_listen_task_id pr = POF_INVALID_TASKID;
  pi_queue : pofsc_send_q_id pr = POF_INVALID_QUEUEID;
  pi_kernel : k_next (pr_kernel pr) <> POF_INVALID_QUEUEID /\ forall q, q ∈ k_queues (pr_kernel pr) -> q.1 <> POF_INVALID_QUEUEID;
  pi_timer : pofsc_echo_timer_id pr = POF_INVALID_TIMERID /\ k_timer (pr_kernel pr) = None;
  pi_flag : pofsc_terminate_flag pr = false;
  pi_shown : cm_term (pr_cm pr) = []
}.

(** The console as the slots of the command line leave it. *)
Definition first_console y (pns : list (list Z * Z)) (n : Z) dv : console :=
  mkConsole (boots (add_slot y) pns (Z.to_nat n) 0 1 ∅) (1 + Z.of_nat (length pns)) false false false [] [] true dv version_shown.

Lemma plain_shows cf y pns n dv : config_ok cf -> plain_config cf -> Z.land (pa_portFlag (dp_param cf)) POFLRPF_FROM_CUSTOM <> 0 ->
  config_shows (first_console y pns n dv) cf.
Proof.
  intros Ok [P1 P2 P3 P4 _] Fl. unfold untouched in P4. rewrite !Forall_cons in P4. destruct P4 as (H1 & H2 & H3 & _).
  split; cbn [a_debug a_color a_promisc a_custom a_version first_console]; rewrite ?P1; try done.
  - unfold states_show. cbn [a_debug a_color a_promisc first_console]. rewrite H1, H2, H3. repeat split; reflexivity.
  - apply Ok.
  - unfold is_custom. now rewrite (proj2 (Z.eqb_neq _ _) Fl).
Qed.

Lemma first_ports pns n y (Hy : sys_ok y) (U : list Z -> Prop) : (forall pn, pn ∈ pns -> is_Some (s_iface y pn.1) /\ U pn.1) ->
  indexed_to pns (Z.to_nat n) 0 1 = 1 + Z.of_nat (length pns) -> 1 + Z.of_nat (length pns) < 256 ->
  forall j a i port, boots (add_slot y) pns (Z.to_nat n) 0 1 ∅ !! j = Some a -> a_ports a !! i = Some port ->
    po_taskID port = task_id y /\ i < 1 + Z.of_nat (length pns).
Proof.
  intros Hin Hto Hc j a i port Ha Hport. rewrite <- Hto.
  refine (boots_each pns (add_slot y) (fun _ port => po_taskID port = task_id y) (Z.to_nat n) _ 0 1 ∅ _ _ _ j a i port Ha Hport); try lia.
  - intros slot idx i0 port0. apply (add_slot_each y Hy U pns Hin).
  - intros j0 a0 i0 p0. now rewrite lookup_empty.
Qed.

Section the_program.
Context (system : nat -> sys) (self : Z) (c : calls) (y : sys) (U : list Z -> Prop) (files : list Z -> option (list Z)) (writable : list Z -> bool).
Context (meanwhile : proc -> St proc) (settle : env -> env).
Context (n : Z) (pns : list (list Z * Z)) (fp : list Z) (xs : list setting).
Hypothesis static : forall t, system t = y.
Hypothesis Hy : sys_ok y.
Hypothesis Hself : task_id y <> self.
Hypothesis HU : apart U.
Hypothesis Hcalls : y_msgget c = true /\ y_msgctl c = true /\ y_signal c = true /\ y_setitimer c = true.
Hypothesis Hfile : files filename_relative = Some fp.
Hypothesis Hwords : words fp = concat (ConfigSpec.show <$> xs).
Hypothesis Hxs : Forall setting_ok xs.
Hypothesis Hfit : Forall address_fits xs.
Hypothesis Hn : 0 < n < 65536.
Hypothesis Hne : pns <> [].
Hypothesis Hpns : Forall (fun pn => (is_Some (s_iface y pn.1) /\ U pn.1) /\ no_comma pn.1 /\ 0 <= pn.2 < n) pns.
Hypothesis Hdistinct : forall slot, NoDup (for_slot slot pns).
Hypothesis Hcount : 1 + Z.of_nat (length pns) < 256.
Hypothesis Hsettle : forall pr e, env_ok e -> quiet e -> meanwhile pr e = Some (pr, settle e) /\ env_ok (settle e) /\ quiet (settle e).

Definition opts : list (list Z * option (list Z)) := (lit "S", Some (dec n)) :: (port_option <$> pns).
(** The messages and outcomes as the console starts. *)
Definition settled e : env := settle (set_send_q_valid true (set_conn_state POFCS_CHANNEL_INVALID e)).

Lemma cancels t : s_cancel (system t) = true.
Proof. rewrite static. apply Hy. Qed.
Lemma threads t id : s_thread (system t) = Some id -> id <> POF_INVALID_TASKID /\ id <> self.
Proof.
  rewrite static. intros E. destruct (so_thread _ Hy) as (id' & E' & Hid). assert (id' = id) as <- by congruence.
  split; [exact Hid|]. unfold task_id in Hself. now rewrite E in Hself.
Qed.

Lemma boot_ok pr e : process_initial pr -> env_ok e -> mallocs e = [] -> msgsnds e = [] -> exists pr1 dv,
  pofswitch_main system self c files writable 0 meanwhile POF_OK opts pr e = pofsc_wait_exit system self c pr1 (settled e) /\
  console_ok U (first_console y pns n dv) (pr_cm pr1) (settled e) (settled e) /\ process_ok self c pr1 /\ communicates pr1 /\
  cm_stdin (pr_cm pr1) = cm_stdin (pr_cm pr) /\ g_states (pr_cf pr1) ST_verbosity = initial_states ST_verbosity /\
  (forall q, q ∈ k_queues (pr_kernel pr1) -> q ∈ k_queues (pr_kernel pr) \/ q.1 = pofsc_send_q_id pr1).
Proof.
  intros [Icf (Ih & Inum) Ix It Iq Ik Itm Ifl Ish] Oe Qm Qs. unfold pofswitch_main.
  destruct (options_configure system y files writable 0 n pns fp xs e static Hy Hfile Hwords Hxs Hfit Hn Hne) as (cf & E0 & Ok0 & Pl & Sn & Fl & Ls0);
    [eapply Forall_impl; [exact Hpns|]; intros pn (? & ? & ?); tauto|exact Qm|].
  unfold opts. rewrite Icf, run_bind, E0. cbv beta iota. unfold check_then at 1. change (negb (POF_OK =? POF_OK)) with false. cbv iota.
  change (negb (pofsc_check_root 0 =? POF_OK)) with false. cbv iota.
  change (pr_cf (configured cf pr)) with cf. rewrite Sn.
  assert (forall pn, pn ∈ pns -> is_Some (s_iface y pn.1) /\ U pn.1) as Hin by (intros pn H; rewrite Forall_forall in Hpns; apply (Hpns pn H)).
  assert (indexed_to pns (Z.to_nat n) 0 1 = 1 + Z.of_nat (length pns)) as Hto
    by (apply indexed_all; intros pn H; rewrite Forall_forall in Hpns; apply (Hpns pn H)).
  pose proof (ck_param _ Ok0) as Hp. set (d0 := pr_d (configured cf pr)). assert (d_index d0 = 1) as X0 by exact Ix.
  destruct (slot_init_ok system y static Hy U HU pns (dp_param cf) Hin Hdistinct Hp Fl n d0 e) as (d1 & E1 & Os1 & Each1 & Ls1 & X1 & Ab1);
    rewrite ?X0; try done; try lia.
  rewrite X0 in X1, Ab1. rewrite Hto in X1.
  rewrite run_bind, E1. cbv beta iota. unfold check_then at 1. change (negb (POF_OK =? POF_OK)) with false. cbv iota.
  set (prA := set_pr_d d1 (configured cf pr)). pose proof Ls1 as (ps1 & L1 & F1).
  assert (process_new self prA) as New.
  { split; try done; [|apply Pl]. split; [exact Os1| |cbn; lia|eauto]. intros q cl Hq. destruct (Each1 q cl Hq) as [R P N]. split; [exact P|].
    intros p port Hport. left. revert p port Hport.
    refine (slots_ports (fun port => po_taskID port = POF_INVALID_TASKID) (slotMap (d_dp d1)) _ Os1 Ab1 _ q cl Hq P).
    intros j a i port Ha Hport. refine (proj1 (boots_each pns (made_slot y) (fun _ port => po_taskID port = POF_INVALID_TASKID) (Z.to_nat n) _ 0 1 ∅ _ _ _ j a i port Ha Hport)); try lia.
    - intros slot idx i0 port0. apply (made_slot_each y Hy U pns Hin).
    - intros j0 a0 i0 p0. now rewrite lookup_empty. }
  destruct (init_ok system self c threads prA e New) as (ret & pr1 & e1 & t & E2 & Ecm & Ok1 & Hqs & [(_ & Hno)|(-> & Com & ->)]).
  { exfalso. apply Hno. destruct Hcalls as (? & ? & ? & ?). split; [done|]. split; [|done]. intros t'. rewrite static. destruct (so_thread _ Hy) as (id & -> & _). eauto. }
  rewrite run_bind, E2. cbv beta iota. unfold check_then at 1. change (negb (POF_OK =? POF_OK)) with false. cbv iota.
  destruct (Hsettle pr1 (set_send_q_valid true (set_conn_state POFCS_CHANNEL_INVALID e))) as (E3 & Oe3 & Q3); [destruct Oe; now split|now split|].
  rewrite run_bind, E3. fold (settled e) in *.
  assert (pr_d pr1 = mkDpst (d_dp d1) (d_index d1) (d_list d1) t) as Ed by (unfold pr_d; now rewrite Ecm).
  destruct (datapath_init_ok system y static Hy U pns Hin (Z.to_nat n) (pr_d pr1) (settled e)) as (id & d2 & E4 & _ & Os2 & Fine & X2 & Ls2 & Dv & Ab2);
    rewrite ?Ed; try done; [cbn; lia|].
  rewrite <- Ed in *. rewrite run_bind, E4. cbv beta iota zeta. unfold check_then at 1. change (negb (POF_OK =? POF_OK)) with false. cbv iota.
  set (prB := set_tasks _ _ _ _ _). exists prB, (dp_device (d_dp d2)). split; [reflexivity|].
  assert (d_index d2 = 1 + Z.of_nat (length pns)) as X2' by (rewrite X2, Ed; exact X1).
  assert (pr_cf pr1 = cf) as Ecf by (unfold pr_cf; now rewrite Ecm). destruct Ls2 as (ps2 & L2 & F2).
  split; [|split; [|split; [destruct Com; now split|split; [transitivity (cm_stdin (pr_cm pr1)); [reflexivity|]; now rewrite Ecm|split; [|exact Hqs]]]]].
  - split; try done.
    + cbn [a_slots first_console]. intros j a i Ha [port Hport]. apply (first_ports pns n y Hy U Hin Hto Hcount j a i port Ha Hport).
    + cbn. lia.
    + eauto.
    + now apply told_nil.
    + change (cm_cf (pr_cm prB)) with (pr_cf pr1). rewrite Ecf. now apply plain_shows.
    + transitivity (cm_term (pr_cm pr1)); [reflexivity|]. rewrite Ecm. exact Ish.
    + change (cm_cf (pr_cm prB)) with (pr_cf pr1). rewrite Ecf, (pc_log _ Pl). exact I.
  - destruct Ok1 as [_ M S L Q T F]. split; try done. split; [exact Os2| |cbn; rewrite X2'; lia|eauto].
    intros q cl Hq. pose proof (Fine q cl Hq) as [_ P _ _]. split; [exact P|]. intros p port Hport. right. revert p port Hport.
    refine (slots_ports (fun port => po_taskID port <> self) (slotMap (d_dp d2)) _ Os2 Ab2 _ q cl Hq P).
    intros j a i port Ha Hport. destruct (first_ports pns n y Hy U Hin Hto Hcount j a i port Ha Hport) as [-> _]. exact Hself.
  - change (pr_cf prB) with (pr_cf pr1). rewrite Ecf. pose proof (pc_states _ Pl) as St. rewrite Forall_forall in St. apply St. by_decide.
Qed.

(** The console, and the end. *)
Lemma session_ends pr e A xs0 : console_ok U A (pr_cm pr) e e -> process_ok self c pr -> communicates pr -> tasked y A ->
  g_states (pr_cf pr) ST_verbosity = initial_states ST_verbosity -> Forall (cmd_ok U) xs0 ->
  cm_stdin (pr_cm pr) = concat (typed <$> xs0) ++ lit "quit" ++ [10] -> a_index A + Z.of_nat (length xs0) < 256 ->
  exists s' e2 B pr', pofsc_wait_exit system self c pr e = Some (pr', set_send_q_valid false e2) /\ act_all y xs0 A B /\
    console_ok U B s' e e2 /\ taken_down (set_cm s' pr) pr'.
Proof using static Hy Hself HU Hcalls.
  intros Ok Op [_ (key & Hk & Hq) _] T V Hc Es Hi.
  destruct (console_loop_ok system self y static Hy U HU xs0 (S (length (cm_stdin (pr_cm pr)))) None A (pr_cm pr) e e [] Ok Hc Es) as (s' & e2 & B & E & Hall & OkB & _);
    [apply Nat.lt_succ_diag_r|exact Hi|].
  assert (process_ok self c (set_cm s' pr)) as OpB.
  { destruct Op as [_ M S L Q Tm F]. split; try done. split.
    - exact (co_slots _ _ _ _ _ OkB).
    - intros q cl Hq'. destruct (co_fine _ _ _ _ _ OkB q cl Hq') as [_ P _ _]. split; [exact P|]. intros p port Hport. right. revert p port Hport.
      refine (slots_ports (fun port => po_taskID port <> self) (slots_of s') _ (co_slots _ _ _ _ _ OkB) (co_abs _ _ _ _ _ OkB) _ q cl Hq' P).
      intros j a i port Ha Hport. rewrite (session_tasked y xs0 A B Hall T j a i port Ha Hport). exact Hself.
    - change (0 <= d_index (cm_d s') < 256). rewrite (co_index _ _ _ _ _ OkB). apply OkB.
    - exact (co_list _ _ _ _ _ OkB). }
  destruct (terminate_ok system self c cancels (proj1 (proj2 Hcalls)) (set_cm s' pr) e2 OpB) as (pr' & E' & Td).
  exists s', e2, B, pr'. split; [|auto]. unfold pofsc_wait_exit. rewrite V. change (cstr (initial_states ST_verbosity)) with (Some (lit "ERROR")).
  rewrite run_bind. cbn [lift]. rewrite bool_decide_eq_false_2 by done. unfold pof_runing_command. rewrite run_bind, E, run_bind, E'.
  unfold queue_gone. cbn [pofsc_send_q_id set_cm]. rewrite (proj2 (Z.eqb_neq _ _)) by exact Hq. reflexivity.
Qed.
End the_program.

(** The command line [-S n -a name,slot ...]. *)
Record command_line y (U : list Z -> Prop) (n : Z) (pns : list (list Z * Z)) : Prop := {
  cl_slots : 0 < n < 65536;
  cl_some : pns <> [];
  cl_named : Forall (fun pn => (is_Some (s_iface y pn.1) /\ U pn.1) /\ no_comma pn.1 /\ 0 <= pn.2 < n) pns;
  cl_distinct : forall slot, NoDup (for_slot slot pns)
}.


(** C11. Whatever fails while the communication is started (the queue, one of the
    three tasks, the timer), [pofsc_init] reports it and what the program then does
    takes down what had been made: no task, no timer, no queue more than before,
    nothing of the ports but their tasks; and it fails only when a call does. *)
Theorem failed_start_taken_down system self c pr e :
  (forall t, s_cancel (system t) = true) -> y_msgctl c = true ->
  (forall t id, s_thread (system t) = Some id -> id <> POF_INVALID_TASKID /\ id <> self) -> process_new self pr ->
  exists ret pr1 e1, pofsc_init system c pr e = Some ((ret, pr1), e1) /\
    (ret = POF_OK /\ communicates pr1 \/
     ret = POF_ERROR /\ ~ (y_msgget c = true /\ (forall t, is_Some (s_thread (system t))) /\ y_signal c = true /\ y_setitimer c = true) /\
     forall next, exists pr' e', check_then system self c ret next pr1 e1 = Some (pr', e') /\ taken_down pr1 pr' /\
       forall q, q ∈ k_queues (pr_kernel pr') -> q ∈ k_queues (pr_kernel pr)).
Proof.
  intros Hc Hm Ht New. destruct (init_ok system self c Ht pr e New) as (ret & pr1 & e1 & t & E & _ & Ok & Hq & [(-> & Hno)|(-> & Com & _)]);
    eexists _, pr1, e1; (split; [exact E|]); [right|now left].
  split; [done|]. split; [exact Hno|]. intros next. destruct (terminate_ok system self c Hc Hm pr1 e1 Ok) as (pr' & E' & Td).
  eexists pr', _. split; [|split; [exact Td|]].
  - unfold check_then. change (negb (POF_ERROR =? POF_OK)) with true. cbv iota. rewrite run_bind, E'. reflexivity.
  - intros q. destruct Td as [_ _ [_ ->] _ _ _ _ _]. rewrite list_elem_of_filter. intros [H1 H2]. destruct (Hq q H2) as [?|?]; [done|]. now destruct H1.
Qed.

(** ** Examples *)

Definition calls_example : calls := mkCalls (fun i => 0x41000000 + i) true true true true.
Definition proc_example (cmds : list Z) : proc :=
  mkProc (mkCm initial_config (mkDpst (mkDp (Res ∅ None 0 0) device_example) 1 (DList LNil LNil 0 ∅) 0) cmds [] [])
    (mkKernel [(7, 99)] 8 None false) (mkAttr (zeros 20) 0 0 0 0) 0 0 0 0 POF_INVALID_QUEUEID 0 0 false.
Definition ports_example : list (list Z * Z) := [(eth 48, 0); (eth 49, 1)].

Lemma proc_example_initial cmds : process_initial (proc_example cmds).
Proof. split; try done. cbn. split; [done|]. intros q. rewrite list_elem_of_singleton. now intros ->. Qed.


(** The timer cannot be made: the tasks and the queue are taken back. *)
Definition no_timer : calls := mkCalls (y_ftok calls_example) true true true false.

Definition proc_ready : proc := set_pr_d (mkDpst (mkDp (res_none 0) device_example) 1 (DList LNil LNil 0 ∅) 0) (proc_example []).

Lemma proc_ready_new : process_new 9 proc_ready.
Proof.
  split; try done; [|split; [done|]; intros q; cbn; rewrite list_elem_of_singleton; now intros ->].
  split; cbn [pr_d proc_ready proc_example set_pr_d set_cm set_cm_d pr_cm cm_d d_dp slotMap d_index d_list].
  - apply res_none_ok.
  - intros p cl. cbn. now rewrite lookup_empty.
  - lia.
  - exists []. split; [repeat constructor|constructor|reflexivity].
Qed.

Lemma failed_start_taken_down_witness : exists ret pr1 e1, pofsc_init (fun _ => sys_example) no_timer proc_ready env_example = Some ((ret, pr1), e1) /\
  ret = POF_ERROR /\ pofsc_main_task_id pr1 <> POF_INVALID_TASKID /\
  exists pr' e', check_then (fun _ => sys_example) 9 no_timer ret mret pr1 e1 = Some (pr', e') /\ taken_down pr1 pr' /\
    forall q, q ∈ k_queues (pr_kernel pr') -> q ∈ k_queues (pr_kernel proc_ready).
Proof.
  destruct (failed_start_taken_down (fun _ => sys_example) 9 no_timer proc_ready env_example) as (ret & pr1 & e1 & E & [[-> _]|(-> & _ & H)]).
  - done.
  - done.
  - intros _ id E. injection E as <-. done.
  - exact proc_ready_new.
  - exfalso. assert ((fun r => r.1.1) <$> pofsc_init (fun _ => sys_example) no_timer proc_ready env_example = Some POF_ERROR) as E' by (vm_compute; reflexivity).
    rewrite E in E'. discriminate.
  - exists POF_ERROR, pr1, e1. split; [exact E|]. split; [done|]. split; [|apply H].
    assert ((fun r => negb (pofsc_main_task_id r.1.2 =? POF_INVALID_TASKID)) <$> pofsc_init (fun _ => sys_example) no_timer proc_ready env_example = Some true) as E' by (vm_compute; reflexivity).
    rewrite E in E'. injection E' as E'. apply negb_true_iff, Z.eqb_neq in E'. exact E'.
Defined.

(** [msgget] is called without IPC_EXCL: a switch whose key is in use shares the
    queue of the other, and takes it away at its end. *)
Example queue_of_another :
  let other := mkKernel [(5, y_ftok calls_example (g_poflr_dev_id env_example))] 6 None false in
  match pofbf_queue_create calls_example (set_kernel other proc_ready) env_example with
  | Some ((ret, pr), e) => ret = POF_OK /\ pofsc_send_q_id pr = 5 /\
      match pofbf_queue_delete calls_example pr e with Some ((_, pr), _) => k_queues (pr_kernel pr) = [] | None => False end
  | None => False
  end.
Proof. vm_compute. auto. Qed.

(** An address of 20 characters or more leaves no room for its end, and the copy
    into the description of the connection runs past it. *)
Example long_address_overruns :
  pofsc_set_conn_attr (strncpy (lit "controller.example.org") 20) 6633 0 0 proc_ready env_example = None.
Proof. reflexivity. Qed.

(** The task of the detection is not ended with the others. *)
Example detection_stays :
  (fun r => g_pofdp_detect_port_task_id r.1.2) <$> terminate_process (fun _ => sys_example) 9 calls_example (set_tasks 0 0 0 55 proc_ready) env_example = Some 55.
Proof. vm_compute. reflexivity. Qed.
