(* ===== verification/Packet.v ===== *)
(** * Packets in the datapath (include/pof_datapath.h, datapath/pof_datapath.c)

    The packet being processed, its window into the packet buffer, its
    metadata, reading and writing fields, and sending it out of a port or up to
    the controller. *)

From S2P Require Import Prelude Bits Codec Env Hmap IdMap LocalRes ByteTransfer Port Counter FlowTable Slot Parse.
From Stdlib Require String.
Import String.StringSyntax.
#[local] Open Scope string_scope.

(** ** Constants *)

Definition POFDP_PACKET_RAW_MAX_LEN : Z := 2048.
Definition POFDP_PACKET_PREBUF_LEN : Z := 128.
Definition POFDP_METADATA_MAX_LEN : Z := 128.
Definition POFDP_METADATA_FIELD_ID : Z := 0xFFFF.
Definition POFDP_FIRST_TABLE_ID : Z := 0.
Definition POF_PACKET_IN_MAX_LENGTH : Z := 2048.
Definition POF_MTU_LENGTH : Z := 1514.
Definition POFVT_IMMEDIATE_NUM : Z := 0.
Definition POFVT_FIELD : Z := 1.
Definition POFD_FORWARD : Z := 0.
Definition POFR_NO_MATCH : Z := 0.
Definition POF_SEND_MSG_FAILURE := EC 0x7003 "POF_SEND_MSG_FAILURE".
Definition POFBMC_BAD_LEN := EC 1 "POFBMC_BAD_LEN".
Definition sizeof_pof_packet_in : Z := 2072.
Definition sizeof_pofdp_metadata : Z := 6.

(** ** State *)

(** The window of the packet in [dpp->buf]: [packetBuf] and [buf_offset] are
    indices of [buf]. *)
Record window := mkWindow {
  w_buf : list Z;          (* dpp->buf, POFDP_PACKET_RAW_MAX_LEN bytes *)
  w_base : Z;              (* dpp->packetBuf - dpp->buf *)
  w_cur : Z;               (* dpp->buf_offset - dpp->buf *)
  w_offset : Z;            (* int16_t offset *)
  w_left : Z               (* int32_t left_len *)
}.

(** What is to be sent; [o_buf] is [buf_out], which lies directly behind
    [output_whole_len]. *)
Record output := mkOutput {
  o_port : Z; o_slot : Z; o_packet_len : Z; o_packet_offset : Z;
  o_metadata_len : Z; o_metadata_offset : Z; o_whole_len : Z;
  o_buf : list Z; o_packet_buf : Z
}.

(** The instructions: [dpp->ins] is element [pg_at] of the array [pg_ins]. *)
Record program := mkProgram { pr_ins : list pof_instruction; pr_at : Z; pr_todo : Z; pr_done : Z }.

(** The actions: [dpp->act] is element [ac_at] of the array [ac_act]. *)
Record actions := mkActions { ac_act : list pof_action; ac_at : Z; ac_num : Z }.

Record pofdp_packet := mkPacket {
  ori_port_id : Z; ori_len : Z;
  dpp_win : window;
  dpp_out : output;
  dpp_metadata : list Z; dpp_metadata_len : Z;
  dpp_table_type : Z; dpp_table_id : Z;
  dpp_flow_entry : option addr;
  dpp_prog : program;
  dpp_acts : actions;
  dpp_packet_done : bool;
  dpp_rate : Z
}.

(** What surrounds the packet: the datapath (its ports), the port the
    controller is reached through, the unspecified bytes of uninitialised local
    buffers, the outcomes of the coming [sendto]s and the frames sent (with
    the system index of the port). *)
Record surroundings := mkSur {
  s_dp : pof_datapath; local_port_index : Z; s_stack : list Z;
  s_sendtos : list bool; s_sent : list (Z * list Z)
}.

(** The state of the processing of a packet.  [lr] is the slot the packet came
    in by; the actions only change its counters. *)
Record pst := mkSt { dpp : pofdp_packet; lr : pof_local_resource; sur : surroundings }.
Implicit Types (s : pst) (p : pofdp_packet) (w : window).

(** *** Updates *)

Definition with_win w p := mkPacket (ori_port_id p) (ori_len p) w (dpp_out p) (dpp_metadata p) (dpp_metadata_len p)
  (dpp_table_type p) (dpp_table_id p) (dpp_flow_entry p) (dpp_prog p) (dpp_acts p) (dpp_packet_done p) (dpp_rate p).
Definition with_out o p := mkPacket (ori_port_id p) (ori_len p) (dpp_win p) o (dpp_metadata p) (dpp_metadata_len p)
  (dpp_table_type p) (dpp_table_id p) (dpp_flow_entry p) (dpp_prog p) (dpp_acts p) (dpp_packet_done p) (dpp_rate p).
Definition with_metadata m n p := mkPacket (ori_port_id p) (ori_len p) (dpp_win p) (dpp_out p) m n
  (dpp_table_type p) (dpp_table_id p) (dpp_flow_entry p) (dpp_prog p) (dpp_acts p) (dpp_packet_done p) (dpp_rate p).
Definition with_table ty id p := mkPacket (ori_port_id p) (ori_len p) (dpp_win p) (dpp_out p) (dpp_metadata p)
  (dpp_metadata_len p) ty id (dpp_flow_entry p) (dpp_prog p) (dpp_acts p) (dpp_packet_done p) (dpp_rate p).
Definition with_entry en p := mkPacket (ori_port_id p) (ori_len p) (dpp_win p) (dpp_out p) (dpp_metadata p)
  (dpp_metadata_len p) (dpp_table_type p) (dpp_table_id p) en (dpp_prog p) (dpp_acts p) (dpp_packet_done p) (dpp_rate p).
Definition with_prog pr p := mkPacket (ori_port_id p) (ori_len p) (dpp_win p) (dpp_out p) (dpp_metadata p)
  (dpp_metadata_len p) (dpp_table_type p) (dpp_table_id p) (dpp_flow_entry p) pr (dpp_acts p) (dpp_packet_done p) (dpp_rate p).
Definition with_acts a p := mkPacket (ori_port_id p) (ori_len p) (dpp_win p) (dpp_out p) (dpp_metadata p)
  (dpp_metadata_len p) (dpp_table_type p) (dpp_table_id p) (dpp_flow_entry p) (dpp_prog p) a (dpp_packet_done p) (dpp_rate p).
Definition with_done b p := mkPacket (ori_port_id p) (ori_len p) (dpp_win p) (dpp_out p) (dpp_metadata p)
  (dpp_metadata_len p) (dpp_table_type p) (dpp_table_id p) (dpp_flow_entry p) (dpp_prog p) (dpp_acts p) b (dpp_rate p).
Definition with_rate r p := mkPacket (ori_port_id p) (ori_len p) (dpp_win p) (dpp_out p) (dpp_metadata p)
  (dpp_metadata_len p) (dpp_table_type p) (dpp_table_id p) (dpp_flow_entry p) (dpp_prog p) (dpp_acts p) (dpp_packet_done p) r.

Definition upd (f : pofdp_packet -> pofdp_packet) s := mkSt (f (dpp s)) (lr s) (sur s).
Definition with_lr l s := mkSt (dpp s) l (sur s).
Definition set_metadata m s := upd (fun p => with_metadata m (dpp_metadata_len p) p) s.

(** [POF_CHECK_RETVALUE_RETURN_NO_UPWARD] after a call: on an error the
    function returns it with the state as it is. *)
Definition checked {A} s (m : St (Z * A)) (k : A -> St (Z * pst)) : St (Z * pst) :=
  '(ret, a) ← m; if ret =? POF_OK then k a else mret (ret, s).
Definition then_ (m : St (Z * pst)) (k : pst -> St (Z * pst)) : St (Z * pst) :=
  '(ret, s) ← m; if ret =? POF_OK then k s else mret (ret, s).

(** An error reported to the controller under the next unsolicited id. *)
Definition fail_up (type code : ecode) s : St (Z * pst) :=
  x ← upward_xid_pp; r ← POF_ERROR_HANDLE_RETURN_UPWARD type code x; mret (r, s).

(** ** The metadata *)

Definition POF_PACKET_REL_LEN_GET p : Z := u16 (POF_NTOHS (fld (dpp_metadata p) 0 2)).
Definition POF_PACKET_REL_LEN_SET (len : Z) p : option pofdp_packet :=
  m ← set_fld (dpp_metadata p) 0 2 (POF_NTOHS len); Some (with_metadata m (dpp_metadata_len p) p).
Definition POF_PACKET_REL_LEN_INC (len : Z) p : option pofdp_packet :=
  POF_PACKET_REL_LEN_SET (POF_PACKET_REL_LEN_GET p + len) p.
Definition POF_PACKET_REL_LEN_DEC (len : Z) p : option pofdp_packet :=
  POF_PACKET_REL_LEN_SET (POF_PACKET_REL_LEN_GET p - len) p.

(** [len] bytes of metadata, cleared, with the packet length and port. *)
Definition init_packet_metadata (len : Z) s : St (Z * pst) :=
  if len <? sizeof_pofdp_metadata then
    r ← POF_ERROR_HANDLE_RETURN_NO_UPWARD POFET_SOFTWARE_FAILED POF_METADATA_LEN_ERROR; mret (r, s)
  else
    let p := with_metadata (zeros (Z.to_nat len)) (u16 len) (dpp s) in
    p ← lift (POF_PACKET_REL_LEN_SET (ori_len p) p);
    m ← lift (set_fld (dpp_metadata p) 2 1 (ori_port_id p));
    mret (POF_OK, upd (fun _ => with_metadata m (dpp_metadata_len p) p) s).

(** ** Fields *)

(** [pofdp_get_field_buf]: the bytes from the returned pointer on. *)
Definition pofdp_get_field_buf (pm : pof_match) s : St (option (list Z)) :=
  let fail code :=
    e ← get_env; _ ← POF_ERROR_HANDLE_NO_RETURN_UPWARD POFET_SOFTWARE_FAILED code (g_upward_xid e); mret None in
  if m_field_id pm =? POFDP_METADATA_FIELD_ID then
    if dpp_metadata_len (dpp s) * 8 <? m_len pm + m_offset pm then fail POF_METADATA_LEN_ERROR
    else mret (Some (dpp_metadata (dpp s)))
  else
    let w := dpp_win (dpp s) in
    if w_left w * 8 <? m_len pm + m_offset pm then fail POF_PACKET_LEN_ERROR
    else mret (Some (drop (Z.to_nat (w_cur w)) (w_buf w))).

(** [value] is an uninitialised variable. *)
Definition pofdp_get_32value_from_buf (stack buf : list Z) (offset len : Z) : option Z :=
  value ← pofbf_copy_bit buf (take 4 stack) 0 offset len;
  value ← POF_NTOH_FUNC 0 4 value;
  Some (Z.shiftr (fld value 0 4) (32 - len)).

Definition get_32value_from_field (pm : pof_match) s : St (Z * Z) :=
  if 32 <? m_len pm then
    e ← get_env; r ← POF_ERROR_HANDLE_RETURN_UPWARD POFET_BAD_MATCH POFBMC_BAD_LEN (g_upward_xid e); mret (r, 0)
  else
    src ← pofdp_get_field_buf pm s;
    match src with
    | None => mret (POF_ERROR, 0)
    | Some src =>
        v ← lift (pofdp_get_32value_from_buf (s_stack (sur s)) src (m_offset pm) (m_len pm)); mret (POF_OK, v)
    end.

Definition pofdp_get_16value_from_buf (stack buf : list Z) (offset len : Z) : option Z :=
  value ← pofbf_copy_bit buf (take 2 stack) 0 offset len;
  value ← POF_NTOH_FUNC 0 2 value;
  Some (Z.shiftr (fld value 0 2) (16 - len)).

Definition get_16value_from_field (pm : pof_match) s : St (Z * Z) :=
  if 16 <? m_len pm then
    e ← get_env; r ← POF_ERROR_HANDLE_RETURN_UPWARD POFET_BAD_MATCH POFBMC_BAD_LEN (g_upward_xid e); mret (r, 0)
  else
    src ← pofdp_get_field_buf pm s;
    match src with
    | None => mret (POF_ERROR, 0)
    | Some src =>
        v ← lift (pofdp_get_16value_from_buf (s_stack (sur s)) src (m_offset pm) (m_len pm)); mret (POF_OK, v)
    end.

(** The union of an immediate value and a field: 8 bytes at [u]. *)
Definition pofdp_get_32value (type : Z) (u : list Z) s : St (Z * Z) :=
  if type =? POFVT_IMMEDIATE_NUM then mret (POF_OK, fld u 0 4) else get_32value_from_field (read_match u 0) s.
Definition pofdp_get_16value (type : Z) (u : list Z) s : St (Z * Z) :=
  if type =? POFVT_IMMEDIATE_NUM then mret (POF_OK, fld u 0 2) else get_16value_from_field (read_match u 0) s.

(** Run [f] on the buffer seen through [buf_offset]. *)
Definition at_window (f : list Z -> option (list Z)) s : option pst :=
  let w := dpp_win (dpp s) in
  b ← at_ptr (w_buf w) (w_cur w) f;
  Some (upd (with_win (mkWindow b (w_base w) (w_cur w) (w_offset w) (w_left w))) s).
Definition at_metadata (f : list Z -> option (list Z)) s : option pst :=
  m ← f (dpp_metadata (dpp s)); Some (set_metadata m s).

(** A shift by 32 is undefined. *)
Definition write_32value_to_buf (buf : list Z) (value offset len : Z) : option (list Z) :=
  if len <=? 0 then None
  else pofbf_cover_bit buf (le 4 (POF_NTOHL (u32 (Z.shiftl value (32 - len))))) offset len.

Definition pofdp_write_32value_to_field (value : Z) (pm : pof_match) s : St (Z * pst) :=
  if 32 <? m_len pm then fail_up POFET_BAD_MATCH POFBMC_BAD_LEN s
  else if negb (m_field_id pm =? POFDP_METADATA_FIELD_ID) then
    if w_left (dpp_win (dpp s)) * 8 <? m_len pm + m_offset pm then fail_up POFET_SOFTWARE_FAILED POF_PACKET_LEN_ERROR s
    else s ← lift (at_window (fun b => write_32value_to_buf b value (m_offset pm) (m_len pm)) s); mret (POF_OK, s)
  else
    if dpp_metadata_len (dpp s) * 8 <? m_len pm + m_offset pm then fail_up POFET_SOFTWARE_FAILED POF_METADATA_LEN_ERROR s
    else s ← lift (at_metadata (fun b => write_32value_to_buf b value (m_offset pm) (m_len pm)) s); mret (POF_OK, s).

(** ** Moving the window *)

(** [offset] is an [int16_t]. *)
Definition movePacketBufOffset (offset : Z) s : St (Z * pst) :=
  let w := dpp_win (dpp s) in
  if (w_left w <? offset) || (offset <? 0 - (POFDP_PACKET_PREBUF_LEN + w_offset w)) then
    fail_up POFET_SOFTWARE_FAILED POF_PACKET_LEN_ERROR s
  else
    mret (POF_OK, upd (with_win (mkWindow (w_buf w) (w_base w) (w_cur w + offset) (i16 (w_offset w + offset))
                                   (i32 (w_left w - offset)))) s).

(** ** Sending *)

(** [sendto] of the frame on the port. *)
Definition sendto (sysIndex : Z) (frame : list Z) s : bool * pst :=
  let su := sur s in
  match s_sendtos su with
  | [] => (true, mkSt (dpp s) (lr s) (mkSur (s_dp su) (local_port_index su) (s_stack su) [] (s_sent su ++ [(sysIndex, frame)])))
  | true :: l => (true, mkSt (dpp s) (lr s) (mkSur (s_dp su) (local_port_index su) (s_stack su) l (s_sent su ++ [(sysIndex, frame)])))
  | false :: l => (false, mkSt (dpp s) (lr s) (mkSur (s_dp su) (local_port_index su) (s_stack su) l (s_sent su)))
  end.

Definition send_raw (lrPort : pof_local_resource) s : St (Z * pst) :=
  let o := dpp_out (dpp s) in
  port ← lift (poflr_get_port_with_pofindex (o_port o) lrPort);
  match port with
  | None => r ← POF_ERROR_HANDLE_RETURN_NO_UPWARD POFET_SOFTWARE_FAILED POF_PTR_NULL; mret (r, s)
  | Some port =>
      port ← lift (res_load port (lr_ports lrPort));
      frame ← lift (sub_buf (o_buf o) 0 (o_whole_len o));
      let '(ok, s) := sendto (po_sysIndex port) frame s in
      if negb ok then fail_up POFET_SOFTWARE_FAILED POF_SEND_MSG_FAILURE s else mret (POF_OK, s)
  end.

(** [buf_out] is written together with the two bytes in front of it: copying
    no metadata masks the byte before the buffer with 0xff. *)
Definition fill_buf_out s : option pst :=
  let o := dpp_out (dpp s) in
  mem ← pofbf_copy_bit (dpp_metadata (dpp s)) (le 2 (o_whole_len o) ++ o_buf o) 2 (o_metadata_offset o)
          (u16 (o_metadata_len o * 8));
  pkt ← sub_buf (w_buf (dpp_win (dpp s))) (o_packet_buf o + o_packet_offset o) (o_packet_len o);
  buf ← put_buf (drop 2 mem) (o_metadata_len o) pkt;
  Some (upd (with_out (mkOutput (o_port o) (o_slot o) (o_packet_len o) (o_packet_offset o) (o_metadata_len o)
    (o_metadata_offset o) (fld mem 0 2) buf (o_packet_buf o))) s).

Definition pofdp_send_raw (lrPort : pof_local_resource) s : St (Z * pst) :=
  s ← lift (fill_buf_out s);
  if POF_MTU_LENGTH <? o_whole_len (dpp_out (dpp s)) then fail_up POFET_SOFTWARE_FAILED POF_PACKET_LEN_ERROR s
  else
    '(ret, s) ← send_raw lrPort s;
    if negb (ret =? POF_OK) then
      r ← POF_ERROR_HANDLE_RETURN_NO_UPWARD POFET_SOFTWARE_FAILED POF_SEND_MSG_FAILURE; mret (r, s)
    else mret (POF_OK, s).

(** The message to the controller: [len] bytes of the memory at [packet]. *)
Definition packet_in_bytes (len reason table_id device_id port_id : Z) (data : list Z) : list Z :=
  le 4 0xffffffff ++ le 2 len ++ le 1 reason ++ le 1 table_id ++ le 8 0 ++ le 4 device_id ++
  le 2 POF_SLOT_ID_BASE ++ le 2 port_id ++ data ++ zeros (2048 - length data).

Definition pofdp_send_packet_in_to_controller (len reason table_id device_id port_id : Z) (packet : list Z) s
  : St (Z * pst) :=
  let packet_in_len := u32 (sizeof_pof_packet_in - POF_PACKET_IN_MAX_LENGTH + len) in
  if POF_PACKET_IN_MAX_LENGTH <? len then fail_up POFET_SOFTWARE_FAILED POF_PACKET_LEN_ERROR s
  else
    data ← lift (sub_buf packet 0 len);
    body ← lift (pof_NtoH_transfer_packet_in (packet_in_bytes len reason table_id device_id port_id data));
    ret ← reply_checked POFT_PACKET_IN upward_xid_pp packet_in_len (Some body);
    mret (ret, s).

(** The packet from its first byte to the end of the window, sent up. *)
Definition send_packet_in (reason table_ID : Z) s : St (Z * pst) :=
  let w := dpp_win (dpp s) in
  dev ← POF_FE_ID;
  pofdp_send_packet_in_to_controller (u16 (w_offset w + w_left w)) (u8 reason) table_ID dev (u8 (ori_port_id (dpp s)))
    (drop (Z.to_nat (w_base w)) (w_buf w)) s.
