(* ===== verification/Action.v ===== *)
(** * Actions (datapath/pof_action.c)

    Each action of the modelled configuration, on the packet in its window, and
    [pofdp_action_execute], which runs the actions of an instruction or of a
    group.  A group runs its own actions through the same function; [fuel]
    bounds the number of actions run. *)

From S2P Require Import Prelude Bits Codec Env Hmap IdMap LocalRes ByteTransfer Port Counter Group FlowTable Slot Parse Packet.
From Stdlib Require String.
Import String.StringSyntax.
#[local] Open Scope string_scope.

Implicit Types (s : pst) (p : pofdp_packet).

Definition POFBAC_BAD_TYPE := EC 0 "POFBAC_BAD_TYPE".
Definition POFBAC_BAD_LEN := EC 1 "POFBAC_BAD_LEN".

(** The current action: [dpp->act->action_data]. *)
Definition cur_action s : option pof_action :=
  let a := dpp_acts (dpp s) in if ac_at a <? 0 then None else ac_act a !! Z.to_nat (ac_at a).

Definition action_update s : pst :=
  let a := dpp_acts (dpp s) in
  let n := u8 (ac_num a - 1) in
  upd (with_acts (mkActions (ac_act a) (if n <? 1 then ac_at a else ac_at a + 1) n)) s.

(** ** Bits of a buffer *)

(** [malloc] of zeros unless whole bytes are cleared. *)
Definition bzero_bit (data : list Z) (pos_b len_b : Z) : St (Z * list Z) :=
  if (pos_b mod 8 =? 0) && (len_b mod 8 =? 0) then
    data ← lift (put_buf data (pos_b / 8) (zeros (Z.to_nat (len_b / 8)))); mret (POF_OK, data)
  else
    ok ← malloc;
    if negb ok then _ ← pofec_set_error POFET_SOFTWARE_FAILED POF_ALLOCATE_RESOURCE_FAILURE; mret (POF_ERROR, data)
    else data ← lift (pofbf_cover_bit data (zeros (Z.to_nat (u16 ((len_b + 7) / 8)))) pos_b len_b); mret (POF_OK, data).

(** [POF_BITNUM_TO_BYTENUM_CEIL] of an [uint32_t]. *)
Definition ceil32 (len_b : Z) : Z := u32 (len_b + 7) / 8.

(** [buf_behindtag] is an uninitialised local buffer. *)
Definition insertTagToPacket (tag_pos_b tag_len_b : Z) (value : list Z) s : St (Z * pst) :=
  let w := dpp_win (dpp s) in
  let len_b_behindtag := u32 (w_left w * 8 - tag_pos_b) in
  if (POFDP_PACKET_RAW_MAX_LEN <? u32 (w_offset w + w_left w + ceil32 tag_len_b)) || (len_b_behindtag <? 0) then
    fail_up POFET_SOFTWARE_FAILED POF_PACKET_LEN_ERROR s
  else
    behind ← lift (pofbf_copy_bit (drop (Z.to_nat (w_cur w)) (w_buf w)) (s_stack (sur s)) 0 (u16 tag_pos_b)
                     (u16 len_b_behindtag));
    s ← lift (at_window (fun b =>
      b ← pofbf_cover_bit b value (u16 tag_pos_b) (u16 tag_len_b);
      pofbf_cover_bit b behind (u16 (tag_pos_b + tag_len_b)) (u16 len_b_behindtag)) s);
    let w := dpp_win (dpp s) in
    let p := with_win (mkWindow (w_buf w) (w_base w) (w_cur w) (w_offset w) (i32 (w_left w + ceil32 tag_len_b))) (dpp s) in
    p ← lift (POF_PACKET_REL_LEN_INC (ceil32 tag_len_b) p);
    mret (POF_OK, upd (fun _ => p) s).

(** The loop of [checksum]: the [i]-th of [cal_num] words. *)
Fixpoint checksum_loop (n : nat) (data : list Z) (value threshold i pos_b cs_len_b : Z) : option Z :=
  match n with
  | O => Some value
  | S n' =>
      data_temp ← pofbf_copy_bit data (zeros 8) 0 (u16 (pos_b + i * cs_len_b)) cs_len_b;
      let value_temp := u64 (Z.lnot (POF_NTOH64 (fld data_temp 0 8))) in
      let value_temp := Z.shiftr value_temp (64 - cs_len_b) in
      let value := u64 (value + value_temp) in
      let value := if threshold <=? value then u64 (value - threshold + 1) else value in
      checksum_loop n' data value threshold (u16 (i + 1)) pos_b cs_len_b
  end.

(** The value starts as 0; a division by 0 or a shift by 64 is undefined. *)
Definition checksum (data : list Z) (pos_b len_b cs_len_b : Z) : option (list Z) :=
  if cs_len_b =? 0 then None else
  let cal_num := len_b / cs_len_b in
  let threshold := u64 (2 ^ cs_len_b) in
  value ← checksum_loop (Z.to_nat cal_num) data 0 threshold 0 pos_b cs_len_b;
  POF_NTOH_FUNC 0 8 (le 8 (u64 (Z.shiftl value (64 - cs_len_b)))).

(** The buffers of the checksum and of the data it covers: the packet ([true])
    or the metadata. *)
Definition cs_buf (packet : bool) s : list Z :=
  if packet then drop (Z.to_nat (w_cur (dpp_win (dpp s)))) (w_buf (dpp_win (dpp s))) else dpp_metadata (dpp s).
Definition set_cs_buf (packet : bool) (b : list Z) s : option pst :=
  if packet then at_window (fun _ => Some b) s else at_metadata (fun _ => Some b) s.

Definition calChecksum (cs_packet cal_packet : bool) (cal_pos_b cal_len_b cs_pos_b cs_len_b : Z) s : St (Z * pst) :=
  '(ret, b) ← bzero_bit (cs_buf cs_packet s) cs_pos_b cs_len_b;
  if negb (ret =? POF_OK) then mret (ret, s)
  else
    s ← lift (set_cs_buf cs_packet b s);
    value ← lift (checksum (cs_buf cal_packet s) cal_pos_b cal_len_b cs_len_b);
    b ← lift (pofbf_cover_bit (cs_buf cs_packet s) value cs_pos_b cs_len_b);
    s ← lift (set_cs_buf cs_packet b s);
    mret (POF_OK, s).

(** ** The actions *)

Definition count_on (id len : Z) s : St (Z * pst) :=
  '(ret, l) ← poflr_counter_increace id len (lr s); mret (ret, with_lr l s).

Definition execute_COUNTER s : St (Z * pst) :=
  p ← lift (cur_action s);
  then_ (count_on (fld (action_data p) 0 4) 0 s) (fun s => mret (POF_OK, action_update s)).

Definition execute_PACKET_IN s : St (Z * pst) :=
  p ← lift (cur_action s);
  table_ID ← lift (poflr_table_id_to_ID (dpp_table_type (dpp s)) (dpp_table_id (dpp s)) (lr s));
  then_ (send_packet_in (fld (action_data p) 0 4) table_ID s) (fun s => mret (POF_OK, action_update s)).

Definition execute_DROP s : St (Z * pst) :=
  _ ← lift (cur_action s);
  mret (POF_OK, action_update (upd (with_done true) s)).

Definition execute_SET_FIELD s : St (Z * pst) :=
  p ← lift (cur_action s);
  let field_setting := read_match_x (action_data p) 0 in
  let offset_b := mx_offset field_setting in
  let len_b := mx_len field_setting in
  if w_left (dpp_win (dpp s)) * 8 <? offset_b + len_b then fail_up POFET_SOFTWARE_FAILED POF_PACKET_LEN_ERROR s
  else
    let value := zip_with Z.land (mx_value field_setting) (mx_mask field_setting) ++ zeros (2048 - 16) in
    s ← lift (at_window (fun b => pofbf_cover_bit b value offset_b len_b) s);
    mret (POF_OK, action_update s).

Definition execute_SET_FIELD_FROM_METADATA s : St (Z * pst) :=
  p ← lift (cur_action s);
  let field_setting := read_match (action_data p) 0 in
  let offset_b := m_offset field_setting in
  let len_b := m_len field_setting in
  let metadata_offset_b := fld (action_data p) 8 2 in
  if w_left (dpp_win (dpp s)) * 8 <? offset_b + len_b then fail_up POFET_SOFTWARE_FAILED POF_PACKET_LEN_ERROR s
  else
    value ← lift (pofbf_copy_bit (dpp_metadata (dpp s)) (take 16 (s_stack (sur s))) 0 metadata_offset_b len_b);
    s ← lift (at_window (fun b => pofbf_cover_bit b value offset_b len_b) s);
    mret (POF_OK, action_update s).

Definition execute_MODIFY_FIELD s : St (Z * pst) :=
  p ← lift (cur_action s);
  let field := read_match (action_data p) 0 in
  let increment := fld (action_data p) 8 4 in
  checked s (pofdp_get_32value POFVT_FIELD (action_data p) s) (fun value =>
    then_ (pofdp_write_32value_to_field (u32 (value + increment)) field s) (fun s =>
      mret (POF_OK, action_update s))).

Definition execute_CALCULATE_CHECKSUM s : St (Z * pst) :=
  p ← lift (cur_action s);
  let d := action_data p in
  let cs_pos_b := fld d 2 2 in
  let cs_len_b := fld d 4 2 in
  let cal_pos_b := fld d 6 2 in
  let cal_len_b := fld d 8 2 in
  if 64 <? cs_len_b then fail_up POFET_BAD_ACTION POFBAC_BAD_LEN s
  else
    then_ (calChecksum (fld d 0 1 =? 0) (fld d 1 1 =? 0) cal_pos_b cal_len_b cs_pos_b cs_len_b s) (fun s =>
      mret (POF_OK, action_update s)).

(** Port 255: every port but the one the packet came in by, the controller's
    and those of configuration 16; a failed send ends the function. *)
Definition flood (lrPort : pof_local_resource) s : St (Z * pst) :=
  res ← HMAP_NODES_IN_STRUCT_TRAVERSE (R := Z * pst) (fun _ => res_hm (lr_ports lrPort))
    (fun port s =>
       port ← lift (res_load port (lr_ports lrPort));
       if negb (po_pofIndex port =? ori_port_id (dpp s)) && negb (po_pofIndex port =? local_port_index (sur s)) &&
          negb (po_config port =? 16) then
         let o := dpp_out (dpp s) in
         let s := upd (with_out (mkOutput (u16 (po_pofIndex port)) (o_slot o) (o_packet_len o) (o_packet_offset o)
                    (o_metadata_len o) (o_metadata_offset o) (o_whole_len o) (o_buf o) (o_packet_buf o))) s in
         '(ret, s) ← pofdp_send_raw lrPort s;
         if negb (ret =? POF_OK) then mret (inl (ret, s)) else mret (inr s)
       else mret (inr s)) s;
  match res with inl r => mret r | inr s => mret (POF_OK, s) end.

Definition execute_OUTPUT s : St (Z * pst) :=
  p ← lift (cur_action s);
  let d := action_data p in
  let metadata_offset := fld d 2 2 in
  let metadata_len := fld d 4 2 in
  let packet_offset := fld d 6 2 in
  let w := dpp_win (dpp s) in
  if w_left w <? packet_offset then fail_up POFET_SOFTWARE_FAILED POF_PACKET_LEN_ERROR s
  else if dpp_metadata_len (dpp s) <? BITNUM_TO_BYTENUM_CEIL (metadata_len + metadata_offset) then
    fail_up POFET_SOFTWARE_FAILED POF_METADATA_LEN_ERROR s
  else
    checked s (pofdp_get_32value (fld d 0 1) (drop 8 d) s) (fun value =>
      let slot := u16 (Z.shiftr value 16) in
      let port := Z.land value 0xFFFF in
      let o := dpp_out (dpp s) in
      let s1 := upd (with_out (mkOutput port slot (o_packet_len o) (o_packet_offset o) (o_metadata_len o)
                  (o_metadata_offset o) (o_whole_len o) (o_buf o) (o_packet_buf o))) s in
      lrPort ← lift (pofdp_get_local_resource slot (s_dp (sur s)));
      match lrPort with
      | None => fail_up POFET_SOFTWARE_FAILED POF_INVALID_SLOT_ID s1
      | Some lrPort =>
          lrPort ← lift (res_load lrPort (slotMap (s_dp (sur s))));
          let packet_len := u16 (w_left w - packet_offset) in
          let md_len := u16 (BITNUM_TO_BYTENUM_CEIL metadata_len) in
          let s := upd (with_out (mkOutput port slot packet_len packet_offset md_len metadata_offset
                    (u16 (packet_len + md_len)) (o_buf o) (w_cur w))) s1 in
          then_ (if port =? 255 then flood lrPort s else pofdp_send_raw lrPort s) (fun s =>
            mret (POF_OK, action_update s))
      end).

Definition execute_ADD_FIELD s : St (Z * pst) :=
  p ← lift (cur_action s);
  let tag_pos_b := fld (action_data p) 2 2 in
  let tag_len_b := fld (action_data p) 4 4 in
  if 128 <? tag_len_b then fail_up POFET_SOFTWARE_FAILED POF_FIELD_LEN_ERROR s
  else
    then_ (insertTagToPacket tag_pos_b tag_len_b (drop 8 (action_data p)) s) (fun s => mret (POF_OK, action_update s)).

(** [buf_temp] is a local buffer of zeros. *)
Definition execute_DELETE_FIELD s : St (Z * pst) :=
  p ← lift (cur_action s);
  let tag_pos_b := fld (action_data p) 0 2 in
  checked s (pofdp_get_32value (fld (action_data p) 2 1) (drop 8 (action_data p)) s) (fun tag_len_b =>
    let w := dpp_win (dpp s) in
    let tag_len_b_x := tag_len_b mod 8 in
    let len_b_behindtag := u16 (w_left w * 8 - (tag_pos_b + tag_len_b)) in
    if i16 len_b_behindtag <? 0 then fail_up POFET_SOFTWARE_FAILED POF_PACKET_LEN_ERROR s
    else
      buf_temp ← lift (pofbf_copy_bit (drop (Z.to_nat (w_cur w)) (w_buf w)) (zeros 2048) 0 (u16 (tag_pos_b + tag_len_b))
                         len_b_behindtag);
      s ← lift (at_window (fun b => pofbf_cover_bit b buf_temp tag_pos_b len_b_behindtag) s);
      let w := dpp_win (dpp s) in
      let left := i32 (ceil32 (u32 (w_left w * 8 - tag_len_b))) in
      let p := with_win (mkWindow (w_buf w) (w_base w) (w_cur w) (w_offset w) left) (dpp s) in
      p ← lift (POF_PACKET_REL_LEN_DEC (u8 (tag_len_b / 8)) p);
      let s := upd (fun _ => p) s in
      s ← lift (if tag_len_b_x =? 0 then Some s
                else at_window (fun b => v ← rd b (left - 1); wr b (left - 1) (Z.land v (u8 (Z.shiftl 0xff tag_len_b_x)))) s);
      mret (POF_OK, action_update s)).

Definition execute_EXPERIMENTER s : St (Z * pst) := fail_up POFET_BAD_ACTION POFBAC_BAD_TYPE s.

(** The group's actions replace the rest of the list. *)
Definition execute_GROUP (action_execute : pst -> St (Z * pst)) s : St (Z * pst) :=
  p ← lift (cur_action s);
  group ← lift (poflr_get_group_with_ID (fld (action_data p) 0 4) (lr s));
  match group with
  | None => fail_up POFET_GROUP_MOD_FAILED POFGMFC_UNKNOWN_GROUP s
  | Some group =>
      g ← lift (res_load group (lr_groups (lr s)));
      then_ (count_on (gr_counter_id g) (POF_PACKET_REL_LEN_GET (dpp s)) s) (fun s =>
        then_ (action_execute (upd (with_acts (mkActions (gr_action g) 0 (gr_action_number g))) s)) (fun s =>
          mret (POF_OK, s)))
  end.

(** The switch of [pofdp_action_execute]. *)
Definition execute_action (action_execute : pst -> St (Z * pst)) (type : Z) s : St (Z * pst) :=
  if type =? POFAT_OUTPUT then execute_OUTPUT s
  else if type =? POFAT_SET_FIELD then execute_SET_FIELD s
  else if type =? POFAT_SET_FIELD_FROM_METADATA then execute_SET_FIELD_FROM_METADATA s
  else if type =? POFAT_MODIFY_FIELD then execute_MODIFY_FIELD s
  else if type =? POFAT_ADD_FIELD then execute_ADD_FIELD s
  else if type =? POFAT_DELETE_FIELD then execute_DELETE_FIELD s
  else if type =? POFAT_CALCULATE_CHECKSUM then execute_CALCULATE_CHECKSUM s
  else if type =? POFAT_GROUP then execute_GROUP action_execute s
  else if type =? POFAT_DROP then execute_DROP s
  else if type =? POFAT_PACKET_IN then execute_PACKET_IN s
  else if type =? POFAT_COUNTER then execute_COUNTER s
  else if type =? POFAT_EXPERIMENTER then execute_EXPERIMENTER s
  else fail_up POFET_BAD_ACTION POFBAC_BAD_TYPE s.

Fixpoint pofdp_action_execute (fuel : nat) s : St (Z * pst) :=
  if negb (dpp_packet_done (dpp s)) && (0 <? ac_num (dpp_acts (dpp s))) then
    match fuel with
    | O => fault
    | S fuel' =>
        a ← lift (cur_action s);
        then_ (execute_action (pofdp_action_execute fuel') (act_type a) s) (pofdp_action_execute fuel')
    end
  else mret (POF_OK, s).
