(* ===== verification/Instruction.v ===== *)
(** * Instructions and forwarding (datapath/pof_instruction.c, pof_datapath.c)

    The instructions of a flow entry, [pofdp_instruction_execute], and
    [pofdp_forward], which sends a received packet through the tables starting
    with the first one.  [fuel] bounds the number of instructions and of
    actions run; the program itself bounds neither. *)

From S2P Require Import Prelude Bits Codec Env Hmap IdMap LocalRes ByteTransfer Port Counter Meter FlowEntry FlowTable Slot Parse Packet Action.
From Stdlib Require String.
Import String.StringSyntax.
#[local] Open Scope string_scope.

Implicit Types (s : pst) (p : pofdp_packet).

Definition POFBIC_UNKNOWN_INST := EC 0 "POFBIC_UNKNOWN_INST".
Definition POFBIC_UNSUP_INST := EC 1 "POFBIC_UNSUP_INST".
Definition POFBIC_BAD_TABLE_ID := EC 2 "POFBIC_BAD_TABLE_ID".
Definition POFBIC_BAD_TABLE_TYPE := EC 2 "POFBIC_BAD_TABLE_TYPE".
Definition POFBIC_ENTRY_UNEXIST := EC 18 "POFBIC_ENTRY_UNEXIST".
Definition POFBIC_JUM_TO_INVALID_INST := EC 20 "POFBIC_JUM_TO_INVALID_INST".

(** ** The instruction pointer *)

(** [dpp->ins]: [None] outside the array it points into. *)
Definition cur_ins s : option pof_instruction :=
  let pr := dpp_prog (dpp s) in if pr_at pr <? 0 then None else pr_ins pr !! Z.to_nat (pr_at pr).

Definition insJumpForward (insNum : Z) s : pst :=
  let pr := dpp_prog (dpp s) in
  upd (with_prog (mkProgram (pr_ins pr) (pr_at pr + insNum) (u8 (pr_todo pr - insNum)) (u8 (pr_done pr + insNum)))) s.

Definition insJump (direction insNum : Z) s : St (Z * pst) :=
  let pr := dpp_prog (dpp s) in
  if direction =? POFD_FORWARD then
    if pr_todo pr <? insNum then fail_up POFET_BAD_INSTRUCTION POFBIC_JUM_TO_INVALID_INST s
    else mret (POF_OK, insJumpForward insNum s)
  else
    if pr_done pr <? insNum then fail_up POFET_BAD_INSTRUCTION POFBIC_JUM_TO_INVALID_INST s
    else mret (POF_OK, upd (with_prog (mkProgram (pr_ins pr) (pr_at pr - insNum) (u8 (pr_todo pr + insNum))
                                         (u8 (pr_done pr - insNum)))) s).

Definition instruction_update s : pst :=
  if pr_todo (dpp_prog (dpp s)) =? 1 then upd (with_done true) s else insJumpForward 1 s.

(** ** The instructions *)

Definition execute_METER s : St (Z * pst) :=
  p ← lift (cur_ins s);
  meter ← lift (poflr_get_meter_with_ID (fld (instruction_data p) 0 4) (lr s));
  match meter with
  | None => fail_up POFET_METER_MOD_FAILED POFMMFC_UNKNOWN_METER s
  | Some meter =>
      m ← lift (res_load meter (lr_meters (lr s)));
      mret (POF_OK, instruction_update (upd (with_rate (u16 (me_rate m))) s))
  end.

Definition execute_WRITE_METADATA s : St (Z * pst) :=
  p ← lift (cur_ins s);
  let d := instruction_data p in
  s ← lift (at_metadata (fun b => pofbf_cover_bit b (drop 4 d) (fld d 0 2) (fld d 2 2)) s);
  mret (POF_OK, instruction_update s).

Definition execute_WRITE_METADATA_FROM_PACKET s : St (Z * pst) :=
  p ← lift (cur_ins s);
  let d := instruction_data p in
  let metadata_offset := fld d 0 2 in
  let packet_offset := fld d 2 2 in
  let len := fld d 4 2 in
  let w := dpp_win (dpp s) in
  if w_left w * 8 <? len + packet_offset then fail_up POFET_SOFTWARE_FAILED POF_PACKET_LEN_ERROR s
  else
    value ← lift (pofbf_copy_bit (drop (Z.to_nat (w_cur w)) (w_buf w)) (zeros 128) 0 packet_offset len);
    s ← lift (at_metadata (fun b => pofbf_cover_bit b value metadata_offset len) s);
    mret (POF_OK, instruction_update s).

(** The matched entry becomes the packet's program. *)
Definition enter_entry (entry : addr) (en : entryInfo) s : pst :=
  upd (fun p => with_prog (mkProgram (en_instruction en) 0 (en_instruction_num en) 0) (with_entry (Some entry) p)) s.

Definition execute_GOTO_DIRECT_TABLE s : St (Z * pst) :=
  p ← lift (cur_ins s);
  let d := instruction_data p in
  let next_table_id := fld d 0 1 in
  then_ (movePacketBufOffset (i16 (fld d 2 2)) s) (fun s =>
    checked s (poflr_table_ID_to_id next_table_id (lr s)) (fun ti =>
      let s := match ti with Some (type, id) => upd (with_table type id) s | None => s end in
      checked s (pofdp_get_32value (fld d 1 1) (drop 8 d) s) (fun entry_index =>
        table ← lift (poflr_get_table_with_ID next_table_id (lr s));
        match table with
        | None => fail_up POFET_BAD_ACTION POFBIC_BAD_TABLE_ID s
        | Some table =>
            if negb (dpp_table_type (dpp s) =? POF_LINEAR_TABLE) then fail_up POFET_BAD_ACTION POFBIC_BAD_TABLE_TYPE s
            else
              t ← lift (load_table table (lr s));
              entry ← lift (poflr_entry_lookup_Linear entry_index t);
              match entry with
              | None => fail_up POFET_BAD_ACTION POFBIC_ENTRY_UNEXIST (upd (with_entry None) s)
              | Some entry =>
                  en ← lift (res_load entry (tb_entries t));
                  then_ (count_on (en_counter_id en) (POF_PACKET_REL_LEN_GET (dpp s)) (upd (with_entry (Some entry)) s)) (fun s =>
                    mret (POF_OK, enter_entry entry en s))
              end
        end))).

(** A packet that matches no entry goes to the controller. *)
Definition pofdp_entry_nomatch s : St (Z * pst) :=
  table_ID ← lift (poflr_table_id_to_ID (dpp_table_type (dpp s)) (dpp_table_id (dpp s)) (lr s));
  then_ (send_packet_in POFR_NO_MATCH table_ID s) (fun s => mret (POF_OK, s)).

Definition execute_GOTO_TABLE s : St (Z * pst) :=
  p ← lift (cur_ins s);
  let d := instruction_data p in
  let next_table_id := fld d 0 1 in
  then_ (movePacketBufOffset (i16 (fld d 2 2)) s) (fun s =>
    checked s (poflr_table_ID_to_id next_table_id (lr s)) (fun ti =>
      let s := match ti with Some (type, id) => upd (with_table type id) s | None => s end in
      table ← lift (poflr_get_table_with_ID next_table_id (lr s));
      match table with
      | None => fail_up POFET_BAD_ACTION POFBIC_BAD_TABLE_ID s
      | Some table =>
          t ← lift (load_table table (lr s));
          let w := dpp_win (dpp s) in
          entry ← poflr_entry_lookup (drop (Z.to_nat (w_cur w)) (w_buf w)) (dpp_metadata (dpp s)) t;
          match entry with
          | None =>
              '(ret, s) ← pofdp_entry_nomatch (upd (with_entry None) s);
              mret (ret, upd (with_done true) s)
          | Some entry =>
              en ← lift (res_load entry (tb_entries t));
              '(ret, s) ← count_on (en_counter_id en) (POF_PACKET_REL_LEN_GET (dpp s)) (upd (with_entry (Some entry)) s);
              mret (ret, enter_entry entry en s)
          end
      end)).

(** The six actions behind the count in the instruction data. *)
Definition read_actions (d : list Z) : list pof_action := read_array read_action 48 6 8 d.

Definition execute_APPLY_ACTIONS (fuel : nat) s : St (Z * pst) :=
  p ← lift (cur_ins s);
  let d := instruction_data p in
  then_ (pofdp_action_execute fuel (upd (with_acts (mkActions (read_actions d) 0 (fld d 0 1))) s)) (fun s =>
    mret (POF_OK, instruction_update s)).

Definition execute_CONDITIONAL_JMP s : St (Z * pst) :=
  p ← lift (cur_ins s);
  let d := instruction_data p in
  checked s (pofdp_get_32value POFVT_FIELD (drop 8 d) s) (fun value1 =>
    checked s (pofdp_get_32value (fld d 0 1) (drop 16 d) s) (fun value2 =>
      let k := if value1 <? value2 then 0 else if value1 =? value2 then 1 else 2 in
      let direction := fld d (Z.to_nat (1 + 2 * k)) 1 in
      checked s (pofdp_get_32value (fld d (Z.to_nat (2 + 2 * k)) 1) (drop (Z.to_nat (24 + 8 * k)) d) s) (fun offset =>
        then_ (insJump direction offset s) (fun s => mret (POF_OK, s))))).

(** [CALCULATIONS]; [None]: a shift by 32 or more is undefined. *)
Definition POFCT_ADD : Z := 0.
Definition POFCT_SUBTRACT : Z := 1.
Definition POFCT_LEFT_SHIFT : Z := 2.
Definition POFCT_RIGHT_SHIFT : Z := 3.
Definition POFCT_BITWISE_ADD : Z := 4.
Definition POFCT_BITWISE_OR : Z := 5.
Definition POFCT_BITWISE_XOR : Z := 6.
Definition POFCT_BITWISE_NOR : Z := 7.

Definition calculate_ADD (value operand : Z) : Z := u32 (value + operand).
Definition calculate_SUBTRACT (value operand : Z) : Z := u32 (value - operand).
Definition calculate_LEFT_SHIFT (value operand : Z) : option Z :=
  if 32 <=? operand then None else Some (u32 (Z.shiftl value operand)).
Definition calculate_RIGHT_SHIFT (value operand : Z) : option Z :=
  if 32 <=? operand then None else Some (Z.shiftr value operand).
Definition calculate_BITWISE_ADD (value operand : Z) : Z := Z.land value operand.
Definition calculate_BITWISE_OR (value operand : Z) : Z := Z.lor value operand.
Definition calculate_BITWISE_XOR (value operand : Z) : Z := Z.lxor value operand.
Definition calculate_BITWISE_NOR (value operand : Z) : Z := u32 (Z.lnot (calculate_BITWISE_OR value operand)).

Definition calculate (calc_type value operand : Z) : option (option Z) :=
  if calc_type =? POFCT_ADD then Some (Some (calculate_ADD value operand))
  else if calc_type =? POFCT_SUBTRACT then Some (Some (calculate_SUBTRACT value operand))
  else if calc_type =? POFCT_LEFT_SHIFT then r ← calculate_LEFT_SHIFT value operand; Some (Some r)
  else if calc_type =? POFCT_RIGHT_SHIFT then r ← calculate_RIGHT_SHIFT value operand; Some (Some r)
  else if calc_type =? POFCT_BITWISE_ADD then Some (Some (calculate_BITWISE_ADD value operand))
  else if calc_type =? POFCT_BITWISE_OR then Some (Some (calculate_BITWISE_OR value operand))
  else if calc_type =? POFCT_BITWISE_XOR then Some (Some (calculate_BITWISE_XOR value operand))
  else if calc_type =? POFCT_BITWISE_NOR then Some (Some (calculate_BITWISE_NOR value operand))
  else Some None.

Definition execute_CALCULATE_FIELD s : St (Z * pst) :=
  p ← lift (cur_ins s);
  let d := instruction_data p in
  checked s (pofdp_get_32value POFVT_FIELD (drop 8 d) s) (fun value1 =>
    checked s (pofdp_get_32value (fld d 2 1) (drop 16 d) s) (fun operand =>
      result ← lift (calculate (fld d 0 2) value1 operand);
      match result with
      | None => fail_up POFET_BAD_INSTRUCTION POFBIC_UNKNOWN_INST s
      | Some result =>
          then_ (pofdp_write_32value_to_field result (read_match d 8) s) (fun s => mret (POF_OK, instruction_update s))
      end)).

Definition execute_MOVE_PACKET_OFFSET s : St (Z * pst) :=
  p ← lift (cur_ins s);
  let d := instruction_data p in
  checked s (pofdp_get_32value (fld d 1 1) (drop 8 d) s) (fun value =>
    then_ (movePacketBufOffset (if fld d 0 1 =? POFD_FORWARD then i16 value else i16 (0 - i16 value)) s) (fun s =>
      mret (POF_OK, instruction_update s))).

Definition unsupported s : St (Z * pst) := fail_up POFET_BAD_INSTRUCTION POFBIC_UNSUP_INST s.
Definition execute_WRITE_ACTIONS s : St (Z * pst) := unsupported s.
Definition execute_CLEAR_ACTIONS s : St (Z * pst) := unsupported s.
Definition execute_EXPERIMENTER_ins s : St (Z * pst) := unsupported s.

(** The switch of [pofdp_instruction_execute]. *)
Definition execute_instruction (fuel : nat) (type : Z) s : St (Z * pst) :=
  if type =? POFIT_GOTO_TABLE then execute_GOTO_TABLE s
  else if type =? POFIT_WRITE_METADATA then execute_WRITE_METADATA s
  else if type =? POFIT_WRITE_ACTIONS then execute_WRITE_ACTIONS s
  else if type =? POFIT_APPLY_ACTIONS then execute_APPLY_ACTIONS fuel s
  else if type =? POFIT_CLEAR_ACTIONS then execute_CLEAR_ACTIONS s
  else if type =? POFIT_METER then execute_METER s
  else if type =? POFIT_WRITE_METADATA_FROM_PACKET then execute_WRITE_METADATA_FROM_PACKET s
  else if type =? POFIT_GOTO_DIRECT_TABLE then execute_GOTO_DIRECT_TABLE s
  else if type =? POFIT_CONDITIONAL_JMP then execute_CONDITIONAL_JMP s
  else if type =? POFIT_CALCULATE_FIELD then execute_CALCULATE_FIELD s
  else if type =? POFIT_MOVE_PACKET_OFFSET then execute_MOVE_PACKET_OFFSET s
  else if type =? POFIT_EXPERIMENTER then execute_EXPERIMENTER_ins s
  else fail_up POFET_BAD_INSTRUCTION POFBIC_UNKNOWN_INST s.

Fixpoint pofdp_instruction_execute (fuel : nat) s : St (Z * pst) :=
  if dpp_packet_done (dpp s) then mret (POF_OK, s)
  else
    match fuel with
    | O => fault
    | S fuel' =>
        i ← lift (cur_ins s);
        then_ (execute_instruction fuel' (ins_type i) s) (pofdp_instruction_execute fuel')
    end.

(** ** Forwarding *)

Definition set_goto_first_table_instruction : pof_instruction :=
  mkInstruction POFIT_GOTO_TABLE 8 (u8 POFDP_FIRST_TABLE_ID :: zeros 295).

Definition pofdp_forward (fuel : nat) (first_ins : pof_instruction) s : St (Z * pst) :=
  then_ (init_packet_metadata POFDP_METADATA_MAX_LEN s) (fun s =>
    then_ (pofdp_instruction_execute fuel
             (upd (fun p => with_prog (mkProgram [first_ins] 0 1 (pr_done (dpp_prog p))) p) s)) (fun s =>
      mret (POF_OK, s))).

(** ** Receiving *)

Definition PACKET_OTHERHOST : Z := 3.
Definition PACKET_OUTGOING : Z := 4.

(** The filters [dp->filter] may point to, by the [sll_pkttype] of the frame,
    all that they look at. *)
Definition pofdp_promisc (sll_pkttype : Z) : Z := POF_OK.
Definition pofdp_no_promisc (sll_pkttype : Z) : Z := if sll_pkttype =? PACKET_OTHERHOST then POF_ERROR else POF_OK.

(** The packet as [recvfrom] leaves it: everything zero but the bytes received
    behind the spare room; it is told the room of the whole buffer. *)
Definition received (port : portInfo) (bytes : list Z) : option pofdp_packet :=
  buf ← put_buf (zeros 2048) POFDP_PACKET_PREBUF_LEN bytes;
  Some (mkPacket (po_pofIndex port) (blen bytes)
    (mkWindow buf POFDP_PACKET_PREBUF_LEN POFDP_PACKET_PREBUF_LEN 0 (blen bytes))
    (mkOutput 0 0 0 0 0 0 0 (zeros 2048) 0) [] 0 0 0 None (mkProgram [] 0 0 0) (mkActions [] 0 0) false 0).

(** One round of [pofdp_recv_raw_task] on a received frame; [true] if the
    packet was processed and counted.  [filter] is [dp->filter], which the
    configuration, the console and the listener set. *)
Definition pofdp_recv_raw (filter : Z -> Z) (fuel : nat) (port : portInfo) (sll_pkttype : Z) (bytes : list Z) (l : pof_local_resource)
    (su : surroundings) : St (bool * (pof_local_resource * surroundings)) :=
  p ← lift (received port bytes);
  if (po_of_enable port =? POFE_DISABLE) || (sll_pkttype =? PACKET_OUTGOING) then mret (false, (l, su))
  else if POF_MTU_LENGTH <? blen bytes then mret (false, (l, su))
  else if negb (filter sll_pkttype =? POF_OK) then mret (false, (l, su))
  else
    table ← lift (poflr_get_table_with_ID POFDP_FIRST_TABLE_ID l);
    match table with
    | None => mret (false, (l, su))
    | Some _ =>
        '(_, s) ← pofdp_forward fuel set_goto_first_table_instruction (mkSt p l su);
        mret (true, (lr s, sur s))
    end.
