(* ===== verification/FieldSpec.v ===== *)
(** * Reading and writing the fields of a packet

    The number a field of up to 32 bits holds, and what reading and writing it
    through [pofdp_get_32value] and [pofdp_write_32value_to_field] does. *)

From S2P Require Import Prelude Bits Codec Env Tree FlowEntry LocalRes Parse Packet.

(** ** Numbers in network order *)

(** The number the bits spell, most significant first. *)
Definition bits_num (l : list bool) : Z := foldl (fun v b => 2 * v + Z.b2z b) 0 l.

(** The [len]-bit field at bit [off]. *)
Definition field_value (buf : list Z) (off len : Z) : Z := bits_num (bits_from buf off (Z.to_nat len)).

Lemma bits_num_app l b : bits_num (l ++ [b]) = 2 * bits_num l + Z.b2z b.
Proof. unfold bits_num. now rewrite foldl_app. Qed.

Lemma testbit_bits_num buf n : forall off k, 0 <= off -> 0 <= k ->
  Z.testbit (bits_num (bits_from buf off n)) k = (k <? Z.of_nat n) && bit_at buf (off + Z.of_nat n - 1 - k).
Proof.
  induction n as [|n IH]; intros off k Ho Hk.
  - change (Z.of_nat 0) with 0. rewrite (proj2 (Z.ltb_ge k 0)) by lia. apply Z.testbit_0_l.
  - replace (S n) with (n + 1)%nat by lia. rewrite bits_from_app. cbn [bits_from]. rewrite bits_num_app.
    set (b := bit_at buf (off + Z.of_nat n)). destruct (Z.eqb_spec k 0) as [->|Hk0].
    + rewrite Z.add_comm, Z.add_b2z_double_bit0. rewrite (proj2 (Z.ltb_lt 0 _)), andb_true_l by lia. subst b. f_equal. lia.
    + rewrite Z.add_comm. replace k with (Z.succ (k - 1)) at 1 by lia.
      rewrite <- Z.div2_bits, Z.add_b2z_double_div2, IH by lia.
      zcases; rewrite ?andb_true_l, ?andb_false_l; try reflexivity; f_equal; lia.
Qed.

Lemma field_value_bit buf off len k : 0 <= off -> 0 <= len -> 0 <= k ->
  Z.testbit (field_value buf off len) k = (k <? len) && bit_at buf (off + len - 1 - k).
Proof. intros. unfold field_value. rewrite testbit_bits_num by lia. now rewrite Z2Nat.id by lia. Qed.

Lemma bits_num_bound l : 0 <= bits_num l < 2 ^ Z.of_nat (length l).
Proof.
  induction l as [|b l IH] using rev_ind; [cbn; lia|]. rewrite bits_num_app, length_app.
  replace (Z.of_nat (length l + length [b])) with (1 + Z.of_nat (length l)) by (cbn [length]; lia).
  rewrite Z.pow_add_r by lia. destruct b; cbn [Z.b2z]; lia.
Qed.

Lemma field_value_bound buf off len : 0 <= len -> 0 <= field_value buf off len < 2 ^ len.
Proof.
  intros. unfold field_value. pose proof (bits_num_bound (bits_from buf off (Z.to_nat len))) as B.
  rewrite length_bits_from, Z2Nat.id in B by lia. exact B.
Qed.

(** A number is known by its bits below its bound. *)
Lemma field_value_eq buf off len v : 0 <= off -> 0 <= len ->
  (forall i, 0 <= i < len -> bit_at buf (off + i) = Z.testbit v (len - 1 - i)) ->
  field_value buf off len = v mod 2 ^ len.
Proof.
  intros Ho Hl H. apply Z.bits_inj'. intros k Hk. rewrite field_value_bit by lia.
  destruct (Z.ltb_spec k len) as [Hc|Hc].
  - rewrite Z.mod_pow2_bits_low by lia. cbn. replace (off + len - 1 - k) with (off + (len - 1 - k)) by lia.
    rewrite H by lia. f_equal. lia.
  - now rewrite Z.mod_pow2_bits_high by lia.
Qed.

(** *** Words of the machine, byte by byte *)

Lemma testbit_unle l : bytes_ok l -> forall k, 0 <= k ->
  Z.testbit (unle l) k = Z.testbit (byte_at l (k / 8)) (k mod 8).
Proof.
  induction 1 as [|b l Hb _ IH]; intros k Hk; cbn [unle].
  - unfold byte_at. destruct (Z.to_nat (k / 8)); now rewrite !Z.testbit_0_l.
  - unfold byte_ok in Hb. replace (b + 256 * unle l) with (b + unle l * 2 ^ 8) by lia.
    rewrite <- lor_shiftl, Z.lor_spec, Z.shiftl_spec by lia.
    destruct (Z.ltb_spec k 8) as [Hc|Hc].
    + rewrite (Z.testbit_neg_r _ (k - 8)) by lia. rewrite orb_false_r.
      unfold byte_at. replace (k / 8) with 0 by lia. change (Z.to_nat 0) with O. cbn [nth]. f_equal. lia.
    + rewrite (byte_testbit_high b k) by (unfold byte_ok; lia). cbn [orb]. rewrite IH by lia. unfold byte_at.
      replace (Z.to_nat (k / 8)) with (S (Z.to_nat ((k - 8) / 8))) by lia. cbn [nth]. f_equal. lia.
Qed.

Lemma byte_at_rev l i : 0 <= i < blen l -> byte_at (rev l) i = byte_at l (blen l - 1 - i).
Proof. intros. unfold byte_at, blen in *. rewrite rev_nth by lia. f_equal. lia. Qed.

(** A word read from bytes in reverse order spells their bits. *)
Lemma testbit_unle_rev l k : bytes_ok l -> 0 <= k < 8 * blen l ->
  Z.testbit (unle (rev l)) k = bit_at l (8 * blen l - 1 - k).
Proof.
  intros Hl Hk. rewrite testbit_unle by (auto with pof; lia). unfold bit_at.
  rewrite byte_at_rev by lia. f_equal; [f_equal|]; lia.
Qed.

Lemma bit_at_be n x i : 0 <= i < 8 * Z.of_nat n -> bit_at (be n x) i = Z.testbit x (8 * Z.of_nat n - 1 - i).
Proof.
  intros Hi. assert (blen (be n x) = Z.of_nat n) as Hl by (unfold blen; now rewrite length_be).
  pose proof (testbit_unle_rev (be n x) (8 * Z.of_nat n - 1 - i) (bytes_ok_be n x) ltac:(lia)) as H.
  rewrite Hl in H. replace (8 * Z.of_nat n - 1 - (8 * Z.of_nat n - 1 - i)) with i in H by lia. rewrite <- H.
  unfold be. rewrite rev_involutive, unle_le, <- (Z.pow_mul_r 2 8) by lia.
  now rewrite Z.mod_pow2_bits_low by lia.
Qed.

(** ** Reading *)

(** The field [off], [len] can be read from [buf] (with the byte behind it). *)
Definition readable (buf : list Z) (off len : Z) : Prop :=
  0 <= off < 65536 /\ off / 8 + (len + 7) / 8 + 1 <= blen buf.

(** [n] bytes in network order are loaded and shifted down. *)
Lemma loaded_field (n : nat) m src off len : n ∈ [2; 4; 8]%nat -> length m = n -> bytes_ok m ->
  0 <= off -> 1 <= len <= 8 * Z.of_nat n ->
  (forall i, 0 <= i < len -> bit_at m i = bit_at src (off + i)) ->
  exists v, POF_NTOH_FUNC 0 n m = Some v /\ Z.shiftr (fld v 0 n) (8 * Z.of_nat n - len) = field_value src off len.
Proof.
  intros Hn Hl Hm Ho Hlen H. rewrite POF_NTOH_FUNC_rev by (auto; lia).
  eexists. split; [reflexivity|].
  unfold patch, fld. rewrite !drop_0, take_0, app_nil_l, Nat.add_0_l, length_rev, length_take, Nat.min_l by lia.
  rewrite (take_ge m) by lia. rewrite (drop_ge m) by lia. rewrite app_nil_r, take_ge by (rewrite length_rev; lia).
  apply Z.bits_inj'. intros k Hk. rewrite Z.shiftr_spec, field_value_bit by lia.
  destruct (Z.ltb_spec k len) as [Hc|Hc].
  - rewrite testbit_unle_rev by (auto; unfold blen; lia). cbn [andb]. unfold blen. rewrite Hl.
    rewrite H by lia. f_equal. lia.
  - rewrite testbit_unle by (auto with pof; lia). rewrite byte_at_out by (unfold blen; rewrite length_rev; lia).
    apply Z.testbit_0_l.
Qed.

Lemma get_32value_ok stack src off len : bytes_ok stack -> 4 <= blen stack -> bytes_ok src ->
  readable src off len -> 1 <= len <= 32 ->
  pofdp_get_32value_from_buf stack src off len = Some (field_value src off len).
Proof.
  intros Hs Hn Hb (Ho & Hr) Hl. unfold pofdp_get_32value_from_buf.
  assert (length (take 4 stack) = 4%nat) as L4 by (rewrite length_take; unfold blen in Hn; lia).
  destruct (copy_bit_ok src (take 4 stack) 0 off len) as (m & E & L & B & S); auto with pof; try lia.
  { unfold blen. rewrite L4. lia. }
  rewrite E. cbn [mbind option_bind].
  destruct (loaded_field 4 m src off len) as (v & -> & F); auto; try lia.
  { rewrite list_elem_of_In. cbn. lia. }
  { intros i Hi. rewrite S by lia. zcases. cbn [andb]. f_equal. lia. }
  cbn [mbind option_bind]. now rewrite <- F.
Qed.

(** ** Writing *)

(** The field can be written into [buf], from a variable of [n] bytes. *)
Definition writable (buf : list Z) (n off len : Z) : Prop :=
  coverable off len /\ off + len <= 8 * blen buf /\ off mod 8 + len <= 8 * n.

Lemma write_32value_ok buf value off len : bytes_ok buf -> writable buf 4 off len -> len <= 32 ->
  exists buf', write_32value_to_buf buf value off len = Some buf' /\ length buf' = length buf /\ bytes_ok buf' /\
    (forall i, 0 <= i < len -> bit_at buf' (off + i) = Z.testbit value (len - 1 - i)) /\
    (forall i, 0 <= i -> i < off \/ off + len <= i -> bit_at buf' i = bit_at buf i).
Proof.
  intros Hb (Hc & Hr & Hx) Hl. pose proof Hc as (Hp & Hl1 & _). unfold write_32value_to_buf.
  rewrite (proj2 (Z.leb_gt len 0)) by lia.
  set (x := u32 (Z.shiftl value (32 - len))).
  assert (le 4 (POF_NTOHL x) = be 4 x) as ->.
  { rewrite POF_NTOHL_rev. unfold be. rewrite <- (length_rev (le 4 x)) at 1.
    rewrite <- (length_le 4 x) at 1. rewrite length_rev, <- length_rev. apply le_unle. auto with pof. }
  assert (forall i, 0 <= i < 32 -> bit_at (be 4 x) i = (i <? len) && Z.testbit value (len - 1 - i)) as Hx'.
  { intros i Hi. rewrite bit_at_be by lia. unfold x, u32. change 4294967296 with (2 ^ 32).
    rewrite Z.mod_pow2_bits_low, Z.shiftl_spec by lia. destruct (Z.ltb_spec i len); cbn [andb]; [f_equal; lia|].
    apply Z.testbit_neg_r. lia. }
  destruct (cover_bit_ok buf (be 4 x) off len) as (b' & E & L & B & S); auto with pof.
  { unfold value_room, blen. rewrite length_be. lia. }
  { intros i Hi. rewrite Hx' by lia. zcases; reflexivity. }
  exists b'. split; [exact E|]. split; [exact L|]. split; [exact B|]. split.
  - intros i Hi. rewrite S by lia. zcases. replace (off + i - off) with i by lia. rewrite Hx' by lia. zcases. reflexivity.
  - intros i Hi Ho. rewrite S by lia. zcases; reflexivity.
Qed.
