(* ===== verification/PacketSpec.v ===== *)
(** * The window of a packet and its fields

    When the window of a packet is well-formed, what moving it does, and the
    fields of the packet and of its metadata as numbers. *)

From S2P Require Import Prelude Bits Codec Env Hmap IdMap Tree FlowEntry LocalRes ByteTransfer Port Counter Meter Group FlowTable Slot Parse Packet Action Instruction FieldSpec.

Implicit Types (s : pst) (p : pofdp_packet) (w : window).

(** ** Well-formed packets *)

(** The window lies in the packet buffer, behind the spare room in front. *)
Record window_ok w : Prop := {
  wk_len : length (w_buf w) = 2048%nat;
  wk_bytes : bytes_ok (w_buf w);
  wk_base : w_base w = POFDP_PACKET_PREBUF_LEN;
  wk_cur : w_cur w = w_base w + w_offset w;
  wk_low : 0 <= w_cur w;
  wk_left : 0 <= w_left w;
  wk_high : w_cur w + w_left w <= 2048
}.

Record packet_ok s : Prop := {
  pk_win : window_ok (dpp_win (dpp s));
  pk_md : length (dpp_metadata (dpp s)) = 128%nat;
  pk_mdb : bytes_ok (dpp_metadata (dpp s));
  pk_mdl : dpp_metadata_len (dpp s) = 128;
  pk_stack : length (s_stack (sur s)) = 2048%nat;
  pk_stackb : bytes_ok (s_stack (sur s))
}.

(** The bytes from [buf_offset] on, and the bits of the packet in the window. *)
Definition win_mem w : list Z := drop (Z.to_nat (w_cur w)) (w_buf w).
Definition packet_bits w : list bool := bits_from (win_mem w) 0 (Z.to_nat (8 * w_left w)).

Lemma win_mem_len w : window_ok w -> blen (win_mem w) = 2048 - w_cur w.
Proof. intros []. unfold win_mem, blen. rewrite length_drop. lia. Qed.

Lemma win_mem_bytes w : window_ok w -> bytes_ok (win_mem w).
Proof. intros []. unfold win_mem. auto with pof. Qed.

Lemma at_window_run f s b : window_ok (dpp_win (dpp s)) -> f (win_mem (dpp_win (dpp s))) = Some b ->
  at_window f s = Some (upd (with_win (mkWindow (take (Z.to_nat (w_cur (dpp_win (dpp s)))) (w_buf (dpp_win (dpp s))) ++ b)
    (w_base (dpp_win (dpp s))) (w_cur (dpp_win (dpp s))) (w_offset (dpp_win (dpp s))) (w_left (dpp_win (dpp s))))) s).
Proof.
  intros [] E. unfold at_window, at_ptr. unfold win_mem in E. rewrite E. unfold blen. rewrite wk_len0.
  destruct (Z.leb_spec 0 (w_cur (dpp_win (dpp s)))); [|lia].
  destruct (Z.leb_spec (w_cur (dpp_win (dpp s))) (Z.of_nat 2048)); [|lia]. reflexivity.
Qed.

(** The window with other bytes from [buf_offset] on. *)
Definition rewin w b : window := mkWindow (take (Z.to_nat (w_cur w)) (w_buf w) ++ b) (w_base w) (w_cur w) (w_offset w) (w_left w).

Lemma rewin_mem w b : window_ok w -> win_mem (rewin w b) = b.
Proof.
  intros []. unfold win_mem, rewin. cbn [w_cur w_buf]. rewrite drop_app_length'; [done|].
  rewrite length_take. lia.
Qed.

Lemma rewin_ok w b : window_ok w -> length b = length (win_mem w) -> bytes_ok b -> window_ok (rewin w b).
Proof.
  intros Hw Hl Hb. pose proof Hw as []. unfold win_mem in Hl. rewrite length_drop in Hl.
  constructor; unfold rewin; cbn [w_buf w_base w_cur w_offset w_left]; auto.
  - rewrite length_app, length_take. lia.
  - apply bytes_ok_app; auto with pof.
Qed.

(** ** Moving the window *)

Definition movable w k : Prop := - (POFDP_PACKET_PREBUF_LEN + w_offset w) <= k <= w_left w.

Definition moved w k : window := mkWindow (w_buf w) (w_base w) (w_cur w + k) (w_offset w + k) (w_left w - k).

Lemma moved_ok w k : window_ok w -> movable w k -> window_ok (moved w k).
Proof. intros [] [? ?]. constructor; unfold moved; cbn; auto; unfold POFDP_PACKET_PREBUF_LEN in *; lia. Qed.

Lemma move_run k s e : window_ok (dpp_win (dpp s)) -> movable (dpp_win (dpp s)) k ->
  movePacketBufOffset k s e = Some ((POF_OK, upd (with_win (moved (dpp_win (dpp s)) k)) s), e).
Proof.
  intros [] [H1 H2]. unfold movePacketBufOffset, moved.
  unfold POFDP_PACKET_PREBUF_LEN in *.
  rewrite (proj2 (Z.ltb_ge _ _)) by lia. rewrite (proj2 (Z.ltb_ge k _)) by lia. cbn [orb].
  replace (i16 (w_offset (dpp_win (dpp s)) + k)) with (w_offset (dpp_win (dpp s)) + k) by (unfold i16; lia).
  replace (i32 (w_left (dpp_win (dpp s)) - k)) with (w_left (dpp_win (dpp s)) - k) by (unfold i32; lia). reflexivity.
Qed.

Lemma fail_up_run type code s e : env_ok e -> quiet e -> ecode_ok code ->
  exists e', fail_up type code s e = Some ((err_ret code, s), e') /\ reports type code (g_upward_xid e) e e'.
Proof.
  intros Ok Q Hc. destruct (ret_err_upward e type code (lr s) Ok Q Hc) as (e' & E & R).
  exists e'. split; [|exact R]. unfold ret_err, fail_up, mbind, St_bind in *.
  destruct (upward_xid_pp e) as [[x e1]|]; [|discriminate].
  destruct (POF_ERROR_HANDLE_RETURN_UPWARD type code x e1) as [[r e2]|]; [|discriminate].
  injection E as <- <-. reflexivity.
Qed.

Lemma upd_win_ok s w : packet_ok s -> window_ok w -> packet_ok (upd (with_win w) s).
Proof. intros [] Hw. now constructor. Qed.

Lemma moved_back w k : moved (moved w k) (- k) = w.
Proof. destruct w. unfold moved. cbn. f_equal; lia. Qed.

Lemma upd_win_self s w : dpp_win (dpp s) = w -> upd (with_win w) s = s.
Proof. intros <-. destruct s as [[] ? ?]. reflexivity. Qed.

Lemma upd_win_twice s w w' : upd (with_win w) (upd (with_win w') s) = upd (with_win w) s.
Proof. destruct s as [[] ? ?]. reflexivity. Qed.

(** C28. Moving the packet offset: a movement that stays between the spare
    room in front of the packet and its end is accepted, keeps the window
    well-formed with its end where it was, and moving back by the same amount
    restores the packet; any other movement is refused with
    POF_PACKET_LEN_ERROR and changes nothing. *)
Theorem move_window k s e : packet_ok s -> env_ok e -> quiet e ->
  (movable (dpp_win (dpp s)) k -> exists s', movePacketBufOffset k s e = Some ((POF_OK, s'), e) /\ packet_ok s' /\
     w_offset (dpp_win (dpp s')) = w_offset (dpp_win (dpp s)) + k /\
     w_cur (dpp_win (dpp s')) + w_left (dpp_win (dpp s')) = w_cur (dpp_win (dpp s)) + w_left (dpp_win (dpp s)) /\
     movePacketBufOffset (- k) s' e = Some ((POF_OK, s), e)) /\
  (~ movable (dpp_win (dpp s)) k -> exists e', movePacketBufOffset k s e = Some ((err_ret POF_PACKET_LEN_ERROR, s), e') /\
     reports POFET_SOFTWARE_FAILED POF_PACKET_LEN_ERROR (g_upward_xid e) e e').
Proof.
  intros P Ok Q. pose proof (pk_win _ P) as W. split; intros M.
  - exists (upd (with_win (moved (dpp_win (dpp s)) k)) s). split; [now apply move_run|].
    pose proof (moved_ok _ _ W M) as W'. split; [now apply upd_win_ok|]. split; [reflexivity|]. split; [cbn; lia|].
    rewrite move_run; [|exact W'|]; cbn [upd dpp with_win dpp_win].
    + rewrite moved_back, upd_win_twice. now rewrite (upd_win_self s) by reflexivity.
    + destruct W, M. split; cbn [moved w_offset w_left]; unfold POFDP_PACKET_PREBUF_LEN in *; lia.
  - unfold movePacketBufOffset. unfold movable in M.
    destruct ((w_left (dpp_win (dpp s)) <? k) || (k <? 0 - (POFDP_PACKET_PREBUF_LEN + w_offset (dpp_win (dpp s))))) eqn:E.
    + apply fail_up_run; auto. by_decide.
    + exfalso. apply M. apply orb_false_iff in E as [E1 E2]. lia.
Qed.

(** ** Fields of the packet and of its metadata *)

Definition field_mem (pm : pof_match) s : list Z :=
  if m_field_id pm =? POFDP_METADATA_FIELD_ID then dpp_metadata (dpp s) else win_mem (dpp_win (dpp s)).
Definition field_room (pm : pof_match) s : Z :=
  if m_field_id pm =? POFDP_METADATA_FIELD_ID then dpp_metadata_len (dpp s) else w_left (dpp_win (dpp s)).

(** The number in the field of the packet. *)
Definition field_of (pm : pof_match) s : Z := field_value (field_mem pm s) (m_offset pm) (m_len pm).

(** The field is in the packet, with the byte behind it, and can be written
    from a 4-byte variable. *)
Definition field_ok (pm : pof_match) s : Prop :=
  1 <= m_len pm <= 32 /\ m_len pm + m_offset pm <= field_room pm s * 8 /\
  readable (field_mem pm s) (m_offset pm) (m_len pm).

Lemma field_mem_bytes pm s : packet_ok s -> bytes_ok (field_mem pm s).
Proof. intros []. unfold field_mem. destruct (_ =? _); [done|now apply win_mem_bytes]. Qed.

Lemma get_field_run pm s e : packet_ok s -> field_ok pm s ->
  get_32value_from_field pm s e = Some ((POF_OK, field_of pm s), e).
Proof.
  intros P (Hl & Hr & Hrd). unfold get_32value_from_field. rewrite (proj2 (Z.ltb_ge 32 _)) by lia.
  pose proof (field_mem_bytes pm s P) as Hb. unfold field_of, field_mem, field_room in *. rewrite run_bind. unfold pofdp_get_field_buf.
  assert (4 <= blen (s_stack (sur s))) as H4 by (unfold blen; rewrite (pk_stack _ P); lia).
  destruct (m_field_id pm =? POFDP_METADATA_FIELD_ID).
  - rewrite (proj2 (Z.ltb_ge _ _)) by lia. unfold mret at 1, St_ret. rewrite run_bind.
    rewrite get_32value_ok by (auto; apply P). reflexivity.
  - rewrite (proj2 (Z.ltb_ge _ _)) by lia. unfold mret at 1, St_ret. rewrite run_bind. fold (win_mem (dpp_win (dpp s))).
    rewrite get_32value_ok by (auto; apply P). reflexivity.
Qed.

(** The same packet with other bytes in the field's memory. *)
Definition with_field_mem (pm : pof_match) (b : list Z) s : pst :=
  if m_field_id pm =? POFDP_METADATA_FIELD_ID then set_metadata b s else upd (with_win (rewin (dpp_win (dpp s)) b)) s.

Lemma with_field_mem_ok pm b s : packet_ok s -> length b = length (field_mem pm s) -> bytes_ok b ->
  packet_ok (with_field_mem pm b s) /\ field_mem pm (with_field_mem pm b s) = b.
Proof.
  intros P Hl Hb. pose proof P as []. unfold with_field_mem, field_mem in *.
  destruct (m_field_id pm =? POFDP_METADATA_FIELD_ID).
  - split; [|reflexivity]. constructor; cbn; auto. now rewrite Hl.
  - split; [apply upd_win_ok; [done|now apply rewin_ok]|]. cbn [upd dpp with_win dpp_win]. now apply rewin_mem.
Qed.

(** [b'] is [b] with the field replaced by [v]. *)
Definition field_set (b b' : list Z) (off len v : Z) : Prop :=
  field_value b' off len = v mod 2 ^ len /\
  (forall i, 0 <= i -> i < off \/ off + len <= i -> bit_at b' i = bit_at b i).

Lemma write_field_run v pm s e : packet_ok s -> m_len pm <= 32 -> m_len pm + m_offset pm <= field_room pm s * 8 ->
  writable (field_mem pm s) 4 (m_offset pm) (m_len pm) ->
  exists b, pofdp_write_32value_to_field v pm s e = Some ((POF_OK, with_field_mem pm b s), e) /\
    length b = length (field_mem pm s) /\ bytes_ok b /\ field_set (field_mem pm s) b (m_offset pm) (m_len pm) v.
Proof.
  intros P Hl Hr Hw. pose proof (field_mem_bytes pm s P) as Hb.
  destruct (write_32value_ok (field_mem pm s) v (m_offset pm) (m_len pm) Hb Hw Hl) as (b & E & L & B & S1 & S2).
  exists b. split; [|split; [exact L|split; [exact B|split; [|exact S2]]]].
  - unfold pofdp_write_32value_to_field. rewrite (proj2 (Z.ltb_ge 32 _)) by lia.
    unfold field_mem, field_room, with_field_mem in *. destruct (m_field_id pm =? POFDP_METADATA_FIELD_ID); cbn [negb].
    + rewrite (proj2 (Z.ltb_ge _ _)) by lia. rewrite run_bind. unfold at_metadata. rewrite E. reflexivity.
    + rewrite (proj2 (Z.ltb_ge _ _)) by lia. rewrite run_bind. rewrite (at_window_run _ s b (pk_win _ P)) by exact E. reflexivity.
  - destruct Hw as ((? & ? & _) & _). apply field_value_eq; [lia|lia|exact S1].
Qed.

(** ** CALCULATE_FIELD *)

(** An immediate value or a field of the packet. *)
Definition operand_of (type : Z) (u : list Z) s : Z :=
  if type =? POFVT_IMMEDIATE_NUM then fld u 0 4 else field_of (read_match u 0) s.
Definition operand_ok (type : Z) (u : list Z) s : Prop :=
  type = POFVT_IMMEDIATE_NUM \/ field_ok (read_match u 0) s.

Lemma operand_run type u s e : packet_ok s -> operand_ok type u s ->
  pofdp_get_32value type u s e = Some ((POF_OK, operand_of type u s), e).
Proof.
  intros P H. unfold pofdp_get_32value, operand_of. zcases; [reflexivity|].
  destruct H as [H|H]; [contradiction|]. now apply get_field_run.
Qed.

(** The operation of each type on unbounded integers. *)
Definition calc_spec (type a b : Z) : Z :=
  if type =? POFCT_ADD then a + b else if type =? POFCT_SUBTRACT then a - b
  else if type =? POFCT_LEFT_SHIFT then a * 2 ^ b else if type =? POFCT_RIGHT_SHIFT then a / 2 ^ b
  else if type =? POFCT_BITWISE_ADD then Z.land a b else if type =? POFCT_BITWISE_OR then Z.lor a b
  else if type =? POFCT_BITWISE_XOR then Z.lxor a b else Z.lnot (Z.lor a b).

Lemma u32_mod_pow x n : 0 <= n <= 32 -> u32 x mod 2 ^ n = x mod 2 ^ n.
Proof.
  intros. unfold u32. apply Z.bits_inj'. intros k Hk. destruct (Z.ltb_spec k n).
  - rewrite !Z.mod_pow2_bits_low by lia. change 4294967296 with (2 ^ 32). now rewrite Z.mod_pow2_bits_low by lia.
  - now rewrite !Z.mod_pow2_bits_high by lia.
Qed.

Lemma calculate_ok type a b : 0 <= type <= 7 -> 0 <= b ->
  (type = POFCT_LEFT_SHIFT \/ type = POFCT_RIGHT_SHIFT -> b < 32) ->
  exists r, calculate type a b = Some (Some r) /\ forall n, 0 <= n <= 32 -> r mod 2 ^ n = calc_spec type a b mod 2 ^ n.
Proof.
  intros Ht Hb Hs.
  assert (type = 0 \/ type = 1 \/ type = 2 \/ type = 3 \/ type = 4 \/ type = 5 \/ type = 6 \/ type = 7) as T by lia.
  destruct T as [-> | [-> | [-> | [-> | [-> | [-> | [-> | ->]]]]]]];
    try (eexists; split; [reflexivity|]; intros n Hn; first [now apply u32_mod_pow | reflexivity]).
  - exists (u32 (Z.shiftl a b)). unfold calculate, calculate_LEFT_SHIFT. rewrite (proj2 (Z.leb_gt 32 b)) by auto.
    split; [reflexivity|]. intros n Hn. rewrite Z.shiftl_mul_pow2 by lia. now apply u32_mod_pow.
  - exists (Z.shiftr a b). unfold calculate, calculate_RIGHT_SHIFT. rewrite (proj2 (Z.leb_gt 32 b)) by auto.
    split; [reflexivity|]. intros n Hn. now rewrite Z.shiftr_div_pow2 by lia.
Qed.

Lemma read_match_drop d n : read_match (drop n d) 0 = read_match d n.
Proof. unfold read_match, fld. now rewrite !drop_drop, !Nat.add_0_l, Nat.add_0_r. Qed.

(** C27. CALCULATE_FIELD replaces the destination field, whether of the packet
    or of the metadata, by the operation of its type on the field and the
    operand (immediate or another field), modulo the width of the field, and
    changes no other bit. *)
Theorem calculate_field_sets s e (p : pof_instruction) :
  let d := instruction_data p in
  let dst := read_match d 8 in
  packet_ok s -> cur_ins s = Some p -> 0 <= fld d 0 2 <= 7 -> field_ok dst s ->
  writable (field_mem dst s) 4 (m_offset dst) (m_len dst) -> operand_ok (fld d 2 1) (drop 16 d) s ->
  0 <= operand_of (fld d 2 1) (drop 16 d) s ->
  (fld d 0 2 = POFCT_LEFT_SHIFT \/ fld d 0 2 = POFCT_RIGHT_SHIFT -> operand_of (fld d 2 1) (drop 16 d) s < 32) ->
  exists b, execute_CALCULATE_FIELD s e = Some ((POF_OK, instruction_update (with_field_mem dst b s)), e) /\
    packet_ok (with_field_mem dst b s) /\
    field_set (field_mem dst s) b (m_offset dst) (m_len dst)
      (calc_spec (fld d 0 2) (field_of dst s) (operand_of (fld d 2 1) (drop 16 d) s)).
Proof.
  intros d dst P Hp Ht Hf Hw Ho H0 Hs. unfold execute_CALCULATE_FIELD. rewrite Hp. cbn [lift]. rewrite run_bind.
  cbn [lift]. fold d. unfold checked at 1. rewrite run_bind.
  assert (pofdp_get_32value POFVT_FIELD (drop 8 d) s e = Some ((POF_OK, field_of dst s), e)) as ->.
  { unfold pofdp_get_32value. change (POFVT_FIELD =? POFVT_IMMEDIATE_NUM) with false. cbv iota.
    rewrite read_match_drop. now apply get_field_run. }
  change (POF_OK =? POF_OK) with true. cbv iota. unfold checked. rewrite run_bind, operand_run by done.
  change (POF_OK =? POF_OK) with true. cbv iota.
  destruct (calculate_ok (fld d 0 2) (field_of dst s) (operand_of (fld d 2 1) (drop 16 d) s) Ht H0 Hs) as (r & E & Hr).
  rewrite run_bind, E. cbn [lift]. unfold then_. rewrite run_bind.
  destruct Hf as (Hl & Hroom & _). destruct (write_field_run r dst s e P ltac:(lia) Hroom Hw) as (b & Eb & L & B & Hset).
  fold dst. rewrite Eb. change (POF_OK =? POF_OK) with true. cbv iota. exists b. split; [reflexivity|].
  split; [now apply with_field_mem_ok|]. destruct Hset as [S1 S2]. split; [|exact S2]. rewrite S1. apply Hr. lia.
Qed.

(** ** A packet for the witnesses *)

(** 64 bytes received on port 3, nothing moved yet. *)
Definition packet_example (prog : program) (acts : actions) : pst :=
  mkSt (mkPacket 3 64 (mkWindow (zeros 128 ++ (Z.of_nat <$> seq 1 64) ++ zeros 1856) 128 128 0 64)
          (mkOutput 0 0 0 0 0 0 0 (zeros 2048) 0) ([0; 64; 3] ++ zeros 125) 128 0 0 None prog acts false 0)
       (lr_example (res_none 40) (res_none 8) (res_none 8) (res_none 512))
       (mkSur (mkDp (res_none 1) device_example) 9 (zeros 2048) [] []).

Lemma packet_example_ok prog acts : packet_ok (packet_example prog acts).
Proof.
  constructor; try reflexivity; try by_decide.
  constructor; try reflexivity; by_decide.
Qed.

(** *** Witnesses *)

Lemma move_window_witness :
  exists s', movePacketBufOffset 14 (packet_example (mkProgram [] 0 0 0) (mkActions [] 0 0))
      (env_init POFCS_CHANNEL_RUN [] []) = Some ((POF_OK, s'), env_init POFCS_CHANNEL_RUN [] []) /\
    w_offset (dpp_win (dpp s')) = 14.
Proof.
  destruct (move_window 14 (packet_example (mkProgram [] 0 0 0) (mkActions [] 0 0)) (env_init POFCS_CHANNEL_RUN [] []))
    as [M _]; [apply packet_example_ok|apply env_init_ok|repeat split|].
  destruct M as (s' & E & _ & O & _); [split; by_decide|]. exists s'. split; [exact E|exact O].
Defined.

(** Subtract 1 from the 8 bits at bit 64 (a time to live). *)
Definition ttl_instruction : pof_instruction :=
  mkInstruction POFIT_CALCULATE_FIELD 32 ([1; 0; 0; 0; 0; 0; 0; 0] ++ [0; 0; 64; 0; 8; 0; 0; 0] ++ [1; 0; 0; 0] ++ zeros 276).

Lemma calculate_field_sets_witness :
  exists b, execute_CALCULATE_FIELD (packet_example (mkProgram [ttl_instruction] 0 1 0) (mkActions [] 0 0))
      (env_init POFCS_CHANNEL_RUN [] []) = Some ((POF_OK, instruction_update
        (with_field_mem (mkMatch 0 64 8) b (packet_example (mkProgram [ttl_instruction] 0 1 0) (mkActions [] 0 0)))),
        env_init POFCS_CHANNEL_RUN [] []).
Proof.
  destruct (calculate_field_sets (packet_example (mkProgram [ttl_instruction] 0 1 0) (mkActions [] 0 0))
    (env_init POFCS_CHANNEL_RUN [] []) ttl_instruction) as (b & E & _).
  - apply packet_example_ok.
  - reflexivity.
  - by_decide.
  - split; [by_decide|]. split; by_decide.
  - split; [|by_decide]. split; [by_decide|]. split; [by_decide|]. right. by_decide.
  - left. reflexivity.
  - by_decide.
  - intros _. by_decide.
  - exists b. exact E.
Defined.
