(* ===== verification/ActionSpec.v ===== *)
(** * What the actions do to a packet

    Adding and deleting a field at bit granularity, checksums, groups, and the
    end of an action list. *)

From S2P Require Import Prelude Bits Codec Env Tree FlowEntry Hmap IdMap LocalRes ByteTransfer Port Counter Group Slot Parse Packet Action Instruction FieldSpec PacketSpec.

Implicit Types (s : pst) (p : pofdp_packet) (w : window).

(** ** Lists of bits *)

Lemma take_bits_from v n k : forall i, (k <= n)%nat -> take k (bits_from v i n) = bits_from v i k.
Proof.
  intros i Hk. replace n with (k + (n - k))%nat by lia. rewrite bits_from_app, take_app_length'; [done|].
  symmetry. apply length_bits_from.
Qed.

Lemma drop_bits_from v n k : forall i, (k <= n)%nat -> drop k (bits_from v i n) = bits_from v (i + Z.of_nat k) (n - k).
Proof.
  intros i Hk. replace n with (k + (n - k))%nat at 1 by lia. rewrite bits_from_app, drop_app_length'; [done|].
  symmetry. apply length_bits_from.
Qed.

Lemma nth_bits_from v n : forall i k, (k < n)%nat -> nth k (bits_from v i n) false = bit_at v (i + Z.of_nat k).
Proof.
  induction n as [|n IH]; intros i k Hk; [lia|]. destruct k as [|k]; cbn [bits_from nth].
  - f_equal. lia.
  - rewrite IH by lia. f_equal. lia.
Qed.

(** ** The packet length in the metadata *)

Lemma le_2_unle l : bytes_ok l -> length l = 2%nat -> le 2 (unle l) = l.
Proof. intros Hl E. rewrite <- E. now apply le_unle. Qed.

Lemma rel_len_set len p : length (dpp_metadata p) = 128%nat -> bytes_ok (dpp_metadata p) ->
  exists m, POF_PACKET_REL_LEN_SET len p = Some (with_metadata m (dpp_metadata_len p) p) /\
    length m = 128%nat /\ bytes_ok m /\ drop 2 m = drop 2 (dpp_metadata p) /\
    POF_PACKET_REL_LEN_GET (with_metadata m (dpp_metadata_len p) p) = u16 len.
Proof.
  intros Hl Hb. unfold POF_PACKET_REL_LEN_SET, set_fld. rewrite Hl. change (0 + 2 <=? 128)%nat with true. cbv iota.
  cbn [mbind option_bind]. eexists. split; [reflexivity|].
  assert (length (le 2 (POF_NTOHS len)) = 2%nat) as L2 by apply length_le.
  split; [rewrite length_patch; [exact Hl|rewrite L2; lia]|]. split; [apply bytes_ok_patch; auto with pof|].
  unfold patch. rewrite take_0, app_nil_l, L2. split; [now rewrite drop_app_length' by done|].
  unfold POF_PACKET_REL_LEN_GET, fld. cbn [with_metadata dpp_metadata].
  rewrite drop_0, take_app_length' by done. rewrite !POF_NTOHS_rev, !le_2_unle by auto with pof.
  rewrite rev_involutive, unle_le. unfold u16. change (256 ^ Z.of_nat 2) with 65536. now rewrite Z.mod_mod by lia.
Qed.

(** ** Adding a field *)

(** A tag of [len] bits can be inserted at bit [pos] of the packet: before its
    last bit, in whole-byte steps or inside one byte, with room behind the
    packet, whose end lies behind its start. *)
Record addable w (pos len : Z) (tag : list Z) : Prop := {
  ad_pos : pos < 8 * w_left w;
  ad_tag : coverable pos len;
  ad_rest : coverable (pos + len) (8 * w_left w - pos);
  ad_len : len <= 128;
  ad_bytes : bytes_ok tag;
  ad_value : value_room tag pos len;
  ad_tail : tail_zero tag len;
  ad_room : w_cur w + w_left w + (len + 7) / 8 <= 2048;
  ad_end : 0 <= w_offset w + w_left w      (* the packet ends behind its start *)
}.

(** The memory after the insertion of [len] bits of [tag] at [pos] in front of
    the last [8 * left - pos] bits. *)
Definition inserted (mem tag : list Z) (pos len left : Z) (mem' : list Z) : Prop :=
  length mem' = length mem /\ bytes_ok mem' /\
  forall i, 0 <= i -> bit_at mem' i =
    if i <? pos then bit_at mem i
    else if i <? pos + len then bit_at tag (i - pos)
    else if i <? 8 * left + len then bit_at mem (i - len) else bit_at mem i.

Lemma insert_bits w stack pos len tag : window_ok w -> bytes_ok stack -> length stack = 2048%nat ->
  addable w pos len tag ->
  exists behind m1 m2, pofbf_copy_bit (win_mem w) stack 0 pos (8 * w_left w - pos) = Some behind /\
    pofbf_cover_bit (win_mem w) tag pos len = Some m1 /\
    pofbf_cover_bit m1 behind (pos + len) (8 * w_left w - pos) = Some m2 /\
    inserted (win_mem w) tag pos len (w_left w) m2.
Proof.
  intros W Hs Ls []. pose proof (win_mem_len w W) as Lm. pose proof (win_mem_bytes w W) as Bm.
  destruct W as [_ _ _ _ Hlow Hleft Hhigh]. set (mem := win_mem w) in *. set (L := w_left w) in *.
  destruct ad_tag0 as (Hp & Hl & Hx), ad_rest0 as (Hp2 & Hl2 & Hx2).
  destruct (copy_bit_ok mem stack 0 pos (8 * L - pos)) as (bh & E1 & L1 & B1 & S1); auto; try (unfold blen; lia).
  { rewrite Lm. lia. }
  destruct (cover_bit_ok mem tag pos len) as (m1 & E2 & L2 & B2 & S2); auto; try (split; auto; fail).
  { rewrite Lm. lia. }
  assert (blen m1 = blen mem) as Lm1 by (unfold blen; now rewrite L2).
  assert (forall i, 0 <= i < 8 * ((8 * L - pos + 7) / 8) -> bit_at bh i = (i <? 8 * L - pos) && bit_at mem (pos + i)) as S1'.
  { intros i Hi. rewrite S1 by lia. rewrite Z.mul_0_r, Z.add_0_l, Z.sub_0_r. zcases; reflexivity. }
  destruct (cover_bit_ok m1 bh (pos + len) (8 * L - pos)) as (m2 & E3 & L3 & B3 & S3); auto.
  { split; auto. }
  { rewrite Lm1, Lm. lia. }
  { unfold value_room, blen. rewrite L1, Ls. lia. }
  { intros i Hi. rewrite S1' by lia. zcases; reflexivity. }
  exists bh, m1, m2. split; [exact E1|]. split; [exact E2|]. split; [exact E3|].
  split; [now rewrite L3|]. split; [exact B3|]. intros i Hi. rewrite S3 by lia.
  destruct (Z.ltb_spec i pos); [zcases; rewrite S2 by lia; zcases; reflexivity|].
  destruct (Z.ltb_spec i (pos + len)); [zcases; rewrite S2 by lia; zcases; f_equal; lia|].
  destruct (Z.ltb_spec i (8 * L + len)).
  - zcases. rewrite S1' by lia. zcases. cbn [andb]. f_equal. lia.
  - zcases. rewrite S2 by lia. zcases; reflexivity.
Qed.

(** The window after it. *)
Definition grown w mem' k : window :=
  mkWindow (take (Z.to_nat (w_cur w)) (w_buf w) ++ mem') (w_base w) (w_cur w) (w_offset w) (w_left w + k).

Lemma grown_ok w mem' k : window_ok w -> length mem' = length (win_mem w) -> bytes_ok mem' ->
  0 <= w_left w + k -> w_cur w + w_left w + k <= 2048 -> window_ok (grown w mem' k).
Proof.
  intros W Hl Hb Hk Hr. destruct (rewin_ok w mem' W Hl Hb). constructor; auto. cbn [grown w_cur w_left]. lia.
Qed.

(** Packet and metadata replaced, everything else as it was. *)
Definition repacked w m s : pst := upd (fun p => with_metadata m (dpp_metadata_len p) (with_win w p)) s.

Lemma repacked_ok w m s : packet_ok s -> window_ok w -> length m = 128%nat -> bytes_ok m -> packet_ok (repacked w m s).
Proof. intros [] W Hl Hb. now constructor. Qed.

Lemma ceil32_small n : 0 <= n < 4294967289 -> ceil32 n = (n + 7) / 8.
Proof. intros. unfold ceil32. now rewrite u32_small by lia. Qed.

Lemma insert_tag_run pos len tag s e : packet_ok s -> addable (dpp_win (dpp s)) pos len tag ->
  let w := dpp_win (dpp s) in
  let k := (len + 7) / 8 in
  exists mem' m, insertTagToPacket pos len tag s e = Some ((POF_OK, repacked (grown w mem' k) m s), e) /\
    inserted (win_mem w) tag pos len (w_left w) mem' /\ packet_ok (repacked (grown w mem' k) m s) /\
    drop 2 m = drop 2 (dpp_metadata (dpp s)) /\
    POF_PACKET_REL_LEN_GET (dpp (repacked (grown w mem' k) m s)) = u16 (POF_PACKET_REL_LEN_GET (dpp s) + k).
Proof.
  intros P A w k. pose proof (pk_win _ P) as W. fold w in W, A.
  destruct (insert_bits w (s_stack (sur s)) pos len tag W (pk_stackb _ P) (pk_stack _ P) A)
    as (bh & m1 & m2 & E1 & E2 & E3 & I).
  destruct A as [A1 (A2 & A3 & _) (A4 & A5 & _) A6 _ _ _ A9 A10]. pose proof W as [_ _ Wb Wc Wl Wf Wh].
  unfold POFDP_PACKET_PREBUF_LEN in Wb.
  assert (ceil32 len = k) as Hk by (apply ceil32_small; lia).
  unfold insertTagToPacket. fold w. rewrite Hk.
  assert (u32 (w_left w * 8 - pos) = 8 * w_left w - pos) as -> by (rewrite u32_small; lia).
  rewrite (proj2 (Z.ltb_ge POFDP_PACKET_RAW_MAX_LEN _)) by (unfold POFDP_PACKET_RAW_MAX_LEN, k in *; unfold u32; lia).
  rewrite (proj2 (Z.ltb_ge _ 0)) by lia. cbn [orb].
  rewrite (u16_small pos), (u16_small (8 * w_left w - pos)), (u16_small len), (u16_small (pos + len)) by lia.
  fold (win_mem w). rewrite run_bind, E1. cbn [lift]. rewrite run_bind.
  rewrite (at_window_run _ s m2 (pk_win _ P)) by (fold w; rewrite E2; exact E3). cbn [lift]. fold w.
  rewrite run_bind. cbn [upd dpp with_win dpp_win w_buf w_base w_cur w_offset w_left].
  replace (i32 (w_left w + k)) with (w_left w + k) by (unfold i32, k; lia).
  unfold POF_PACKET_REL_LEN_INC.
  match goal with |- context [POF_PACKET_REL_LEN_SET ?l ?q] =>
    destruct (rel_len_set l q) as (m & Em & Lm & Bm & Dm & Gm) end; [apply P|apply P|].
  rewrite Em. cbn [lift]. exists m2, m. split; [reflexivity|]. split; [exact I|].
  split; [|split; [exact Dm|exact Gm]]. destruct I as (L2 & B2 & _).
  apply repacked_ok; auto. apply grown_ok; auto; unfold k; lia.
Qed.

Lemma inserted_bits mem tag pos len left mem' : 0 <= pos <= 8 * left -> 0 <= len -> inserted mem tag pos len left mem' ->
  bits_from mem' 0 (Z.to_nat (8 * left + len)) =
  bits_from mem 0 (Z.to_nat pos) ++ bits_from tag 0 (Z.to_nat len) ++ bits_from mem pos (Z.to_nat (8 * left - pos)).
Proof.
  intros Hp Hl (_ & _ & H).
  replace (Z.to_nat (8 * left + len)) with (Z.to_nat pos + (Z.to_nat len + Z.to_nat (8 * left - pos)))%nat by lia.
  rewrite !bits_from_app. f_equal; [|f_equal]; apply bits_from_ext; intros q Hq; rewrite H by lia.
  - zcases. reflexivity.
  - zcases. f_equal. lia.
  - zcases. f_equal. lia.
Qed.

(** The rest of the state an action on the packet's bytes keeps. *)
Definition kept s s' : Prop :=
  lr s' = lr s /\ sur s' = sur s /\ dpp_prog (dpp s') = dpp_prog (dpp s) /\ dpp_acts (dpp s') = dpp_acts (dpp s) /\
  drop 2 (dpp_metadata (dpp s')) = drop 2 (dpp_metadata (dpp s)) /\
  dpp_packet_done (dpp s') = dpp_packet_done (dpp s) /\
  w_cur (dpp_win (dpp s')) = w_cur (dpp_win (dpp s)) /\ w_offset (dpp_win (dpp s')) = w_offset (dpp_win (dpp s)).

Lemma add_field_run s e (a : pof_action) : packet_ok s -> cur_action s = Some a ->
  let d := action_data a in
  let pos := fld d 2 2 in
  let len := fld d 4 4 in
  let w := dpp_win (dpp s) in
  addable w pos len (drop 8 d) ->
  exists s', execute_ADD_FIELD s e = Some ((POF_OK, action_update s'), e) /\ packet_ok s' /\ kept s s' /\
    w_left (dpp_win (dpp s')) = w_left w + (len + 7) / 8 /\
    take (Z.to_nat (8 * w_left w + len)) (packet_bits (dpp_win (dpp s'))) =
      take (Z.to_nat pos) (packet_bits w) ++ bits_from (drop 8 d) 0 (Z.to_nat len) ++
      drop (Z.to_nat pos) (packet_bits w) /\
    POF_PACKET_REL_LEN_GET (dpp s') = u16 (POF_PACKET_REL_LEN_GET (dpp s) + (len + 7) / 8).
Proof.
  intros P Ha d pos len w A. destruct (insert_tag_run pos len (drop 8 d) s e P A) as (mem' & m & E & I & P' & Dm & Gm).
  pose proof (pk_win _ P) as W. fold w in E, I, P', Gm, W.
  unfold execute_ADD_FIELD. rewrite run_bind, Ha. cbn [lift]. fold d pos len.
  destruct A as [A1 (A2 & A3 & _) (A4 & A5 & _) A6 _ _ _ A9 _]. rewrite (proj2 (Z.ltb_ge 128 len)) by lia.
  unfold then_. rewrite run_bind, E. change (POF_OK =? POF_OK) with true. cbv iota.
  eexists. split; [reflexivity|]. split; [exact P'|].
  split; [unfold kept, repacked, grown; cbn; auto 10|]. split; [reflexivity|]. split; [|exact Gm].
  unfold packet_bits. cbn [repacked upd dpp with_metadata with_win dpp_win grown w_left].
  unfold win_mem at 1. cbn [grown w_cur w_buf]. fold w.
  rewrite drop_app_length' by (destruct W; rewrite length_take; lia).
  pose proof I as (L' & _ & _). rewrite !take_bits_from, drop_bits_from by lia.
  rewrite (inserted_bits (win_mem w) (drop 8 d) pos len (w_left w) mem') by (auto; lia).
  do 3 f_equal; lia.
Qed.

(** C24. ADD_FIELD inserts the tag into the packet at bit granularity: in front
    of the bits from the position on, the bits before it as they were; the
    window grows by the bytes of the tag, and so does the packet length kept in
    the metadata; nothing else of the packet, the slot or the surroundings
    changes. *)
Theorem add_field_inserts s e (a : pof_action) : packet_ok s -> cur_action s = Some a ->
  let d := action_data a in
  let pos := fld d 2 2 in
  let len := fld d 4 4 in
  let w := dpp_win (dpp s) in
  addable w pos len (drop 8 d) -> len mod 8 = 0 ->
  exists s', execute_ADD_FIELD s e = Some ((POF_OK, action_update s'), e) /\ packet_ok s' /\ kept s s' /\
    packet_bits (dpp_win (dpp s')) =
      take (Z.to_nat pos) (packet_bits w) ++ bits_from (drop 8 d) 0 (Z.to_nat len) ++
      drop (Z.to_nat pos) (packet_bits w) /\
    POF_PACKET_REL_LEN_GET (dpp s') = u16 (POF_PACKET_REL_LEN_GET (dpp s) + len / 8).
Proof.
  intros P Ha d pos len w A H8. destruct (add_field_run s e a P Ha A) as (s' & E & P' & K & L & B & G).
  exists s'. split; [exact E|]. split; [exact P'|]. split; [exact K|]. fold d pos len w in L, B, G.
  destruct A as [A1 _ (A4 & A5 & _) A6 _ _ _ _ _].
  split; [|rewrite G; f_equal; lia]. rewrite <- B. rewrite take_ge; [done|].
  unfold packet_bits. rewrite length_bits_from, L. lia.
Qed.

(** ** Deleting a field *)

(** The [len] bits at [pos] can be cut out of the packet. *)
Record deletable w (pos len : Z) : Prop := {
  de_len : 1 <= len;
  de_rest : coverable pos (8 * w_left w - (pos + len));
  de_size : 8 * w_left w < 32768;
  de_room : w_cur w + w_left w < 2048
}.

(** The memory afterwards: the bits behind the field moved down, the rest of
    their last byte cleared. *)
Definition deleted (mem : list Z) (pos len left : Z) (mem' : list Z) : Prop :=
  length mem' = length mem /\ bytes_ok mem' /\
  forall i, 0 <= i < 8 * ((8 * left - len + 7) / 8) -> bit_at mem' i =
    if i <? pos then bit_at mem i else if i <? 8 * left - len then bit_at mem (i + len) else false.

Lemma delete_bits w pos len : window_ok w -> deletable w pos len ->
  exists tmp m1, pofbf_copy_bit (win_mem w) (zeros 2048) 0 (pos + len) (8 * w_left w - (pos + len)) = Some tmp /\
    pofbf_cover_bit (win_mem w) tmp pos (8 * w_left w - (pos + len)) = Some m1 /\
    length m1 = length (win_mem w) /\ bytes_ok m1 /\
    forall i, 0 <= i -> bit_at m1 i =
      if i <? pos then bit_at (win_mem w) i
      else if i <? 8 * w_left w - len then bit_at (win_mem w) (i + len) else bit_at (win_mem w) i.
Proof.
  intros W []. pose proof (win_mem_len w W) as Lm. pose proof (win_mem_bytes w W) as Bm.
  destruct W as [_ _ _ _ Hlow Hleft Hhigh]. set (mem := win_mem w) in *. set (L := w_left w) in *.
  destruct de_rest0 as (Hp & Hl & Hx). assert (length (zeros 2048) = 2048%nat) as Lz by apply length_replicate.
  destruct (copy_bit_ok mem (zeros 2048) 0 (pos + len) (8 * L - (pos + len))) as (tmp & E1 & L1 & B1 & S1); auto; try lia.
  { apply zeros_ok. }
  { unfold blen. rewrite Lz. lia. }
  rewrite Lz in L1.
  assert (forall i, 0 <= i < 8 * ((8 * L - (pos + len) + 7) / 8) ->
    bit_at tmp i = (i <? 8 * L - (pos + len)) && bit_at mem (pos + len + i)) as S1'.
  { intros i Hi. rewrite S1 by lia. rewrite Z.mul_0_r, Z.add_0_l, Z.sub_0_r. zcases; reflexivity. }
  destruct (cover_bit_ok mem tmp pos (8 * L - (pos + len))) as (m1 & E2 & L2 & B2 & S2); auto.
  { split; auto. }
  { rewrite Lm. lia. }
  { unfold value_room, blen. rewrite L1. lia. }
  { intros i Hi. rewrite S1' by lia. zcases; reflexivity. }
  exists tmp, m1. split; [exact E1|]. split; [exact E2|]. split; [exact L2|]. split; [exact B2|].
  intros i Hi. rewrite S2 by lia. zcases; try reflexivity. rewrite S1' by lia. zcases. cbn [andb]. f_equal. lia.
Qed.

Lemma land_byte_ok a b : byte_ok a -> byte_ok (Z.land a b).
Proof.
  intros Ha. assert (Z.land a b = u8 (Z.land a b)) as ->; [|apply u8_byte_ok].
  apply Z.bits_inj'. intros j Hj. rewrite testbit_u8, Z.land_spec by lia.
  destruct (Z.ltb_spec j 8); [reflexivity|]. rewrite (byte_testbit_high a j) by auto. reflexivity.
Qed.

Lemma clear_tail mem k x : bytes_ok mem -> 0 <= k < blen mem -> 1 <= x < 8 ->
  exists v mem', rd mem k = Some v /\ wr mem k (Z.land v (u8 (Z.shiftl 0xff x))) = Some mem' /\
    length mem' = length mem /\ bytes_ok mem' /\
    forall i, 0 <= i -> bit_at mem' i = if (8 * k + 8 - x <=? i) && (i <? 8 * k + 8) then false else bit_at mem i.
Proof.
  intros Hb Hk Hx. exists (byte_at mem k). rewrite rd_in by lia. rewrite wr_in by lia. eexists.
  split; [reflexivity|]. split; [reflexivity|]. split; [apply length_insert|]. split.
  - apply bytes_ok_insert; [done|]. apply land_byte_ok. auto with pof.
  - intros i Hi. rewrite bit_at_insert by lia.
    destruct ((8 * k <=? i) && (i <? 8 * k + 8)) eqn:C.
    + rewrite Z.land_spec, testbit_u8, Z.shiftl_spec, testbit_255 by lia.
      assert (bit_at mem i = Z.testbit (byte_at mem k) (7 - (i - 8 * k))) as ->.
      { unfold bit_at. replace (i / 8) with k by lia. f_equal. lia. }
      zcases; rewrite ?andb_true_r, ?andb_false_r; reflexivity.
    + zcases; try reflexivity; lia.
Qed.

(** Moving the bits down and clearing the tail, as the action does them. *)
Lemma delete_mem w pos len : window_ok w -> deletable w pos len -> len < 8 * w_left w ->
  exists tmp m1 m2, pofbf_copy_bit (win_mem w) (zeros 2048) 0 (pos + len) (8 * w_left w - (pos + len)) = Some tmp /\
    pofbf_cover_bit (win_mem w) tmp pos (8 * w_left w - (pos + len)) = Some m1 /\ length m1 = length (win_mem w) /\
    bytes_ok m1 /\
    (if len mod 8 =? 0 then m2 = m1
     else exists v, rd m1 ((8 * w_left w - len + 7) / 8 - 1) = Some v /\
       wr m1 ((8 * w_left w - len + 7) / 8 - 1) (Z.land v (u8 (Z.shiftl 0xff (len mod 8)))) = Some m2) /\
    deleted (win_mem w) pos len (w_left w) m2.
Proof.
  intros W D Hl. destruct (delete_bits w pos len W D) as (tmp & m1 & E1 & E2 & L1 & B1 & S1).
  pose proof (win_mem_len w W) as Lm. destruct D as [D1 (D2 & D3 & _) D4 D5]. destruct W as [_ _ _ _ Wl Wf Wh].
  exists tmp, m1. destruct (Z.eqb_spec (len mod 8) 0) as [H8|H8].
  - exists m1. split; [exact E1|]. split; [exact E2|]. split; [exact L1|]. split; [exact B1|]. split; [reflexivity|].
    split; [exact L1|]. split; [exact B1|]. intros i Hi. rewrite S1 by lia. zcases; try reflexivity; lia.
  - destruct (clear_tail m1 ((8 * w_left w - len + 7) / 8 - 1) (len mod 8) B1) as (v & m2 & R & Wr & L2 & B2 & S2); [|lia|].
    { unfold blen in *. rewrite L1. lia. }
    exists m2. split; [exact E1|]. split; [exact E2|]. split; [exact L1|]. split; [exact B1|]. split; [eauto|].
    split; [congruence|]. split; [exact B2|]. intros i Hi. rewrite S2 by lia.
    zcases; try reflexivity; try lia; rewrite S1 by lia; zcases; reflexivity.
Qed.

Lemma deleted_bits mem pos len left mem' : 0 <= pos -> 0 <= len -> pos + len <= 8 * left -> deleted mem pos len left mem' ->
  bits_from mem' 0 (Z.to_nat (8 * ((8 * left - len + 7) / 8))) =
  bits_from mem 0 (Z.to_nat pos) ++ bits_from mem (pos + len) (Z.to_nat (8 * left - (pos + len))) ++
  replicate (Z.to_nat (len mod 8)) false.
Proof.
  intros Hp Hl Hr (_ & _ & H).
  replace (Z.to_nat (8 * ((8 * left - len + 7) / 8)))
    with (Z.to_nat pos + (Z.to_nat (8 * left - (pos + len)) + Z.to_nat (len mod 8)))%nat by lia.
  rewrite !bits_from_app. f_equal; [|f_equal]; [apply bits_from_ext..|]; try (intros q Hq; rewrite H by lia).
  - zcases. reflexivity.
  - zcases. f_equal. lia.
  - apply (nth_ext _ _ false false); [now rewrite length_bits_from, length_replicate|].
    intros n Hn. rewrite length_bits_from in Hn. rewrite nth_bits_from by lia. rewrite H by lia.
    rewrite nth_lookup, lookup_replicate_2 by lia. cbn. zcases; try reflexivity; lia.
Qed.

(** The window with new memory and a new length. *)
Definition resized w mem' n : window :=
  mkWindow (take (Z.to_nat (w_cur w)) (w_buf w) ++ mem') (w_base w) (w_cur w) (w_offset w) n.

Lemma resized_ok w mem' n : window_ok w -> length mem' = length (win_mem w) -> bytes_ok mem' ->
  0 <= n <= w_left w -> window_ok (resized w mem' n).
Proof. intros W Hl Hb Hn. destruct (rewin_ok w mem' W Hl Hb). constructor; auto; cbn [resized w_cur w_left] in *; [lia|]. destruct W. cbn in *. lia. Qed.

Lemma resized_mem w mem' n : window_ok w -> win_mem (resized w mem' n) = mem'.
Proof. intros W. exact (rewin_mem w mem' W). Qed.

Lemma clear_run w m1 m2 m n x s : window_ok w -> length m1 = length (win_mem w) -> bytes_ok m1 -> 0 <= n <= w_left w ->
  (if x =? 0 then m2 = m1
   else exists v, rd m1 (n - 1) = Some v /\ wr m1 (n - 1) (Z.land v (u8 (Z.shiftl 0xff x))) = Some m2) ->
  (if x =? 0 then Some (repacked (resized w m1 n) m s)
   else at_window (fun b => v ← rd b (n - 1); wr b (n - 1) (Z.land v (u8 (Z.shiftl 0xff x)))) (repacked (resized w m1 n) m s))
  = Some (repacked (resized w m2 n) m s).
Proof.
  intros W L1 B1 Hn H. destruct (x =? 0); [now rewrite H|]. destruct H as (v & R & Wr).
  rewrite (at_window_run _ _ m2); [|now apply resized_ok|].
  - unfold repacked, resized, upd. cbn. do 4 f_equal.
    rewrite take_app_length'; [done|]. destruct W. rewrite length_take. lia.
  - cbn [repacked upd dpp with_metadata with_win dpp_win]. rewrite resized_mem by done. rewrite R. exact Wr.
Qed.

Lemma delete_field_run s e (a : pof_action) : packet_ok s -> cur_action s = Some a ->
  let d := action_data a in
  let pos := fld d 0 2 in
  let len := operand_of (fld d 2 1) (drop 8 d) s in
  let w := dpp_win (dpp s) in
  let n := (8 * w_left w - len + 7) / 8 in
  operand_ok (fld d 2 1) (drop 8 d) s -> deletable w pos len ->
  exists mem' m, execute_DELETE_FIELD s e = Some ((POF_OK, action_update (repacked (resized w mem' n) m s)), e) /\
    deleted (win_mem w) pos len (w_left w) mem' /\ packet_ok (repacked (resized w mem' n) m s) /\
    drop 2 m = drop 2 (dpp_metadata (dpp s)) /\
    POF_PACKET_REL_LEN_GET (dpp (repacked (resized w mem' n) m s)) = u16 (POF_PACKET_REL_LEN_GET (dpp s) - u8 (len / 8)).
Proof.
  intros P Ha d pos len w n Ho D. pose proof (pk_win _ P) as W. fold w in W.
  assert (len < 8 * w_left w) as Hl by (destruct D as [? (? & ? & _) ? ?]; lia).
  destruct (delete_mem w pos len W D Hl) as (tmp & m1 & m2 & E1 & E2 & L1 & B1 & Em & Hd).
  destruct D as [D1 (D2 & D3 & _) D4 D5].
  unfold execute_DELETE_FIELD. rewrite run_bind, Ha. cbn [lift]. fold d. unfold checked. rewrite run_bind, operand_run by done.
  fold len. change (POF_OK =? POF_OK) with true. cbv iota. fold w pos.
  assert (u16 (w_left w * 8 - (pos + len)) = 8 * w_left w - (pos + len)) as -> by (rewrite u16_small; lia).
  rewrite (proj2 (Z.ltb_ge (i16 _) 0)) by (unfold i16; lia). rewrite (u16_small (pos + len)) by lia.
  fold (win_mem w). rewrite run_bind, E1. cbn [lift]. rewrite run_bind.
  rewrite (at_window_run _ s m1 (pk_win _ P)) by exact E2. cbn [lift]. fold w.
  cbn [upd dpp with_win dpp_win w_buf w_base w_cur w_offset w_left].
  assert (i32 (ceil32 (u32 (w_left w * 8 - len))) = n) as ->.
  { rewrite (u32_small (w_left w * 8 - len)) by lia. rewrite ceil32_small by lia. unfold i32, n.
    replace (w_left w * 8 - len) with (8 * w_left w - len) by lia. lia. }
  unfold POF_PACKET_REL_LEN_DEC. rewrite run_bind.
  match goal with |- context [POF_PACKET_REL_LEN_SET ?l ?q] =>
    destruct (rel_len_set l q) as (m & Emd & Lm & Bm & Dm & Gm) end; [apply P|apply P|].
  rewrite Emd. cbn [lift]. rewrite run_bind.
  pose proof (clear_run w m1 m2 m n (len mod 8) s W L1 B1 ltac:(unfold n; lia) Em) as Ec.
  match goal with |- context [lift ?o _] => replace o with (Some (repacked (resized w m2 n) m s)) end.
  cbn [lift]. exists m2, m. split; [reflexivity|]. split; [exact Hd|].
  split; [|split; [exact Dm|exact Gm]]. destruct Hd as (L2 & B2 & _).
  apply repacked_ok; auto. apply resized_ok; auto. unfold n; lia.
Qed.

Lemma deleted_packet_bits w pos len mem' : window_ok w -> deletable w pos len ->
  deleted (win_mem w) pos len (w_left w) mem' ->
  packet_bits (resized w mem' ((8 * w_left w - len + 7) / 8)) =
  take (Z.to_nat pos) (packet_bits w) ++ drop (Z.to_nat (pos + len)) (packet_bits w) ++
  replicate (Z.to_nat (len mod 8)) false.
Proof.
  intros W [D1 (D2 & D3 & _) _ _] Hd. unfold packet_bits. rewrite resized_mem by done. cbn [resized w_left].
  rewrite (deleted_bits (win_mem w) pos len (w_left w)) by (auto; lia).
  rewrite take_bits_from, drop_bits_from by lia. do 3 f_equal; lia.
Qed.

(** C25. DELETE_FIELD cuts the bits of the field out of the packet: the bits
    behind it move down, the rest of the last byte is cleared, and nothing
    outside the packet's bytes and its recorded length changes. *)
Theorem delete_field_cuts s e (a : pof_action) : packet_ok s -> cur_action s = Some a ->
  let d := action_data a in
  let pos := fld d 0 2 in
  let len := operand_of (fld d 2 1) (drop 8 d) s in
  let w := dpp_win (dpp s) in
  operand_ok (fld d 2 1) (drop 8 d) s -> deletable w pos len ->
  exists s', execute_DELETE_FIELD s e = Some ((POF_OK, action_update s'), e) /\ packet_ok s' /\ kept s s' /\
    packet_bits (dpp_win (dpp s')) =
      take (Z.to_nat pos) (packet_bits w) ++ drop (Z.to_nat (pos + len)) (packet_bits w) ++
      replicate (Z.to_nat (len mod 8)) false.
Proof.
  intros P Ha d pos len w Ho D.
  destruct (delete_field_run s e a P Ha Ho D) as (mem' & m & E & Hd & P' & Dm & _).
  eexists. split; [exact E|]. split; [exact P'|]. split; [unfold kept, repacked, resized; cbn; auto 10|].
  exact (deleted_packet_bits w pos len mem' (pk_win _ P) D Hd).
Qed.

Lemma action_update_ok s : packet_ok s -> packet_ok (action_update s).
Proof. intros []. now constructor. Qed.


(** ** Witnesses *)

(** A VLAN tag of 32 bits behind the addresses, put in and taken out. *)
Definition push_tag : pof_action :=
  mkAction POFAT_ADD_FIELD 28 ([0; 0; 96; 0; 32; 0; 0; 0] ++ [129; 0; 0; 5] ++ zeros 32).
Definition pop_tag : pof_action :=
  mkAction POFAT_DELETE_FIELD 20 ([96; 0; 0; 0; 0; 0; 0; 0] ++ [32; 0; 0; 0] ++ zeros 32).
Definition tag_example (acts : list pof_action) (n : Z) : pst := packet_example (mkProgram [] 0 0 0) (mkActions acts 0 n).

Ltac coverable_here := split; [by_decide|]; split; [by_decide|]; right; by_decide.

Lemma push_addable acts n : addable (dpp_win (dpp (tag_example acts n))) 96 32 (drop 8 (action_data push_tag)).
Proof.
  constructor; first [by_decide | coverable_here | (red; by_decide) | (intros i; change (8 * ((32 + 7) / 8)) with 32; lia)].
Qed.

Lemma add_field_inserts_witness :
  exists s', execute_ADD_FIELD (tag_example [push_tag] 1) (env_init POFCS_CHANNEL_RUN [] []) =
      Some ((POF_OK, action_update s'), env_init POFCS_CHANNEL_RUN [] []) /\
    POF_PACKET_REL_LEN_GET (dpp s') = 68.
Proof.
  destruct (add_field_inserts (tag_example [push_tag] 1) (env_init POFCS_CHANNEL_RUN [] []) push_tag) as (s' & E & _ & _ & _ & G).
  - apply packet_example_ok.
  - reflexivity.
  - exact (push_addable _ _).
  - reflexivity.
  - exists s'. split; [exact E|]. rewrite G. vm_compute. reflexivity.
Defined.

Lemma delete_field_cuts_witness :
  exists s', execute_DELETE_FIELD (tag_example [pop_tag] 1) (env_init POFCS_CHANNEL_RUN [] []) =
      Some ((POF_OK, action_update s'), env_init POFCS_CHANNEL_RUN [] []) /\ packet_ok s'.
Proof.
  destruct (delete_field_cuts (tag_example [pop_tag] 1) (env_init POFCS_CHANNEL_RUN [] []) pop_tag) as (s' & E & P & _).
  - apply packet_example_ok.
  - reflexivity.
  - left. reflexivity.
  - constructor; first [by_decide | coverable_here].
  - exists s'. split; [exact E|exact P].
Defined.

