(* ===== verification/ChecksumSpec.v ===== *)
(** * The checksum action

    CALCULATE_CHECKSUM stores the one's complement sum of the complemented
    words of a piece of the packet or of the metadata.  Verified the usual way:
    afterwards the words of the piece, checksum included, add up to 0 modulo
    [2 ^ len - 1]. *)

From S2P Require Import Prelude Bits Codec Env Tree FlowEntry LocalRes ByteTransfer Parse Packet Action FieldSpec PacketSpec ActionSpec.

Implicit Types (s : pst) (w : window).

(** Word [i] of [len] bits behind bit [pos], and the sum of [n] words. *)
Definition word (mem : list Z) (pos len i : Z) : Z := field_value mem (pos + i * len) len.

Fixpoint words_sum (mem : list Z) (pos len i : Z) (n : nat) : Z :=
  match n with O => 0 | S n' => word mem pos len i + words_sum mem pos len (i + 1) n' end.

(** ** One word of the loop *)

Lemma complement_word src off len dt : 0 <= off -> 1 <= len <= 63 -> length dt = 8%nat -> bytes_ok dt ->
  (forall i, 0 <= i < len -> bit_at dt i = bit_at src (off + i)) ->
  Z.shiftr (u64 (Z.lnot (POF_NTOH64 (fld dt 0 8)))) (64 - len) = 2 ^ len - 1 - field_value src off len.
Proof.
  intros Ho Hl Ld Bd H. pose proof (field_value_bound src off len ltac:(lia)) as Fb.
  assert (POF_NTOH64 (fld dt 0 8) = unle (rev dt)) as ->.
  { rewrite POF_NTOH64_rev. unfold fld. rewrite drop_0, take_ge by lia. do 2 f_equal. rewrite <- Ld at 1. now apply le_unle. }
  assert (2 ^ len - 1 - field_value src off len = Z.ldiff (Z.ones len) (field_value src off len)) as ->.
  { rewrite Z.ones_equiv. replace (2 ^ len - 1) with (Z.pred (2 ^ len)) by lia. apply Z.sub_nocarry_ldiff.
    apply Z.bits_inj'. intros k Hk. rewrite Z.ldiff_spec, Z.bits_0, <- Z.ones_equiv, Z.testbit_ones_nonneg by lia.
    rewrite field_value_bit by lia. zcases; rewrite ?andb_false_l, ?andb_true_r, ?andb_false_r; reflexivity. }
  apply Z.bits_inj'. intros k Hk. rewrite Z.shiftr_spec, Z.ldiff_spec, Z.testbit_ones_nonneg, field_value_bit by lia.
  unfold u64. change 18446744073709551616 with (2 ^ 64).
  destruct (Z.ltb_spec k len); cbn [andb negb].
  - rewrite Z.mod_pow2_bits_low, Z.lnot_spec by lia.
    rewrite testbit_unle_rev by (auto; unfold blen; lia). unfold blen. rewrite Ld, H by lia. do 2 f_equal. lia.
  - apply Z.mod_pow2_bits_high. lia.
Qed.

Lemma checksum_loop_ok mem pos len n : bytes_ok mem -> 1 <= len <= 63 -> 0 <= pos -> forall i value,
  0 <= i -> pos + (i + Z.of_nat n) * len < 65536 -> i + Z.of_nat n < 65536 ->
  (0 < Z.of_nat n -> (pos + (i + Z.of_nat n - 1) * len) / 8 + (len + 7) / 8 + 1 <= blen mem) ->
  0 <= value < 2 ^ len ->
  exists v, checksum_loop n mem value (u64 (2 ^ len)) i pos len = Some v /\ 0 <= v < 2 ^ len /\
    (v + words_sum mem pos len i n) mod (2 ^ len - 1) = value mod (2 ^ len - 1).
Proof.
  intros Hb Hl Hp. induction n as [|n IH]; intros i value Hi H1 H2 H3 Hv; cbn [checksum_loop words_sum].
  - exists value. rewrite Z.add_0_r. auto.
  - assert (2 <= 2 ^ len <= 2 ^ 63) as Hpow by (split; [apply (Z.pow_le_mono_r 2 1); lia|apply Z.pow_le_mono_r; lia]).
    assert (0 <= i * len) as Hil by nia.
    assert ((i + 1) * len <= (i + Z.of_nat (S n)) * len) as Hm by (apply Z.mul_le_mono_nonneg_r; lia).
    assert ((i + 1) * len = i * len + len) as Hm' by ring.
    assert (0 <= pos + i * len < 65536) as Hbit by lia.
    assert ((pos + i * len) / 8 + (len + 7) / 8 + 1 <= blen mem) as Hr.
    { specialize (H3 ltac:(lia)). assert (pos + i * len <= pos + (i + Z.of_nat (S n) - 1) * len)
        by (apply Z.add_le_mono_l, Z.mul_le_mono_nonneg_r; lia).
      pose proof (Z.div_le_mono (pos + i * len) (pos + (i + Z.of_nat (S n) - 1) * len) 8 ltac:(lia) ltac:(assumption)). lia. }
    rewrite (u16_small (pos + i * len)) by exact Hbit.
    assert (length (zeros 8) = 8%nat) as Lz by apply length_replicate.
    destruct (copy_bit_ok mem (zeros 8) 0 (pos + i * len) len) as (dt & E & L & B & S);
      [done|apply zeros_ok|lia|exact Hbit|lia|exact Hr|unfold blen; rewrite Lz; lia|].
    rewrite E. cbn [mbind option_bind].
    rewrite (complement_word mem (pos + i * len) len dt) by
      (auto; try lia; intros q Hq; rewrite S by lia; zcases; cbn [andb]; f_equal; lia).
    fold (word mem pos len i). pose proof (field_value_bound mem (pos + i * len) len ltac:(lia)) as Fb. fold (word mem pos len i) in Fb.
    assert (u64 (value + (2 ^ len - 1 - word mem pos len i)) = value + (2 ^ len - 1 - word mem pos len i)) as ->
      by (unfold u64; rewrite Z.mod_small; lia).
    assert (u64 (2 ^ len) = 2 ^ len) as Hu by (unfold u64; rewrite Z.mod_small; lia). rewrite Hu.
    rewrite (u16_small (i + 1)) by lia. set (x := value + (2 ^ len - 1 - word mem pos len i)).
    set (y := if 2 ^ len <=? x then u64 (x - 2 ^ len + 1) else x).
    assert (0 <= y < 2 ^ len /\ (y = x \/ y = x - (2 ^ len - 1))) as [Hy Hxy].
    { subst y. destruct (Z.leb_spec (2 ^ len) x); [|subst x; lia]. unfold u64. rewrite Z.mod_small by (subst x; lia). subst x; lia. }
    destruct (IH (i + 1) y) as (v & Ev & Hvb & Hsum); [lia| |lia| |exact Hy|].
    { replace (i + 1 + Z.of_nat n) with (i + Z.of_nat (Datatypes.S n)) by lia. exact H1. }
    { intros Hn. replace (i + 1 + Z.of_nat n - 1) with (i + Z.of_nat (Datatypes.S n) - 1) by lia. apply H3. lia. }
    rewrite Hu in Ev. rewrite Ev. exists v. split; [reflexivity|]. split; [exact Hvb|].
    replace (v + (word mem pos len i + words_sum mem pos len (i + 1) n)) with
      (v + words_sum mem pos len (i + 1) n + word mem pos len i) by lia.
    rewrite <- Z.add_mod_idemp_l, Hsum, Z.add_mod_idemp_l by lia.
    destruct Hxy as [-> | ->]; subst x.
    + replace (value + (2 ^ len - 1 - word mem pos len i) + word mem pos len i) with (value + 1 * (2 ^ len - 1)) by lia.
      apply Z.mod_add. lia.
    + f_equal. lia.
Qed.

(** ** The whole action *)

(** The stored value: the sum, left-justified in network order. *)
Lemma checksum_ok mem pos len n : bytes_ok mem -> 1 <= len <= 63 -> 0 <= pos -> 0 <= n ->
  pos + n * len < 65536 -> (pos + (n - 1) * len) / 8 + (len + 7) / 8 + 1 <= blen mem -> n < 65536 ->
  exists v, checksum mem pos (n * len) len = Some (be 8 (Z.shiftl v (64 - len))) /\ 0 <= v < 2 ^ len /\
    (v + words_sum mem pos len 0 (Z.to_nat n)) mod (2 ^ len - 1) = 0.
Proof.
  intros Hb Hl Hp Hn H1 H2 H3. unfold checksum. rewrite (proj2 (Z.eqb_neq len 0)) by lia. rewrite Z.div_mul by lia.
  assert (2 <= 2 ^ len) by (apply (Z.pow_le_mono_r 2 1); lia).
  assert (0 + Z.of_nat (Z.to_nat n) = n) as En by lia.
  destruct (checksum_loop_ok mem pos len (Z.to_nat n) Hb Hl Hp 0 0) as (v & E & Hv & Hs); rewrite ?En; try lia.
  exists v. rewrite E. cbn [mbind option_bind]. split; [|split; [exact Hv|exact Hs]].
  rewrite (POF_NTOH_FUNC_rev 0 8); [|by_decide|rewrite length_le; lia|auto with pof].
  unfold patch. rewrite take_0, drop_0, app_nil_l, (take_ge (le 8 _)) by (rewrite length_le; lia).
  rewrite drop_ge by (rewrite length_rev, !length_le; lia). rewrite app_nil_r. unfold be. do 2 f_equal.
  unfold u64. apply le_mod.
Qed.

(** Words outside the changed one keep their value. *)
Lemma words_sum_change m m' pos len j : 0 <= pos -> 1 <= len ->
  (forall i, 0 <= i -> i <> j -> word m' pos len i = word m pos len i) -> forall n i, 0 <= i ->
  words_sum m' pos len i n =
  words_sum m pos len i n + (if (i <=? j) && (j <? i + Z.of_nat n) then word m' pos len j - word m pos len j else 0).
Proof.
  intros Hp Hl H. induction n as [|n IH]; intros i Hi; cbn [words_sum].
  - zcases; lia.
  - rewrite IH by lia. destruct (Z.eqb_spec i j) as [->|Hij].
    + zcases; lia.
    + rewrite (H i) by lia. zcases; lia.
Qed.

Lemma outside_words m m' pos len j : 0 <= pos -> 1 <= len -> 0 <= j ->
  (forall i, 0 <= i -> i < pos + j * len \/ pos + j * len + len <= i -> bit_at m' i = bit_at m i) ->
  forall i, 0 <= i -> i <> j -> word m' pos len i = word m pos len i.
Proof.
  intros Hp Hl Hj H i Hi Hij. unfold word, field_value. f_equal. apply bits_from_ext. intros q Hq.
  apply H; [nia|]. assert (i < j \/ j < i) as [Hc|Hc] by lia; [left|right]; nia.
Qed.

Lemma byte_at_zeros n k : byte_at (zeros n) k = 0.
Proof. unfold byte_at, zeros. generalize (Z.to_nat k). induction n; intros [|j]; cbn; auto. Qed.

Lemma put_zeros m k n : bytes_ok m -> 0 <= k -> 0 <= n -> k + n <= blen m ->
  exists m', put_buf m k (zeros (Z.to_nat n)) = Some m' /\ length m' = length m /\ bytes_ok m' /\
    forall i, 0 <= i -> bit_at m' i = if (8 * k <=? i) && (i <? 8 * k + 8 * n) then false else bit_at m i.
Proof.
  intros Hb Hk Hn Hr. assert (length (zeros (Z.to_nat n)) = Z.to_nat n) as Lz by apply length_replicate.
  unfold put_buf. assert (blen (zeros (Z.to_nat n)) = n) as -> by (unfold blen; rewrite Lz; lia).
  destruct (Z.leb_spec 0 k); [|lia]. destruct (Z.leb_spec (k + n) (blen m)); [|lia]. cbn [andb].
  eexists. split; [reflexivity|]. unfold blen in Hr. split; [rewrite !length_app, length_take, length_drop, Lz; lia|].
  split; [apply bytes_ok_app; [auto with pof|apply bytes_ok_app; [apply zeros_ok|auto with pof]]|].
  intros i Hi. unfold bit_at. rewrite byte_at_app by lia. unfold blen. rewrite length_take, Nat.min_l, Z2Nat.id by lia.
  destruct (Z.ltb_spec (i / 8) k).
  - rewrite byte_at_take by lia. zcases. reflexivity.
  - rewrite byte_at_app by lia. unfold blen. rewrite Lz, Z2Nat.id by lia. destruct (Z.ltb_spec (i / 8 - k) n).
    + rewrite byte_at_zeros, Z.testbit_0_l. zcases; reflexivity.
    + replace (Z.to_nat k + Z.to_nat n)%nat with (Z.to_nat (k + n)) by lia.
      rewrite byte_at_drop by lia. zcases; do 2 f_equal; lia.
Qed.

(** The packet ([true]) or the metadata with other bytes. *)
Definition with_cs (packet : bool) (b : list Z) s : pst :=
  if packet then upd (with_win (rewin (dpp_win (dpp s)) b)) s else set_metadata b s.

Lemma cs_buf_ok f s : packet_ok s -> bytes_ok (cs_buf f s).
Proof. intros []. destruct f; [now apply win_mem_bytes|done]. Qed.

Lemma set_cs_run f b s : packet_ok s -> length b = length (cs_buf f s) -> bytes_ok b ->
  set_cs_buf f b s = Some (with_cs f b s) /\ packet_ok (with_cs f b s) /\ cs_buf f (with_cs f b s) = b.
Proof.
  intros P Hl Hb. pose proof P as []. destruct f; cbn [set_cs_buf with_cs cs_buf] in *.
  - split; [now apply at_window_run|]. split; [apply upd_win_ok; [done|now apply rewin_ok]|].
    exact (rewin_mem (dpp_win (dpp s)) b pk_win).
  - split; [reflexivity|]. split; [|reflexivity]. constructor; cbn; auto. now rewrite Hl.
Qed.

Lemma with_cs_twice f b b' s : packet_ok s -> with_cs f b (with_cs f b' s) = with_cs f b s.
Proof.
  intros P. destruct f; [|reflexivity]. unfold with_cs. rewrite upd_win_twice. f_equal. f_equal.
  unfold rewin. cbn. rewrite take_app_length'; [done|]. destruct (pk_win _ P). rewrite length_take. lia.
Qed.

(** Where a checksum can be computed: whole-byte words, the checksum being word
    [j] of the [n] words of the same buffer. *)
Record summable (mem : list Z) (pos len n cs j : Z) : Prop := {
  su_len : 8 <= len <= 56;
  su_bytes : len mod 8 = 0 /\ pos mod 8 = 0;
  su_pos : 0 <= pos;
  su_word : cs = pos + j * len /\ 0 <= j < n;
  su_size : pos + n * len < 65536 /\ n < 65536;
  su_room : pos + n * len + 8 <= 8 * blen mem
}.

Lemma calChecksum_run f s pos len n cs j e : packet_ok s -> summable (cs_buf f s) pos len n cs j ->
  exists b, calChecksum f f pos (n * len) cs len s e = Some ((POF_OK, with_cs f b s), e) /\
    packet_ok (with_cs f b s) /\ length b = length (cs_buf f s) /\
    words_sum b pos len 0 (Z.to_nat n) mod (2 ^ len - 1) = 0 /\
    (forall i, 0 <= i -> i < cs \/ cs + len <= i -> bit_at b i = bit_at (cs_buf f s) i).
Proof.
  intros P [Hl [Hl8 Hp8] Hp [Hcs Hj] [H1 H2] H3]. pose proof (cs_buf_ok f s P) as Hb. set (m := cs_buf f s) in *.
  assert (0 <= j * len) as Hjl by nia.
  assert (j * len + len <= n * len) as Hjn by nia.
  assert (cs mod 8 = 0) as Hcs8.
  { rewrite Hcs. rewrite (Z.div_mod len 8), Hl8 by lia. replace (pos + j * (8 * (len / 8) + 0)) with (pos + (j * (len / 8)) * 8) by lia.
    rewrite Z.mod_add by lia. exact Hp8. }
  unfold calChecksum, bzero_bit. fold m. rewrite Hcs8, Hl8. cbn [Z.eqb andb]. rewrite run_bind.
  destruct (put_zeros m (cs / 8) (len / 8) Hb) as (m0 & E0 & L0 & B0 & S0); try lia.
  rewrite run_bind. rewrite E0. cbn [lift]. unfold mret at 1, St_ret. cbv beta iota.
  change (negb (POF_OK =? POF_OK)) with false. cbv iota.
  destruct (set_cs_run f m0 s P L0 B0) as (Es & P0 & C0). rewrite run_bind, Es. cbn [lift].
  assert ((n - 1) * len = n * len - len) as Hn1 by ring.
  destruct (checksum_ok m0 pos len n B0) as (v & Ev & Hv & Hsum); try lia.
  { rewrite Hn1. unfold blen in *. rewrite L0. lia. }
  rewrite run_bind, C0, Ev. cbn [lift].
  assert (forall i, 0 <= i < len -> bit_at (be 8 (Z.shiftl v (64 - len))) i = Z.testbit v (len - 1 - i)) as Hbe.
  { intros i Hi. rewrite bit_at_be, Z.shiftl_spec by lia. f_equal. lia. }
  destruct (cover_bit_ok m0 (be 8 (Z.shiftl v (64 - len))) cs len) as (b & Eb & Lb & Bb & Sb); auto with pof.
  { split; [lia|]. split; [lia|]. right. lia. }
  { unfold blen in *. rewrite L0. lia. }
  { unfold value_room, blen. rewrite length_be. lia. }
  { intros i Hi. lia. }
  rewrite run_bind, Eb. cbn [lift].
  destruct (set_cs_run f b (with_cs f m0 s) P0) as (Es2 & P2 & C2); [now rewrite C0|exact Bb|].
  rewrite run_bind, Es2. cbn [lift]. rewrite with_cs_twice in * by done.
  exists b. split; [reflexivity|]. split; [exact P2|]. split; [congruence|].
  assert (forall i, 0 <= i -> i < cs \/ cs + len <= i -> bit_at b i = bit_at m i) as Hout.
  { intros i Hi Ho. rewrite Sb by lia. rewrite S0 by lia. zcases; try reflexivity; lia. }
  split; [|exact Hout].
  assert (word b pos len j = v) as Wb.
  { unfold word. rewrite <- Hcs. rewrite <- (Z.mod_small v (2 ^ len)) by lia. apply field_value_eq; [lia|lia|].
    intros i Hi. rewrite Sb by lia. zcases. replace (cs + i - cs) with i by lia. now apply Hbe. }
  assert (word m0 pos len j = 0) as W0.
  { unfold word. rewrite <- Hcs. rewrite <- (Z.mod_0_l (2 ^ len)) by lia. apply field_value_eq; [lia|lia|].
    intros i Hi. rewrite S0 by lia. rewrite Z.testbit_0_l. zcases; reflexivity. }
  rewrite (words_sum_change m0 b pos len j) by (try lia; apply outside_words; try lia; intros i Hi Ho; rewrite Sb by lia; zcases; reflexivity).
  rewrite Wb, W0. zcases; [|lia..]. etransitivity; [|exact Hsum]. f_equal. lia.
Qed.

(** C26. The checksum a CALCULATE_CHECKSUM action stores verifies: with the
    checksum field one of the words it covers, the words add up to 0 modulo
    [2 ^ len - 1] afterwards (the Internet checksum for 16-bit words), and no
    bit outside the field has changed. *)
Theorem checksum_verifies s e (a : pof_action) j n : packet_ok s -> cur_action s = Some a ->
  let d := action_data a in
  let cs := fld d 2 2 in
  let len := fld d 4 2 in
  let pos := fld d 6 2 in
  let packet := fld d 0 1 =? 0 in
  (fld d 1 1 =? 0) = packet -> fld d 8 2 = n * len -> summable (cs_buf packet s) pos len n cs j ->
  exists b, execute_CALCULATE_CHECKSUM s e = Some ((POF_OK, action_update (with_cs packet b s)), e) /\
    packet_ok (with_cs packet b s) /\ words_sum b pos len 0 (Z.to_nat n) mod (2 ^ len - 1) = 0 /\
    (forall i, 0 <= i -> i < cs \/ cs + len <= i -> bit_at b i = bit_at (cs_buf packet s) i).
Proof.
  intros P Ha d cs len pos packet Hsame Hn S.
  destruct (calChecksum_run packet s pos len n cs j e P S) as (b & E & P' & _ & Hs & Ho).
  exists b. split; [|auto]. unfold execute_CALCULATE_CHECKSUM. rewrite run_bind, Ha. cbn [lift]. fold d. fold cs len pos.
  rewrite (proj2 (Z.ltb_ge 64 len)) by (destruct S; lia). unfold then_. rewrite run_bind, Hsame, Hn.
  fold packet. rewrite E. reflexivity.
Qed.

(** ** Witness *)

(** The 16-bit checksum of the ten words at byte 14, kept in the sixth of them
    (an IPv4 header). *)
Definition ip_checksum : pof_action :=
  mkAction POFAT_CALCULATE_CHECKSUM 16 ([0; 0; 192; 0; 16; 0; 112; 0; 160; 0] ++ zeros 34).

Lemma checksum_verifies_witness :
  exists b, execute_CALCULATE_CHECKSUM (packet_example (mkProgram [] 0 0 0) (mkActions [ip_checksum] 0 1))
      (env_init POFCS_CHANNEL_RUN [] []) = Some ((POF_OK, action_update
        (with_cs true b (packet_example (mkProgram [] 0 0 0) (mkActions [ip_checksum] 0 1)))),
        env_init POFCS_CHANNEL_RUN [] []) /\ words_sum b 112 16 0 10 mod 65535 = 0.
Proof.
  destruct (checksum_verifies (packet_example (mkProgram [] 0 0 0) (mkActions [ip_checksum] 0 1))
    (env_init POFCS_CHANNEL_RUN [] []) ip_checksum 5 10) as (b & E & _ & W & _).
  - apply packet_example_ok.
  - reflexivity.
  - reflexivity.
  - reflexivity.
  - constructor; by_decide.
  - exists b. split; [exact E|exact W].
Defined.
