(* ===== verification/ActionRun.v ===== *)
(** * Running action lists

    [pofdp_action_execute] ends after as many actions as the list has, unless
    a group runs its own; a group ends the list that names it, and may name
    itself. *)

From S2P Require Import Prelude Bits Codec Env Tree FlowEntry Hmap IdMap LocalRes ByteTransfer Port Counter Group Slot Parse Packet Action PacketSpec.

Implicit Types (s : pst).

Definition active s : bool := negb (dpp_packet_done (dpp s)) && (0 <? ac_num (dpp_acts (dpp s))).

(** Whatever a computation returns successfully satisfies [R]. *)
Definition leads (m : St (Z * pst)) (R : pst -> Prop) : Prop :=
  forall e s' e', m e = Some ((POF_OK, s'), e') -> R s'.

Lemma leads_mret r s (R : pst -> Prop) : R s -> leads (mret (r, s)) R.
Proof. intros H e s' e' [= _ -> _]. exact H. Qed.

Lemma leads_fail type code s R : leads (fail_up type code s) R.
Proof.
  intros e s' e' E. exfalso. unfold fail_up, POF_ERROR_HANDLE_RETURN_UPWARD, mbind, St_bind in E.
  destruct (upward_xid_pp e) as [[x e1]|]; [|discriminate].
  destruct (POF_ERROR_HANDLE_NO_RETURN_UPWARD type code x e1) as [[[] e2]|]; [|discriminate].
  injection E as Er _ _. exact (err_ret_nonzero code Er).
Qed.

Lemma leads_bind {A} (m : St A) (k : A -> St (Z * pst)) R : (forall a, leads (k a) R) -> leads (m ≫= k) R.
Proof.
  intros Hk e s' e' E. rewrite run_bind in E. destruct (m e) as [[a e1]|]; [|discriminate]. eapply Hk, E.
Qed.

Lemma leads_lift {A} (o : option A) (k : A -> St (Z * pst)) R :
  (forall a, o = Some a -> leads (k a) R) -> leads (lift o ≫= k) R.
Proof.
  intros Hk e s' e' E. rewrite run_bind in E. destruct o as [a|]; [|discriminate]. eapply Hk; [reflexivity|exact E].
Qed.

Lemma leads_checked {A} s (m : St (Z * A)) k R : (forall a, leads (k a) R) -> leads (checked s m k) R.
Proof.
  intros Hk e s' e' E. unfold checked in E. rewrite run_bind in E. destruct (m e) as [[[r a] e1]|]; [|discriminate].
  destruct (Z.eqb_spec r POF_OK) as [->|Hr]; [eapply Hk, E|]. injection E as Er _ _. contradiction.
Qed.

Lemma leads_then m k (R Q : pst -> Prop) : leads m Q -> (forall s, Q s -> leads (k s) R) -> leads (then_ m k) R.
Proof.
  intros Hm Hk e s' e' E. unfold then_ in E. rewrite run_bind in E. destruct (m e) as [[[r a] e1]|] eqn:Em; [|discriminate].
  destruct (Z.eqb_spec r POF_OK) as [->|Hr]; [eapply Hk; [eapply Hm, Em|exact E]|]. injection E as Er _ _. contradiction.
Qed.

(** ** Every action but a group moves on by one *)

Definition same_acts s s' : Prop := dpp_acts (dpp s') = dpp_acts (dpp s).
Definition moved_on s s' : Prop :=
  ac_num (dpp_acts (dpp s')) = u8 (ac_num (dpp_acts (dpp s)) - 1) /\ ac_act (dpp_acts (dpp s')) = ac_act (dpp_acts (dpp s)) /\
  (u8 (ac_num (dpp_acts (dpp s)) - 1) <> 0 -> ac_at (dpp_acts (dpp s')) = ac_at (dpp_acts (dpp s)) + 1).

Lemma update_moves s s' : same_acts s s' -> moved_on s (action_update s').
Proof.
  unfold same_acts, moved_on, action_update. cbn. intros ->. split; [done|]. split; [done|]. intros H.
  rewrite (proj2 (Z.ltb_ge _ 1)); [done|]. unfold u8 in *. lia.
Qed.

Lemma same_window s f s' : at_window f s = Some s' -> same_acts s s'.
Proof. unfold at_window. destruct (at_ptr _ _ _); [|done]. now intros [= <-]. Qed.

Lemma same_metadata s f s' : at_metadata f s = Some s' -> same_acts s s'.
Proof. unfold at_metadata. destruct (f _); [|done]. now intros [= <-]. Qed.

Lemma same_inc n p p' : POF_PACKET_REL_LEN_INC n p = Some p' -> dpp_acts p' = dpp_acts p.
Proof.
  unfold POF_PACKET_REL_LEN_INC, POF_PACKET_REL_LEN_SET. destruct (set_fld _ _ _ _); [|done]. now intros [= <-].
Qed.

Lemma same_dec n p p' : POF_PACKET_REL_LEN_DEC n p = Some p' -> dpp_acts p' = dpp_acts p.
Proof.
  unfold POF_PACKET_REL_LEN_DEC, POF_PACKET_REL_LEN_SET. destruct (set_fld _ _ _ _); [|done]. now intros [= <-].
Qed.

Lemma leads_count id len s : leads (count_on id len s) (same_acts s).
Proof. apply leads_bind. intros [r l]. now apply leads_mret. Qed.

Lemma leads_packet_in reason ID s : leads (send_packet_in reason ID s) (same_acts s).
Proof.
  apply leads_bind. intros dev. unfold pofdp_send_packet_in_to_controller. destruct (_ <? _); [apply leads_fail|].
  do 3 (apply leads_bind; intros ?). now apply leads_mret.
Qed.

Lemma leads_write v pm s : leads (pofdp_write_32value_to_field v pm s) (same_acts s).
Proof.
  unfold pofdp_write_32value_to_field. destruct (_ <? _); [apply leads_fail|]. destruct (negb _); (destruct (_ <? _); [apply leads_fail|]).
  - apply leads_lift. intros s' E. apply leads_mret. eapply same_window, E.
  - apply leads_lift. intros s' E. apply leads_mret. eapply same_metadata, E.
Qed.

Lemma leads_insert pos len v s : leads (insertTagToPacket pos len v s) (same_acts s).
Proof.
  unfold insertTagToPacket. destruct (_ || _); [apply leads_fail|]. apply leads_bind. intros bh.
  apply leads_lift. intros s1 E. apply leads_lift. intros p Ep. apply leads_mret. unfold same_acts. cbn.
  apply same_inc in Ep as ->. cbn.
  eapply same_window, E.
Qed.

Lemma leads_set_cs f b s s' : set_cs_buf f b s = Some s' -> same_acts s s'.
Proof. destruct f; [apply same_window|apply same_metadata]. Qed.

Lemma leads_checksum f g a b c d s : leads (calChecksum f g a b c d s) (same_acts s).
Proof.
  unfold calChecksum. apply leads_bind. intros [r m]. destruct (Z.eqb_spec r POF_OK) as [->|Hr]; cbn [negb].
  - apply leads_lift. intros s1 E1. do 2 (apply leads_bind; intros ?). apply leads_lift. intros s2 E2. apply leads_mret.
    unfold same_acts. etransitivity; eapply leads_set_cs; eassumption.
  - intros e s' e' [= Er _ _]. contradiction.
Qed.

Lemma same_fill s s' : fill_buf_out s = Some s' -> same_acts s s'.
Proof.
  unfold fill_buf_out. destruct (pofbf_copy_bit _ _ _ _ _); [|done]. cbn. destruct (sub_buf _ _ _); [|done]. cbn.
  destruct (put_buf _ _ _); [|done]. now intros [= <-].
Qed.

Lemma same_sendto n f s b s' : sendto n f s = (b, s') -> same_acts s s'.
Proof. unfold sendto. destruct (s_sendtos (sur s)) as [|[] l]; now intros [= _ <-]. Qed.

Lemma leads_send port s : leads (pofdp_send_raw port s) (same_acts s).
Proof.
  unfold pofdp_send_raw. apply leads_lift. intros s1 E1. apply same_fill in E1. destruct (_ <? _); [apply leads_fail|].
  intros e s' e' E. rewrite run_bind in E. destruct (send_raw port s1 e) as [[[r s2] e2]|] eqn:Es; [|discriminate].
  assert (leads (send_raw port s1) (same_acts s1)) as L.
  { unfold send_raw. apply leads_bind. intros [q|].
    - do 2 (apply leads_bind; intros ?). destruct (sendto _ _ s1) as [ok s3] eqn:E3. apply same_sendto in E3.
      destruct ok; cbn [negb]; [now apply leads_mret|apply leads_fail].
    - intros e1 s3 e3 E3. rewrite run_bind in E3. injection E3 as Er _ _. now apply err_ret_nonzero in Er. }
  destruct (Z.eqb_spec r POF_OK) as [->|Hr]; cbn [negb] in E.
  - injection E as <- <-. unfold same_acts in *. rewrite <- E1. eapply L, Es.
  - rewrite run_bind in E. injection E as Er _ _. now apply err_ret_nonzero in Er.
Qed.

Lemma traverse_leads {V R} (hm : pst -> option (heap V * hmap)) (body : addr -> pst -> St (R + pst)) (P : pst -> Prop)
    (Q : R -> Prop) :
  (forall a y e z e', P y -> body a y e = Some (z, e') -> match z with inl r => Q r | inr y' => P y' end) ->
  forall fuel obj s e r e', P s -> traverse_from hm body fuel obj s e = Some (r, e') ->
  match r with inl r => Q r | inr y => P y end.
Proof.
  intros Hb fuel. induction fuel as [|fuel IH]; intros [p|] s e r e' Hs E; cbn [traverse_from] in E; try discriminate;
    try (now injection E as <- <-).
  rewrite run_bind in E. destruct (lift _ e) as [[nx e1]|]; [|discriminate]. rewrite run_bind in E.
  destruct (body p s e1) as [[z e2]|] eqn:Eb; [|discriminate]. pose proof (Hb _ _ _ _ _ Hs Eb) as Hz.
  destruct z as [z|z]; [injection E as <- <-; exact Hz|eapply IH; [exact Hz|exact E]].
Qed.

Lemma leads_flood lrPort s : leads (flood lrPort s) (same_acts s).
Proof.
  unfold flood. intros e s' e' E. rewrite run_bind in E.
  destruct (HMAP_NODES_IN_STRUCT_TRAVERSE _ _ s e) as [[r e3]|] eqn:Et; [|discriminate].
  unfold HMAP_NODES_IN_STRUCT_TRAVERSE in Et. rewrite run_bind in Et.
  destruct (lift (res_hm _) e) as [[[h m] e1]|]; [|discriminate]. rewrite run_bind in Et.
  destruct (lift (hmap_nodeFirst m) e1) as [[f e2]|]; [|discriminate].
  pose proof (fun Hb => traverse_leads _ _ (same_acts s) (fun z => fst z = POF_OK -> same_acts s (snd z)) Hb _ _ _ _ _ _ eq_refl Et) as K.
  assert (match r with inl z => fst z = POF_OK -> same_acts s (snd z) | inr y => same_acts s y end) as Hr.
  { apply K. clear. intros a y e z e' Hy E. rewrite run_bind in E. destruct (lift _ e) as [[port e1]|]; [|discriminate].
    destruct (_ && _); [|now injection E as <- <-]. rewrite run_bind in E.
    destruct (pofdp_send_raw _ _ e1) as [[[r s2] e2]|] eqn:Es; [|discriminate].
    destruct (Z.eqb_spec r POF_OK) as [->|Hr]; cbn [negb] in E; injection E as <- <-; cbn.
    - apply leads_send in Es. unfold same_acts in *. now rewrite Es.
    - easy. }
  destruct r as [[r s1]|s1]; [injection E as -> -> _; now apply Hr|injection E as -> _; exact Hr].
Qed.

(** *** One lemma for the actions of a list *)

Ltac act_step :=
  first
    [ apply leads_fail
    | apply leads_mret
    | (apply leads_lift; let a := fresh "a" in let E := fresh "E" in intros a E)
    | (eapply leads_then; [solve [apply leads_checksum | apply leads_count | apply leads_packet_in | apply leads_write | apply leads_insert]|
       let a := fresh "s" in let E := fresh "E" in intros a E])
    | (apply leads_checked; let a := fresh "v" in intros a)
    | case_match ].

Lemma output_moves s : leads (execute_OUTPUT s) (moved_on s).
Proof.
  unfold execute_OUTPUT. repeat act_step;
    (eapply (leads_then _ _ _ (same_acts s));
     [first [exact (leads_flood _ (upd _ (upd _ s))) | exact (leads_send _ (upd _ (upd _ s)))] | intros s' Hs; apply leads_mret; now apply update_moves]).
Qed.

Lemma group_free_moves (rec : pst -> St (Z * pst)) type s :
  type <> POFAT_GROUP -> leads (execute_action rec type s) (moved_on s).
Proof.
  intros Hg. unfold execute_action. rewrite (proj2 (Z.eqb_neq type POFAT_GROUP) Hg).
  repeat (destruct (Z.eqb type _)); [apply output_moves|..].
  all: unfold execute_SET_FIELD, execute_SET_FIELD_FROM_METADATA, execute_MODIFY_FIELD, execute_ADD_FIELD, execute_DELETE_FIELD,
    execute_CALCULATE_CHECKSUM, execute_DROP, execute_PACKET_IN, execute_COUNTER, execute_EXPERIMENTER.
  all: repeat act_step.
  all: try apply update_moves. all: try done.
  all: try (eapply same_window; eassumption).
  all: match goal with H : POF_PACKET_REL_LEN_DEC _ _ = Some _, W : at_window _ _ = Some ?w |- same_acts _ ?w' =>
         apply same_dec in H; apply same_window in W; unfold same_acts in *; rewrite <- W end.
  - injection E3 as <-. exact E2.
  - apply same_window in E3. unfold same_acts in E3. rewrite E3. exact E2.
Qed.

(** ** The list is run in order *)

Lemma then_leads_ext m k1 k2 (Q : pst -> Prop) e :
  leads m Q -> (forall s e, Q s -> k1 s e = k2 s e) -> then_ m k1 e = then_ m k2 e.
Proof.
  intros Hm Hk. unfold then_. rewrite !run_bind. destruct (m e) as [[[r s] e1]|] eqn:Em; [|done].
  destruct (Z.eqb_spec r POF_OK) as [->|Hr]; [|done]. apply Hk. eapply Hm, Em.
Qed.

(** The actions of the list [dpp] has still to run. *)
Definition pending s : list pof_action :=
  let a := dpp_acts (dpp s) in take (Z.to_nat (ac_num a)) (drop (Z.to_nat (ac_at a)) (ac_act a)).

Definition acts_ok s : Prop :=
  let a := dpp_acts (dpp s) in
  0 <= ac_num a < 256 /\ (ac_num a <> 0 -> 0 <= ac_at a /\ ac_at a + ac_num a <= Z.of_nat (length (ac_act a))).

(** The actions one after the other, each on what the one before it left,
    until the packet is done or one fails. *)
Fixpoint in_order (l : list pof_action) s : St (Z * pst) :=
  match l with
  | [] => mret (POF_OK, s)
  | a :: l => if dpp_packet_done (dpp s) then mret (POF_OK, s)
              else then_ (execute_action (fun _ => fault) (act_type a) s) (in_order l)
  end.

Lemma execute_action_plain f g type s : type <> POFAT_GROUP -> execute_action f type s = execute_action g type s.
Proof. intros H. unfold execute_action. now rewrite (proj2 (Z.eqb_neq type POFAT_GROUP) H). Qed.

Lemma pending_cons s : acts_ok s -> 0 < ac_num (dpp_acts (dpp s)) ->
  exists a l, cur_action s = Some a /\ pending s = a :: l /\
    forall s', moved_on s s' -> acts_ok s' /\ pending s' = l.
Proof.
  unfold acts_ok, cur_action, pending, moved_on. destruct (dpp_acts (dpp s)) as [act at_ num]. cbn. intros (H1 & H2) Hn.
  destruct H2 as [H0 H2]; [lia|]. rewrite (proj2 (Z.ltb_ge at_ 0)) by lia.
  destruct (lookup_lt_is_Some_2 act (Z.to_nat at_)) as [a Ea]; [lia|].
  replace (u8 (num - 1)) with (num - 1) by (unfold u8; symmetry; apply Z.mod_small; lia).
  exists a, (take (Z.to_nat (num - 1)) (drop (Z.to_nat (at_ + 1)) act)). split; [done|]. split.
  - rewrite (drop_S _ _ _ Ea). replace (Z.to_nat num) with (S (Z.to_nat (num - 1))) by lia. cbn.
    replace (Z.to_nat (at_ + 1)) with (S (Z.to_nat at_)) by lia. done.
  - intros s'. destruct (dpp_acts (dpp s')) as [act' at' num']. cbn. intros (-> & -> & Hat).
    destruct (Z.eq_dec num 1) as [->|Hne]; [cbn; split; [lia|done]|]. rewrite (Hat ltac:(lia)). split; [lia|done].
Qed.

(** C22. A list of actions without a group runs to its end: with as much fuel
    as it has actions [pofdp_action_execute] does exactly what running the
    actions one after the other does, stopping at the first failure and once
    the packet is done. *)
Theorem actions_in_order fuel s e :
  acts_ok s -> (Z.to_nat (ac_num (dpp_acts (dpp s))) <= fuel)%nat ->
  Forall (fun a => act_type a <> POFAT_GROUP) (pending s) ->
  pofdp_action_execute fuel s e = in_order (pending s) s e.
Proof.
  revert s e. induction fuel as [|fuel IH]; intros s e Hok Hf Hg; cbn [pofdp_action_execute].
  - assert (ac_num (dpp_acts (dpp s)) = 0) as E0 by (destruct Hok; lia).
    unfold pending. rewrite E0. cbn. now rewrite andb_false_r.
  - destruct (Z.ltb_spec 0 (ac_num (dpp_acts (dpp s)))) as [Hn|Hn].
    + destruct (pending_cons s Hok Hn) as (a & l & Ea & Ep & Hnext). rewrite Ep in Hg |- *. cbn [in_order].
      rewrite andb_true_r. destruct (dpp_packet_done (dpp s)); cbn [negb]; [done|].
      rewrite run_bind, Ea. cbn [lift]. inversion Hg as [|? ? Ha Hl]; subst.
      rewrite (execute_action_plain _ (fun _ => fault) _ _ Ha).
      eapply then_leads_ext; [now apply group_free_moves|]. intros s' e' Hm.
      destruct (Hnext s' Hm) as [Hok' <-]. apply IH; [done| |done].
      destruct Hm as (-> & _). unfold u8. destruct Hok. rewrite Z.mod_small by lia. lia.
    + assert (ac_num (dpp_acts (dpp s)) = 0) as E0 by (destruct Hok; lia).
      unfold pending. rewrite E0. cbn. now rewrite andb_false_r.
Qed.

(** ** A group ends the list *)

Lemma run_inactive fuel s e : active s = false -> pofdp_action_execute fuel s e = Some ((POF_OK, s), e).
Proof. unfold active. intros H. destruct fuel; cbn [pofdp_action_execute]; now rewrite H. Qed.

Lemma run_ends fuel s : leads (pofdp_action_execute fuel s) (fun s' => active s' = false).
Proof.
  revert s. induction fuel as [|fuel IH]; intros s; cbn [pofdp_action_execute]; fold (active s);
    destruct (active s) eqn:Ea; try (now apply leads_mret).
  - intros e s' e' [=].
  - apply leads_lift. intros a _. eapply (leads_then _ _ _ (fun _ => True)); [intros e s' e' _; exact I|]. intros s' _. apply IH.
Qed.

Lemma group_ends_run rec s : (forall s, leads (rec s) (fun s' => active s' = false)) ->
  leads (execute_GROUP rec s) (fun s' => active s' = false).
Proof.
  intros Hr. unfold execute_GROUP. do 2 act_step. case_match; [|apply leads_fail]. act_step. act_step.
  eapply leads_then; [apply Hr|]. intros s' H'. now apply leads_mret.
Qed.

(** Nothing behind a GROUP action runs: when the current action names a
    group, running the list is running the group's own actions, whatever
    follows it. *)
Theorem group_ends_list fuel s e a :
  active s = true -> cur_action s = Some a -> act_type a = POFAT_GROUP ->
  pofdp_action_execute (S (S fuel)) s e = execute_GROUP (pofdp_action_execute (S fuel)) s e.
Proof.
  intros Hs Ea Eg. set (k := S fuel). cbn [pofdp_action_execute]. fold (active s). rewrite Hs, run_bind, Ea. cbn [lift].
  rewrite Eg. change (execute_action ?r POFAT_GROUP) with (execute_GROUP r).
  unfold then_ at 1. rewrite run_bind.
  destruct (execute_GROUP _ s e) as [[[r s'] e']|] eqn:E; [|done]. cbn.
  destruct (Z.eqb_spec r POF_OK) as [->|Hr]; [|done].
  apply (run_inactive k). eapply group_ends_run, E. apply run_ends.
Qed.

(** ** Witnesses *)

Definition count_then_drop : list pof_action :=
  [mkAction POFAT_COUNTER 8 (zeros 44); mkAction POFAT_DROP 8 (zeros 44)].
Definition group_first : list pof_action :=
  [mkAction POFAT_GROUP 8 ([5; 0; 0; 0] ++ zeros 40); mkAction POFAT_DROP 8 (zeros 44)].

Lemma actions_in_order_witness :
  pofdp_action_execute 2 (packet_example (mkProgram [] 0 0 0) (mkActions count_then_drop 0 2)) (env_init POFCS_CHANNEL_RUN [] []) =
  in_order count_then_drop (packet_example (mkProgram [] 0 0 0) (mkActions count_then_drop 0 2)) (env_init POFCS_CHANNEL_RUN [] []).
Proof.
  apply (actions_in_order 2 (packet_example (mkProgram [] 0 0 0) (mkActions count_then_drop 0 2))).
  - split; by_decide.
  - by_decide.
  - by_decide.
Defined.

Lemma group_ends_list_witness :
  pofdp_action_execute 2 (packet_example (mkProgram [] 0 0 0) (mkActions group_first 0 2)) (env_init POFCS_CHANNEL_RUN [] []) =
  execute_GROUP (pofdp_action_execute 1) (packet_example (mkProgram [] 0 0 0) (mkActions group_first 0 2))
    (env_init POFCS_CHANNEL_RUN [] []).
Proof.
  apply (group_ends_list 0 (packet_example (mkProgram [] 0 0 0) (mkActions group_first 0 2)) _
    (mkAction POFAT_GROUP 8 ([5; 0; 0; 0] ++ zeros 40))); reflexivity.
Defined.
