(* ===== verification/ForwardSpec.v ===== *)
(** * Forwarding a packet

    What the OUTPUT action puts on the wire, what a packet-in message holds,
    and, end to end, what a received frame becomes when its lookup in the first
    table misses and when it hits an entry that outputs it. *)

From S2P Require Import Prelude Bits Codec Env Tree FlowEntry Hmap IdMap LocalRes ByteTransfer Port Counter Meter Group FlowTable Slot Parse Packet Action Instruction FieldSpec PacketSpec.

Implicit Types (s : pst) (p : pofdp_packet) (w : window).

(** ** The frame *)

Record out_ok s : Prop := {
  ot_len : length (o_buf (dpp_out (dpp s))) = 2048%nat;
  ot_bytes : bytes_ok (o_buf (dpp_out (dpp s)))
}.

(** The frame sent: whole bytes of metadata from a bit offset, then the packet
    from an offset of its window on. *)
Definition frame_of s (md_off md_len pkt_off : Z) (frame : list Z) : Prop :=
  exists md, frame = md ++ take (Z.to_nat (w_left (dpp_win (dpp s)) - pkt_off)) (drop (Z.to_nat pkt_off) (win_mem (dpp_win (dpp s)))) /\
    blen md = md_len /\ bytes_ok md /\
    bits_from md 0 (Z.to_nat (8 * md_len)) = bits_from (dpp_metadata (dpp s)) md_off (Z.to_nat (8 * md_len)).

(** Copying no bits rewrites the byte in front of the destination as it is. *)
Lemma copy_no_bits src res base off : bytes_ok res -> 1 <= base <= blen res -> pofbf_copy_bit src res base off 0 = Some res.
Proof.
  intros B H. unfold pofbf_copy_bit. cbn [Z.to_nat Z.div Z.add copy_loop mbind option_bind]. 
  change (copy_loop _ src res (u16 (off / 8)) base 0 (off mod 8) 0) with (Some (res, base, 0)). cbn [mbind option_bind].
  rewrite rd_in by lia. cbn [mbind option_bind]. rewrite wr_in by lia. f_equal.
  change (Z.shiftl 255 (0 - 0)) with (Z.ones 8). rewrite Z.land_ones by lia.
  pose proof (bytes_ok_at res (base - 1) B) as Hb. unfold byte_ok in Hb. change (2 ^ 8) with 256.
  rewrite Z.mod_small, u8_small by lia. apply list_insert_id.
  unfold byte_at. rewrite nth_lookup. unfold blen in H.
  destruct (lookup_lt_is_Some_2 res (Z.to_nat (base - 1))) as [x ->]; [lia|done].
Qed.

(** Copying whole bytes of metadata behind the two bytes of the length. *)
Lemma copy_metadata md mem0 off n : bytes_ok md -> blen md = 128 -> bytes_ok mem0 -> length mem0 = 2050%nat ->
  0 <= n <= 128 -> 0 <= off < 65536 -> n = 0 \/ off / 8 + n + 1 <= 128 ->
  exists mem, pofbf_copy_bit md mem0 2 off (u16 (n * 8)) = Some mem /\ length mem = 2050%nat /\ bytes_ok mem /\
    take 2 mem = take 2 mem0 /\ bits_from (drop 2 mem) 0 (Z.to_nat (8 * n)) = bits_from md off (Z.to_nat (8 * n)).
Proof.
  intros Bm Lm B0 L0 Hn Ho H. rewrite u16_small by lia. destruct (Z.eq_dec n 0) as [->|Hne].
  { exists mem0. change (0 * 8) with 0. rewrite copy_no_bits by (auto; unfold blen; lia). conjs; auto. }
  destruct (copy_bit_ok md mem0 2 off (n * 8)) as (mem & E & L & B & S); auto; try (unfold blen in *; lia).
  exists mem. split; [exact E|]. split; [lia|]. split; [exact B|]. split.
  - apply bits_ext; auto with pof; [unfold blen; rewrite !length_take; lia|]. intros i Hi.
    unfold blen in Hi. rewrite length_take in Hi.
    assert (forall m, length m = 2050%nat -> bit_at (take 2 m) i = bit_at m i) as T.
    { intros m Hm. unfold bit_at. now rewrite (byte_at_take m 2) by lia. }
    rewrite !T, S by lia. zcases. reflexivity.
  - apply bits_from_ext. intros q Hq. rewrite (bit_at_drop mem 2), S by lia. zcases. cbn. f_equal. lia.
Qed.

(** What [pofdp_send_raw] finds in [output_whole_len] and [buf_out]. *)
Lemma fill_run s md_off md_len pkt_off (o := dpp_out (dpp s)) :
  packet_ok s -> out_ok s ->
  o_metadata_len o = md_len -> o_metadata_offset o = md_off -> o_packet_offset o = pkt_off ->
  o_packet_buf o = w_cur (dpp_win (dpp s)) -> o_packet_len o = w_left (dpp_win (dpp s)) - pkt_off ->
  o_whole_len o = o_packet_len o + md_len -> 0 <= pkt_off <= w_left (dpp_win (dpp s)) -> o_whole_len o <= POF_MTU_LENGTH ->
  0 <= md_len <= 128 -> 0 <= md_off < 65536 -> (md_len = 0 \/ md_off / 8 + md_len + 1 <= 128) ->
  exists o' frame, fill_buf_out s = Some (upd (with_out o') s) /\ frame_of s md_off md_len pkt_off frame /\
    sub_buf (o_buf o') 0 (o_whole_len o') = Some frame /\ o_whole_len o' = o_whole_len o /\ o_port o' = o_port o /\
    length (o_buf o') = 2048%nat /\ bytes_ok (o_buf o').
Proof.
  intros [W M1 M2 _ _ _] [O1 O2] E1 E2 E3 E4 E5 E6 H1 H2 H3 H4 H5. unfold fill_buf_out. fold o. rewrite E1, E2, E3, E4.
  set (mem0 := le 2 (o_whole_len o) ++ o_buf o).
  destruct (copy_metadata (dpp_metadata (dpp s)) mem0 md_off md_len) as (mem & Em & Lm & Bm & Tm & Sm); auto.
  { unfold blen. lia. }
  { apply bytes_ok_app; auto with pof. }
  { unfold mem0. rewrite length_app, length_le. fold o in O1. lia. }
  rewrite Em. cbn [mbind option_bind]. rewrite E5. destruct W.
  rewrite sub_buf_in by (unfold blen; lia). cbn [mbind option_bind].
  set (pkt := take _ (drop _ (w_buf (dpp_win (dpp s))))).
  assert (length pkt = Z.to_nat (w_left (dpp_win (dpp s)) - pkt_off)) as Lp
    by (unfold pkt; rewrite length_take, length_drop; lia).
  unfold POF_MTU_LENGTH in *.
  rewrite put_buf_in by (unfold blen; rewrite ?length_drop; lia). cbn [mbind option_bind].
  eexists _, _. split; [reflexivity|].
  assert (fld mem 0 2 = o_whole_len o) as Ew.
  { unfold fld. rewrite drop_0, Tm. unfold mem0. rewrite take_app_length' by (now rewrite length_le).
    apply unle_le_small. cbn. lia. }
  rewrite Ew. cbn [o_buf o_whole_len o_port].
  split; [|split; [|split; [done|split; [done|]]]].
  2: { rewrite sub_buf_in by (unfold blen; rewrite ?length_patch by (rewrite length_drop; lia); rewrite ?length_drop; lia). reflexivity. }
  2: { split; [rewrite length_patch; rewrite length_drop; lia|]. apply bytes_ok_patch; auto with pof. unfold pkt. auto with pof. }
  exists (take (Z.to_nat md_len) (drop 2 mem)). change (Z.to_nat 0) with 0%nat. rewrite drop_0.
  split; [|split; [|split]].
  - unfold patch. rewrite Lp. fold pkt.
    rewrite E6, Z2Nat.inj_add, Nat.add_comm, E5 by lia.
    rewrite take_app_add'; [|rewrite length_take, length_drop; lia]. f_equal.
    rewrite take_app_length' by lia. unfold pkt, win_mem. rewrite drop_drop. do 2 f_equal. lia.
  - rewrite blen_take; [done|]. unfold blen. rewrite length_drop. lia.
  - auto with pof.
  - rewrite <- Sm. apply bits_from_ext. intros q Hq. unfold bit_at. f_equal. rewrite byte_at_take by lia. reflexivity.
Qed.

(** The port an output goes to: found under its slot and its index. *)
Definition out_port (slot port : Z) (dp : pof_datapath) (lrPort : pof_local_resource) (pi : portInfo) : Prop :=
  exists lp pp, pofdp_get_local_resource slot dp = Some (Some lp) /\ res_load lp (slotMap dp) = Some lrPort /\
    poflr_get_port_with_pofindex port lrPort = Some (Some pp) /\ res_load pp (lr_ports lrPort) = Some pi.

Definition sends s : Prop := hd_error (s_sendtos (sur s)) <> Some false.

(** The state after a frame went out. *)
Definition sent_frame (sysIndex : Z) (frame : list Z) s s' : Prop :=
  s_sent (sur s') = s_sent (sur s) ++ [(sysIndex, frame)] /\ lr s' = lr s /\ s_dp (sur s') = s_dp (sur s) /\
  exists o', dpp s' = with_out o' (dpp s) /\ length (o_buf o') = 2048%nat /\ bytes_ok (o_buf o').

Lemma sendto_ok n frame s : sends s -> exists l, sendto n frame s = (true,
  mkSt (dpp s) (lr s) (mkSur (s_dp (sur s)) (local_port_index (sur s)) (s_stack (sur s)) l (s_sent (sur s) ++ [(n, frame)]))).
Proof. unfold sends, sendto. destruct (s_sendtos (sur s)) as [|[] l]; cbn; [eauto..|done]. Qed.

Lemma send_run s e md_off md_len pkt_off slot lrPort pi (o := dpp_out (dpp s)) :
  packet_ok s -> out_ok s ->
  o_metadata_len o = md_len -> o_metadata_offset o = md_off -> o_packet_offset o = pkt_off ->
  o_packet_buf o = w_cur (dpp_win (dpp s)) -> o_packet_len o = w_left (dpp_win (dpp s)) - pkt_off ->
  o_whole_len o = o_packet_len o + md_len -> 0 <= pkt_off <= w_left (dpp_win (dpp s)) -> o_whole_len o <= POF_MTU_LENGTH ->
  0 <= md_len <= 128 -> 0 <= md_off < 65536 -> (md_len = 0 \/ md_off / 8 + md_len + 1 <= 128) ->
  out_port slot (o_port o) (s_dp (sur s)) lrPort pi -> sends s ->
  exists s' frame, pofdp_send_raw lrPort s e = Some ((POF_OK, s'), e) /\ frame_of s md_off md_len pkt_off frame /\
    sent_frame (po_sysIndex pi) frame s s'.
Proof.
  intros P O E1 E2 E3 E4 E5 E6 H1 H2 H3 H4 H5 (lp & pp & _ & _ & Ep & Ei) Hs.
  destruct (fill_run s md_off md_len pkt_off) as (o' & frame & Ef & F & Sb & Wl & Po & Lo & Bo); auto. fold o in Wl, Po.
  destruct (sendto_ok (po_sysIndex pi) frame (upd (with_out o') s) Hs) as (l & El).
  eexists _, frame. split; [|split; [exact F|]].
  - unfold pofdp_send_raw. rewrite run_bind, Ef. cbn [lift]. cbn [upd dpp with_out dpp_out]. rewrite Wl.
    rewrite (proj2 (Z.ltb_ge POF_MTU_LENGTH (o_whole_len o))) by lia.
    rewrite run_bind. unfold send_raw. cbn [upd dpp with_out dpp_out]. rewrite run_bind, Po, Ep. cbn [lift].
    rewrite run_bind, Ei. cbn [lift]. rewrite run_bind, Sb. cbn [lift]. rewrite El. reflexivity.
  - split; [reflexivity|]. split; [reflexivity|]. split; [reflexivity|]. exists o'. auto.
Qed.

(** ** The OUTPUT action *)

(** An OUTPUT of the packet from an offset on, behind some metadata bits. *)
Record output_ok (d : list Z) s (md_off md_len pkt_off value : Z) : Prop := {
  oo_md_off : fld d 2 2 = md_off;
  oo_md_len : fld d 4 2 = md_len;
  oo_pkt_off : fld d 6 2 = pkt_off;
  oo_fits : 0 <= pkt_off <= w_left (dpp_win (dpp s));
  oo_md : 0 <= md_off < 65536 /\ 0 <= md_len < 65536 /\ md_off + md_len + 7 < 1032 /\
          (md_len = 0 \/ md_off / 8 + (md_len + 7) / 8 + 1 <= 128);
  oo_mtu : (md_len + 7) / 8 + (w_left (dpp_win (dpp s)) - pkt_off) <= POF_MTU_LENGTH;
  oo_operand : operand_ok (fld d 0 1) (drop 8 d) s;
  oo_value : operand_of (fld d 0 1) (drop 8 d) s = value;
  oo_flood : Z.land value 0xFFFF <> 255
}.

Definition slot_of (value : Z) : Z := u16 (Z.shiftr value 16).
Definition port_of (value : Z) : Z := Z.land value 0xFFFF.

Lemma output_run s e a md_off md_len pkt_off value lrPort pi :
  packet_ok s -> out_ok s -> cur_action s = Some a -> output_ok (action_data a) s md_off md_len pkt_off value ->
  out_port (slot_of value) (port_of value) (s_dp (sur s)) lrPort pi -> sends s ->
  exists s' frame, execute_OUTPUT s e = Some ((POF_OK, action_update s'), e) /\
    frame_of s md_off ((md_len + 7) / 8) pkt_off frame /\ sent_frame (po_sysIndex pi) frame s s'.
Proof.
  intros P O Ea [E1 E2 E3 H1 (H2 & H3 & H4 & H5) H6 Ho Hv Hf] (lp & pp & L1 & L2 & L3 & L4) Hs.
  pose proof (pk_mdl _ P) as Ml. pose proof (pk_win _ P) as []. unfold POF_MTU_LENGTH in *.
  set (w := dpp_win (dpp s)) in *. set (o := dpp_out (dpp s)).
  set (s1 := upd (with_out (mkOutput (port_of value) (slot_of value) (w_left w - pkt_off) pkt_off ((md_len + 7) / 8) md_off
    (w_left w - pkt_off + (md_len + 7) / 8) (o_buf o) (w_cur w))) s).
  destruct (send_run s1 e md_off ((md_len + 7) / 8) pkt_off (slot_of value) lrPort pi) as (s' & frame & Es & F & S);
    try reflexivity; try (cbn; lia).
  { destruct P. now constructor. }
  { destruct O. now constructor. }
  { exact H1. }
  { cbn. unfold POF_MTU_LENGTH. lia. }
  { cbn [s1 upd dpp with_out dpp_out o_port sur s_dp]. exists lp, pp. auto. }
  { exact Hs. }
  exists s', frame. split; [|split; [exact F|exact S]].
  unfold execute_OUTPUT. rewrite run_bind, Ea. cbn [lift]. rewrite E1, E2, E3. fold w. rewrite Ml.
  rewrite !ceil_bytes by lia. rewrite (proj2 (Z.ltb_ge _ _)) by lia. rewrite (proj2 (Z.ltb_ge _ _)) by lia.
  unfold checked. rewrite run_bind, (operand_run _ _ s e P Ho), Hv. change (POF_OK =? POF_OK) with true. cbv iota.
  fold (slot_of value) (port_of value). rewrite run_bind, L1. cbn [lift]. rewrite run_bind. cbn [upd sur s_dp]. rewrite L2. cbn [lift].
  rewrite (u16_small (w_left w - pkt_off)), (u16_small ((md_len + 7) / 8)), u16_small by lia.
  unfold port_of at 1. rewrite (proj2 (Z.eqb_neq _ _) Hf). unfold then_. rewrite run_bind.
  change (upd (with_out _) (upd _ s)) with s1. rewrite Es. reflexivity.
Qed.

(** ** A received frame *)

(** A frame the port takes in: it is enabled, the frame is not its own, the
    filter lets it through and it is no longer than the MTU. *)
Definition frame_ok (filter : Z -> Z) (port : portInfo) (sll_pkttype : Z) (bytes : list Z) : Prop :=
  po_of_enable port <> POFE_DISABLE /\ sll_pkttype <> PACKET_OUTGOING /\ filter sll_pkttype = POF_OK /\
  blen bytes <= POF_MTU_LENGTH /\ bytes_ok bytes.

Lemma frame_host filter port ty bytes : frame_ok filter port ty bytes -> frame_ok pofdp_promisc port 0 bytes.
Proof. intros (H & _ & _ & L & B). split; [exact H|]. split; [by_decide|]. split; [by_decide|]. now split. Qed.

(** The metadata a packet starts with: its length and the port it came in by. *)
Definition first_metadata (port : portInfo) (bytes : list Z) : list Z :=
  be 2 (blen bytes) ++ [u8 (po_pofIndex port)] ++ zeros 125.

(** The memory the lookup reads the packet from. *)
Definition frame_memory (bytes : list Z) : list Z := bytes ++ zeros (1920 - length bytes).

Definition start (port : portInfo) (bytes : list Z) l su : pst :=
  mkSt (mkPacket (po_pofIndex port) (blen bytes)
    (mkWindow (zeros 128 ++ frame_memory bytes) POFDP_PACKET_PREBUF_LEN POFDP_PACKET_PREBUF_LEN 0 (blen bytes))
    (mkOutput 0 0 0 0 0 0 0 (zeros 2048) 0) (first_metadata port bytes) 128 0 0 None
    (mkProgram [set_goto_first_table_instruction] 0 1 0) (mkActions [] 0 0) false 0) l su.

Lemma received_run port bytes : blen bytes <= POF_MTU_LENGTH ->
  received port bytes = Some (mkPacket (po_pofIndex port) (blen bytes)
    (mkWindow (zeros 128 ++ frame_memory bytes) POFDP_PACKET_PREBUF_LEN POFDP_PACKET_PREBUF_LEN 0 (blen bytes))
    (mkOutput 0 0 0 0 0 0 0 (zeros 2048) 0) [] 0 0 0 None (mkProgram [] 0 0 0) (mkActions [] 0 0) false 0).
Proof.
  intros H. unfold received, POFDP_PACKET_PREBUF_LEN, POF_MTU_LENGTH in *.
  rewrite put_buf_in by (unfold blen, zeros in *; rewrite ?length_replicate; lia). cbn [mbind option_bind]. unfold patch.
  change (Z.to_nat 128) with 128%nat. unfold zeros, frame_memory, blen in *. rewrite take_replicate, drop_replicate.
  change (128 `min` 2048)%nat with 128%nat. do 7 f_equal.
Qed.

Lemma metadata_run port bytes s e : blen bytes <= POF_MTU_LENGTH ->
  ori_len (dpp s) = blen bytes -> ori_port_id (dpp s) = po_pofIndex port ->
  init_packet_metadata POFDP_METADATA_MAX_LEN s e = Some ((POF_OK, upd (with_metadata (first_metadata port bytes) 128) s), e).
Proof.
  intros H E1 E2. unfold init_packet_metadata, POF_PACKET_REL_LEN_SET. change (POFDP_METADATA_MAX_LEN <? sizeof_pofdp_metadata) with false. cbv iota zeta.
  change (zeros (Z.to_nat POFDP_METADATA_MAX_LEN)) with (zeros 128).
  rewrite run_bind. cbn [with_metadata dpp_metadata ori_len]. rewrite E1.
  rewrite set_fld_in by (cbn; lia). cbn [mbind option_bind lift]. rewrite run_bind. cbn [with_metadata dpp_metadata ori_port_id].
  rewrite E2, set_fld_in by (rewrite length_patch; rewrite ?length_le; cbn; lia). cbn [lift].
  replace (le 2 (POF_NTOHS (blen bytes))) with (be 2 (blen bytes)).
  2: { rewrite POF_NTOHS_rev. unfold be. symmetry. 
       pose proof (le_unle (rev (le 2 (blen bytes)))) as L. rewrite length_rev, length_le in L. apply L. auto with pof. }
  unfold first_metadata. do 3 f_equal.
Qed.

Lemma frame_memory_len bytes : blen bytes <= POF_MTU_LENGTH -> length (frame_memory bytes) = 1920%nat.
Proof. unfold frame_memory, zeros, blen, POF_MTU_LENGTH. intros. rewrite length_app, length_replicate. lia. Qed.

Lemma start_ok port bytes l su : frame_ok pofdp_promisc port 0 bytes -> length (s_stack su) = 2048%nat -> bytes_ok (s_stack su) ->
  packet_ok (start port bytes l su) /\ out_ok (start port bytes l su).
Proof.
  intros (_ & _ & _ & H & B) S1 S2. pose proof (frame_memory_len bytes H) as L. unfold POF_MTU_LENGTH in H. split; constructor; cbn [start dpp dpp_win dpp_metadata
    dpp_metadata_len sur dpp_out o_buf]; auto; try by_decide.
  - constructor; cbn [w_buf w_base w_cur w_offset w_left]; auto; unfold POFDP_PACKET_PREBUF_LEN; try (unfold blen in *; lia).
    + rewrite length_app, L. reflexivity.
    + apply bytes_ok_app; [by_decide|]. apply bytes_ok_app; [exact B|apply zeros_ok].
  - unfold first_metadata. apply bytes_ok_app; [auto with pof|]. apply bytes_ok_app; [|by_decide]. repeat constructor; apply u8_byte_ok.
Qed.

(** ** The first table *)

(** Table 0 is the table at [tp]: the types come in the order of their ids. *)
Record first_table l (tp : addr) (t : tableInfo) : Prop := {
  ft_found : poflr_get_table_with_ID POFDP_FIRST_TABLE_ID l = Some (Some tp);
  ft_load : load_table tp l = Some t;
  ft_types : exists n ns, tableNumMaxEachType l = n :: ns /\ 0 < n
}.

Lemma first_table_type l tp t e : first_table l tp t ->
  poflr_table_ID_to_id POFDP_FIRST_TABLE_ID l e = Some ((POF_OK, Some (0, 0)), e) /\ poflr_table_id_to_ID 0 0 l = Some 0.
Proof.
  intros [_ _ (n & ns & E & H)]. unfold poflr_table_ID_to_id, poflr_table_id_to_ID. rewrite E.
  change (Z.to_nat POF_MAX_TABLE_TYPE) with 4%nat. cbn [id_search]. unfold POFDP_FIRST_TABLE_ID.
  rewrite (proj2 (Z.leb_gt n 0)) by lia. split; reflexivity.
Qed.

(** What GOTO_TABLE does once the lookup is done. *)
Definition after_lookup (t : tableInfo) (entry : option addr) s : St (Z * pst) :=
  match entry with
  | None =>
      '(ret, s) ← pofdp_entry_nomatch (upd (with_entry None) s);
      mret (ret, upd (with_done true) s)
  | Some entry =>
      en ← lift (res_load entry (tb_entries t));
      '(ret, s) ← count_on (en_counter_id en) (POF_PACKET_REL_LEN_GET (dpp s)) (upd (with_entry (Some entry)) s);
      mret (ret, enter_entry entry en s)
  end.

Lemma goto_first_run port bytes l su tp t r e : frame_ok pofdp_promisc port 0 bytes ->
  length (s_stack su) = 2048%nat -> bytes_ok (s_stack su) -> first_table l tp t ->
  poflr_entry_lookup (frame_memory bytes) (first_metadata port bytes) t e = Some (r, e) ->
  execute_GOTO_TABLE (start port bytes l su) e = after_lookup t r (start port bytes l su) e.
Proof.
  intros F S1 S2 T El. destruct (start_ok port bytes l su F S1 S2) as [P _]. pose proof (pk_win _ P) as W.
  unfold execute_GOTO_TABLE. rewrite run_bind. change (cur_ins (start port bytes l su)) with (Some set_goto_first_table_instruction).
  cbn [lift]. change (fld (instruction_data set_goto_first_table_instruction) 0 1) with POFDP_FIRST_TABLE_ID.
  change (i16 (fld (instruction_data set_goto_first_table_instruction) 2 2)) with 0.
  unfold then_ at 1. rewrite run_bind, move_run; [|exact W|].
  2: { split; cbn; unfold POFDP_PACKET_PREBUF_LEN; [lia|apply blen_nonneg]. }
  change (POF_OK =? POF_OK) with true. cbv iota.
  replace (upd (with_win (moved (dpp_win (dpp (start port bytes l su))) 0)) (start port bytes l su)) with (start port bytes l su).
  2: { symmetry. apply upd_win_self. unfold moved. cbn [start dpp dpp_win w_buf w_base w_cur w_offset w_left]. f_equal; lia. }
  unfold checked at 1. rewrite run_bind. change (lr (start port bytes l su)) with l.
  destruct (first_table_type l tp t e T) as [-> _]. change (POF_OK =? POF_OK) with true. cbv iota.
  change (upd (with_table 0 0) (start port bytes l su)) with (start port bytes l su). cbv zeta.
  rewrite run_bind. change (lr (start port bytes l su)) with l. rewrite (ft_found _ _ _ T). cbn [lift].
  rewrite run_bind. change (lr (start port bytes l su)) with l. rewrite (ft_load _ _ _ T). cbn [lift].
  rewrite run_bind.
  change (drop _ (w_buf (dpp_win (dpp (start port bytes l su))))) with (frame_memory bytes).
  change (dpp_metadata (dpp (start port bytes l su))) with (first_metadata port bytes). rewrite El. reflexivity.
Qed.

(** Up to the lookup in the first table a frame is left as it came. *)
Lemma recv_run filter port ty bytes l su tp t fuel e : frame_ok filter port ty bytes -> first_table l tp t ->
  pofdp_recv_raw filter fuel port ty bytes l su e =
  match pofdp_instruction_execute fuel (start port bytes l su) e with
  | Some ((_, s), e') => Some ((true, (lr s, sur s)), e')
  | None => None
  end.
Proof.
  intros (F1 & F2 & F3 & F4 & F5) T. unfold pofdp_recv_raw. rewrite run_bind, (received_run _ _ F4). cbn [lift].
  rewrite (proj2 (Z.eqb_neq _ _) F1), (proj2 (Z.eqb_neq _ _) F2), (proj2 (Z.ltb_ge _ _) F4). cbn [orb].
  rewrite F3. change (negb (POF_OK =? POF_OK)) with false. cbv iota.
  rewrite run_bind, (ft_found _ _ _ T). cbn [lift]. rewrite run_bind. unfold pofdp_forward, then_.
  rewrite run_bind, (metadata_run port bytes) by done. change (POF_OK =? POF_OK) with true. cbv iota. rewrite run_bind.
  match goal with |- context [pofdp_instruction_execute fuel ?x e] => change x with (start port bytes l su) end.
  destruct (pofdp_instruction_execute _ _ e) as [[[r s] e']|]; [|done]. destruct (r =? POF_OK); reflexivity.
Qed.

(** ** Packets to the controller *)

Definition packet_in_message (len reason table_id device_id port_id : Z) (data : list Z) : list Z :=
  be 4 0xffffffff ++ be 2 len ++ [u8 reason; u8 table_id] ++ be 8 0 ++ be 4 device_id ++ be 2 POF_SLOT_ID_BASE ++
  be 2 port_id ++ data.

Lemma transfer_packet_in len reason table_id device_id port_id data : bytes_ok data ->
  pof_NtoH_transfer_packet_in (packet_in_bytes len reason table_id device_id port_id data) =
  Some (packet_in_message len reason table_id device_id port_id (data ++ zeros (2048 - length data))).
Proof.
  intros B. assert (bytes_ok (data ++ zeros (2048 - length data))) as Bt by (apply bytes_ok_app; [exact B|apply zeros_ok]). revert Bt.
  unfold pof_NtoH_transfer_packet_in, packet_in_bytes, ntoh_fields. generalize (data ++ zeros (2048 - length data)). intros tl Bt.
  cbn [le app].
  do 6 ntoh_step. reflexivity.
Qed.

(** [pofdp_send_packet_in_to_controller] on a packet within the window. *)
Lemma packet_in_run reason ID s e (n := w_offset (dpp_win (dpp s)) + w_left (dpp_win (dpp s))) :
  packet_ok s -> env_ok e -> quiet e -> sending e = true -> 0 <= n ->
  exists e', send_packet_in reason ID s e = Some ((POF_OK, s), e') /\ reported e e' /\
    send_q e' = send_q e ++ [header_bytes POFT_PACKET_IN (g_upward_xid e) (n + 32) ++
      packet_in_message n (u8 reason) ID (g_poflr_dev_id e) (u8 (ori_port_id (dpp s)))
        (take (Z.to_nat n) (drop 128 (w_buf (dpp_win (dpp s))))) ++ q_residue e].
Proof.
  intros [[] _ _ _ _ _] Ok Q Sd Hn. unfold send_packet_in. unfold POFDP_PACKET_PREBUF_LEN in *.
  rewrite run_bind. unfold POF_FE_ID. rewrite run_bind. unfold get_env at 1. unfold mret at 1, St_ret. cbv beta iota.
  unfold pofdp_send_packet_in_to_controller. fold n. rewrite (u16_small n) by lia. unfold POF_PACKET_IN_MAX_LENGTH.
  rewrite (proj2 (Z.ltb_ge 2048 n)) by lia.
  rewrite wk_base. change (Z.to_nat 128) with 128%nat.
  rewrite run_bind, sub_buf_in by (unfold blen; rewrite ?length_drop; lia). cbn [lift].
  change (Z.to_nat 0) with 0%nat. rewrite drop_0.
  set (data := take (Z.to_nat n) (drop 128 (w_buf (dpp_win (dpp s))))).
  assert (length data = Z.to_nat n) as Ld by (unfold data; rewrite length_take, length_drop; lia).
  assert (bytes_ok data) as Bd by (unfold data; auto with pof).
  rewrite run_bind, transfer_packet_in by exact Bd. cbn [lift]. rewrite run_bind.
  unfold sizeof_pof_packet_in. rewrite u32_small by lia.
  set (body := packet_in_message n (u8 reason) ID (g_poflr_dev_id e) (u8 (ori_port_id (dpp s))) (data ++ zeros (2048 - length data))).
  assert (length body = Z.to_nat 2072) as Lb.
  { unfold body, packet_in_message, zeros. rewrite !length_app, !length_be, length_replicate. cbn [length]. lia. }
  set (e1 := set_upward_xid (u32 (g_upward_xid e + 1)) e).
  change (reply_checked POFT_PACKET_IN upward_xid_pp (2072 - 2048 + n) (Some body) e) with
    (reply_checked POFT_PACKET_IN (mret (g_upward_xid e)) (2072 - 2048 + n) (Some body) e1).
  assert (reported e e1) as R1 by now apply reported_set_upward_xid.
  destruct (reply_checked_quiet POFT_PACKET_IN (2072 - 2048 + n) body (g_upward_xid e) e1) as (e' & E & R & Sq).
  { exact (rp_ok _ _ R1). }
  { exact Q. }
  { exact Sd. }
  { split; [lia|]. split; [unfold blen; lia|]. unfold body, packet_in_message.
    repeat first [exact Bd | apply zeros_ok | apply bytes_ok_be | apply bytes_ok_app].
    repeat constructor; apply u8_byte_ok. }
  exists e'. rewrite E. split; [reflexivity|]. split; [now trans e1|].
  rewrite Sq. change (send_q e1) with (send_q e). change (q_residue e1) with (q_residue e).
  replace (2072 - 2048 + n + 8) with (n + 32) by lia. do 4 f_equal.
  unfold body, packet_in_message. 
  replace (Z.to_nat (2072 - 2048 + n)) with (24 + Z.to_nat n)%nat by lia.
  rewrite !app_assoc. rewrite <- (app_assoc _ data). rewrite take_app_add'; [|now rewrite !length_app, !length_be].
  f_equal. apply take_app_length'. now rewrite Ld.
Qed.

(** ** The first table misses or hits *)

Lemma then_ok m k s e e' : m e = Some ((POF_OK, s), e') -> then_ m k e = k s e'.
Proof. intros E. unfold then_. now rewrite run_bind, E. Qed.

Lemma instruction_step fuel s i e : dpp_packet_done (dpp s) = false -> cur_ins s = Some i ->
  pofdp_instruction_execute (S fuel) s e =
  then_ (execute_instruction fuel (ins_type i) s) (pofdp_instruction_execute fuel) e.
Proof. intros H E. cbn [pofdp_instruction_execute]. now rewrite H, run_bind, E. Qed.

Lemma instruction_end fuel s e : dpp_packet_done (dpp s) = true -> pofdp_instruction_execute fuel s e = Some ((POF_OK, s), e).
Proof. intros H. destruct fuel; cbn [pofdp_instruction_execute]; now rewrite H. Qed.

(** C16. A frame taken in that matches no entry of the first table goes to the
    controller whole: one POFT_PACKET_IN with reason POFR_NO_MATCH, table 0, the
    port it came in by and all of its bytes is queued, nothing is sent out of a
    port and the resources stay as they are. *)
Theorem forward_miss filter port ty bytes l su tp t e fuel :
  frame_ok filter port ty bytes -> length (s_stack su) = 2048%nat -> bytes_ok (s_stack su) ->
  first_table l tp t -> env_ok e -> quiet e -> sending e = true ->
  poflr_entry_lookup (frame_memory bytes) (first_metadata port bytes) t e = Some (None, e) ->
  exists e', pofdp_recv_raw filter (S fuel) port ty bytes l su e = Some ((true, (l, su)), e') /\ reported e e' /\
    send_q e' = send_q e ++ [header_bytes POFT_PACKET_IN (g_upward_xid e) (blen bytes + 32) ++
      packet_in_message (blen bytes) POFR_NO_MATCH 0 (g_poflr_dev_id e) (u8 (po_pofIndex port)) bytes ++ q_residue e].
Proof.
  intros F S1 S2 T Ok Q Sd El. pose proof (frame_host _ _ _ _ F) as F0.
  destruct (start_ok port bytes l su F0 S1 S2) as [P _].
  destruct (packet_in_run POFR_NO_MATCH 0 (start port bytes l su) e P Ok Q Sd) as (e' & E & R & Sq).
  { cbn. apply blen_nonneg. }
  assert (execute_GOTO_TABLE (start port bytes l su) e =
    Some ((POF_OK, upd (with_done true) (start port bytes l su)), e')) as Eg.
  { rewrite (goto_first_run _ _ _ _ _ _ _ _ F0 S1 S2 T El). unfold after_lookup. rewrite run_bind.
    change (upd (with_entry None) (start port bytes l su)) with (start port bytes l su).
    unfold pofdp_entry_nomatch. rewrite run_bind. change (lr (start port bytes l su)) with l.
    change (poflr_table_id_to_ID _ _ l) with (poflr_table_id_to_ID 0 0 l).
    destruct (first_table_type l tp t e T) as [_ ->]. cbn [lift]. now rewrite (then_ok _ _ _ e e' E). }
  rewrite (recv_run _ _ _ _ _ _ _ _ _ _ F T).
  rewrite (instruction_step _ _ set_goto_first_table_instruction) by reflexivity.
  rewrite (then_ok _ _ _ e e' Eg), instruction_end by reflexivity.
  exists e'. split; [reflexivity|]. split; [exact R|]. rewrite Sq.
  change (w_offset (dpp_win (dpp (start port bytes l su))) + w_left (dpp_win (dpp (start port bytes l su)))) with (0 + blen bytes).
  rewrite Z.add_0_l. do 4 f_equal.
  change (drop 128 (w_buf (dpp_win (dpp (start port bytes l su))))) with (frame_memory bytes).
  unfold frame_memory. rewrite take_app_length'; [reflexivity|]. unfold blen. lia.
Qed.

(** An entry whose only instruction applies a single action. *)
Definition applies_one (en : entryInfo) (a : pof_action) : Prop :=
  en_instruction_num en = 1 /\ exists i, en_instruction en !! 0%nat = Some i /\ ins_type i = POFIT_APPLY_ACTIONS /\
    fld (instruction_data i) 0 1 = 1 /\ read_actions (instruction_data i) !! 0%nat = Some a.

Lemma rel_len_start port bytes l su : blen bytes <= POF_MTU_LENGTH ->
  POF_PACKET_REL_LEN_GET (dpp (start port bytes l su)) = blen bytes.
Proof.
  intros H. unfold POF_PACKET_REL_LEN_GET, POF_MTU_LENGTH in *. cbn [start dpp dpp_metadata]. unfold first_metadata, fld.
  rewrite drop_0, take_app_length' by (now rewrite length_be). rewrite POF_NTOHS_rev.
  pose proof (le_unle (be 2 (blen bytes))) as L. rewrite length_be in L. rewrite L by auto with pof.
  unfold be. rewrite rev_involutive, unle_le_small; [apply u16_small|cbn]; unfold blen in *; lia.
Qed.

(** An action list of one OUTPUT. *)
Lemma one_output_run fuel s e a acts : dpp_packet_done (dpp s) = false -> acts !! 0%nat = Some a -> act_type a = POFAT_OUTPUT ->
  (exists s', execute_OUTPUT (upd (with_acts (mkActions acts 0 1)) s) e = Some ((POF_OK, action_update s'), e) /\
    dpp_acts (dpp s') = mkActions acts 0 1) ->
  exists s', execute_OUTPUT (upd (with_acts (mkActions acts 0 1)) s) e = Some ((POF_OK, action_update s'), e) /\
    pofdp_action_execute (S fuel) (upd (with_acts (mkActions acts 0 1)) s) e = Some ((POF_OK, action_update s'), e).
Proof.
  intros Hd Ha Ty (s' & E & A). exists s'. split; [exact E|]. cbn [pofdp_action_execute upd dpp with_acts dpp_packet_done dpp_acts ac_num].
  rewrite Hd. cbn [negb andb]. change (0 <? 1) with true. cbv iota. rewrite run_bind.
  change (cur_action _) with (acts !! 0%nat). rewrite Ha. cbn [lift]. rewrite Ty.
  change (execute_action ?f POFAT_OUTPUT) with execute_OUTPUT. unfold then_. rewrite run_bind.
  change (mkSt _ (lr s) (sur s)) with (upd (with_acts (mkActions acts 0 1)) s). rewrite E.
  change (POF_OK =? POF_OK) with true. cbv iota.
  assert (ac_num (dpp_acts (dpp (action_update s'))) = 0) as N by (unfold action_update; cbn; now rewrite A).
  destruct fuel; cbn [pofdp_action_execute]; rewrite N, andb_false_r; reflexivity.
Qed.

(** C15. A frame taken in whose lookup in the first table hits an entry that applies one
    OUTPUT leaves by that port, and only there: what is sent is the metadata
    bits asked for and then the frame's bytes from the packet offset on, the
    entry's counter counts the frame, and the controller hears nothing. *)
Theorem forward_output filter port ty bytes l l' su tp t entry en a md_off md_len pkt_off value lrPort pi e fuel :
  frame_ok filter port ty bytes -> length (s_stack su) = 2048%nat -> bytes_ok (s_stack su) ->
  first_table l tp t ->
  poflr_entry_lookup (frame_memory bytes) (first_metadata port bytes) t e = Some (Some entry, e) ->
  res_load entry (tb_entries t) = Some en -> applies_one en a -> act_type a = POFAT_OUTPUT ->
  poflr_counter_increace (en_counter_id en) (blen bytes) l e = Some ((POF_OK, l'), e) ->
  output_ok (action_data a) (start port bytes l su) md_off md_len pkt_off value ->
  out_port (slot_of value) (port_of value) (s_dp su) lrPort pi -> hd_error (s_sendtos su) <> Some false ->
  exists su' md, pofdp_recv_raw filter (S (S (S fuel))) port ty bytes l su e = Some ((true, (l', su')), e) /\
    s_sent su' = s_sent su ++ [(po_sysIndex pi, md ++ drop (Z.to_nat pkt_off) bytes)] /\
    blen md = (md_len + 7) / 8 /\
    bits_from md 0 (Z.to_nat (8 * blen md)) = bits_from (first_metadata port bytes) md_off (Z.to_nat (8 * blen md)).
Proof.
  intros F S1 S2 T El Een (N1 & i & Ei & Ti & Ni & Ea) Ta Ec Ho Hp Hs. pose proof (frame_host _ _ _ _ F) as F0.
  destruct (start_ok port bytes l su F0 S1 S2) as [P O]. pose proof F as (_ & _ & _ & Lb & _).
  set (s2 := enter_entry entry en (with_lr l' (upd (with_entry (Some entry)) (start port bytes l su)))).
  assert (execute_GOTO_TABLE (start port bytes l su) e = Some ((POF_OK, s2), e)) as Eg.
  { rewrite (goto_first_run _ _ _ _ _ _ _ _ F0 S1 S2 T El). unfold after_lookup. rewrite run_bind.
    rewrite Een. cbn [lift]. rewrite run_bind. unfold count_on. rewrite run_bind, (rel_len_start _ _ _ _ Lb).
    change (lr (upd (with_entry (Some entry)) (start port bytes l su))) with l. now rewrite Ec. }
  set (acts := read_actions (instruction_data i)) in *. set (s3 := upd (with_acts (mkActions acts 0 1)) s2).
  assert (packet_ok s3 /\ out_ok s3) as [P3 O3] by (destruct P, O; split; now constructor).
  destruct (output_run s3 e a md_off md_len pkt_off value lrPort pi) as (s' & frame & Es & (md & -> & Lm & _ & Bm) & Sl & Rl & _ & o' & Dp & _);
    auto.
  { destruct Ho. now constructor. }
  assert (execute_APPLY_ACTIONS (S fuel) s2 e = Some ((POF_OK, upd (with_done true) (action_update s')), e)) as Ea2.
  { unfold execute_APPLY_ACTIONS. rewrite run_bind. change (cur_ins s2) with (en_instruction en !! 0%nat). rewrite Ei. cbn [lift].
    rewrite Ni. fold acts.
    destruct (one_output_run fuel s2 e a acts) as (s4 & E4 & E5); auto.
    { exists s'. split; [exact Es|]. rewrite Dp. reflexivity. }
    fold s3 in E4, E5. rewrite Es in E4. assert (action_update s4 = action_update s') as Eu by congruence.
    fold s3. rewrite (then_ok _ _ _ _ _ E5), Eu.
    unfold instruction_update. change (dpp_prog (dpp (action_update s'))) with (dpp_prog (dpp s')). rewrite Dp.
    change (pr_todo (dpp_prog (with_out o' (dpp s3)))) with (en_instruction_num en). now rewrite N1. }
  rewrite (recv_run _ _ _ _ _ _ _ _ _ _ F T).
  rewrite (instruction_step _ _ set_goto_first_table_instruction) by reflexivity.
  rewrite (then_ok _ _ s2 e e Eg), (instruction_step _ _ i) by (reflexivity || exact Ei). rewrite Ti.
  rewrite (then_ok _ _ _ e e Ea2), instruction_end by reflexivity.
  exists (sur s'), md. split; [cbn; rewrite Rl; reflexivity|]. split; [|split; [exact Lm|]].
  - rewrite Sl. change (s_sent (sur s3)) with (s_sent su). do 4 f_equal.
    change (win_mem (dpp_win (dpp s3))) with (frame_memory bytes). change (w_left (dpp_win (dpp s3))) with (blen bytes).
    pose proof (oo_fits _ _ _ _ _ _ Ho) as Hk. change (w_left _) with (blen bytes) in Hk. unfold frame_memory, blen in *.
    rewrite drop_app_le by lia. apply take_app_length'. rewrite length_drop. lia.
  - rewrite Lm. exact Bm.
Qed.

(** ** Witnesses *)

Definition frame_example : list Z := [1; 2; 3; 4; 5; 6; 7; 8; 9; 10; 11; 12; 8; 0].
Definition port_in : portInfo := mkPortInfo 3 11 0 0 1 0 (zeros 6) (zeros 64) (zeros 20) 0 (replicate 9 0) 0.
Definition port_out : portInfo := mkPortInfo 5 12 0 0 1 0 (zeros 6) (zeros 64) (zeros 20) 0 (replicate 9 0) 0.

(** A slot with one table and a counter. *)
Definition slot_with (es : resource entryInfo) (packets bytes : Z) : pof_local_resource :=
  lr_example (res_one (table_example POF_MM_TABLE es) 40) (res_none 8) (res_none 8)
    (res_one (mkCounterInfo 7 packets bytes) 512).

(** The datapath: the same slot with its port 5. *)
Definition slot_out : pof_local_resource :=
  mkLR 0 (res_one port_out 8) (res_none 40) [10; 10; 10; 10] 1000 [160; 160; 160; 160] (res_none 8) (res_none 8) (res_none 512) (res_none 8) 0.
Definition sur_example : surroundings := mkSur (mkDp (res_one slot_out 1) device_example) 9 (zeros 2048) [] [].

Definition output_action : pof_action :=
  mkAction POFAT_OUTPUT 20 (zeros 8 ++ [5; 0; 0; 0] ++ zeros 32).
Definition output_entry : entryInfo :=
  mkEntryInfo 3 7 1 [mkInstruction POFIT_APPLY_ACTIONS 56
      ([1; 0; 0; 0; 0; 0; 0; 0] ++ [0; 0; 20; 0] ++ action_data output_action ++ zeros 240)]
    7 64 1 (en_match mm_entry) (en_value mm_entry) (en_mask mm_entry).

Lemma frame_example_ok : frame_ok pofdp_no_promisc port_in 0 frame_example.
Proof. split; [by_decide|]. split; [by_decide|]. split; [by_decide|]. split; by_decide. Qed.

Lemma slot_first es packets bytes : first_table (slot_with es packets bytes) 1%positive (table_example POF_MM_TABLE es).
Proof. constructor; [reflexivity..|]. eexists _, _. split; [reflexivity|lia]. Qed.

Lemma forward_miss_witness :
  exists e', pofdp_recv_raw pofdp_no_promisc 1 port_in 0 frame_example (slot_with no_entries 41 1000) sur_example (env_init POFCS_CHANNEL_RUN [] []) =
      Some ((true, (slot_with no_entries 41 1000, sur_example)), e') /\ length (send_q e') = 1%nat.
Proof.
  destruct (forward_miss pofdp_no_promisc port_in 0 frame_example (slot_with no_entries 41 1000) sur_example 1%positive (table_example POF_MM_TABLE no_entries)
    (env_init POFCS_CHANNEL_RUN [] []) 0 frame_example_ok eq_refl (zeros_ok 2048) (slot_first _ _ _) (env_init_ok _ _ _)
    ltac:(repeat split) eq_refl ltac:(vm_compute; reflexivity)) as (e' & E & _ & S).
  exists e'. split; [exact E|]. rewrite S. reflexivity.
Defined.

Lemma forward_output_witness :
  exists su', pofdp_recv_raw pofdp_no_promisc 3 port_in 0 frame_example (slot_with (one_entry 3 output_entry) 41 1000) sur_example
      (env_init POFCS_CHANNEL_RUN [] []) =
      Some ((true, (slot_with (one_entry 3 output_entry) 42 1014, su')), env_init POFCS_CHANNEL_RUN [] []) /\
    exists md, s_sent su' = [(12, md ++ frame_example)] /\ blen md = 0.
Proof.
  destruct (forward_output pofdp_no_promisc port_in 0 frame_example (slot_with (one_entry 3 output_entry) 41 1000)
    (slot_with (one_entry 3 output_entry) 42 1014) sur_example 1%positive (table_example POF_MM_TABLE (one_entry 3 output_entry)) 1%positive
    output_entry output_action 0 0 0 5 slot_out port_out (env_init POFCS_CHANNEL_RUN [] []) 0) as (su' & md & E & S & L & _).
  - exact frame_example_ok.
  - reflexivity.
  - apply zeros_ok.
  - apply slot_first.
  - vm_compute. reflexivity.
  - reflexivity.
  - split; [reflexivity|]. eexists. split; [reflexivity|]. repeat split.
  - reflexivity.
  - vm_compute. reflexivity.
  - constructor; try reflexivity; try by_decide.
  - exists 1%positive, 1%positive. repeat split.
  - discriminate.
  - exists su'. split; [exact E|]. exists md. split; [exact S|exact L].
Defined.
