(* ===== verification/Hazards.v ===== *)
(** * Inputs the datapath does not survive

    Flow entries and groups the parser accepts although processing a packet
    with them never ends or leaves the packet's buffers: [None] is a memory
    fault, an undefined operation or, for every [fuel], a loop without end. *)

From S2P Require Import Prelude Bits Codec Env Tree FlowEntry Hmap IdMap LocalRes ByteTransfer Port Counter Meter Group FlowTable Slot Parse Packet Action Instruction FieldSpec PacketSpec.

Implicit Types (s : pst) (p : pofdp_packet).

(** ** Loops *)

(** An instruction that succeeds and leaves the state as it is, not done. *)
Lemma instruction_stuck s i : dpp_packet_done (dpp s) = false -> cur_ins s = Some i ->
  (forall fuel e, execute_instruction fuel (ins_type i) s e = Some ((POF_OK, s), e)) ->
  forall fuel e, pofdp_instruction_execute fuel s e = None.
Proof.
  intros H Hi He. induction fuel as [|fuel IH]; intros e; cbn [pofdp_instruction_execute]; rewrite H; [done|].
  rewrite run_bind, Hi. cbn [lift]. unfold then_. rewrite run_bind, He. apply IH.
Qed.

(** A jump forward by 0, whatever the comparison says. *)
Definition jump_here : pof_instruction :=
  mkInstruction POFIT_CONDITIONAL_JMP 56 (zeros 8 ++ [0; 0; 0; 0; 8; 0; 0; 0] ++ zeros 280).

(** A CONDITIONAL_JMP by 0 is accepted and executed again and again: no
    amount of fuel finishes the packet. *)
Theorem jump_in_place_never_ends fuel e :
  pofdp_instruction_execute fuel (packet_example (mkProgram [jump_here] 0 1 0) (mkActions [] 0 0)) e = None.
Proof.
  apply (instruction_stuck _ jump_here); [reflexivity|reflexivity|]. intros f e'. vm_compute. reflexivity.
Qed.

(** A group whose only action names the group itself. *)
Definition self_action : pof_action := mkAction POFAT_GROUP 8 ([5; 0; 0; 0] ++ zeros 40).
Definition self_group : groupInfo := mkGroupInfo 0 1 5 0 (self_action :: replicate 3 action_zero).
Definition self_group_state : pst :=
  mkSt (dpp (packet_example (mkProgram [] 0 0 0) (mkActions (gr_action self_group) 0 (gr_action_number self_group))))
    (lr_example (res_none 40) (res_one self_group 8) (res_none 8) (res_none 512))
    (sur (packet_example (mkProgram [] 0 0 0) (mkActions [] 0 0))).

Lemma self_group_again rec e : execute_GROUP rec self_group_state e =
  then_ (rec self_group_state) (fun s => mret (POF_OK, s)) e.
Proof.
  unfold execute_GROUP. rewrite run_bind. change (cur_action self_group_state) with (Some self_action). cbn [lift].
  rewrite run_bind. change (poflr_get_group_with_ID _ _) with (Some (Some 1%positive)). cbn [lift].
  rewrite run_bind. change (res_load _ _) with (Some self_group). cbn [lift]. reflexivity.
Qed.

(** A group among whose actions is the group itself runs itself before
    anything behind it, forever. *)
Theorem group_in_itself_never_ends fuel e : pofdp_action_execute fuel self_group_state e = None.
Proof.
  revert e. induction fuel as [|fuel IH]; intros e; [reflexivity|].
  cbn [pofdp_action_execute]. change (negb _ && _) with true. cbv iota. rewrite run_bind.
  change (cur_action self_group_state) with (Some self_action). cbn [lift].
  change (execute_action ?r _) with (execute_GROUP r). unfold then_ at 1. rewrite run_bind, self_group_again.
  unfold then_. rewrite run_bind. now rewrite IH.
Qed.

(** ** Out of the buffers *)

Definition at_end (left : Z) (a : pof_action) : pst :=
  upd (with_win (mkWindow (zeros 2048) 128 128 0 left)) (packet_example (mkProgram [] 0 0 0) (mkActions [a] 0 1)).

(** A 128-bit field put in after 16 bytes. *)
Definition wide_tag : pof_action :=
  mkAction POFAT_ADD_FIELD 28 ([0; 0; 128; 0; 128; 0; 0; 0] ++ replicate 16 255 ++ zeros 20).

(** ADD_FIELD compares the length of the packet with the size of the whole
    buffer although the packet starts 128 bytes into it: a field added to a
    packet of 1905 bytes passes the check and is written past the buffer. *)
Theorem add_field_overruns_buffer e : window_ok (dpp_win (dpp (at_end 1905 wide_tag))) /\
  w_offset (dpp_win (dpp (at_end 1905 wide_tag))) + w_left (dpp_win (dpp (at_end 1905 wide_tag))) + 16 <= POFDP_PACKET_RAW_MAX_LEN /\
  execute_ADD_FIELD (at_end 1905 wide_tag) e = None.
Proof. split; [constructor; try reflexivity; by_decide|]. split; [by_decide|]. vm_compute. reflexivity. Qed.

(** WRITE_METADATA has no bounds check: 8 bits behind the 128 bytes of metadata
    are written past the allocation. *)
Definition behind_metadata : pof_instruction :=
  mkInstruction POFIT_WRITE_METADATA 24 ([0; 4; 8; 0; 255] ++ zeros 291).

Lemma write_metadata_overruns e :
  execute_WRITE_METADATA (packet_example (mkProgram [behind_metadata] 0 1 0) (mkActions [] 0 0)) e = None.
Proof. vm_compute. reflexivity. Qed.
