(* ===== verification/Switch.v ===== *)
(** * The connection to the controller (switch_control/pof_switch.c)

    The three tasks that share [pofsc_conn_desc]: the state machine
    [pofsc_main_task], the sender [pofsc_send_msg_task] and the echo timer.
    One step of a task is one round of its loop (or one run of the timer).
    What the sockets deliver is part of the state: the outcomes of the coming
    [socket], [connect] and [write] calls, and the chunks the coming [read]s
    find; a [read] with nothing left to find never returns. *)

From S2P Require Import Prelude Codec Env Hmap IdMap LocalRes ByteTransfer Counter Group Meter FlowTable Slot Parse.
From Stdlib Require String.
Import String.StringSyntax.
#[local] Open Scope string_scope.

Definition POF_SEND_FAILURE : Z := 0x7003.        (* POF_SEND_MSG_FAILURE *)
Definition POF_RECEIVE_MSG_FAILURE : Z := 0x7004.
Definition POF_CONNECT_SERVER_FAILURE : Z := 0x7002.
Definition POF_WRONG_CHANNEL_STATE : Z := 0x7005.
Definition POFBRC_BAD_LEN : Z := 6.
Definition POF_RECV_BUF_MAX_SIZE : Z := POF_MESSAGE_SIZE.
Definition POF_QUEUE_MESSAGE_LEN : Z := POF_MESSAGE_SIZE.

(** ** State *)

(** The local variables of the main task that survive a round. *)
Record framing := mkFraming { total_len : Z; rcv_len : Z; process_len : Z; left_len : Z }.

(** [pofsc_conn_desc] (its state is [conn_state] of the environment) and
    [pofsc_protocol_error]. *)
Record conn := mkConn {
  sfd : Z; recv_buf : list Z; send_buf : list Z; msg_buf : list Z;
  conn_retry_count : Z; last_error : Z; last_echo_time : Z;
  fr : framing;
  protocol_error : list Z      (* 272 bytes; type 0xffff: no error *)
}.

Record world := mkWorld {
  w_sockets : list (option Z);      (* the descriptor, or failure *)
  w_connects : list (option Z);     (* the device id of the local port, or failure *)
  w_reads : list (list Z);          (* [] : the peer has closed *)
  w_writes : list bool;
  w_written : list (list Z);        (* on the current connection, oldest first *)
  w_auto_clear : bool;              (* pof_auto_clear () *)
  w_time : Z;
  w_exited : bool                   (* terminate_handler has run *)
}.

Record mst := mkM { cn : conn; wd : world; m_dp : pof_datapath }.
Implicit Types (s : mst) (c : conn) (w : world).

(** *** Updates *)

Definition with_sfd x c := mkConn x (recv_buf c) (send_buf c) (msg_buf c) (conn_retry_count c) (last_error c)
  (last_echo_time c) (fr c) (protocol_error c).
Definition with_recv_buf b c := mkConn (sfd c) b (send_buf c) (msg_buf c) (conn_retry_count c) (last_error c)
  (last_echo_time c) (fr c) (protocol_error c).
Definition with_send_buf b c := mkConn (sfd c) (recv_buf c) b (msg_buf c) (conn_retry_count c) (last_error c)
  (last_echo_time c) (fr c) (protocol_error c).
Definition with_msg_buf b c := mkConn (sfd c) (recv_buf c) (send_buf c) b (conn_retry_count c) (last_error c)
  (last_echo_time c) (fr c) (protocol_error c).
Definition with_retry n c := mkConn (sfd c) (recv_buf c) (send_buf c) (msg_buf c) n (last_error c)
  (last_echo_time c) (fr c) (protocol_error c).
Definition with_last_error x c := mkConn (sfd c) (recv_buf c) (send_buf c) (msg_buf c) (conn_retry_count c) x
  (last_echo_time c) (fr c) (protocol_error c).
Definition with_echo_time t c := mkConn (sfd c) (recv_buf c) (send_buf c) (msg_buf c) (conn_retry_count c) (last_error c)
  t (fr c) (protocol_error c).
Definition with_fr f c := mkConn (sfd c) (recv_buf c) (send_buf c) (msg_buf c) (conn_retry_count c) (last_error c)
  (last_echo_time c) f (protocol_error c).
Definition with_protocol_error b c := mkConn (sfd c) (recv_buf c) (send_buf c) (msg_buf c) (conn_retry_count c) (last_error c)
  (last_echo_time c) (fr c) b.

Definition upd_conn (f : conn -> conn) s := mkM (f (cn s)) (wd s) (m_dp s).
Definition upd_world (f : world -> world) s := mkM (cn s) (f (wd s)) (m_dp s).
Definition with_dp dp s := mkM (cn s) (wd s) dp.
Definition with_reads r w := mkWorld (w_sockets w) (w_connects w) r (w_writes w) (w_written w) (w_auto_clear w) (w_time w) (w_exited w).
Definition with_written wr m w := mkWorld (w_sockets w) (w_connects w) (w_reads w) wr m (w_auto_clear w) (w_time w) (w_exited w).
Definition with_exited w := mkWorld (w_sockets w) (w_connects w) (w_reads w) (w_writes w) (w_written w) (w_auto_clear w) (w_time w) true.

Definition set_dev_id x (e : env) :=
  mkEnv (g_recv_xid e) (g_upward_xid e) (g_pofec_error e) x (conn_state e)
    (queue_msg_buf e) (send_q_valid e) (send_q e) (q_residue e) (mallocs e) (msgsnds e).

Definition get_state : St pof_channel_state := e ← get_env; mret (conn_state e).
Definition set_state (x : pof_channel_state) : St unit := mod_env (set_conn_state x).

(** [exit]: no task takes another step. *)
Definition terminate_handler s : mst := upd_world with_exited s.

(** ** Sockets *)

(** Reconnect after the controller has gone; the slots are cleared if
    configured so. *)
Definition pofsc_performance_after_ctrl_disconn s : St mst :=
  _ ← set_state POFCS_CHANNEL_INVALID;
  if w_auto_clear (wd s) then
    '(_, dp) ← each_slot poflr_clear_resource (m_dp s); mret (with_dp dp s)
  else mret s.

Definition pofsc_create_socket s : option Z * mst :=
  match w_sockets (wd s) with
  | [] => (Some 3, s)
  | r :: l => (r, upd_world (fun w => mkWorld l (w_connects w) (w_reads w) (w_writes w) (w_written w) (w_auto_clear w)
                                        (w_time w) (w_exited w)) s)
  end.

(** A new connection: nothing written on it yet.  The device id is that of the
    local port the connection uses, found once. *)
Definition pofsc_connect s : St (Z * mst) :=
  let '(r, l) := match w_connects (wd s) with [] => (Some 1, []) | r :: l => (r, l) end in
  let s := upd_world (fun w => mkWorld (w_sockets w) l (w_reads w) (w_writes w) (w_written w) (w_auto_clear w)
                                 (w_time w) (w_exited w)) s in
  match r with
  | None => mret (POF_CONNECT_SERVER_FAILURE, s)
  | Some id =>
      e ← get_env;
      _ ← (if g_poflr_dev_id e =? 0 then mod_env (set_dev_id (if id =? 0 then 1 else id)) else mret tt);
      mret (POF_OK, upd_world (fun w => with_written (w_writes w) [] w) s)
  end.

(** [read] into [recv_buf] at [off], at most [buflen] bytes; the result is the
    return code and the length read. *)
Definition pofsc_recv (off buflen : Z) s : St (Z * Z * mst) :=
  if buflen =? 0 then mret (POF_RECEIVE_MSG_FAILURE, 0, s)
  else
    match w_reads (wd s) with
    | [] => fault
    | [] :: l =>
        s ← pofsc_performance_after_ctrl_disconn (upd_world (with_reads l) s);
        mret (POF_RECEIVE_MSG_FAILURE, 0, s)
    | chunk :: l =>
        let got := take (Z.to_nat buflen) chunk in
        let rest := drop (Z.to_nat buflen) chunk in
        b ← lift (put_buf (recv_buf (cn s)) off got);
        mret (POF_OK, blen got, upd_conn (with_recv_buf b)
          (upd_world (with_reads (match rest with [] => l | _ => rest :: l end)) s))
    end.

Definition pofsc_send (buf : list Z) (len : Z) s : St (Z * mst) :=
  m ← lift (sub_buf buf 0 len);
  match w_writes (wd s) with
  | [] => mret (POF_OK, upd_world (fun w => with_written [] (w_written w ++ [m]) w) s)
  | true :: l => mret (POF_OK, upd_world (fun w => with_written l (w_written w ++ [m]) w) s)
  | false :: l =>
      s ← pofsc_performance_after_ctrl_disconn (upd_world (fun w => with_written l (w_written w) w) s);
      mret (POF_SEND_FAILURE, s)
  end.

(** ** Messages *)

Definition pofsc_build_header (type len xid : Z) : option (list Z) :=
  pof_HtoN_transfer_header (le 1 POF_VERSION ++ le 1 type ++ le 2 len ++ le 4 xid).

(** [POF_NTOHS(head_ptr->length)] of the header at [off] of the buffer. *)
Definition head_length (buf : list Z) (off : Z) : option Z :=
  b ← sub_buf buf (off + 2) 2; Some (u16 (POF_NTOHS (fld b 0 2))).
Definition head_type (buf : list Z) (off : Z) : option Z := b ← sub_buf buf (off + 1) 1; Some (fld b 0 1).
Definition head_version (buf : list Z) (off : Z) : option Z := b ← sub_buf buf off 1; Some (fld b 0 1).

Definition pofsc_set_error (type code : Z) s : St mst :=
  e ← get_env;
  let b := be 2 type ++ be 2 code ++ be 4 (g_poflr_dev_id e) ++ be 2 POF_SLOT_ID_BASE ++ drop 10 (protocol_error (cn s)) in
  mret (upd_conn (with_protocol_error b) s).

(** Into [send_buf]; the record is cleared. *)
Definition pofsc_build_error_msg s : St mst :=
  x ← upward_xid_pp;
  h ← lift (pofsc_build_header POFT_ERROR (sizeof_pof_header + sizeof_pof_error) x);
  b ← lift (put_buf (send_buf (cn s)) 0 (h ++ protocol_error (cn s)));
  mret (upd_conn (fun c => with_send_buf b (with_protocol_error (le 2 0xffff ++ drop 2 (protocol_error c)) c)) s).

Definition report_protocol_error s : St mst :=
  if fld (protocol_error (cn s)) 0 2 =? 0xffff then mret s
  else
    s ← pofsc_build_error_msg s;
    ret ← pofbf_queue_write (send_buf (cn s)) (sizeof_pof_header + sizeof_pof_error) POF_WAIT_FOREVER;
    if negb (ret =? POF_OK) then mret (terminate_handler s) else mret s.

(** ** The main task *)

Section MainTask.
  (** As in [pof_parse_msg_from_controller]. *)
  Context (g : list Z) (unspecified : Z).

(** Handle the message at [process_len] of the buffer, in place. *)
Definition parse_at (off : Z) s : St (Z * mst) :=
  let b := recv_buf (cn s) in
  '(ret, (m, dp)) ← pof_parse_msg_from_controller g unspecified (drop (Z.to_nat off) b) (m_dp s);
  mret (ret, with_dp dp (upd_conn (with_recv_buf (take (Z.to_nat off) b ++ m)) s)).

Definition pofsc_run_process (off len : Z) s : St (Z * mst) :=
  l ← lift (head_length (recv_buf (cn s)) off);
  if negb (l =? len) then s ← pofsc_set_error (ec_num POFET_BAD_REQUEST) POFBRC_BAD_LEN s; mret (POF_OK, s)
  else
    type ← lift (head_type (recv_buf (cn s)) off);
    if type =? POFT_ECHO_REPLY then mret (POF_OK, upd_conn (with_echo_time (w_time (wd s))) s)
    else parse_at off s.

(** [left_len >= sizeof(pof_header)] compares as unsigned. *)
Definition complete s : option bool :=
  let f := fr (cn s) in
  if 8 <=? u64 (left_len f) then
    l ← head_length (recv_buf (cn s)) (process_len f); Some (l <=? left_len f)
  else Some false.

(** Move the left data to the head of a full buffer: [memcpy] of overlapping
    or negative ranges is undefined. *)
Definition compact s : option mst :=
  let f := fr (cn s) in
  if rcv_len f =? POF_RECV_BUF_MAX_SIZE then
    if (left_len f <? 0) || (process_len f <? left_len f) then None
    else
      d ← sub_buf (recv_buf (cn s)) (process_len f) (left_len f);
      b ← put_buf (recv_buf (cn s)) 0 d;
      Some (upd_conn (fun c => with_fr (mkFraming (total_len f) (left_len f) 0 (left_len f)) (with_recv_buf b c)) s)
  else Some s.

(** [while(total_len < POF_NTOHS(head_ptr->length))]: [head_ptr] stays where it
    is; only in the RUN state ([run]) the buffer is compacted.  Every [read]
    that succeeds takes a byte from the reads to come: [fuel] bounds them. *)
Fixpoint await (run : bool) (fuel : nat) (head : Z) s : St mst :=
  l ← lift (head_length (recv_buf (cn s)) head);
  if total_len (fr (cn s)) <? l then
    match fuel with
    | O => fault
    | S fuel' =>
        s ← lift (if run then
                    let f := fr (cn s) in
                    compact (upd_conn (with_fr (mkFraming (total_len f) (rcv_len f) (process_len f)
                                                  (rcv_len f - process_len f))) s)
                  else Some s);
        let f := fr (cn s) in
        '(ret, n, s) ← pofsc_recv (rcv_len f) (POF_RECV_BUF_MAX_SIZE - rcv_len f) s;
        if negb (ret =? POF_OK) then mret s
        else await run fuel' head (upd_conn (with_fr (mkFraming (total_len f + n) (rcv_len f + n) (process_len f)
                                                        (left_len f))) s)
    end
  else mret s.

Definition read_fuel s : nat := S (length (concat (w_reads (wd s)))).

(** Make a whole message available at [process_len]; the result tells whether
    the round goes on.  [next] is the state set after the first [read]. *)
Definition fetch (run : bool) (next : option pof_channel_state) s : St (bool * mst) :=
  ok ← lift (complete s);
  if (ok : bool) then mret (true, s)
  else
    s ← lift (if run then compact s else Some s);
    let f := fr (cn s) in
    '(ret, n, s) ← pofsc_recv (rcv_len f) (POF_RECV_BUF_MAX_SIZE - rcv_len f) s;
    if negb (ret =? POF_OK) then mret (false, s)
    else
      _ ← match next with Some x => set_state x | None => mret tt end;
      s ← await run (read_fuel s) (process_len f)
            (upd_conn (with_fr (mkFraming (n + left_len f) (rcv_len f + n) (process_len f) (left_len f))) s);
      mret (true, s).

(** [process_len += packet_len], and start over with an empty buffer. *)
Definition consumed (packet_len : Z) s : mst :=
  let f := fr (cn s) in
  let p := process_len f + packet_len in
  let left := rcv_len f - p in
  upd_conn (with_fr (if left =? 0 then mkFraming (total_len f) 0 0 0 else mkFraming (total_len f) (rcv_len f) p left)) s.

Definition invalidate s : St mst := _ ← set_state POFCS_CHANNEL_INVALID; mret s.

Definition state_INVALID s : St mst :=
  let '(fd, s) := pofsc_create_socket s in
  match fd with
  | Some fd => _ ← set_state POFCS_CHANNEL_CONNECTING; mret (upd_conn (with_sfd fd) s)
  | None => mret (terminate_handler s)
  end.

Definition state_CONNECTING s : St mst :=
  '(ret, s) ← pofsc_connect s;
  if ret =? POF_OK then _ ← set_state POFCS_CHANNEL_CONNECTED; mret (upd_conn (with_retry 0) s)
  else
    _ ← set_state POFCS_CHANNEL_INVALID;
    mret (upd_conn (fun c => with_sfd 0 (with_last_error (u8 POF_CONNECT_SERVER_FAILURE)
            (with_retry (u32 (conn_retry_count c + 1)) c))) s).

Definition state_CONNECTED s : St mst :=
  x ← upward_xid_pp;
  h ← lift (pofsc_build_header POFT_HELLO sizeof_pof_header x);
  '(ret, s) ← pofsc_send h sizeof_pof_header s;
  if ret =? POF_OK then _ ← set_state POFCS_HELLO; mret s else mret s.

Definition state_HELLO s : St mst :=
  let s := upd_conn (with_fr (mkFraming 0 0 0 0)) s in
  '(ret, n, s) ← pofsc_recv 0 POF_RECV_BUF_MAX_SIZE s;
  if negb (ret =? POF_OK) then mret s
  else
    '(_, dp) ← each_slot poflr_clear_resource (m_dp s);
    let s := with_dp dp s in
    _ ← set_state POFCS_REQUEST_FEATURE;
    s ← await false (read_fuel s) 0 (upd_conn (with_fr (mkFraming n n 0 0)) s);
    st ← get_state;
    if decide (st = POFCS_CHANNEL_INVALID) then mret s
    else
      version ← lift (head_version (recv_buf (cn s)) 0);
      type ← lift (head_type (recv_buf (cn s)) 0);
      s ← (if (POF_VERSION <? version) || negb (type =? POFT_HELLO) then invalidate s else mret s);
      l ← lift (head_length (recv_buf (cn s)) 0);
      mret (consumed l s).

(** The three states that wait for one request each; [next] is entered once
    bytes have been read and again before the request is handled, or after it
    ([late]). *)
Definition state_request (type : Z) (check_version late : bool) (next : pof_channel_state) s : St mst :=
  '(go, s) ← fetch false (Some next) s;
  st ← get_state;
  if negb go || bool_decide (st = POFCS_CHANNEL_INVALID) then mret s
  else
    let off := process_len (fr (cn s)) in
    version ← lift (head_version (recv_buf (cn s)) off);
    t ← lift (head_type (recv_buf (cn s)) off);
    if (check_version && (POF_VERSION <? version)) || negb (t =? type) then invalidate s
    else
      packet_len ← lift (head_length (recv_buf (cn s)) off);
      _ ← (if late then mret tt else set_state next);
      '(ret, s) ← parse_at off s;
      if negb (ret =? POF_OK) then mret (terminate_handler s)
      else
        _ ← (if late then set_state next else mret tt);
        mret (consumed packet_len s).

Definition state_REQUEST_FEATURE s : St mst := state_request POFT_FEATURES_REQUEST false false POFCS_SET_CONFIG s.
Definition state_SET_CONFIG s : St mst := state_request POFT_SET_CONFIG true false POFCS_REQUEST_GET_CONFIG s.
Definition state_REQUEST_GET_CONFIG s : St mst := state_request POFT_GET_CONFIG_REQUEST false true POFCS_CHANNEL_RUN s.

Definition state_RUN s : St mst :=
  '(go, s) ← fetch true None s;
  st ← get_state;
  if negb go || bool_decide (st = POFCS_CHANNEL_INVALID) then mret s
  else
    let off := process_len (fr (cn s)) in
    packet_len ← lift (head_length (recv_buf (cn s)) off);
    '(_, s) ← pofsc_run_process off packet_len s;
    mret (consumed packet_len s).

(** One round of [pofsc_main_task]. *)
Definition pofsc_main_task s : St mst :=
  if w_exited (wd s) then mret s
  else
    st ← get_state;
    s ← match st with
        | POFCS_CHANNEL_INVALID => state_INVALID s
        | POFCS_CHANNEL_CONNECTING => state_CONNECTING s
        | POFCS_CHANNEL_CONNECTED => state_CONNECTED s
        | POFCS_HELLO => state_HELLO s
        | POFCS_REQUEST_FEATURE => state_REQUEST_FEATURE s
        | POFCS_SET_CONFIG => state_SET_CONFIG s
        | POFCS_REQUEST_GET_CONFIG => state_REQUEST_GET_CONFIG s
        | POFCS_CHANNEL_RUN => state_RUN s
        | POFCS_STATE_MAX => mret (upd_conn (with_last_error (u8 POF_WRONG_CHANNEL_STATE)) s)
        end;
    if w_exited (wd s) then mret s else report_protocol_error s.

End MainTask.

(** ** The sender and the echo timer *)

Definition pofsc_send_msg_task s : St mst :=
  if w_exited (wd s) then mret s
  else
    st ← get_state;
    match st with
    | POFCS_CHANNEL_INVALID | POFCS_CHANNEL_CONNECTING | POFCS_CHANNEL_CONNECTED | POFCS_HELLO => mret s
    | POFCS_SET_CONFIG | POFCS_REQUEST_FEATURE | POFCS_REQUEST_GET_CONFIG | POFCS_CHANNEL_RUN =>
        '(ret, m) ← pofbf_queue_read POF_QUEUE_MESSAGE_LEN POF_WAIT_FOREVER;
        if negb (ret =? POF_OK) then pofsc_set_error (ec_num POFET_SOFTWARE_FAILED) ret s
        else
          b ← lift (put_buf (msg_buf (cn s)) 0 m);
          let s := upd_conn (with_msg_buf b) s in
          l ← lift (head_length b 0);
          '(ret, s) ← pofsc_send b l s;
          if ret =? POF_OK then mret s
          else
            _ ← set_state POFCS_CHANNEL_INVALID;
            let s := upd_conn (fun c => with_sfd 0 (with_last_error (u8 ret) c)) s in
            ret ← pofbf_queue_write b l POF_WAIT_FOREVER;
            if negb (ret =? POF_OK) then pofsc_set_error (ec_num POFET_SOFTWARE_FAILED) ret s else mret s
    | POFCS_STATE_MAX => mret (upd_conn (with_last_error (u8 POF_WRONG_CHANNEL_STATE)) s)
    end.

Definition pofsc_echo_timer s : St mst :=
  if w_exited (wd s) then mret s
  else
    st ← get_state;
    match st with
    | POFCS_CHANNEL_RUN =>
        x ← upward_xid_pp;
        h ← lift (pofsc_build_header POFT_ECHO_REQUEST sizeof_pof_header x);
        ret ← pofbf_queue_write h sizeof_pof_header POF_WAIT_FOREVER;
        if negb (ret =? POF_OK) then pofsc_set_error (ec_num POFET_SOFTWARE_FAILED) ret s else mret s
    | _ => mret s
    end.

(** The tasks take turns, one round at a time; a round that blocks or faults is
    no step. *)
Inductive step (g : list Z) (unspecified : Z) : mst * env -> mst * env -> Prop :=
| step_main s e s' e' : pofsc_main_task g unspecified s e = Some (s', e') -> step g unspecified (s, e) (s', e')
| step_send s e s' e' : pofsc_send_msg_task s e = Some (s', e') -> step g unspecified (s, e) (s', e')
| step_echo s e s' e' : pofsc_echo_timer s e = Some (s', e') -> step g unspecified (s, e) (s', e').
