(* ===== verification/SwitchSpec.v ===== *)
(** * The connection as a state machine

    Which channel states follow which, and that every connection the switch uses
    begins with its HELLO. *)

From S2P Require Import Prelude Codec Env Tree Hmap IdMap LocalRes ByteTransfer Port Counter Group Meter FlowEntry FlowTable Slot Parse ParseSpec Switch.

Implicit Types (s : mst).

(** ** What no handler of a message changes: the channel state *)

Record keeps {A} (m : St A) : Prop := Keeps {
  kept_state : forall e a e', m e = Some (a, e') -> conn_state e' = conn_state e
}.

Create HintDb keeps discriminated.

Lemma keeps_ret {A} (a : A) : keeps (mret a).
Proof. constructor. now intros e a' e' [= _ ->]. Qed.
Lemma keeps_fault {A} : keeps (fault (A := A)).
Proof. constructor. now intros e a' e' [=]. Qed.
Lemma keeps_lift {A} (o : option A) : keeps (lift o).
Proof. constructor. intros e a' e'. unfold lift. destruct o; now intros [= _ ->]. Qed.
Lemma keeps_bind {A B} (m : St A) (k : A -> St B) : keeps m -> (forall a, keeps (k a)) -> keeps (m ≫= k).
Proof.
  intros [Hm] Hk. constructor. intros e b e' E. rewrite run_bind in E. destruct (m e) as [[a e1]|] eqn:Em; [|discriminate].
  rewrite (kept_state _ (Hk a) _ _ _ E). eapply Hm, Em.
Qed.
Lemma keeps_get_env : keeps get_env.
Proof. constructor. now intros e a e' [= _ ->]. Qed.
Lemma keeps_mod_env f : (forall e, conn_state (f e) = conn_state e) -> keeps (mod_env f).
Proof. intros H. constructor. intros e a e' [= <- <-]. apply H. Qed.
Lemma keeps_upward_xid : keeps upward_xid_pp.
Proof. constructor. now intros e a e' [= _ <-]. Qed.
Lemma keeps_malloc : keeps malloc.
Proof. constructor. intros e a e'. unfold malloc. destruct (mallocs e); now intros [= _ <-]. Qed.
Lemma keeps_msgsnd m : keeps (msgsnd m).
Proof. constructor. intros e a e'. unfold msgsnd. destruct (msgsnds e) as [|[] l]; now intros [= _ <-]. Qed.
#[export] Hint Resolve keeps_ret keeps_fault keeps_lift keeps_get_env keeps_upward_xid keeps_malloc keeps_msgsnd : keeps.

(** Walks through a handler: binds, branches, and definitions without a lemma of
    their own. *)
Ltac head_of t := match t with ?f _ => head_of f | _ => t end.
Ltac keeps_step :=
  first
    [ assumption
    | solve [eauto 2 with keeps]
    | match goal with |- keeps (mbind _ _) => apply keeps_bind; [|intros ?] end
    | (apply keeps_mod_env; reflexivity)
    | match goal with |- keeps (let _ := _ in _) => cbv zeta end
    | case_match
    | match goal with |- keeps ?t => let h := head_of t in unfold h end ].
Ltac keeps_all := intros; repeat keeps_step.

Lemma keeps_set_error t c : keeps (pofec_set_error t c).
Proof. keeps_all. Qed.
#[export] Hint Resolve keeps_set_error : keeps.
Lemma keeps_no_upward t c : keeps (POF_ERROR_HANDLE_RETURN_NO_UPWARD t c).
Proof. keeps_all. Qed.
#[export] Hint Resolve keeps_no_upward : keeps.
Lemma keeps_queue_write m len t : keeps (pofbf_queue_write m len t).
Proof. keeps_all. Qed.
#[export] Hint Resolve keeps_queue_write : keeps.
Lemma keeps_store_msg f : keeps (store_msg f).
Proof. keeps_all. Qed.
#[export] Hint Resolve keeps_store_msg : keeps.
Lemma keeps_reply_msg t x len b : keeps (pofec_reply_msg t x len b).
Proof. keeps_all. Qed.
#[export] Hint Resolve keeps_reply_msg : keeps.
Lemma keeps_error_loop fuel : forall t c x, keeps (reply_error_loop fuel t c x).
Proof. induction fuel as [|fuel IH]; intros; cbn [reply_error_loop]; keeps_all. Qed.
#[export] Hint Resolve keeps_error_loop : keeps.
Lemma keeps_no_return t c x : keeps (POF_ERROR_HANDLE_NO_RETURN_UPWARD t c x).
Proof. keeps_all. Qed.
#[export] Hint Resolve keeps_no_return : keeps.
Lemma keeps_upward t c x : keeps (POF_ERROR_HANDLE_RETURN_UPWARD t c x).
Proof. keeps_all. Qed.
#[export] Hint Resolve keeps_upward : keeps.

Lemma keeps_traverse {V R X} (hm : X -> option (heap V * hmap)) (body : addr -> X -> St (R + X)) (x : X) :
  (forall p x, keeps (body p x)) -> keeps (HMAP_NODES_IN_STRUCT_TRAVERSE hm body x).
Proof.
  intros Hb. unfold HMAP_NODES_IN_STRUCT_TRAVERSE. apply keeps_bind; [apply keeps_lift|]. intros [h m].
  apply keeps_bind; [apply keeps_lift|]. intros f. generalize (chain_fuel h). intros n. revert f x.
  induction n as [|n IH]; intros [p|] x; cbn [traverse_from]; keeps_all; auto.
Qed.

Lemma keeps_each_slot f dp : (forall l, keeps (f l)) -> keeps (each_slot f dp).
Proof. intros Hf. unfold each_slot. apply keeps_bind; [apply keeps_traverse; keeps_all; apply Hf|]. keeps_all. Qed.
Lemma keeps_each_checked f dp : (forall l d, keeps (f l d)) -> keeps (each_slot_checked f dp).
Proof. intros Hf. unfold each_slot_checked. apply keeps_bind; [apply keeps_traverse; keeps_all; apply Hf|]. keeps_all. Qed.
Lemma keeps_on_slot n f dp : (forall l, keeps (f l)) -> keeps (on_slot n f dp).
Proof. intros Hf. unfold on_slot. keeps_all. all: apply Hf. Qed.

Ltac keeps_loop :=
  lazymatch goal with
  | |- keeps (HMAP_NODES_IN_STRUCT_TRAVERSE _ _ _) => apply keeps_traverse; intros ? ?
  | |- keeps (each_slot _ _) => apply keeps_each_slot; intros ?
  | |- keeps (each_slot_checked _ _) => apply keeps_each_checked; intros ? ?
  | |- keeps (on_slot _ _ _) => apply keeps_on_slot; intros ?
  | |- keeps _ => keeps_step
  end.
Ltac keeps_deep := intros; repeat keeps_loop.

Lemma keeps_delete_all {V} `{Resource V} f (r : resource V) : keeps (res_delete_all f r).
Proof. keeps_deep. Qed.
Lemma keeps_create {V} `{Resource V} v (r : resource V) : keeps (res_create v r).
Proof. keeps_deep. Qed.
#[export] Hint Resolve keeps_delete_all keeps_create : keeps.
Lemma keeps_clear l : keeps (poflr_clear_resource l).
Proof. keeps_deep. Qed.
#[export] Hint Resolve keeps_clear : keeps.

Lemma keeps_insert_loop n : forall t v p, keeps (insert_loop n t v p).
Proof. induction n as [|n IH]; intros; cbn [insert_loop]; keeps_deep; apply IH. Qed.
#[export] Hint Resolve keeps_insert_loop : keeps.
Lemma keeps_ret_err {A} t c x (a : A) l : keeps x -> keeps (ret_err t c x l).
Proof. keeps_deep. Qed.
Lemma keeps_counter_init id l : keeps (poflr_counter_init id l).
Proof. keeps_deep. Qed.
Lemma keeps_counter_delete id l : keeps (poflr_counter_delete id l).
Proof. keeps_deep. Qed.
#[export] Hint Resolve keeps_counter_init keeps_counter_delete : keeps.
Lemma keeps_entry_insert fe t : keeps (entryInsert fe t).
Proof. keeps_deep. Qed.
#[export] Hint Resolve keeps_entry_insert : keeps.
Lemma keeps_add_entry fe l : keeps (poflr_add_flow_entry fe l).
Proof. keeps_deep. Qed.
Lemma keeps_modify_entry fe l : keeps (poflr_modify_flow_entry fe l).
Proof. keeps_deep. Qed.
Lemma keeps_delete_entry fe l : keeps (poflr_delete_flow_entry fe l).
Proof. keeps_deep. Qed.
#[export] Hint Resolve keeps_add_entry keeps_modify_entry keeps_delete_entry : keeps.
Lemma keeps_poflr_add_meter_entry a b l : keeps (poflr_add_meter_entry a b l).
Proof. keeps_deep. Qed.
#[export] Hint Resolve keeps_poflr_add_meter_entry : keeps.
Lemma keeps_poflr_modify_meter_entry a b l : keeps (poflr_modify_meter_entry a b l).
Proof. keeps_deep. Qed.
#[export] Hint Resolve keeps_poflr_modify_meter_entry : keeps.
Lemma keeps_poflr_delete_meter_entry a b l : keeps (poflr_delete_meter_entry a b l).
Proof. keeps_deep. Qed.
#[export] Hint Resolve keeps_poflr_delete_meter_entry : keeps.
Lemma keeps_poflr_add_group_entry x l : keeps (poflr_add_group_entry x l).
Proof. keeps_deep. Qed.
#[export] Hint Resolve keeps_poflr_add_group_entry : keeps.
Lemma keeps_poflr_modify_group_entry x l : keeps (poflr_modify_group_entry x l).
Proof. keeps_deep. Qed.
#[export] Hint Resolve keeps_poflr_modify_group_entry : keeps.
Lemma keeps_poflr_delete_group_entry x l : keeps (poflr_delete_group_entry x l).
Proof. keeps_deep. Qed.
#[export] Hint Resolve keeps_poflr_delete_group_entry : keeps.
Lemma keeps_poflr_counter_clear a l : keeps (poflr_counter_clear a l).
Proof. keeps_deep. Qed.
#[export] Hint Resolve keeps_poflr_counter_clear : keeps.
Lemma keeps_poflr_get_counter_value a l : keeps (poflr_get_counter_value a l).
Proof. keeps_deep. Qed.
#[export] Hint Resolve keeps_poflr_get_counter_value : keeps.
Lemma keeps_poflr_port_openflow_enable a b l : keeps (poflr_port_openflow_enable a b l).
Proof. keeps_deep. Qed.
#[export] Hint Resolve keeps_poflr_port_openflow_enable : keeps.
Lemma keeps_poflr_create_flow_table a b c d x y z l : keeps (poflr_create_flow_table a b c d x y z l).
Proof. keeps_deep. Qed.
#[export] Hint Resolve keeps_poflr_create_flow_table : keeps.
Lemma keeps_poflr_delete_flow_table a b l : keeps (poflr_delete_flow_table a b l).
Proof. keeps_deep. Qed.
#[export] Hint Resolve keeps_poflr_delete_flow_table : keeps.
Lemma keeps_poflr_reply_config l : keeps (poflr_reply_config l).
Proof. keeps_deep. Qed.
#[export] Hint Resolve keeps_poflr_reply_config : keeps.
Lemma keeps_poflr_reply_table_resource a l : keeps (poflr_reply_table_resource a l).
Proof. keeps_deep. Qed.
#[export] Hint Resolve keeps_poflr_reply_table_resource : keeps.
Lemma keeps_poflr_reply_port_resource l : keeps (poflr_reply_port_resource l).
Proof. keeps_deep. Qed.
#[export] Hint Resolve keeps_poflr_reply_port_resource : keeps.
Lemma keeps_poflr_reset_dev_id l : keeps (poflr_reset_dev_id l).
Proof. keeps_deep. Qed.
#[export] Hint Resolve keeps_poflr_reset_dev_id : keeps.
Lemma keeps_poflr_reply_feature_resource a l : keeps (poflr_reply_feature_resource a l).
Proof. keeps_deep. Qed.
#[export] Hint Resolve keeps_poflr_reply_feature_resource : keeps.
Lemma keeps_poflr_reply_queryall a b l : keeps (poflr_reply_queryall a b l).
Proof. keeps_deep. Qed.
#[export] Hint Resolve keeps_poflr_reply_queryall : keeps.
Lemma keeps_poflr_set_config a b l : keeps (poflr_set_config a b l).
Proof. keeps_deep. Qed.
#[export] Hint Resolve keeps_poflr_set_config : keeps.

Lemma keeps_message_case g u type off size conv handler m dp :
  message_case g u type = Some (off, size, conv, handler) -> keeps (handler m dp).
Proof.
  unfold message_case. intros E. repeat case_match; try discriminate; injection E as _ _ _ <-; keeps_deep.
Qed.
Lemma keeps_parse_get_config dp : keeps (parse_GET_CONFIG_REQUEST dp).
Proof. unfold parse_GET_CONFIG_REQUEST. keeps_deep. Qed.
Lemma keeps_parse_features dp : keeps (parse_FEATURES_REQUEST dp).
Proof. unfold parse_FEATURES_REQUEST. keeps_deep. Qed.
Lemma keeps_reply_checked t x len b : keeps x -> keeps (reply_checked t x len b).
Proof. intros Hx. unfold reply_checked. keeps_deep. Qed.
Lemma keeps_recv_xid : keeps recv_xid.
Proof. unfold recv_xid. keeps_deep. Qed.
#[export] Hint Resolve keeps_parse_get_config keeps_parse_features keeps_reply_checked keeps_recv_xid : keeps.
Lemma keeps_parse g u msg dp : keeps (pof_parse_msg_from_controller g u msg dp).
Proof.
  unfold pof_parse_msg_from_controller. apply keeps_bind; [apply keeps_lift|]. intros m. apply keeps_bind; [now apply keeps_mod_env|]. intros _.
  destruct (message_case _ _ _) as [[[[off size] conv] handler]|] eqn:E.
  - apply keeps_bind; [apply keeps_lift|]. intros b.
    apply keeps_bind; [apply keeps_lift|]. intros _. apply keeps_bind; [eapply keeps_message_case, E|]. intros [r d]. apply keeps_ret.
  - repeat (destruct (Z.eqb _ _); [apply keeps_bind; [auto with keeps|]; intros []; auto with keeps|]). keeps_all.
Qed.

(** ** What a round does to the state and to the socket *)

(** Nothing is written, and the state stays, becomes [next] or invalid. *)
Definition calm (next : option pof_channel_state) (x y : mst * env) : Prop :=
  w_written (wd y.1) = w_written (wd x.1) /\
  (conn_state y.2 = conn_state x.2 \/ conn_state y.2 = POFCS_CHANNEL_INVALID \/ Some (conn_state y.2) = next).

#[export] Instance calm_preorder next : PreOrder (calm next).
Proof.
  split; [now split; auto|]. intros x y z [A1 A2] [B1 B2]. split; [congruence|].
  destruct B2 as [->|[->| ->]]; auto.
Qed.

Definition calms {A} (next : option pof_channel_state) (pr : A -> mst) (m : St A) s : Prop :=
  forall e a e', m e = Some (a, e') -> calm next (s, e) (pr a, e').

Lemma calms_ret {A} next (pr : A -> mst) a s : w_written (wd (pr a)) = w_written (wd s) -> calms next pr (mret a) s.
Proof. intros H e a' e' [= <- <-]. split; auto. Qed.
Lemma calms_fault {A} next (pr : A -> mst) s : calms next pr fault s.
Proof. intros e a' e' [=]. Qed.
Lemma calms_keeps {A B} next (pr : B -> mst) (m : St A) k s : keeps m -> (forall a, calms next pr (k a) s) -> calms next pr (m ≫= k) s.
Proof.
  intros Hm Hk e b e' E. rewrite run_bind in E. destruct (m e) as [[a e1]|] eqn:Em; [|discriminate].
  destruct (Hk _ _ _ _ E) as [A1 A2]. split; [exact A1|]. cbn in *. now rewrite (kept_state _ Hm _ _ _ Em) in A2.
Qed.
Lemma calms_bind {A B} next q (pr : B -> mst) (m : St A) k s :
  calms next q m s -> (forall a, calms next pr (k a) (q a)) -> calms next pr (m ≫= k) s.
Proof.
  intros Hm Hk e b e' E. rewrite run_bind in E. destruct (m e) as [[a e1]|] eqn:Em; [|discriminate].
  etrans; [eapply Hm, Em|eapply Hk, E].
Qed.
Lemma calms_set {A} next (pr : A -> mst) x k s : x = POFCS_CHANNEL_INVALID \/ Some x = next ->
  calms next pr (k tt) s -> calms next pr (set_state x ≫= k) s.
Proof.
  intros Hx Hk e b e' E. destruct (Hk _ _ _ E) as [A1 A2]. split; [exact A1|]. cbn in *.
  cbn in A2. destruct Hx as [->|Hx], A2 as [A2|[A2|A2]]; rewrite ?A2; auto.
Qed.
Lemma calms_same {A} next (pr : A -> mst) m s1 s2 : w_written (wd s1) = w_written (wd s2) ->
  calms next pr m s1 -> calms next pr m s2.
Proof. intros H Hm e a e' E. destruct (Hm _ _ _ E) as [A1 A2]. split; [cbn in *; congruence|exact A2]. Qed.

Lemma calms_disconn next s : calms next id (pofsc_performance_after_ctrl_disconn s) s.
Proof.
  unfold pofsc_performance_after_ctrl_disconn. apply calms_set; [auto|]. case_match.
  - apply calms_keeps; [apply keeps_each_slot; auto with keeps|]. intros [r dp]. now apply calms_ret.
  - now apply calms_ret.
Qed.

Lemma calms_recv next off len s : calms next snd (pofsc_recv off len s) s.
Proof.
  unfold pofsc_recv. case_match; [now apply calms_ret|]. case_match; [apply calms_fault|]. case_match.
  - eapply calms_bind; [eapply calms_same; [|apply calms_disconn]; reflexivity|]. intros s'. now apply calms_ret.
  - apply calms_keeps; [auto with keeps|]. intros b'. now apply calms_ret.
Qed.

Lemma compact_written s s' : compact s = Some s' -> w_written (wd s') = w_written (wd s).
Proof.
  unfold compact. repeat case_match; try discriminate; [|now intros [= <-]].
  destruct (sub_buf _ _ _); [|discriminate]. cbn. destruct (put_buf _ _ _); [|discriminate]. now intros [= <-].
Qed.

Lemma calms_lift {A B} next (pr : B -> mst) (o : option A) k s :
  (forall a, o = Some a -> calms next pr (k a) s) -> calms next pr (lift o ≫= k) s.
Proof. intros Hk e b e' E. rewrite run_bind in E. destruct o as [a|]; [|discriminate]. eapply Hk; [reflexivity|exact E]. Qed.

Lemma calms_await next run fuel : forall head s, calms next id (await run fuel head s) s.
Proof.
  induction fuel as [|fuel IH]; intros head s; cbn [await].
  all: apply calms_lift; intros l _; case_match; [|now apply calms_ret]. 1: apply calms_fault.
  apply calms_lift. intros s1 E1. assert (w_written (wd s1) = w_written (wd s)) as W.
  { destruct run; [apply compact_written in E1; exact E1|now injection E1 as <-]. }
  eapply calms_same; [exact W|]. eapply calms_bind; [apply calms_recv|]. intros [[ret n] s2]. destruct (negb _); [now apply calms_ret|].
  eapply calms_same; [|apply IH]. reflexivity.
Qed.

Lemma calms_fetch next run s : calms next snd (fetch run next s) s.
Proof.
  unfold fetch. apply calms_lift. intros ok _. case_match; [now apply calms_ret|].
  apply calms_lift. intros s1 E1. assert (w_written (wd s1) = w_written (wd s)) as W.
  { destruct run; [apply compact_written in E1; exact E1|now injection E1 as <-]. }
  eapply calms_same; [exact W|]. eapply calms_bind; [apply calms_recv|]. intros [[ret n] s2]. destruct (negb _); [now apply calms_ret|].
  assert (forall k : unit -> St (bool * mst), calms next snd (k tt) s2 ->
    calms next snd (match next with Some x => set_state x | None => mret tt end ≫= k) s2) as Hn.
  { intros k Hk. destruct next as [x|]; [apply calms_set; auto|]. apply calms_keeps; [auto with keeps|]. now intros []. }
  apply Hn. eapply calms_bind; [eapply calms_same; [|apply calms_await]; reflexivity|]. intros s3. now apply calms_ret.
Qed.

Lemma calms_parse next g u off s : calms next snd (parse_at g u off s) s.
Proof.
  unfold parse_at. apply calms_keeps; [apply keeps_parse|]. intros [ret [m dp]]. now apply calms_ret.
Qed.

Lemma calms_keeps_last next m s : keeps m -> (forall e s' e', m e = Some (s', e') -> w_written (wd s') = w_written (wd s)) ->
  calms next id m s.
Proof. intros [Hm] Hw e s' e' E. split; [eapply Hw, E|]. left. eapply Hm, E. Qed.

Lemma calms_set_error next t c s : calms next id (pofsc_set_error t c s) s.
Proof. unfold pofsc_set_error. apply calms_keeps; [auto with keeps|]. intros e. now apply calms_ret. Qed.

Lemma calms_report next s : calms next id (report_protocol_error s) s.
Proof.
  unfold report_protocol_error. case_match; [now apply calms_ret|]. unfold pofsc_build_error_msg.
  eapply (calms_bind _ id).
  - apply calms_keeps; [auto with keeps|]. intros x. apply calms_lift. intros h _. apply calms_lift. intros b _. now apply calms_ret.
  - intros s1. apply calms_keeps; [auto with keeps|]. intros r. destruct (negb _); now apply calms_ret.
Qed.

Lemma calms_run_process next g u off len s : calms next snd (pofsc_run_process g u off len s) s.
Proof.
  unfold pofsc_run_process. apply calms_lift. intros l _. destruct (negb _).
  - eapply calms_bind; [apply calms_set_error|]. intros s1. now apply calms_ret.
  - apply calms_lift. intros t _. destruct (_ =? _); [now apply calms_ret|apply calms_parse].
Qed.

Lemma calms_invalidate next s : calms next id (invalidate s) s.
Proof. unfold invalidate. apply calms_set; [auto|]. now apply calms_ret. Qed.

Lemma calms_INVALID s : calms (Some POFCS_CHANNEL_CONNECTING) id (state_INVALID s) s.
Proof.
  unfold state_INVALID. destruct (pofsc_create_socket s) as [fd s1] eqn:E.
  assert (w_written (wd s1) = w_written (wd s)) as W.
  { unfold pofsc_create_socket in E. destruct (w_sockets (wd s)); now injection E as _ <-. }
  eapply calms_same; [exact W|]. destruct fd; [apply calms_set; [auto|]|]; now apply calms_ret.
Qed.

Lemma calms_get_state {A} next (pr : A -> mst) k s : (forall st, calms next pr (k st) s) -> calms next pr (get_state ≫= k) s.
Proof. intros Hk. apply calms_keeps; [unfold get_state; keeps_all|exact Hk]. Qed.

Lemma calms_HELLO s : calms (Some POFCS_REQUEST_FEATURE) id (state_HELLO s) s.
Proof.
  unfold state_HELLO. eapply calms_bind; [eapply calms_same; [|apply calms_recv]; reflexivity|]. intros [[ret n] s1].
  destruct (negb _); [now apply calms_ret|]. apply calms_keeps; [apply keeps_each_slot; auto with keeps|]. intros [r dp].
  apply calms_set; [auto|]. eapply calms_bind; [eapply calms_same; [|apply calms_await]; reflexivity|]. intros s2.
  apply calms_get_state. intros st. case_decide; [now apply calms_ret|].
  apply calms_lift. intros v _. apply calms_lift. intros t _. eapply (calms_bind _ id).
  - destruct (_ || _); [apply calms_invalidate|now apply calms_ret].
  - intros s3. apply calms_lift. intros l _. now apply calms_ret.
Qed.

Lemma calms_request g u type cv late next s : calms (Some next) id (state_request g u type cv late next s) s.
Proof.
  unfold state_request. eapply calms_bind; [apply calms_fetch|]. intros [go s1]. apply calms_get_state. intros st.
  destruct (_ || _); [now apply calms_ret|]. apply calms_lift. intros v _. apply calms_lift. intros t _.
  destruct (_ || _); [apply calms_invalidate|]. apply calms_lift. intros l _.
  assert (forall (b : bool) (k : unit -> St mst) x, calms (Some next) id (k tt) x ->
    calms (Some next) id ((if b then mret tt else set_state next) ≫= k) x) as Hset.
  { intros [] k x Hk; [apply calms_keeps; [auto with keeps|]; now intros []|apply calms_set; auto]. }
  apply Hset. eapply calms_bind; [apply calms_parse|]. intros [r s2]. destruct (negb _); [now apply calms_ret|].
  replace (if late then set_state next else mret tt) with (if negb late then mret tt else set_state next) by now destruct late.
  apply Hset. now apply calms_ret.
Qed.

Lemma calms_RUN g u s : calms None id (state_RUN g u s) s.
Proof.
  unfold state_RUN. eapply calms_bind; [apply calms_fetch|]. intros [go s1]. apply calms_get_state. intros st.
  destruct (_ || _); [now apply calms_ret|]. apply calms_lift. intros l _.
  eapply calms_bind; [apply calms_run_process|]. intros [r s2]. now apply calms_ret.
Qed.

(** ** The order of the states *)

Definition next_state (st : pof_channel_state) : option pof_channel_state :=
  match st with
  | POFCS_CHANNEL_INVALID => Some POFCS_CHANNEL_CONNECTING
  | POFCS_CHANNEL_CONNECTING => Some POFCS_CHANNEL_CONNECTED
  | POFCS_CHANNEL_CONNECTED => Some POFCS_HELLO
  | POFCS_HELLO => Some POFCS_REQUEST_FEATURE
  | POFCS_REQUEST_FEATURE => Some POFCS_SET_CONFIG
  | POFCS_SET_CONFIG => Some POFCS_REQUEST_GET_CONFIG
  | POFCS_REQUEST_GET_CONFIG => Some POFCS_CHANNEL_RUN
  | POFCS_CHANNEL_RUN | POFCS_STATE_MAX => None
  end.

(** The connection is greeted before the controller is waited for. *)
Definition greeted (x : mst * env) : Prop :=
  match conn_state x.2 with
  | POFCS_CHANNEL_INVALID | POFCS_CHANNEL_CONNECTING | POFCS_STATE_MAX => True
  | POFCS_CHANNEL_CONNECTED => w_written (wd x.1) = []
  | _ => exists xid rest, w_written (wd x.1) = header_bytes POFT_HELLO xid sizeof_pof_header :: rest
  end.

Lemma header_build type len xid : pofsc_build_header type len xid = Some (header_bytes type xid len).
Proof.
  unfold pofsc_build_header, pof_HtoN_transfer_header, ntoh_fields, header_bytes. cbn [le app]. do 2 ntoh_step. reflexivity.
Qed.

(** One round of the main task in the two states that touch the socket. *)
Lemma connecting_round s e s' e' : conn_state e = POFCS_CHANNEL_CONNECTING -> state_CONNECTING s e = Some (s', e') ->
  (conn_state e' = POFCS_CHANNEL_INVALID \/ conn_state e' = POFCS_CHANNEL_CONNECTED) /\ greeted (s', e').
Proof.
  intros Hs E. unfold state_CONNECTING, pofsc_connect in E.
  destruct (match w_connects (wd s) with [] => _ | r :: l => _ end) as [[id|] l]; cbn in E.
  - unfold mbind, St_bind, get_env in E. destruct (g_poflr_dev_id e =? 0); cbn in E; injection E as <- <-; split; auto; reflexivity.
  - injection E as <- <-. split; auto. exact I.
Qed.

Lemma connected_round s e s' e' : conn_state e = POFCS_CHANNEL_CONNECTED -> state_CONNECTED s e = Some (s', e') ->
  (conn_state e' = POFCS_CHANNEL_INVALID \/ conn_state e' = POFCS_HELLO) /\ (greeted (s, e) -> greeted (s', e')).
Proof.
  intros Hs E. assert (greeted (s, e) -> w_written (wd s) = []) as Hg by (unfold greeted; cbn [fst snd]; now rewrite Hs).
  unfold state_CONNECTED in E. rewrite run_bind in E. unfold upward_xid_pp in E. rewrite run_bind, header_build in E. cbn [lift] in E.
  set (e1 := set_upward_xid _ e) in E. assert (conn_state e1 = POFCS_CHANNEL_CONNECTED) as H1 by exact Hs.
  rewrite run_bind in E. unfold pofsc_send in E. rewrite run_bind in E.
  assert (sub_buf (header_bytes POFT_HELLO (g_upward_xid e) sizeof_pof_header) 0 sizeof_pof_header =
    Some (header_bytes POFT_HELLO (g_upward_xid e) sizeof_pof_header)) as Es.
  { rewrite sub_buf_in; [|lia|unfold sizeof_pof_header; lia|unfold blen; rewrite length_header; unfold sizeof_pof_header; lia].
    rewrite drop_0, take_ge; [done|]. now rewrite length_header. }
  rewrite Es in E. cbn [lift] in E. destruct (w_writes (wd s)) as [|[] ws].
  1,2: injection E as <- <-; split; [now right|]; intros G; unfold greeted; cbn -[header_bytes]; rewrite (Hg G); eexists _, []; reflexivity.
  rewrite run_bind in E. destruct (pofsc_performance_after_ctrl_disconn _ e1) as [[s2 e2]|] eqn:Ed; [|discriminate].
  destruct (calms_disconn None _ _ _ _ Ed) as [_ D]. cbn in E. injection E as <- <-.
  assert (conn_state e2 = POFCS_CHANNEL_INVALID) as Hi.
  { unfold pofsc_performance_after_ctrl_disconn in Ed. rewrite run_bind in Ed. cbn in Ed. case_match; [|now injection Ed as _ <-].
    rewrite run_bind in Ed. destruct (each_slot _ _ _) as [[[r dp] e3]|] eqn:Ec; [|discriminate]. injection Ed as _ <-.
    assert (keeps (each_slot poflr_clear_resource (m_dp (upd_world (fun w => with_written ws (w_written w) w) s)))) as [K]
      by (apply keeps_each_slot; auto with keeps). now rewrite (K _ _ _ Ec). }
  split; [now left|]. intros _. unfold greeted. cbn. now rewrite Hi.
Qed.

Definition moves (st st' : pof_channel_state) : Prop :=
  st' = st \/ st' = POFCS_CHANNEL_INVALID \/ Some st' = next_state st.

Lemma calm_moves next x y : calm next x y -> next = None \/ next = next_state (conn_state x.2) ->
  moves (conn_state x.2) (conn_state y.2).
Proof. intros [_ [H|[H|H]]] [->| ->]; unfold moves; auto. discriminate. Qed.

Lemma calm_greeted next x y : calm next x y -> greeted x ->
  next = None \/ (next = next_state (conn_state x.2) /\
    conn_state x.2 <> POFCS_CHANNEL_CONNECTING /\ conn_state x.2 <> POFCS_CHANNEL_CONNECTED) -> greeted y.
Proof.
  intros [W S] G H. unfold greeted in *. rewrite W. destruct S as [->|[->|S]]; [exact G|exact I|].
  destruct H as [->|(-> & H1 & H2)]; [discriminate|].
  destruct (conn_state x.2); cbn in S; try contradiction; try discriminate; injection S as ->; auto.
Qed.

(** The state handlers other than the two above. *)
Definition round_of (g : list Z) (u : Z) (st : pof_channel_state) s : St mst :=
  match st with
  | POFCS_CHANNEL_INVALID => state_INVALID s
  | POFCS_CHANNEL_CONNECTING => state_CONNECTING s
  | POFCS_CHANNEL_CONNECTED => state_CONNECTED s
  | POFCS_HELLO => state_HELLO s
  | POFCS_REQUEST_FEATURE => state_REQUEST_FEATURE g u s
  | POFCS_SET_CONFIG => state_SET_CONFIG g u s
  | POFCS_REQUEST_GET_CONFIG => state_REQUEST_GET_CONFIG g u s
  | POFCS_CHANNEL_RUN => state_RUN g u s
  | POFCS_STATE_MAX => mret (upd_conn (with_last_error (u8 POF_WRONG_CHANNEL_STATE)) s)
  end.

Lemma calms_round g u st s : st <> POFCS_CHANNEL_CONNECTING -> st <> POFCS_CHANNEL_CONNECTED ->
  calms (next_state st) id (round_of g u st s) s.
Proof.
  intros H1 H2. destruct st; try contradiction; cbn [round_of next_state].
  - apply calms_INVALID.
  - apply calms_HELLO.
  - apply calms_request.
  - apply calms_request.
  - apply calms_request.
  - apply calms_RUN.
  - now apply calms_ret.
Qed.

Lemma round_moves g u s e s' e' : round_of g u (conn_state e) s e = Some (s', e') ->
  moves (conn_state e) (conn_state e') /\ (greeted (s, e) -> greeted (s', e')).
Proof.
  intros E. destruct (decide (conn_state e = POFCS_CHANNEL_CONNECTING)) as [H1|H1];
    [|destruct (decide (conn_state e = POFCS_CHANNEL_CONNECTED)) as [H2|H2]].
  - rewrite H1 in E. destruct (connecting_round _ _ _ _ H1 E) as [[H|H] G]; unfold moves; rewrite H1, H; auto.
  - rewrite H2 in E. destruct (connected_round _ _ _ _ H2 E) as [[H|H] G]; unfold moves; rewrite H2, H; auto.
  - apply (calms_round g u _ s H1 H2) in E. cbn [id] in E. split.
    + now apply (calm_moves _ _ _ E); right.
    + intros G. apply (calm_greeted _ _ _ E G). right. auto.
Qed.

Lemma report_moves s e s' e' : report_protocol_error s e = Some (s', e') ->
  conn_state e' = conn_state e /\ (greeted (s, e) -> greeted (s', e')).
Proof.
  intros E. assert (keeps (report_protocol_error s)) as [K] by (unfold report_protocol_error; keeps_all).
  split; [eapply K, E|]. intros G. apply (calms_report None) in E. apply (calm_greeted _ _ _ E G). now left.
Qed.

Lemma main_step_moves g u s e s' e' : pofsc_main_task g u s e = Some (s', e') ->
  moves (conn_state e) (conn_state e') /\ (greeted (s, e) -> greeted (s', e')).
Proof.
  unfold pofsc_main_task. destruct (w_exited (wd s)); [intros E; injection E as <- <-; unfold moves; auto|].
  rewrite run_bind. unfold get_state at 1. rewrite run_bind. unfold get_env at 1. unfold mret at 1, St_ret. cbv beta iota.
  intros E. change (match round_of g u (conn_state e) s e with
    | Some (s1, e1) => (if w_exited (wd s1) then mret s1 else report_protocol_error s1) e1 | None => None end = Some (s', e')) in E.
  destruct (round_of g u (conn_state e) s e) as [[s1 e1]|] eqn:E1; [|discriminate].
  destruct (round_moves _ _ _ _ _ _ E1) as [M G]. destruct (w_exited (wd s1)); [unfold mret, St_ret in E; injection E as <- <-; auto|].
  destruct (report_moves _ _ _ _ E) as [-> G']. auto.
Qed.

(** C6. The main task goes through the channel states in order: a round leaves
    the state as it is, advances to the next one, or falls back to
    POFCS_CHANNEL_INVALID; POFCS_CHANNEL_RUN is entered from
    POFCS_REQUEST_GET_CONFIG only. *)
Theorem main_moves_in_order g u s e s' e' : pofsc_main_task g u s e = Some (s', e') ->
  moves (conn_state e) (conn_state e') /\
  (conn_state e' = POFCS_CHANNEL_RUN -> conn_state e = POFCS_REQUEST_GET_CONFIG \/ conn_state e = POFCS_CHANNEL_RUN).
Proof.
  intros E. destruct (main_step_moves _ _ _ _ _ _ E) as [M _]. split; [exact M|]. intros H. rewrite H in M.
  destruct M as [M|[M|M]]; [now right|discriminate|]. destruct (conn_state e); try discriminate. now left.
Qed.

(** ** The sender and the timer *)

Lemma keeps_queue_read n t : keeps (pofbf_queue_read n t).
Proof. keeps_all. Qed.
#[export] Hint Resolve keeps_queue_read : keeps.

(** Sending adds to what was written, or gives the connection up. *)
Lemma send_adds buf len s e r s' e' : pofsc_send buf len s e = Some ((r, s'), e') ->
  (conn_state e' = conn_state e /\ exists m, w_written (wd s') = w_written (wd s) ++ [m]) \/ conn_state e' = POFCS_CHANNEL_INVALID.
Proof.
  unfold pofsc_send. rewrite run_bind. destruct (sub_buf buf 0 len) as [m|]; [|discriminate]. cbn [lift].
  destruct (w_writes (wd s)) as [|[] l]; [intros [= _ <- <-]; left; eauto..|].
  rewrite run_bind. destruct (pofsc_performance_after_ctrl_disconn _ e) as [[s1 e1]|] eqn:Ed; [|discriminate].
  intros [= _ <- <-]. right.
  unfold pofsc_performance_after_ctrl_disconn in Ed. rewrite run_bind in Ed. cbn in Ed. case_match; [|now injection Ed as _ <-].
  rewrite run_bind in Ed. destruct (each_slot _ _ _) as [[[r1 dp] e3]|] eqn:Ec; [|discriminate]. injection Ed as _ <-.
  pose proof (keeps_each_slot poflr_clear_resource (m_dp s) (fun l => keeps_clear l)) as [K]. now rewrite (K _ _ _ Ec).
Qed.

Lemma greeted_add s e s' e' : greeted (s, e) -> conn_state e' = conn_state e -> conn_state e <> POFCS_CHANNEL_CONNECTED ->
  (exists m, w_written (wd s') = w_written (wd s) ++ [m]) -> greeted (s', e').
Proof.
  unfold greeted. cbn [fst snd]. intros G -> Hc [m ->]. destruct (conn_state e); try exact I; try contradiction;
    destruct G as (x & rest & ->); eexists x, (rest ++ [m]); reflexivity.
Qed.

Lemma greeted_invalid s e : conn_state e = POFCS_CHANNEL_INVALID -> greeted (s, e).
Proof. unfold greeted. cbn [snd]. now intros ->. Qed.

Lemma sender_round s e s' e' :
  (r ← pofbf_queue_read POF_QUEUE_MESSAGE_LEN POF_WAIT_FOREVER;
   let '(ret, m) := r in
   if negb (ret =? POF_OK) then pofsc_set_error (ec_num POFET_SOFTWARE_FAILED) ret s
   else
     b ← lift (put_buf (msg_buf (cn s)) 0 m);
     let s := upd_conn (with_msg_buf b) s in
     l ← lift (head_length b 0);
     '(ret, s) ← pofsc_send b l s;
     if ret =? POF_OK then mret s
     else
       _ ← set_state POFCS_CHANNEL_INVALID;
       let s := upd_conn (fun c => with_sfd 0 (with_last_error (u8 ret) c)) s in
       ret ← pofbf_queue_write b l POF_WAIT_FOREVER;
       if negb (ret =? POF_OK) then pofsc_set_error (ec_num POFET_SOFTWARE_FAILED) ret s else mret s) e = Some (s', e') ->
  conn_state e <> POFCS_CHANNEL_CONNECTED -> greeted (s, e) -> greeted (s', e').
Proof.
  intros E Hc G. rewrite run_bind in E. destruct (pofbf_queue_read _ _ e) as [[[ret m] e1]|] eqn:Er; [|discriminate].
  pose proof (kept_state _ (keeps_queue_read _ _) _ _ _ Er) as K1.
  assert (greeted (s, e1)) as G1 by (unfold greeted in *; cbn [fst snd] in *; now rewrite K1).
  destruct (negb (ret =? POF_OK)).
  { apply (calms_set_error None) in E. apply (calm_greeted _ _ _ E G1). now left. }
  rewrite run_bind in E. destruct (put_buf _ _ _) as [b|]; [|discriminate]. cbn [lift] in E.
  rewrite run_bind in E. destruct (head_length b 0) as [l|]; [|discriminate]. cbn [lift] in E.
  rewrite run_bind in E. destruct (pofsc_send b l _ e1) as [[[r s2] e2]|] eqn:Es; [|discriminate].
  apply send_adds in Es. destruct (r =? POF_OK).
  { injection E as <- <-. destruct Es as [[H1 H2]|H]; [|now apply greeted_invalid].
    apply (greeted_add (upd_conn (with_msg_buf b) s) e1); auto. now rewrite K1. }
  rewrite run_bind in E. cbn in E. rewrite run_bind in E.
  destruct (pofbf_queue_write b l POF_WAIT_FOREVER _) as [[r3 e3]|] eqn:Ew; [|discriminate].
  pose proof (kept_state _ (keeps_queue_write _ _ _) _ _ _ Ew) as K3. cbn in K3.
  destruct (negb (r3 =? POF_OK)); [|injection E as <- <-; now apply greeted_invalid].
  apply (calms_set_error None) in E. destruct E as [_ [E|[E|E]]]; cbn in E; apply greeted_invalid; congruence.
Qed.

Lemma sender_greeted s e s' e' : pofsc_send_msg_task s e = Some (s', e') -> greeted (s, e) -> greeted (s', e').
Proof.
  unfold pofsc_send_msg_task. destruct (w_exited (wd s)); [now intros [= <- <-]|].
  rewrite run_bind. unfold get_state at 1. rewrite run_bind. unfold get_env at 1. unfold mret at 1, St_ret. cbv beta iota.
  destruct (conn_state e) eqn:Hs; intros E; try (injection E as <- <-; auto; fail);
    try (intros G; eapply sender_round; [exact E|now rewrite Hs|exact G]).
Qed.

Lemma echo_greeted s e s' e' : pofsc_echo_timer s e = Some (s', e') -> greeted (s, e) -> greeted (s', e').
Proof.
  intros E G. assert (calms None id (pofsc_echo_timer s) s) as C.
  { unfold pofsc_echo_timer. case_match; [now apply calms_ret|]. apply calms_get_state. intros st.
    destruct st; try (now apply calms_ret). apply calms_keeps; [auto with keeps|]. intros x. apply calms_lift. intros h _.
    apply calms_keeps; [auto with keeps|]. intros r. destruct (negb _); [apply calms_set_error|now apply calms_ret]. }
  apply C in E. apply (calm_greeted _ _ _ E G). now left.
Qed.

(** C5. Whatever order the tasks run in, from a start with no connection on: in
    every reachable state that waits for the controller or serves it, the first
    message written on the current connection is this switch's POFT_HELLO. *)
Theorem hello_comes_first g u x y : conn_state x.2 = POFCS_CHANNEL_INVALID -> rtc (step g u) x y -> greeted y.
Proof.
  intros H0 R. assert (greeted x) as G by (destruct x; now apply greeted_invalid). clear H0. revert G.
  induction R as [x|x y z S R IH]; [auto|]. intros G. apply IH. destruct S as [s e s' e' E|s e s' e' E|s e s' e' E].
  - now apply (main_step_moves _ _ _ _ _ _ E).
  - now apply (sender_greeted _ _ _ _ E).
  - now apply (echo_greeted _ _ _ _ E).
Qed.

(** ** Runs of the main task *)

Fixpoint rounds (n : nat) (g : list Z) (u : Z) s : St mst :=
  match n with O => mret s | S n => s ← pofsc_main_task g u s; rounds n g u s end.

Lemma rounds_steps n g u : forall s e s' e', rounds n g u s e = Some (s', e') -> rtc (step g u) (s, e) (s', e').
Proof.
  induction n as [|n IH]; intros s e s' e' E; cbn [rounds] in E; [injection E as <- <-; reflexivity|].
  rewrite run_bind in E. destruct (pofsc_main_task g u s e) as [[s1 e1]|] eqn:E1; [|discriminate].
  eapply rtc_l; [apply step_main, E1|now apply IH].
Qed.

Lemma rounds_add n k g u : forall s e s' e', rounds n g u s e = Some (s', e') -> rounds (n + k) g u s e = rounds k g u s' e'.
Proof.
  induction n as [|n IH]; intros s e s' e' E; cbn [rounds Nat.add] in *; [now injection E as <- <-|].
  rewrite run_bind in E |- *. destruct (pofsc_main_task g u s e) as [[s1 e1]|]; [|discriminate]. now apply IH.
Qed.

(** ** Witnesses *)

(** A switch that has just started, with one slot; its sockets work. *)
Definition conn_example : conn :=
  mkConn 0 (replicate 2560 0) (replicate 2560 0) (replicate 2560 0) 0 0 0 (mkFraming 0 0 0 0) ([255; 255] ++ replicate 270 0).
Definition world_example (reads : list (list Z)) : world := mkWorld [] [] reads [] [] false 77 false.
Definition mst_example (reads : list (list Z)) : mst := mkM conn_example (world_example reads) dp_example.

Lemma main_moves_in_order_witness : exists s' e',
  pofsc_main_task [] 0 (mst_example []) (env_init POFCS_CHANNEL_INVALID [] []) = Some (s', e') /\
  moves POFCS_CHANNEL_INVALID (conn_state e').
Proof.
  destruct (pofsc_main_task [] 0 (mst_example []) (env_init POFCS_CHANNEL_INVALID [] [])) as [[s' e']|] eqn:E;
    [|vm_compute in E; discriminate].
  destruct (main_moves_in_order [] 0 _ _ _ _ E) as [M _]. exists s', e'. split; [reflexivity|exact M].
Defined.

Lemma hello_comes_first_witness : exists s' e',
  rtc (step [] 0) (mst_example [], env_init POFCS_CHANNEL_INVALID [] []) (s', e') /\ conn_state e' = POFCS_HELLO /\ greeted (s', e').
Proof.
  destruct (rounds 3 [] 0 (mst_example []) (env_init POFCS_CHANNEL_INVALID [] [])) as [[s' e']|] eqn:E;
    [|vm_compute in E; discriminate].
  exists s', e'. apply rounds_steps in E as R. split; [exact R|]. split.
  - apply (f_equal (fun r => match r with Some (_, e) => Some (conn_state e) | None => None end)) in E.
    cbv beta iota in E. set (q := conn_state e') in *. clearbody q. vm_compute in E. now injection E as <-.
  - exact (hello_comes_first [] 0 (mst_example [], env_init POFCS_CHANNEL_INVALID [] []) (s', e') eq_refl R).
Defined.
