(* ===== verification/StreamSpec.v ===== *)
(** * The messages of the stream

    In the RUN state the main task cuts the byte stream of the controller into
    messages.  However TCP cuts the stream into reads, as long as no read ends
    within the length field of a message, every message is handled once, whole
    and in order: when what comes before the buffer is empty again fits in it, and
    also when it does not but messages and reads are small, so that what the code
    moves to the head of a full buffer neither overlaps itself nor reaches the
    length field it goes on reading. *)

From S2P Require Import Prelude Codec Env Tree Hmap IdMap LocalRes ByteTransfer Port Counter Group Meter FlowEntry FlowTable Slot Parse ParseSpec MessageSpec Switch SwitchSpec.

Implicit Types (s : mst).

(** ** What one message does *)

(** A message carries its own length. *)
Definition message_ok (m : list Z) : Prop := sizeof_pof_header <= blen m /\ head_length m 0 = Some (blen m).

(** And is as long as its type says. *)
Definition well_sized (g : list Z) (u : Z) (m : list Z) : Prop := head_length m 0 = Some (blen m) /\ exact_size g u m.

(** An echo reply is noted with its time, any other message is handled. *)
Definition handle (g : list Z) (u now : Z) (m : list Z) (x : Z * pof_datapath) : St (Z * pof_datapath) :=
  if fld m 1 1 =? POFT_ECHO_REPLY then mret (now, x.2)
  else '(_, (_, dp)) ← pof_parse_msg_from_controller g u m x.2; mret (x.1, dp).
Fixpoint handle_all (g : list Z) (u now : Z) (ms : list (list Z)) (x : Z * pof_datapath) : St (Z * pof_datapath) :=
  match ms with [] => mret x | m :: ms => x ← handle g u now m x; handle_all g u now ms x end.

(** ** What is received and not yet handled *)

(** [n] bytes of the messages do not end within a length field. *)
Fixpoint cut_ok (ms : list (list Z)) (n : Z) : Prop :=
  match ms with
  | [] => True
  | m :: ms => if n <? blen m then n = 0 \/ 4 <= n else cut_ok ms (n - blen m)
  end.

(** Of the messages [ms], [have] bytes are in the buffer and the rest comes in
    the reads [cs]. *)
Definition cuts_ok (ms : list (list Z)) (have : Z) (cs : list (list Z)) : Prop :=
  forall k, (1 <= k <= length cs)%nat -> cut_ok ms (have + blen (concat (take k cs))).

(** [pend] is in the buffer, from [process_len] to [rcv_len]. *)
Record held s (pend : list Z) : Prop := {
  he_len : length (recv_buf (cn s)) = 2560%nat;
  he_low : 0 <= process_len (fr (cn s));
  he_rcv : rcv_len (fr (cn s)) = process_len (fr (cn s)) + blen pend;
  he_fit : rcv_len (fr (cn s)) <= 2560;
  he_pend : take (length pend) (drop (Z.to_nat (process_len (fr (cn s)))) (recv_buf (cn s))) = pend
}.

(** The [read]s [cs], and others after them, are to come. *)
Record to_come (later : list (list Z)) s (cs : list (list Z)) : Prop := {
  tc_reads : w_reads (wd s) = cs ++ later;
  tc_some : Forall (fun c => c <> []) cs
}.

(** The buffer has room for all that [cs] brings. *)
Record holds_for (later : list (list Z)) s (pend : list Z) (cs : list (list Z)) : Prop := {
  ho_held :> held s pend;
  ho_come : to_come later s cs;
  ho_room : rcv_len (fr (cn s)) + blen (concat cs) <= 2560
}.
Abbreviation holds := (holds_for []).

Lemma head_at s pend m rest : held s pend -> pend ++ rest = m -> 4 <= blen pend ->
  head_length (recv_buf (cn s)) (process_len (fr (cn s))) = head_length m 0.
Proof.
  intros [L P R Rm B] <- H. unfold head_length, blen in *.
  rewrite sub_buf_in by (unfold blen; lia). rewrite sub_buf_in by (unfold blen; rewrite ?length_app; lia).
  replace (take (Z.to_nat 2) (drop (Z.to_nat (process_len (fr (cn s)) + 2)) (recv_buf (cn s)))) with
    (take (Z.to_nat 2) (drop (Z.to_nat (0 + 2)) (pend ++ rest))); [done|].
  change (Z.to_nat (0 + 2)) with 2%nat. change (Z.to_nat 2) with 2%nat. rewrite <- B.
  rewrite Z2Nat.inj_add by lia. change (Z.to_nat 2) with 2%nat. rewrite <- drop_drop.
  rewrite drop_app_le by (rewrite length_take, length_drop; lia).
  rewrite take_app_le by (rewrite length_drop, length_take, length_drop; lia).
  rewrite skipn_firstn_comm, take_take. f_equal. lia.
Qed.

(** One [read] takes what the next chunk has, up to the end of the buffer; the
    rest of the chunk is read next. *)
Definition part s (c : list Z) : list Z := take (Z.to_nat (2560 - rcv_len (fr (cn s)))) c.
Definition kept_back s (c : list Z) (cs : list (list Z)) : list (list Z) :=
  match drop (Z.to_nat (2560 - rcv_len (fr (cn s)))) c with [] => cs | rest => rest :: cs end.

Definition same_but s s' : Prop :=
  m_dp s' = m_dp s /\ last_echo_time (cn s') = last_echo_time (cn s) /\
  protocol_error (cn s') = protocol_error (cn s) /\ w_exited (wd s') = w_exited (wd s) /\ w_time (wd s') = w_time (wd s).
#[export] Instance same_but_preorder : PreOrder same_but.
Proof. split; [now repeat split|]. intros x y z (? & ? & ? & ? & ?) (? & ? & ? & ? & ?). repeat split; congruence. Qed.

Lemma recv_part later s pend c cs e : held s pend -> to_come later s (c :: cs) -> rcv_len (fr (cn s)) < 2560 ->
  exists s', pofsc_recv (rcv_len (fr (cn s))) (POF_RECV_BUF_MAX_SIZE - rcv_len (fr (cn s))) s e = Some ((POF_OK, blen (part s c), s'), e) /\
    fr (cn s') = fr (cn s) /\ same_but s s' /\ recv_buf (cn s') = patch (recv_buf (cn s)) (Z.to_nat (rcv_len (fr (cn s)))) (part s c) /\
    to_come later s' (kept_back s c cs) /\ 1 <= blen (part s c) <= 2560 - rcv_len (fr (cn s)) /\
    forall t, held (upd_conn (with_fr (mkFraming t (rcv_len (fr (cn s)) + blen (part s c)) (process_len (fr (cn s))) (left_len (fr (cn s))))) s')
      (pend ++ part s c).
Proof.
  intros [L P R Rm B] [E F] Hr. inversion F as [|? ? Hc F']; subst. pose proof (blen_nonneg pend). fold (part s c).
  assert (1 <= blen (part s c) <= 2560 - rcv_len (fr (cn s))) as Lp.
  { unfold part, blen. rewrite length_take. destruct c; [done|]. cbn [length]. lia. }
  unfold pofsc_recv, POF_RECV_BUF_MAX_SIZE, POF_MESSAGE_SIZE. rewrite (proj2 (Z.eqb_neq _ 0)) by lia.
  rewrite E. cbn [app]. destruct c as [|b c]; [done|]. set (c1 := b :: c) in *. fold (part s c1).
  rewrite run_bind, put_buf_in by (unfold blen in *; lia). cbn [lift].
  eexists. split; [reflexivity|]. cbn. split; [done|]. split; [now repeat split|]. split; [done|]. split.
  { split; cbn; unfold kept_back; destruct (drop _ c1) eqn:Ed; auto. }
  split; [exact Lp|]. intros t. constructor; cbn; auto.
  - rewrite length_patch; unfold blen in *; lia.
  - rewrite blen_app. lia.
  - lia.
  - unfold patch. rewrite length_app.
    rewrite drop_app_le by (rewrite length_take; unfold blen in *; lia).
    replace (drop (Z.to_nat (process_len (fr (cn s)))) (take (Z.to_nat (rcv_len (fr (cn s)))) (recv_buf (cn s)))) with pend.
    + rewrite take_app_add. f_equal. now apply take_app_length'.
    + rewrite <- B at 1. rewrite skipn_firstn_comm. f_equal. unfold blen in *. lia.
Qed.

(** A chunk that fits is taken whole. *)
Lemma part_whole s c cs : blen c <= 2560 - rcv_len (fr (cn s)) -> part s c = c /\ kept_back s c cs = cs.
Proof. unfold part, kept_back, blen. intros H. rewrite take_ge, drop_ge by lia. done. Qed.

Lemma part_kept s c cs : part s c ++ concat (kept_back s c cs) = c ++ concat cs.
Proof.
  unfold part, kept_back. rewrite <- (take_drop (Z.to_nat (2560 - rcv_len (fr (cn s)))) c) at 3.
  destruct (drop _ c) as [|b l]; cbn [concat]; [now rewrite app_nil_r|now rewrite app_assoc].
Qed.

Lemma part_all s c cs : blen (part s c) < 2560 - rcv_len (fr (cn s)) -> part s c = c /\ kept_back s c cs = cs.
Proof. intros H. apply part_whole. unfold part, blen in *. rewrite length_take in H. lia. Qed.

Lemma kept_small (K : Z) s c cs : Forall (fun c => blen c <= K) (c :: cs) ->
  Forall (fun c => blen c <= K) (kept_back s c cs) /\ (length (kept_back s c cs) <= S (length cs))%nat.
Proof.
  intros [Hc F]%Forall_cons. unfold kept_back. destruct (drop _ c) as [|b l] eqn:E; [split; [exact F|lia]|].
  split; [|cbn; lia]. constructor; [|exact F]. rewrite <- E. unfold blen in *. rewrite length_drop. lia.
Qed.

Lemma holds_room later s pend c cs : holds_for later s pend (c :: cs) -> 1 <= blen c /\ rcv_len (fr (cn s)) + blen c <= 2560.
Proof.
  intros [_ [_ F] Rm]. inversion F as [|? ? Hc F']; subst. cbn [concat] in Rm. rewrite blen_app in Rm.
  pose proof (blen_nonneg (concat cs)). destruct c as [|b c]; [done|]. unfold blen in *. cbn [length] in *. lia.
Qed.

Lemma recv_chunk later s pend c cs e : holds_for later s pend (c :: cs) ->
  exists s', pofsc_recv (rcv_len (fr (cn s))) (POF_RECV_BUF_MAX_SIZE - rcv_len (fr (cn s))) s e = Some ((POF_OK, blen c, s'), e) /\
    fr (cn s') = fr (cn s) /\ m_dp s' = m_dp s /\ last_echo_time (cn s') = last_echo_time (cn s) /\
    protocol_error (cn s') = protocol_error (cn s) /\ w_exited (wd s') = w_exited (wd s) /\ w_time (wd s') = w_time (wd s) /\
    forall t, holds_for later (upd_conn (with_fr (mkFraming t (rcv_len (fr (cn s)) + blen c) (process_len (fr (cn s))) (left_len (fr (cn s))))) s')
      (pend ++ c) cs.
Proof.
  intros Ho. destruct (holds_room _ _ _ _ _ Ho) as [Lc Rc]. destruct Ho as [H T Rm]. cbn [concat] in Rm. rewrite blen_app in Rm.
  destruct (recv_part later s pend c cs e H T ltac:(lia)) as (s' & E & F & (S1 & S2 & S3 & S4 & S5) & _ & T' & _ & H').
  destruct (part_whole s c cs ltac:(lia)) as [Pw Kb]. rewrite Pw, Kb in *. exists s'. split; [exact E|]. repeat (split; [assumption|]).
  intros t. split; [apply H'|destruct T'; now split|cbn; lia].
Qed.

(** ** Making a message available *)

Lemma cuts_tail ms have c cs : cuts_ok ms have (c :: cs) -> cuts_ok ms (have + blen c) cs.
Proof.
  intros H k Hk. specialize (H (S k)). cbn [take concat length] in H. rewrite blen_app in H.
  rewrite <- Z.add_assoc. apply H. lia.
Qed.

Lemma cuts_first ms have c cs : cuts_ok ms have (c :: cs) -> cut_ok ms (have + blen c).
Proof. intros H. specialize (H 1%nat). cbn in H. rewrite app_nil_r in H. apply H. lia. Qed.

(** Where the chunks end does not change when one is read in two parts. *)
Lemma cuts_kept ms have s c cs : cuts_ok ms have (c :: cs) -> cuts_ok ms (have + blen (part s c)) (kept_back s c cs).
Proof.
  intros H. unfold part, kept_back. set (n := Z.to_nat _). pose proof (take_drop n c) as Ec. destruct (drop n c) as [|b l].
  - rewrite app_nil_r in Ec. rewrite Ec. now apply cuts_tail.
  - intros [|k] Hk; [lia|]. specialize (H (S k)). cbn [take concat] in *. rewrite <- Ec in H. rewrite !blen_app in H.
    rewrite blen_app. replace (have + blen (take n c) + (blen (b :: l) + blen (concat (take k cs)))) with
      (have + (blen (take n c) + blen (b :: l) + blen (concat (take k cs)))) by lia. apply H. cbn [length] in *. lia.
Qed.

Lemma head_app m rest : 4 <= blen m -> head_length (m ++ rest) 0 = head_length m 0.
Proof.
  intros H. unfold head_length, blen in *. rewrite !sub_buf_in by (unfold blen; rewrite ?length_app; lia).
  rewrite drop_app_le, take_app_le by (rewrite ?length_drop; lia). reflexivity.
Qed.

(** The length the loop reads once four bytes are there. *)
Lemma head_message s pend m rest more : held s pend -> message_ok m -> pend ++ more = m ++ rest -> 4 <= blen pend ->
  head_length (recv_buf (cn s)) (process_len (fr (cn s))) = Some (blen m).
Proof.
  intros Ho [M1 M2] E H4. rewrite (head_at s pend (m ++ rest) more Ho E H4), head_app by (unfold sizeof_pof_header in *; lia).
  exact M2.
Qed.

Lemma compact_room s : rcv_len (fr (cn s)) < 2560 -> compact s = Some s.
Proof. intros H. unfold compact, POF_RECV_BUF_MAX_SIZE, POF_MESSAGE_SIZE. now rewrite (proj2 (Z.eqb_neq _ _)) by lia. Qed.

(** Only the position and the number of the bytes matter. *)
Lemma held_fr s pend t l : held s pend ->
  held (upd_conn (with_fr (mkFraming t (rcv_len (fr (cn s))) (process_len (fr (cn s))) l)) s) pend.
Proof. intros [? ? ? ? ?]. now constructor. Qed.
Lemma holds_fr later s pend cs t l : holds_for later s pend cs ->
  holds_for later (upd_conn (with_fr (mkFraming t (rcv_len (fr (cn s))) (process_len (fr (cn s))) l)) s) pend cs.
Proof. intros [H [? ?] ?]. split; [now apply held_fr|now split|done]. Qed.

Lemma same_but_fr s f : same_but s (upd_conn (with_fr f) s).
Proof. now repeat split. Qed.

Lemma await_message later run m ms rest : message_ok m -> forall cs fuel pend s e, holds_for later s pend cs ->
  (length cs < fuel)%nat -> pend ++ concat cs = m ++ rest -> cuts_ok (m :: ms) (blen pend) cs ->
  total_len (fr (cn s)) = blen pend -> 4 <= blen pend ->
  exists s' pend' cs', await run fuel (process_len (fr (cn s))) s e = Some (s', e) /\ same_but s s' /\
    process_len (fr (cn s')) = process_len (fr (cn s)) /\
    holds_for later s' pend' cs' /\ pend' ++ concat cs' = m ++ rest /\ blen m <= blen pend' /\ cuts_ok (m :: ms) (blen pend') cs'.
Proof.
  intros M cs. induction cs as [|c cs IH]; intros fuel pend s e Ho Hf Hs Hc Ht H4;
    (destruct fuel as [|fuel]; [cbn in Hf; lia|]); cbn [await]; rewrite run_bind, (head_message s pend m rest _ (ho_held _ _ _ _ Ho) M Hs H4);
    cbn [lift]; rewrite Ht; destruct (Z.ltb_spec (blen pend) (blen m)) as [Hl|Hl].
  - exfalso. cbn [concat] in Hs. rewrite app_nil_r in Hs. apply (f_equal blen) in Hs. rewrite blen_app in Hs.
    pose proof (blen_nonneg rest). lia.
  - exists s, pend, []. repeat (split; [done|]). done.
  - destruct (holds_room _ _ _ _ _ Ho) as [Lc Rm].
    set (s1 := if run then upd_conn (with_fr (mkFraming (blen pend) (rcv_len (fr (cn s))) (process_len (fr (cn s)))
                 (rcv_len (fr (cn s)) - process_len (fr (cn s))))) s else s).
    assert (holds_for later s1 pend (c :: cs) /\ same_but s s1 /\ rcv_len (fr (cn s1)) = rcv_len (fr (cn s)) /\
      process_len (fr (cn s1)) = process_len (fr (cn s)) /\ total_len (fr (cn s1)) = blen pend) as (Ho1 & S1 & R1 & P1 & T1)
      by (subst s1; destruct run; (split; [first [exact Ho|apply holds_fr, Ho]|repeat split; done])).
    rewrite run_bind.
    assert ((if run then compact (upd_conn (with_fr (mkFraming (blen pend) (rcv_len (fr (cn s))) (process_len (fr (cn s)))
      (rcv_len (fr (cn s)) - process_len (fr (cn s))))) s) else Some s) = Some s1) as Es1
      by (subst s1; destruct run; [apply compact_room; cbn; lia|done]).
    cbv zeta. rewrite Es1.
    cbn [lift]. cbv beta iota. rewrite run_bind.
    destruct (recv_chunk later s1 pend c cs e Ho1) as (s2 & E2 & F2 & S2a & S2b & S2c & S2d & S2e & H2). rewrite E2. cbn [negb Z.eqb].
    set (s3 := upd_conn (with_fr (mkFraming (total_len (fr (cn s1)) + blen c) (rcv_len (fr (cn s1)) + blen c) (process_len (fr (cn s1)))
                 (left_len (fr (cn s1))))) s2).
    assert (same_but s s3) as S3 by (etrans; [exact S1|repeat split; assumption]).
    destruct (IH fuel (pend ++ c) s3 e) as (s' & pend' & cs' & E' & S' & Q').
    + apply H2.
    + cbn in Hf. lia.
    + rewrite <- app_assoc. exact Hs.
    + rewrite blen_app. eapply cuts_tail, Hc.
    + cbn. rewrite T1, blen_app. done.
    + rewrite blen_app. lia.
    + exists s', pend', cs'. split; [|split; [etrans; eassumption|]].
      * change (process_len (fr (cn s3))) with (process_len (fr (cn s1))) in E'. rewrite P1 in E'. exact E'.
      * destruct Q' as (Q1 & Q). split; [|exact Q]. rewrite Q1. exact P1.
  - exists s, pend, (c :: cs). repeat (split; [done|]). done.
Qed.

Lemma fuel_reads later s cs : to_come later s cs -> (length cs < read_fuel s)%nat.
Proof.
  intros [E F]. unfold read_fuel. rewrite E, concat_app, length_app. clear E. induction F as [|c cs Hc F IH]; [cbn; lia|].
  destruct c as [|b c]; [done|]. cbn [concat length app] in *. rewrite length_app. lia.
Qed.

Lemma complete_message s pend m rest more : held s pend -> message_ok m -> pend ++ more = m ++ rest ->
  left_len (fr (cn s)) = blen pend -> complete s = Some (blen m <=? blen pend).
Proof.
  intros Ho M E L. unfold complete. rewrite L. pose proof (blen_nonneg pend) as P.
  assert (blen pend <= 2560) as U by (destruct Ho as [? ? ? ? ?]; lia).
  replace (u64 (blen pend)) with (blen pend) by mod_lia. destruct (Z.leb_spec 8 (blen pend)).
  - rewrite (head_message s pend m rest more); auto. lia.
  - destruct M as [M _]. unfold sizeof_pof_header in M. now rewrite (proj2 (Z.leb_gt _ _)) by lia.
Qed.

Definition entering (next : option pof_channel_state) (e : env) : env :=
  match next with Some x => set_conn_state x e | None => e end.

(** A round has a whole message before it handles one; the next state is set
    when there was something to wait for. *)
Lemma fetch_message later run next m ms rest s e pend cs : message_ok m -> holds_for later s pend cs -> left_len (fr (cn s)) = blen pend ->
  pend ++ concat cs = m ++ rest -> cuts_ok (m :: ms) (blen pend) cs ->
  exists s' pend' cs',
    fetch run next s e = Some ((true, s'), if blen m <=? blen pend then e else entering next e) /\ same_but s s' /\
    holds_for later s' pend' cs' /\ pend' ++ concat cs' = m ++ rest /\ blen m <= blen pend' /\ cuts_ok (m :: ms) (blen pend') cs'.
Proof.
  intros M Ho L E Hc. unfold fetch. rewrite run_bind, (complete_message s pend m rest _ (ho_held _ _ _ _ Ho) M E L). cbn [lift].
  destruct (Z.leb_spec (blen m) (blen pend)) as [Hl|Hl]; [exists s, pend, cs; repeat (split; [done|]); done|].
  destruct cs as [|c cs].
  { exfalso. cbn [concat] in E. rewrite app_nil_r in E. apply (f_equal blen) in E. rewrite blen_app in E.
    pose proof (blen_nonneg rest). lia. }
  destruct (holds_room _ _ _ _ _ Ho) as [Lc Rm].
  assert ((if run then compact s else Some s) = Some s) as Es by (destruct run; [apply compact_room; lia|done]).
  rewrite run_bind, Es. cbn [lift]. cbv beta iota zeta.
  rewrite run_bind. destruct (recv_chunk later s pend c cs e Ho) as (s2 & E2 & F2 & S2a & S2b & S2c & S2d & S2e & H2).
  rewrite E2. cbv beta iota. change (negb (POF_OK =? POF_OK)) with false. cbv iota. rewrite run_bind.
  assert ((match next with Some x => set_state x | None => mret tt end) e = Some (tt, entering next e)) as En by (destruct next; done).
  rewrite En, run_bind.
  match goal with |- context [await run _ _ ?x] => set (s3 := x) end.
  assert (holds_for later s3 (pend ++ c) cs) as H3 by apply H2.
  destruct (await_message later run m ms rest M cs (read_fuel s2) (pend ++ c) s3 (entering next e)) as (s' & pend' & cs' & E' & S' & P' & Q'); auto.
  - apply (fuel_reads later s3), H3.
  - rewrite <- app_assoc. exact E.
  - rewrite blen_app. eapply cuts_tail, Hc.
  - cbn. rewrite L, blen_app. lia.
  - apply cuts_first in Hc. cbn [cut_ok] in Hc. destruct M as [M _]. unfold sizeof_pof_header in M.
    pose proof (blen_nonneg pend). rewrite blen_app. destruct (Z.ltb_spec (blen pend + blen c) (blen m)); lia.
  - exists s', pend', cs'. change (process_len (fr (cn s3))) with (process_len (fr (cn s))) in E'. rewrite E'.
    split; [done|]. split; [|exact Q']. etrans; [|exact S']. repeat split; assumption.
Qed.

Lemma buf_pend s pend : held s pend ->
  exists tail, drop (Z.to_nat (process_len (fr (cn s)))) (recv_buf (cn s)) = pend ++ tail.
Proof. intros [_ _ _ _ B]. eexists. rewrite <- B at 1. symmetry. apply take_drop. Qed.

Lemma head_type_at s m p : held s (m ++ p) -> 8 <= blen m ->
  head_type (recv_buf (cn s)) (process_len (fr (cn s))) = Some (fld m 1 1).
Proof.
  intros Ho H. destruct (buf_pend _ _ Ho) as [tail E]. destruct Ho as [L P R Rm B]. unfold head_type, blen in *.
  pose proof (f_equal length E) as El. rewrite length_drop, !length_app in El.
  rewrite sub_buf_in by (unfold blen; lia).
  replace (Z.to_nat (process_len (fr (cn s)) + 1)) with (Z.to_nat (process_len (fr (cn s))) + 1)%nat by lia.
  rewrite <- drop_drop, E. destruct m as [|x [|y m]]; [cbn in H; lia..|]. reflexivity.
Qed.

(** ** A buffer that fills up

    When the messages have at most [M] bytes and the chunks at most [K], with
    [2 * M + K <= 2562], the stream may be of any length: what is left of a
    message when the buffer is full is moved to its head, and the length the loop
    goes on reading where the message was is not overwritten before the message
    is whole. *)

Lemma head_patch b i t h : 0 <= i -> i + blen t <= h + 2 -> i + blen t <= blen b ->
  head_length (patch b (Z.to_nat i) t) h = head_length b h.
Proof.
  intros Hi Ht Hb. unfold head_length, sub_buf, blen in *. rewrite length_patch by lia.
  replace (drop (Z.to_nat (h + 2)) (patch b (Z.to_nat i) t)) with (drop (Z.to_nat (h + 2)) b); [done|].
  unfold patch. rewrite app_assoc, drop_app_ge by (rewrite length_app, length_take; lia).
  rewrite drop_drop. f_equal. rewrite length_app, length_take. lia.
Qed.

(** The left data go to the head of the full buffer. *)
Lemma compact_moves s pend : held s pend -> rcv_len (fr (cn s)) = 2560 -> left_len (fr (cn s)) = blen pend -> 2 * blen pend <= 2560 ->
  exists s1, compact s = Some s1 /\ same_but s s1 /\ wd s1 = wd s /\ held s1 pend /\
    fr (cn s1) = mkFraming (total_len (fr (cn s))) (blen pend) 0 (blen pend) /\
    forall h, blen pend <= h + 2 -> head_length (recv_buf (cn s1)) h = head_length (recv_buf (cn s)) h.
Proof.
  intros [L P R Rm B] Hf Hl Hp. pose proof (blen_nonneg pend). unfold compact. cbv zeta. rewrite Hf, Hl.
  change (2560 =? POF_RECV_BUF_MAX_SIZE) with true. cbv iota.
  rewrite (proj2 (Z.ltb_ge (blen pend) 0)), (proj2 (Z.ltb_ge _ _)) by lia. cbn [orb].
  rewrite sub_buf_in by (unfold blen in *; lia). cbn [mbind option_bind].
  replace (Z.to_nat (blen pend)) with (length pend) by (unfold blen; lia). rewrite B.
  rewrite put_buf_in by (unfold blen in *; lia). cbn [mbind option_bind]. eexists. split; [reflexivity|].
  split; [now repeat split|]. split; [done|]. split; [|split; [done|]].
  - constructor; cbn; try lia.
    + rewrite length_patch; [exact L|]. unfold blen in *. cbn. lia.
    + change (Z.to_nat 0) with 0%nat. unfold patch. rewrite take_0, drop_0. cbn [app]. apply take_app_length'. done.
  - intros h Hh. cbn. apply (head_patch _ 0); unfold blen in *; lia.
Qed.

(** One byte at least has been read. *)
Ltac fuel_lia := cbn [concat] in *; rewrite ?length_app in *; unfold blen in *; lia.

Section small.
Context (later : list (list Z)) (M K : Z) (m : list Z) (ms : list (list Z)) (rest : list Z).
Hypothesis HMK : 2 * M + K <= 2562.
Hypothesis Hm : message_ok m.
Hypothesis HM : blen m <= M.

Definition small_chunks (cs : list (list Z)) : Prop := Forall (fun c => blen c <= K) cs.

(** What [await] leaves: the message is in the buffer. *)
Definition arrived s s' : Prop := exists pend' cs', same_but s s' /\ held s' pend' /\ to_come later s' cs' /\ small_chunks cs' /\
  pend' ++ concat cs' = m ++ rest /\ blen m <= blen pend' /\ cuts_ok (m :: ms) (blen pend') cs' /\
  (rcv_len (fr (cn s')) < 2560 -> cut_ok (m :: ms) (blen pend')).

Lemma arrived_from s1 s2 s' : same_but s1 s2 -> arrived s2 s' -> arrived s1 s'.
Proof. intros S (p & cs & S' & Q). exists p, cs. split; [now trans s2|exact Q]. Qed.

Lemma arrived_here s pend cs : held s pend -> to_come later s cs -> small_chunks cs -> pend ++ concat cs = m ++ rest ->
  cuts_ok (m :: ms) (blen pend) cs -> (rcv_len (fr (cn s)) < 2560 -> cut_ok (m :: ms) (blen pend)) -> blen m <= blen pend -> arrived s s.
Proof. intros H T Sm E Hc Hcut Hl. exists pend, cs. split; [reflexivity|]. now repeat (split; [assumption|]). Qed.

Lemma bytes_missing pend cs : pend ++ concat cs = m ++ rest -> blen pend < blen m -> exists c cs', cs = c :: cs'.
Proof.
  intros E Hl. destruct cs as [|c cs]; [|eauto]. exfalso. cbn [concat] in E. rewrite app_nil_r in E. apply (f_equal blen) in E.
  rewrite blen_app in E. pose proof (blen_nonneg rest). lia.
Qed.

Lemma cut_whole n : cut_ok (m :: ms) n -> 1 <= n -> 4 <= n.
Proof. cbn [cut_ok]. destruct Hm as [H8 _]. unfold sizeof_pof_header in H8. destruct (Z.ltb_spec n (blen m)); lia. Qed.

(** The data are at the head of the buffer; the length is read at [h], where the
    message was. *)
Lemma await_moved cs : forall fuel h pend s e, held s pend -> to_come later s cs -> small_chunks cs -> (length (concat cs) < fuel)%nat ->
  process_len (fr (cn s)) = 0 -> total_len (fr (cn s)) = blen pend -> head_length (recv_buf (cn s)) h = Some (blen m) ->
  M - 1 + K <= h + 2 -> pend ++ concat cs = m ++ rest -> cuts_ok (m :: ms) (blen pend) cs -> cut_ok (m :: ms) (blen pend) ->
  exists s', await true fuel h s e = Some (s', e) /\ arrived s s'.
Proof.
  induction cs as [|c cs IH]; intros fuel h pend s e H T Sm Hf Hp Ht Hh Hr E Hc Hcut;
    (destruct fuel as [|fuel]; [cbn in Hf; lia|]); cbn [await]; rewrite run_bind, Hh; cbn [lift]; rewrite Ht;
    destruct (Z.ltb_spec (blen pend) (blen m)) as [Hl|Hl].
  - destruct (bytes_missing _ _ E Hl) as (? & ? & ?). discriminate.
  - exists s. split; [done|]. now apply (arrived_here s pend []).
  - apply Forall_cons in Sm as [Hk Sm]. cbv beta in Hk. pose proof (blen_nonneg c) as Nc. pose proof H as [_ _ R _ _]. pose proof (blen_nonneg pend) as Np. cbv zeta.
    set (s1 := upd_conn _ s). assert (held s1 pend) as H1 by (apply held_fr, H). assert (to_come later s1 (c :: cs)) as T1 by (destruct T; now split).
    rewrite run_bind, compact_room by (cbn; lia). cbn [lift]. rewrite run_bind.
    destruct (recv_part later s1 pend c cs e H1 T1 ltac:(cbn; lia)) as (s2 & E2 & F2 & S2 & B2 & T2 & Lp & H2). rewrite E2. cbn [negb Z.eqb].
    destruct (part_whole s1 c cs ltac:(cbn; lia)) as [Pw Kb]. rewrite Pw, Kb in *. pose proof (cuts_first _ _ _ _ Hc) as Hc1.
    match goal with |- context [await true fuel h ?x] => set (s3 := x) end.
    destruct (IH fuel h (pend ++ c) s3 e) as (s' & E' & A'); [apply H2|destruct T2; now split|exact Sm|fuel_lia|exact Hp|..].
    + cbn. rewrite ?Ht, blen_app. lia.
    + cbn. rewrite B2. cbn. rewrite head_patch; [exact Hh|lia|lia|]. destruct H as [L _ _ _ _]. unfold blen in *. lia.
    + exact Hr.
    + now rewrite <- app_assoc.
    + rewrite blen_app. eapply cuts_tail, Hc.
    + now rewrite blen_app.
    + exists s'. split; [exact E'|]. apply (arrived_from s s3); [|exact A']. trans s1; [apply same_but_fr|]. trans s2; [exact S2|apply same_but_fr].
  - exists s. split; [done|]. now apply (arrived_here s pend (c :: cs)).
Qed.

(** The buffer is full and the message is not whole: what is there is moved. *)
Lemma await_full fuel pend cs s e : held s pend -> to_come later s cs -> small_chunks cs -> (length (concat cs) < fuel)%nat ->
  rcv_len (fr (cn s)) = 2560 -> total_len (fr (cn s)) = blen pend -> 4 <= blen pend ->
  pend ++ concat cs = m ++ rest -> cuts_ok (m :: ms) (blen pend) cs ->
  exists s', await true fuel (process_len (fr (cn s))) s e = Some (s', e) /\ arrived s s'.
Proof.
  intros H T Sm Hf Hr Ht H4 E Hc. pose proof (head_message s pend m rest _ H Hm E H4) as Hh. pose proof H as [_ _ R _ _].
  destruct fuel as [|fuel]; [lia|]. cbn [await]. rewrite run_bind, Hh. cbn [lift]. rewrite Ht.
  destruct (Z.ltb_spec (blen pend) (blen m)) as [Hl|Hl].
  2:{ exists s. split; [done|]. apply (arrived_here s pend cs); auto. lia. }
  destruct (bytes_missing _ _ E Hl) as (c & cs' & ->). apply Forall_cons in Sm as [Hk Sm]. cbv beta in Hk. pose proof (blen_nonneg c) as Nc. cbv zeta. set (s0 := upd_conn _ s).
  assert (held s0 pend) as H0 by (apply held_fr, H).
  destruct (compact_moves s0 pend H0 Hr ltac:(cbn; lia) ltac:(lia)) as (s1 & E1 & S1 & W1 & H1 & F1 & Hd1).
  assert (to_come later s1 (c :: cs')) as T1 by (destruct T; split; [now rewrite W1|done]).
  rewrite run_bind, E1. cbn [lift]. rewrite run_bind.
  destruct (recv_part later s1 pend c cs' e H1 T1 ltac:(rewrite F1; cbn; lia)) as (s2 & E2 & F2 & S2 & B2 & T2 & Lp & H2). rewrite E2. cbn [negb Z.eqb].
  destruct (part_whole s1 c cs' ltac:(rewrite F1; cbn; lia)) as [Pw Kb]. rewrite Pw, Kb in *.
  match goal with |- context [await true fuel ?h ?x] => set (s3 := x); destruct (await_moved cs' fuel h (pend ++ c) s3 e) as (s' & E' & A') end.
  - apply H2.
  - destruct T2. now split.
  - exact Sm.
  - fuel_lia.
  - cbn. now rewrite F1.
  - cbn. rewrite F1, blen_app. cbn. lia.
  - cbn. rewrite B2, head_patch; rewrite ?F1; cbn [rcv_len]; [|lia|lia|destruct H1 as [L _ _ _ _]; unfold blen in *; lia].
    rewrite Hd1 by lia. exact Hh.
  - lia.
  - now rewrite <- app_assoc.
  - rewrite blen_app. eapply cuts_tail, Hc.
  - rewrite blen_app. now apply cuts_first in Hc.
  - exists s'. split; [exact E'|]. apply (arrived_from s s3); [|exact A'].
    trans s0; [apply same_but_fr|]. trans s1; [exact S1|]. trans s2; [exact S2|apply same_but_fr].
Qed.

(** Waiting for a message where it lies. *)
Lemma await_small cs : forall fuel pend s e, held s pend -> to_come later s cs -> small_chunks cs -> (length (concat cs) < fuel)%nat ->
  total_len (fr (cn s)) = blen pend -> 4 <= blen pend ->
  pend ++ concat cs = m ++ rest -> cuts_ok (m :: ms) (blen pend) cs ->
  (rcv_len (fr (cn s)) < 2560 -> cut_ok (m :: ms) (blen pend)) ->
  exists s', await true fuel (process_len (fr (cn s))) s e = Some (s', e) /\ arrived s s'.
Proof.
  induction cs as [|c cs IH]; intros fuel pend s e H T Sm Hf Ht H4 E Hc Hcut; pose proof H as [_ _ R Rm _];
    (destruct (Z.eq_dec (rcv_len (fr (cn s))) 2560) as [Hr|Hr]; [apply (await_full fuel pend _ s e H T Sm Hf Hr Ht H4 E Hc)|]);
    pose proof (head_message s pend m rest _ H Hm E H4) as Hh;
    (destruct fuel as [|fuel]; [lia|]); cbn [await]; rewrite run_bind, Hh; cbn [lift]; rewrite Ht;
    destruct (Z.ltb_spec (blen pend) (blen m)) as [Hl|Hl].
  - destruct (bytes_missing _ _ E Hl) as (? & ? & ?). discriminate.
  - exists s. split; [done|]. now apply (arrived_here s pend []).
  - apply Forall_cons in Sm as [Hk Sm]. cbv beta in Hk. pose proof (blen_nonneg c) as Nc. cbv zeta. set (s1 := upd_conn _ s).
    assert (held s1 pend) as H1 by (apply held_fr, H). assert (to_come later s1 (c :: cs)) as T1 by (destruct T; now split).
    rewrite run_bind, compact_room by (cbn; lia). cbn [lift]. rewrite run_bind.
    destruct (recv_part later s1 pend c cs e H1 T1 ltac:(cbn; lia)) as (s2 & E2 & F2 & S2 & B2 & T2 & Lp & H2). rewrite E2. cbn [negb Z.eqb].
    match goal with |- context [await true fuel _ ?x] => set (s3 := x) end.
    assert (same_but s s3) as S3 by (trans s1; [apply same_but_fr|]; trans s2; [exact S2|apply same_but_fr]).
    assert (held s3 (pend ++ part s1 c)) as H3 by apply H2. pose proof H as [_ P _ _ _]. pose proof (cuts_first _ _ _ _ Hc) as Hc1.
    change (process_len (fr (cn s))) with (process_len (fr (cn s3))).
    destruct (kept_small K s1 c cs ltac:(now constructor)) as [Sm' Lk]. apply (cuts_kept _ _ s1) in Hc.
    destruct (Z.eq_dec (rcv_len (fr (cn s3))) 2560) as [Hr3|Hr3].
    + destruct (await_full fuel (pend ++ part s1 c) (kept_back s1 c cs) s3 e) as (s' & E' & A'); try assumption.
      * destruct T2; now split.
      * pose proof (f_equal length (part_kept s1 c cs)) as Lk'. rewrite !length_app in Lk'. cbn [concat] in Hf. rewrite length_app in Hf. unfold blen in Lp. lia.
      * cbn. rewrite ?Ht, blen_app. lia.
      * rewrite blen_app. lia.
      * now rewrite <- app_assoc, part_kept.
      * now rewrite blen_app.
      * exists s'. split; [exact E'|]. now apply (arrived_from s s3).
    + destruct (part_all s1 c cs) as [Pw Kb]; [change (rcv_len (fr (cn s1)) + blen (part s1 c) <> 2560) in Hr3; lia|]. rewrite Pw, Kb in *.
      destruct (IH fuel (pend ++ c) s3 e) as (s' & E' & A'); try assumption.
      * destruct T2; now split.
      * fuel_lia.
      * cbn. rewrite ?Ht, ?Pw, blen_app. lia.
      * rewrite blen_app. lia.
      * now rewrite <- app_assoc.
      * now rewrite blen_app.
      * rewrite blen_app. now intros _.
      * exists s'. split; [exact E'|]. now apply (arrived_from s s3).
  - exists s. split; [done|]. now apply (arrived_here s pend (c :: cs)).
Qed.

(** A round has a whole message, whether the buffer is full or not. *)
Lemma fetch_small s e pend cs : held s pend -> to_come later s cs -> small_chunks cs -> left_len (fr (cn s)) = blen pend ->
  (pend = [] -> process_len (fr (cn s)) = 0) ->
  pend ++ concat cs = m ++ rest -> cuts_ok (m :: ms) (blen pend) cs -> (rcv_len (fr (cn s)) < 2560 -> cut_ok (m :: ms) (blen pend)) ->
  exists s', fetch true None s e = Some ((true, s'), e) /\ arrived s s'.
Proof.
  intros H T Sm L Z0 E Hc Hcut. unfold fetch. rewrite run_bind, (complete_message s pend m rest _ H Hm E L). cbn [lift].
  destruct (Z.leb_spec (blen m) (blen pend)) as [Hl|Hl].
  { exists s. split; [done|]. now apply (arrived_here s pend cs). }
  destruct (bytes_missing _ _ E Hl) as (c & cs' & ->). pose proof H as [_ P R Rm _]. pose proof (blen_nonneg pend).
  pose proof (proj1 (Forall_cons _ _ _) Sm) as [Hk _]. cbv beta in Hk. pose proof (blen_nonneg c) as Nc.
  assert (exists s1, compact s = Some s1 /\ same_but s s1 /\ wd s1 = wd s /\ held s1 pend /\ left_len (fr (cn s1)) = blen pend /\
    rcv_len (fr (cn s1)) < 2560 /\ (pend = [] -> process_len (fr (cn s1)) = 0) /\
    (blen (part s1 c) < blen c -> cut_ok (m :: ms) (blen pend))) as (s1 & E1 & S1 & W1 & H1 & L1 & R1 & Z1 & Hc1).
  { destruct (Z.eq_dec (rcv_len (fr (cn s))) 2560) as [Hr|Hr].
    - destruct (compact_moves s pend H Hr L ltac:(lia)) as (s1 & E1 & S1 & W1 & H1 & F1 & _). exists s1. rewrite F1. repeat (split; [first [assumption|done|cbn; lia]|]).
      intros Hp. exfalso. unfold part in Hp. rewrite F1, take_ge in Hp; [lia|]. cbn. unfold blen in *. lia.
    - exists s. rewrite compact_room by lia. repeat (split; [first [assumption|done|lia]|]). intros _. apply Hcut. lia. }
  assert (to_come later s1 (c :: cs')) as T1 by (destruct T; split; [now rewrite W1|done]).
  rewrite run_bind, E1. cbn [lift]. cbv beta iota zeta. rewrite run_bind.
  destruct (recv_part later s1 pend c cs' e H1 T1 R1) as (s2 & E2 & F2 & S2 & B2 & T2 & Lp & H2). rewrite E2. cbv beta iota.
  change (negb (POF_OK =? POF_OK)) with false. cbv iota. rewrite run_bind. unfold mret at 1, St_ret. cbv beta iota. rewrite run_bind.
  match goal with |- context [await true _ _ ?x] => set (s3 := x) end.
  assert (same_but s s3) as S3 by (trans s1; [exact S1|]; trans s2; [exact S2|apply same_but_fr]).
  destruct (kept_small K s1 c cs' Sm) as [Sm' Lk]. pose proof (cuts_first _ _ _ _ Hc) as Hcf. pose proof (cuts_kept _ _ s1 _ _ Hc) as Hck.
  assert (to_come later s3 (kept_back s1 c cs')) as T3 by (destruct T2; now split).
  pose proof H1 as [_ P1 Rc1 _ _].
  assert (blen (part s1 c) = blen c \/ blen (part s1 c) < blen c /\ rcv_len (fr (cn s3)) = 2560) as Hpart.
  { cbn. unfold part, blen. rewrite length_take. lia. }
  change (process_len (fr (cn s1))) with (process_len (fr (cn s3))).
  destruct (await_small (kept_back s1 c cs') (read_fuel s2) (pend ++ part s1 c) s3 e) as (s' & E' & A').
  - apply H2.
  - exact T3.
  - exact Sm'.
  - unfold read_fuel. destruct T3 as [Er _]. change (wd s3) with (wd s2) in Er. rewrite Er, concat_app, length_app. lia.
  - cbn. rewrite L1, blen_app. lia.
  - rewrite blen_app. destruct Hpart as [Hp|[Hp Hr3]].
    + rewrite Hp. apply cut_whole; [exact Hcf|lia].
    + specialize (Hc1 Hp). destruct (Z.eq_dec (blen pend) 0) as [Hz|Hz]; [|pose proof (cut_whole _ Hc1 ltac:(lia)); lia].
      exfalso. destruct pend; [|unfold blen in Hz; cbn in Hz; lia]. rewrite (Z1 eq_refl) in Rc1. cbn in Hr3. lia.
  - now rewrite <- app_assoc, part_kept.
  - now rewrite blen_app.
  - intros Hr3. destruct Hpart as [Hp|[_ Hr]]; [|lia]. rewrite blen_app, Hp. exact Hcf.
  - rewrite E'. exists s'. split; [done|]. now apply (arrived_from s s3).
Qed.
End small.

(** ** Handling it *)

(** The buffer after the message in front has been worked on where it lies. *)
Lemma parse_at_held g u m p s e r m' dp e' : held s (m ++ p) -> self_contained g u m ->
  pof_parse_msg_from_controller g u m (m_dp s) e = Some ((r, (m', dp)), e') ->
  exists s', parse_at g u (process_len (fr (cn s))) s e = Some ((r, s'), e') /\
    m_dp s' = dp /\ last_echo_time (cn s') = last_echo_time (cn s) /\ protocol_error (cn s') = protocol_error (cn s) /\
    wd s' = wd s /\ fr (cn s') = fr (cn s) /\ length m' = length m /\ held s' (m' ++ p).
Proof.
  intros Ho Hs Ep. destruct (Hs _ _ _ _ _ _ Ep) as [Lm Hp].
  destruct (buf_pend _ _ Ho) as [tail Et]. rewrite <- app_assoc in Et.
  unfold parse_at. rewrite run_bind, Et, Hp. eexists. split; [reflexivity|]. repeat (split; [first [reflexivity|exact Lm]|]).
  destruct Ho as [L P R Rm B]. unfold blen in *. rewrite length_app in R. apply (f_equal length) in Et as El.
  rewrite length_drop, !length_app in El. constructor; cbn; auto.
  - rewrite !length_app, length_take. lia.
  - unfold blen. rewrite length_app. lia.
  - rewrite drop_app_length' by (rewrite length_take; lia). rewrite app_assoc. now rewrite take_app_length.
Qed.

(** What is to come does not depend on the buffer. *)
Lemma holds_same later s s' pend pend' cs : holds_for later s pend cs -> held s' pend' -> wd s' = wd s -> fr (cn s') = fr (cn s) ->
  holds_for later s' pend' cs.
Proof. intros [_ [E F] Rm] H W Fr. split; [exact H|split; [now rewrite W|exact F]|now rewrite Fr]. Qed.

Lemma parse_at_holds later g u m p cs s e r m' dp e' : holds_for later s (m ++ p) cs -> self_contained g u m ->
  pof_parse_msg_from_controller g u m (m_dp s) e = Some ((r, (m', dp)), e') ->
  exists s', parse_at g u (process_len (fr (cn s))) s e = Some ((r, s'), e') /\
    m_dp s' = dp /\ last_echo_time (cn s') = last_echo_time (cn s) /\ protocol_error (cn s') = protocol_error (cn s) /\
    wd s' = wd s /\ fr (cn s') = fr (cn s) /\ length m' = length m /\ holds_for later s' (m' ++ p) cs.
Proof.
  intros Ho Hs Ep. destruct (parse_at_held g u m p s e r m' dp e' Ho Hs Ep) as (s' & E & D1 & D2 & D3 & D4 & D5 & D6 & H).
  exists s'. repeat (split; [assumption|]). now apply (holds_same later s s' (m ++ p)).
Qed.

Lemma process_message g u m p s e t dp e' : message_ok m -> held s (m ++ p) ->
  (fld m 1 1 <> POFT_ECHO_REPLY -> self_contained g u m) ->
  handle g u (w_time (wd s)) m (last_echo_time (cn s), m_dp s) e = Some ((t, dp), e') ->
  exists r s' m', pofsc_run_process g u (process_len (fr (cn s))) (blen m) s e = Some ((r, s'), e') /\
    m_dp s' = dp /\ last_echo_time (cn s') = t /\ protocol_error (cn s') = protocol_error (cn s) /\ wd s' = wd s /\
    fr (cn s') = fr (cn s) /\ length m' = length m /\ held s' (m' ++ p).
Proof.
  intros M Ho Hs E. pose proof M as [M1 M2]. unfold sizeof_pof_header in M1.
  unfold pofsc_run_process. rewrite run_bind.
  rewrite (head_message s (m ++ p) m p [] Ho M (app_nil_r _)) by (rewrite blen_app; pose proof (blen_nonneg p); lia).
  cbn [lift]. rewrite Z.eqb_refl. cbn [negb]. rewrite run_bind, (head_type_at s m p Ho) by lia. cbn [lift].
  unfold handle in E. destruct (Z.eqb_spec (fld m 1 1) POFT_ECHO_REPLY) as [|Ht].
  - injection E as <- <- <-. do 2 eexists. exists m. split; [reflexivity|]. repeat (split; [reflexivity|]).
    destruct Ho. now constructor.
  - rewrite run_bind in E. destruct (pof_parse_msg_from_controller g u m _ e) as [[[r [m' dp']] e1]|] eqn:Ep; [|discriminate].
    injection E as <- <- <-. destruct (parse_at_held g u m p s e r m' dp' e1 Ho (Hs Ht) Ep) as (s' & E' & D1 & Q).
    exists r, s', m'. split; [exact E'|]. split; [exact D1|exact Q].
Qed.

Lemma consumed_held k s m p : held s (m ++ p) -> blen m = k ->
  held (consumed k s) p /\ left_len (fr (cn (consumed k s))) = blen p /\
  (p = [] -> process_len (fr (cn (consumed k s))) = 0) /\ rcv_len (fr (cn (consumed k s))) <= rcv_len (fr (cn s)) /\
  (p <> [] -> rcv_len (fr (cn (consumed k s))) = rcv_len (fr (cn s))).
Proof.
  intros Ho <-. destruct Ho as [L P R Rm B]. rewrite blen_app in R. unfold consumed.
  pose proof (blen_nonneg m). pose proof (blen_nonneg p).
  destruct (Z.eqb_spec (rcv_len (fr (cn s)) - (process_len (fr (cn s)) + blen m)) 0) as [Hz|Hz].
  - destruct p as [|b p]; [|unfold blen in *; cbn in *; lia].
    split; [|split; [reflexivity|split; [intros _; reflexivity|split; [cbn; lia|done]]]].
    constructor; cbn; auto; lia.
  - split; [|split; [cbn; lia|split; [intros ->; unfold blen in *; cbn in *; lia|split; [cbn; lia|done]]]]. constructor; cbn; auto; try lia.
    unfold blen in *. rewrite Z2Nat.inj_add, Nat2Z.id, <- drop_drop by lia.
    rewrite length_app in B. set (x := drop _ (recv_buf (cn s))) in *.
    apply (f_equal (drop (length m))) in B. rewrite drop_app_length in B. rewrite skipn_firstn_comm in B.
    now rewrite Nat.add_comm, Nat.add_sub in B.
Qed.

Lemma consumed_holds later k s m p cs : holds_for later s (m ++ p) cs -> blen m = k ->
  holds_for later (consumed k s) p cs /\ left_len (fr (cn (consumed k s))) = blen p /\
  (p = [] -> process_len (fr (cn (consumed k s))) = 0).
Proof.
  intros [Ho [? ?] Rm] Hk. destruct (consumed_held k s m p Ho Hk) as (H & L & Z0 & Rc & _).
  split; [|now split]. split; [exact H|now split|lia].
Qed.

(** ** Rounds *)

Lemma prefix_app_le (m p : list Z) (a b : list Z) : blen m <= blen p /\ p ++ b = m ++ a -> exists q, p = m ++ q /\ q ++ b = a.
Proof.
  intros [L E]. exists (drop (length m) p). unfold blen in L.
  assert (take (length m) p = m) as T by (apply (f_equal (take (length m))) in E; rewrite take_app_le, take_app_length in E by lia; exact E).
  assert (p = m ++ drop (length m) p) as P by (rewrite <- T at 1; symmetry; apply take_drop).
  split; [exact P|]. rewrite P, <- app_assoc in E. now apply app_inv_head in E.
Qed.

(** Either the rest of the stream fits the buffer, or messages and chunks are
    small and, unless the buffer is full, a length field is not cut. *)
Definition roomy (ms : list (list Z)) s (pend : list Z) (cs : list (list Z)) : Prop :=
  rcv_len (fr (cn s)) + blen (concat cs) <= 2560 \/
  exists M K, 2 * M + K <= 2562 /\ Forall (fun m => blen m <= M) ms /\ small_chunks K cs /\
    (rcv_len (fr (cn s)) < 2560 -> cut_ok ms (blen pend)).

(** The main task is about to handle [ms]: some of their bytes are in the
    buffer, the rest is still to be read, before the reads [later]. *)
Record ready (later : list (list Z)) (now : Z) (ms : list (list Z)) s (e : env) : Prop := {
  rd_run : conn_state e = POFCS_CHANNEL_RUN;
  rd_alive : w_exited (wd s) = false;
  rd_quiet : fld (protocol_error (cn s)) 0 2 = 0xffff;
  rd_time : w_time (wd s) = now;
  rd_bytes : exists pend cs, held s pend /\ to_come later s cs /\ left_len (fr (cn s)) = blen pend /\
    (pend = [] -> process_len (fr (cn s)) = 0) /\ pend ++ concat cs = concat ms /\ cuts_ok ms (blen pend) cs /\ roomy ms s pend cs
}.

Lemma fetch_ready later m ms s e pend cs : message_ok m -> held s pend -> to_come later s cs -> left_len (fr (cn s)) = blen pend ->
  (pend = [] -> process_len (fr (cn s)) = 0) -> pend ++ concat cs = m ++ concat ms -> cuts_ok (m :: ms) (blen pend) cs ->
  roomy (m :: ms) s pend cs ->
  exists s' pend' cs', fetch true None s e = Some ((true, s'), e) /\ same_but s s' /\ held s' pend' /\ to_come later s' cs' /\
    pend' ++ concat cs' = m ++ concat ms /\ blen m <= blen pend' /\ cuts_ok (m :: ms) (blen pend') cs' /\ roomy (m :: ms) s' pend' cs'.
Proof.
  intros Hm H T L Z0 E Hc [Rm|(M & K & HMK & [Hs Hs']%Forall_cons & Sm & Hcut)].
  - destruct (fetch_message later true None m ms (concat ms) s e pend cs Hm ltac:(now split) L E Hc)
      as (s' & p & cs' & E' & S & [H' T' Rm'] & C & Lm & Hc').
    exists s', p, cs'. split; [rewrite E'; now destruct (_ <=? _)|]. repeat (split; [assumption|]). now left.
  - destruct (fetch_small later M K m ms (concat ms) HMK Hm Hs s e pend cs H T Sm L Z0 E Hc Hcut)
      as (s' & E' & p & cs' & S & H' & T' & Sm' & C & Lm & Hc' & Hcut').
    exists s', p, cs'. repeat (split; [assumption|]). right. exists M, K. split; [exact HMK|]. split; [now constructor|now split].
Qed.

Lemma cut_ok_0 ms : cut_ok ms 0.
Proof.
  induction ms as [|m ms IH]; cbn [cut_ok]; [done|]. destruct (Z.ltb_spec 0 (blen m)) as [|H]; [now left|].
  pose proof (blen_nonneg m). now replace (0 - blen m) with 0 by lia.
Qed.

(** One message less. *)
Lemma roomy_consumed k m ms s p cs : held s (m ++ p) -> blen m = k -> roomy (m :: ms) s (m ++ p) cs -> roomy ms (consumed k s) p cs.
Proof.
  intros H Hk R. destruct (consumed_held k s m p H Hk) as (_ & _ & _ & Rc & Re). destruct R as [Rm|(M & K & HMK & [_ Hs]%Forall_cons & Sm & Hcut)].
  - left. lia.
  - right. exists M, K. split; [exact HMK|]. split; [exact Hs|]. split; [exact Sm|]. destruct p as [|b p]; [intros _; apply cut_ok_0|].
    rewrite Re by done. intros Hr. specialize (Hcut Hr). cbn [cut_ok] in Hcut. rewrite blen_app in Hcut. pose proof (blen_nonneg (b :: p)).
    rewrite (proj2 (Z.ltb_ge _ _)) in Hcut by lia. now replace (blen m + blen (b :: p) - blen m) with (blen (b :: p)) in Hcut by lia.
Qed.

Lemma cuts_drop m ms have cs : cuts_ok (m :: ms) have cs -> blen m <= have -> cuts_ok ms (have - blen m) cs.
Proof.
  intros H Hl k Hk. specialize (H k Hk). cbn [cut_ok] in H. pose proof (blen_nonneg (concat (take k cs))).
  rewrite (proj2 (Z.ltb_ge _ _)) in H by lia. now replace (have - blen m + blen (concat (take k cs))) with
    (have + blen (concat (take k cs)) - blen m) by lia.
Qed.

Lemma keeps_handle g u now m x : keeps (handle g u now m x).
Proof.
  unfold handle. destruct (_ =? _); [apply keeps_ret|]. apply keeps_bind; [apply keeps_parse|]. intros [r [m' dp]]. apply keeps_ret.
Qed.

Lemma handle_round later g u now m ms s e t dp e' : message_ok m -> (fld m 1 1 <> POFT_ECHO_REPLY -> self_contained g u m) ->
  ready later now (m :: ms) s e -> handle g u now m (last_echo_time (cn s), m_dp s) e = Some ((t, dp), e') ->
  exists s', pofsc_main_task g u s e = Some (s', e') /\ ready later now ms s' e' /\ m_dp s' = dp /\ last_echo_time (cn s') = t.
Proof.
  intros M Hs [R A Q T (pend & cs & Ho & Tc & L & Z0 & E & Hc & Rm)] Eh. pose proof (kept_state _ (keeps_handle _ _ _ _ _) _ _ _ Eh) as K.
  destruct (fetch_ready later m ms s e pend cs M Ho Tc L Z0 E Hc Rm)
    as (s1 & p1 & cs1 & E1 & (S1 & S2 & S3 & S4 & S5) & H1 & Tc1 & C1 & L1 & Hc1 & Rm1).
  destruct (prefix_app_le m p1 (concat ms) (concat cs1) (conj L1 C1)) as (p & -> & C2).
  rewrite <- T, <- S5, <- S2, <- S1 in Eh.
  destruct (process_message g u m p s1 e t dp e' M H1 Hs Eh) as (r & s2 & m' & E2 & D1 & D2 & D3 & D4 & D5 & D6 & H2).
  assert (blen m' = blen m) as Lm by (unfold blen; now rewrite D6).
  destruct (consumed_held (blen m) s2 m' p H2 Lm) as (H3 & L3 & Z3 & _).
  exists (consumed (blen m) s2). split; [|split; [|now split]].
  - unfold pofsc_main_task. rewrite A, run_bind. unfold get_state at 1. rewrite run_bind. unfold get_env at 1, mret at 1, St_ret. cbv beta iota.
    rewrite R, run_bind. unfold state_RUN.
    rewrite run_bind, E1. cbv beta iota. rewrite run_bind.
    unfold get_state at 1. rewrite run_bind. unfold get_env at 1, mret at 1, St_ret. cbv beta iota. rewrite R.
    change (negb true || bool_decide (POFCS_CHANNEL_RUN = POFCS_CHANNEL_INVALID)) with false. cbv iota zeta.
    rewrite run_bind, (head_message s1 (m ++ p) m p [] H1 M (app_nil_r _)) by (destruct M as [M1 _]; unfold sizeof_pof_header in M1; lia).
    cbn [lift]. rewrite run_bind, E2. unfold mret at 1, St_ret. cbv beta iota.
    unfold report_protocol_error. change (w_exited (wd (consumed (blen m) s2))) with (w_exited (wd s2)).
    change (protocol_error (cn (consumed (blen m) s2))) with (protocol_error (cn s2)).
    rewrite D4, S4, A, D3, S3, Q. reflexivity.
  - constructor; [congruence|change (w_exited (wd s2) = false); congruence
                 |change (fld (protocol_error (cn s2)) 0 2 = 0xffff); congruence|change (w_time (wd s2) = now); congruence|].
    exists p, cs1. split; [exact H3|]. split; [destruct Tc1 as [Tr Ts]; split; [change (w_reads (wd s2) = cs1 ++ later); now rewrite D4|exact Ts]|].
    split; [exact L3|]. split; [exact Z3|]. rewrite blen_app in Hc1. pose proof (blen_nonneg p). apply cuts_drop in Hc1; [|lia].
    split; [exact C2|]. split; [now replace (blen m + blen p - blen m) with (blen p) in Hc1 by lia|].
    apply (roomy_consumed (blen m) m' ms s2 p cs1 H2 Lm). destruct Rm1 as [Rm1|(M1 & K1 & HMK & [Hs1 Hs2]%Forall_cons & Sm & Hcut)].
    + left. now rewrite D5.
    + right. exists M1, K1. split; [exact HMK|]. split; [constructor; [now rewrite Lm|exact Hs2]|]. split; [exact Sm|].
      rewrite D5. cbn [cut_ok] in *. rewrite !blen_app, Lm in *. exact Hcut.
Qed.

Lemma ready_rounds later g u now ms : Forall message_ok ms ->
  Forall (fun m => fld m 1 1 <> POFT_ECHO_REPLY -> self_contained g u m) ms -> forall s e t dp e', ready later now ms s e ->
  handle_all g u now ms (last_echo_time (cn s), m_dp s) e = Some ((t, dp), e') ->
  exists s', rounds (length ms) g u s e = Some (s', e') /\ ready later now [] s' e' /\ m_dp s' = dp /\ last_echo_time (cn s') = t.
Proof.
  induction 1 as [|m ms M Ms IH]; intros Hs s e t dp e' Hr E.
  - injection E as <- <- <-. now exists s.
  - inversion Hs as [|? ? Hm Hs']; subst. cbn [handle_all] in E. rewrite run_bind in E.
    destruct (handle g u now m _ e) as [[[t1 dp1] e1]|] eqn:Eh; [|discriminate].
    destruct (handle_round later g u now m ms s e t1 dp1 e1 M Hm Hr Eh) as (s1 & E1 & R1 & D1 & D2).
    rewrite <- D1, <- D2 in E. destruct (IH Hs' s1 e1 t dp e' R1 E) as (s' & E' & Q). exists s'. split; [|exact Q].
    cbn [length rounds]. now rewrite run_bind, E1.
Qed.

Lemma well_sized_ok g u m : well_sized g u m -> message_ok m.
Proof. intros [H [H8 _]]. split; [unfold blen, sizeof_pof_header; lia|exact H]. Qed.

(** ** Bursts *)

(** Messages that come together, in the reads [x.2]: each as long as its type
    says, no read ends within the four bytes before the end of a length field, and
    either they fit the buffer together or they are small, and so are the reads. *)
Record burst_ok (g : list Z) (u : Z) (x : list (list Z) * list (list Z)) : Prop := {
  bu_sized : Forall (well_sized g u) x.1;
  bu_some : Forall (fun c => c <> []) x.2;
  bu_bytes : concat x.2 = concat x.1;
  bu_cuts : cuts_ok x.1 0 x.2;
  bu_size : blen (concat x.1) <= 2560 \/
    exists M K, 2 * M + K <= 2562 /\ Forall (fun m => blen m <= M) x.1 /\ Forall (fun c => blen c <= K) x.2
}.

(** The RUN state between two bursts. *)
Record idle s (e : env) : Prop := {
  id_run : conn_state e = POFCS_CHANNEL_RUN;
  id_alive : w_exited (wd s) = false;
  id_quiet : fld (protocol_error (cn s)) 0 2 = 0xffff;
  id_len : length (recv_buf (cn s)) = 2560%nat;
  id_empty : rcv_len (fr (cn s)) = 0 /\ process_len (fr (cn s)) = 0 /\ left_len (fr (cn s)) = 0
}.

Lemma burst_handled later g u x s e t dp e' : idle s e -> w_reads (wd s) = x.2 ++ later -> burst_ok g u x ->
  handle_all g u (w_time (wd s)) x.1 (last_echo_time (cn s), m_dp s) e = Some ((t, dp), e') ->
  exists s', rounds (length x.1) g u s e = Some (s', e') /\ idle s' e' /\ m_dp s' = dp /\ last_echo_time (cn s') = t /\
    w_reads (wd s') = later /\ w_time (wd s') = w_time (wd s).
Proof.
  destruct x as [ms cs]. intros [R A Q Lb (F1 & F2 & F3)] W [Mw Hn E Hc Hl] Eh. cbn [fst snd] in *.
  assert (Forall message_ok ms) as M by (eapply Forall_impl; [exact Mw|]; intros m Hm; eapply well_sized_ok, Hm).
  assert (Forall (fun m => fld m 1 1 <> POFT_ECHO_REPLY -> self_contained g u m) ms) as Hs
    by (eapply Forall_impl; [exact Mw|]; intros m [_ Hm] _; now apply exact_self_contained).
  assert (ready later (w_time (wd s)) ms s e) as Hr.
  { constructor; auto. exists [], cs. split; [constructor; rewrite ?F1, ?F2; auto; lia|]. split; [now split|]. split; [exact F3|].
    split; [auto|]. split; [exact E|]. split; [exact Hc|]. destruct Hl as [Hl|(M1 & K1 & HMK & H1 & H2)]; [left; rewrite F1, E; lia|].
    right. exists M1, K1. split; [exact HMK|]. split; [exact H1|]. split; [exact H2|]. intros _. apply cut_ok_0. }
  destruct (ready_rounds later g u _ ms M Hs s e t dp e' Hr Eh) as (s' & E' & [R' A' Q' T' (pend & cs' & Ho & [Tr Ts] & L & Z0 & C & _)] & D1 & D2).
  apply app_nil in C. destruct C as [-> C]. exists s'. specialize (Z0 eq_refl). destruct Ho as [Hlen _ Rc _ _]. rewrite Z0 in Rc.
  split; [exact E'|]. split; [constructor; auto|]. split; [exact D1|]. split; [exact D2|]. split; [|exact T'].
  destruct cs' as [|c cs']; [exact Tr|]. inversion Ts; subst. now destruct c.
Qed.

Lemma handle_all_app g u now ms1 ms2 x e y e1 : handle_all g u now ms1 x e = Some (y, e1) ->
  handle_all g u now (ms1 ++ ms2) x e = handle_all g u now ms2 y e1.
Proof.
  revert x e. induction ms1 as [|m ms1 IH]; intros x e E; cbn [handle_all app] in *; [now injection E as <- <-|].
  rewrite run_bind in *. destruct (handle g u now m x e) as [[x1 e2]|]; [|discriminate]. now apply IH.
Qed.

Lemma handle_all_split g u now ms1 ms2 x e y e2 : handle_all g u now (ms1 ++ ms2) x e = Some (y, e2) ->
  exists y1 e1, handle_all g u now ms1 x e = Some (y1, e1) /\ handle_all g u now ms2 y1 e1 = Some (y, e2).
Proof.
  destruct (handle_all g u now ms1 x e) as [[y1 e1]|] eqn:E1; [intros E; exists y1, e1; split; [done|]; now rewrite (handle_all_app _ _ _ _ _ _ _ _ _ E1) in E|].
  intros E. exfalso. revert x e E1 E. induction ms1 as [|m ms1 IH]; intros x e E1 E; cbn [handle_all app] in *; [discriminate|].
  rewrite run_bind in *. destruct (handle g u now m x e) as [[x1 e3]|]; [|discriminate]. now apply (IH x1 e3).
Qed.

Lemma rounds_app g u n1 n2 s e s1 e1 : rounds n1 g u s e = Some (s1, e1) -> rounds (n1 + n2) g u s e = rounds n2 g u s1 e1.
Proof.
  revert s e. induction n1 as [|n1 IH]; intros s e E; cbn [rounds plus] in *; [now injection E as <- <-|].
  rewrite run_bind in *. destruct (pofsc_main_task g u s e) as [[s2 e2]|]; [|discriminate]. now apply IH.
Qed.

(** C3. In the RUN state with an empty buffer, let the controller's stream be a
    sequence of bursts of messages, each message as long as its type says,
    delivered by [read]s that cut it anywhere but within the four bytes before the
    end of a length field.  A burst either fits the 2560 bytes of the buffer, or is
    of any length while its messages have at most [M] bytes and its reads at most
    [K], with [2 * M + K <= 2562]; then the buffer fills up and what is left in it
    is moved to its head.  As many rounds of the main task as there are messages
    handle each once, whole and in the order they were sent, and leave the buffer
    empty again. *)
Theorem stream_handled_in_order g u bursts s e t dp e' : idle s e ->
  w_reads (wd s) = concat (snd <$> bursts) -> Forall (burst_ok g u) bursts ->
  let ms := concat (fst <$> bursts) in
  handle_all g u (w_time (wd s)) ms (last_echo_time (cn s), m_dp s) e = Some ((t, dp), e') ->
  exists s', rounds (length ms) g u s e = Some (s', e') /\ m_dp s' = dp /\ last_echo_time (cn s') = t /\
    idle s' e' /\ w_reads (wd s') = [].
Proof.
  cbv zeta. intros I W H. revert s e I W. induction H as [|x bursts Hx _ IH]; intros s e I W E; cbn [fmap list_fmap concat] in *.
  - injection E as <- <- <-. now exists s.
  - destruct (handle_all_split _ _ _ _ _ _ _ _ _ E) as ([t1 dp1] & e1 & E1 & E2).
    destruct (burst_handled _ g u x s e t1 dp1 e1 I W Hx E1) as (s1 & R1 & I1 & D1 & D2 & W1 & T1).
    rewrite <- T1, <- D1, <- D2 in E2. destruct (IH s1 e1 I1 W1 E2) as (s' & R2 & Q). exists s'. split; [|exact Q].
    rewrite length_app. now rewrite (rounds_app _ _ _ _ _ _ _ _ R1).
Qed.

(** Three messages in three reads, none of them cut at a message's end; then 83
    messages, more than the buffer holds, in reads of 1200 bytes. *)
Definition stream_example : list (list Z) :=
  [[1; POFT_ECHO_REQUEST; 0; 8; 0; 0; 0; 5]; counter_message; [1; POFT_ECHO_REPLY; 0; 8; 0; 0; 0; 6]].
Definition reads_example : list (list Z) :=
  [take 5 (concat stream_example); take 20 (drop 5 (concat stream_example)); drop 25 (concat stream_example)].
Definition clear_message : list Z :=
  [1; POFT_COUNTER_MOD; 0; 32; 0; 0; 0; 7] ++ [POFCC_CLEAR; 0; 0; 0] ++ [0; 0; 0; 9] ++ zeros 16.
Definition long_example : list (list Z) := [1; POFT_ECHO_REPLY; 0; 8; 0; 0; 0; 8] :: replicate 82 clear_message.
Definition long_reads : list (list Z) :=
  [take 1200 (concat long_example); take 1200 (drop 1200 (concat long_example)); drop 2400 (concat long_example)].
Definition bursts_example : list (list (list Z) * list (list Z)) := [(stream_example, reads_example); (long_example, long_reads)].

Lemma clear_sized : well_sized [] 0 clear_message.
Proof. split; [vm_compute; reflexivity|split; [vm_compute; lia|vm_compute; reflexivity]]. Qed.

Lemma bursts_example_ok : Forall (burst_ok [] 0) bursts_example.
Proof.
  assert (well_sized [] 0 [1; POFT_ECHO_REPLY; 0; 8; 0; 0; 0; 8]) as We
    by (split; [vm_compute; reflexivity|split; [vm_compute; lia|vm_compute; first [exact I|reflexivity]]]).
  apply Forall_cons_2; [|apply Forall_cons_2; [|constructor]]; split; cbn [fst snd].
  - apply Forall_cons_2; [|apply Forall_cons_2; [|apply Forall_cons_2; [|constructor]]].
    all: split; [vm_compute; reflexivity|split; [vm_compute; lia|vm_compute; first [exact I|reflexivity]]].
  - by_decide.
  - reflexivity.
  - intros k Hk. destruct k as [|[|[|[|k]]]]; [lia| | | |cbn in Hk; lia]; vm_compute; first [exact I|right; discriminate].
  - left. by_decide.
  - constructor; [exact We|]. apply Forall_replicate. exact clear_sized.
  - by_decide.
  - vm_compute. reflexivity.
  - intros k Hk. destruct k as [|[|[|[|k]]]]; [lia| | | |unfold long_reads in Hk; cbn [length] in Hk; lia];
      vm_compute; first [exact I|left; reflexivity|right; discriminate].
  - right. exists 32, 1200. split; [lia|]. split; by_decide.
Qed.

Lemma stream_handled_in_order_witness : exists s' e' m,
  rounds 86 [] 0 (mst_example (reads_example ++ long_reads)) (env_init POFCS_CHANNEL_RUN [] []) = Some (s', e') /\
  last_echo_time (cn s') = 77 /\ w_reads (wd s') = [] /\ send_q e' = [m].
Proof.
  destruct (handle_all [] 0 77 (concat (fst <$> bursts_example)) (0, dp_example) (env_init POFCS_CHANNEL_RUN [] [])) as [[[t dp] e']|] eqn:E;
    [|vm_compute in E; discriminate].
  destruct (stream_handled_in_order [] 0 bursts_example (mst_example (reads_example ++ long_reads)) (env_init POFCS_CHANNEL_RUN [] []) t dp e')
    as (s' & E' & _ & T & _ & W).
  - now repeat split.
  - reflexivity.
  - exact bursts_example_ok.
  - exact E.
  - assert (t = 77 /\ exists m, send_q e' = [m]) as [-> [m Hm]].
    { apply (f_equal (fun r => match r with Some ((t, _), e) => Some (t, send_q e) | None => None end)) in E.
      cbv beta iota in E. set (q := send_q e') in *. clearbody q. vm_compute in E. injection E as <- <-. split; [reflexivity|eexists; reflexivity]. }
    exists s', e', m. split; [exact E'|]. split; [exact T|]. split; [exact W|exact Hm].
Defined.
