(* ===== verification/HandshakeSpec.v ===== *)
(** * The handshake succeeds

    From the start, with a network that works and a controller that answers
    each step, seven rounds of the main task reach POFCS_CHANNEL_RUN. *)

From S2P Require Import Prelude Codec Env Tree Hmap IdMap LocalRes ByteTransfer Port Counter Group Meter FlowEntry FlowTable Slot Parse ParseSpec MessageSpec Switch SwitchSpec StreamSpec.

Implicit Types (s : mst).

(** The buffer is empty, nothing is wrong, and [cs] is still to be read. *)
Record fresh s (cs : list (list Z)) : Prop := {
  fs_holds : holds s [] cs;
  fs_zero : rcv_len (fr (cn s)) = 0 /\ process_len (fr (cn s)) = 0 /\ left_len (fr (cn s)) = 0;
  fs_alive : w_exited (wd s) = false;
  fs_quiet : fld (protocol_error (cn s)) 0 2 = 0xffff
}.

Lemma head_version_at s m p : held s (m ++ p) -> 8 <= blen m ->
  head_version (recv_buf (cn s)) (process_len (fr (cn s))) = Some (fld m 0 1).
Proof.
  intros Ho H. destruct (buf_pend _ _ Ho) as [tail E]. destruct Ho as [L P R Rm B]. unfold head_version, blen in *.
  pose proof (f_equal length E) as El. rewrite length_drop, !length_app in El.
  rewrite sub_buf_in by (unfold blen; lia). rewrite E. destruct m as [|x m]; [cbn in H; lia|]. reflexivity.
Qed.

Lemma holds_dp dp s pend cs : holds s pend cs -> holds (with_dp dp s) pend cs.
Proof. intros [[] [] ?]. now repeat split. Qed.

(** A whole message has been handled and taken out of the buffer. *)
Lemma fresh_consumed s m cs k : holds s m cs -> blen m = k -> w_exited (wd s) = false ->
  fld (protocol_error (cn s)) 0 2 = 0xffff -> fresh (consumed k s) cs.
Proof.
  intros Ho Hk A Q. destruct (consumed_holds [] k s m [] cs) as (H & L & Z); [now rewrite app_nil_r|done|].
  constructor; auto. rewrite Z, L by done. split; [|done]. destruct H as [[_ _ R _ _] _ _]. now rewrite R, Z.
Qed.

(** The first [read] brings a whole message. *)
Lemma await_whole run fuel s m cs e : holds s m cs -> message_ok m -> total_len (fr (cn s)) = blen m ->
  await run fuel (process_len (fr (cn s))) s e = Some (s, e).
Proof.
  intros Ho M Ht. pose proof M as [M1 _]. unfold sizeof_pof_header in M1.
  assert (head_length (recv_buf (cn s)) (process_len (fr (cn s))) = Some (blen m)) as Hh.
  { apply (head_message s m m [] [] Ho M); [done|lia]. }
  destruct fuel; cbn [await]; rewrite run_bind, Hh; cbn [lift]; rewrite Ht, Z.ltb_irrefl; reflexivity.
Qed.

Lemma fetch_whole next m cs s e : fresh s (m :: cs) -> message_ok m ->
  exists s', fetch false (Some next) s e = Some ((true, s'), set_conn_state next e) /\
    holds s' m cs /\ same_but s s' /\ process_len (fr (cn s')) = 0.
Proof.
  intros [Ho (F1 & F2 & F3) A Q] M. unfold fetch, complete. rewrite F3. change (8 <=? u64 0) with false. rewrite run_bind. cbn [lift].
  rewrite run_bind. cbn [lift]. cbv beta iota zeta. rewrite run_bind.
  destruct (recv_chunk [] s [] m cs e Ho) as (s2 & E2 & Q2 & S2a & S2b & S2c & S2d & S2e & H2). rewrite E2. cbv beta iota.
  change (negb (POF_OK =? POF_OK)) with false. cbv iota. rewrite run_bind. unfold set_state at 1, mod_env at 1. cbv beta iota. rewrite run_bind.
  match goal with |- context [await false _ _ ?x] => set (s3 := x) end.
  pose proof (await_whole false (read_fuel s2) s3 m cs (set_conn_state next e) (H2 _) M) as Aw.
  change (process_len (fr (cn s3))) with (process_len (fr (cn s))) in Aw. rewrite Aw by (cbn; rewrite F3; lia).
  exists s3. split; [reflexivity|]. split; [apply H2|]. split; [repeat split; assumption|exact F2].
Qed.

(** One of the three requests, in a [read] of its own. *)
Lemma request_round g u type check late next m cs s e m' dp e' : fresh s (m :: cs) -> well_sized g u m ->
  fld m 1 1 = type -> fld m 0 1 <= POF_VERSION -> next <> POFCS_CHANNEL_INVALID ->
  pof_parse_msg_from_controller g u m (m_dp s) (set_conn_state next e) = Some ((POF_OK, (m', dp)), e') ->
  exists s', state_request g u type check late next s e = Some (s', set_conn_state next e') /\ fresh s' cs /\ m_dp s' = dp.
Proof.
  intros Hf Mw Ht Hv Hn Ep. pose proof (well_sized_ok _ _ _ Mw) as M. pose proof M as [M1 _]. unfold sizeof_pof_header in M1.
  destruct (fetch_whole next m cs s e Hf M) as (s1 & E1 & H1 & (S1 & S2 & S3 & S4 & S5) & P1). destruct Hf as [_ _ A Q].
  assert (holds s1 (m ++ []) cs) as H1' by now rewrite app_nil_r. rewrite <- S1 in Ep.
  destruct (parse_at_holds [] g u m [] cs s1 _ _ _ _ _ H1' (exact_self_contained _ _ _ (proj2 Mw)) Ep)
    as (s2 & E2 & D1 & D2 & D3 & D4 & D5 & D6 & H2). rewrite app_nil_r in H2.
  assert (conn_state e' = next) as K by (rewrite (kept_state _ (keeps_parse g u m (m_dp s1)) _ _ _ Ep); reflexivity).
  exists (consumed (blen m) s2). split; [|split; [|exact D1]].
  - unfold state_request. rewrite run_bind, E1. cbv beta iota. rewrite run_bind. unfold get_state at 1. rewrite run_bind.
    unfold get_env at 1, mret at 1, St_ret. cbv beta iota. change (conn_state (set_conn_state next e)) with next.
    rewrite bool_decide_false by exact Hn. cbn [negb orb]. cbv zeta.
    rewrite run_bind, (head_version_at s1 m [] H1') by lia. cbn [lift]. rewrite run_bind, (head_type_at s1 m [] H1') by lia. cbn [lift].
    rewrite Ht, Z.eqb_refl, (proj2 (Z.ltb_ge _ _)), andb_false_r by lia. cbn [negb orb].
    rewrite run_bind, (head_message s1 _ m [] [] H1' M (app_nil_r _)) by (rewrite app_nil_r; lia). cbn [lift].
    rewrite run_bind. match goal with |- context [(if late then ?a else ?b) ?x] =>
      replace ((if late then a else b) x) with (Some (tt, x)) by now destruct late end.
    rewrite run_bind, E2. cbv beta iota. change (negb (POF_OK =? POF_OK)) with false. cbv iota. rewrite run_bind.
    match goal with |- context [(if late then ?a else ?b) ?x] =>
      replace ((if late then a else b) x) with (Some (tt, set_conn_state next x))
        by (destruct late; [reflexivity|]; destruct x; cbn in K; now subst) end. reflexivity.
  - apply (fresh_consumed s2 m' cs (blen m)); [exact H2|unfold blen; now rewrite D6|congruence|congruence].
Qed.

Lemma hello_round g u m cs s e r dp e1 : length (recv_buf (cn s)) = 2560%nat -> w_reads (wd s) = m :: cs ->
  Forall (fun c => c <> []) (m :: cs) -> blen (concat (m :: cs)) <= 2560 -> w_exited (wd s) = false ->
  fld (protocol_error (cn s)) 0 2 = 0xffff -> well_sized g u m -> fld m 1 1 = POFT_HELLO -> fld m 0 1 <= POF_VERSION ->
  each_slot poflr_clear_resource (m_dp s) e = Some ((r, dp), e1) ->
  exists s', state_HELLO s e = Some (s', set_conn_state POFCS_REQUEST_FEATURE e1) /\ fresh s' cs /\ m_dp s' = dp.
Proof.
  intros Lb W F Rm A Q Mw Ht Hv Ec. pose proof (well_sized_ok _ _ _ Mw) as M. pose proof M as [M1 _]. unfold sizeof_pof_header in M1.
  unfold state_HELLO. set (s0 := upd_conn (with_fr (mkFraming 0 0 0 0)) s).
  assert (holds s0 [] (m :: cs)) as H0.
  { split; [constructor; auto; cbn; lia|split; [now rewrite app_nil_r|exact F]|cbn [s0 cn upd_conn with_fr fr rcv_len]; lia]. }
  destruct (recv_chunk [] s0 [] m cs e H0) as (s2 & E2 & Q2 & S2a & S2b & S2c & S2d & S2e & H2).
  cbv zeta. rewrite run_bind. change (pofsc_recv 0 POF_RECV_BUF_MAX_SIZE s0 e) with
    (pofsc_recv (rcv_len (fr (cn s0))) (POF_RECV_BUF_MAX_SIZE - rcv_len (fr (cn s0))) s0 e). rewrite E2. cbv beta iota.
  change (negb (POF_OK =? POF_OK)) with false. cbv iota. rewrite run_bind. rewrite S2a. change (m_dp s0) with (m_dp s). rewrite Ec. cbv beta iota zeta.
  rewrite run_bind. unfold set_state at 1, mod_env at 1. cbv beta iota. rewrite run_bind.
  match goal with |- context [await false _ _ ?x] => set (s3 := x) end.
  assert (holds s3 m cs) as H3 by exact (holds_dp dp _ _ _ (H2 (blen m))).
  pose proof (await_whole false (read_fuel (with_dp dp s2)) s3 m cs (set_conn_state POFCS_REQUEST_FEATURE e1) H3 M eq_refl) as Aw.
  change (process_len (fr (cn s3))) with 0 in Aw. rewrite Aw, run_bind. unfold get_state at 1. rewrite run_bind.
  unfold get_env at 1, mret at 1, St_ret. cbv beta iota. change (conn_state (set_conn_state POFCS_REQUEST_FEATURE e1)) with POFCS_REQUEST_FEATURE.
  destruct (decide (POFCS_REQUEST_FEATURE = POFCS_CHANNEL_INVALID)) as [|_]; [discriminate|].
  assert (holds s3 (m ++ []) cs) as H3' by now rewrite app_nil_r.
  change 0 with (process_len (fr (cn s3))).
  rewrite run_bind, (head_version_at s3 m [] H3') by lia. cbn [lift]. rewrite run_bind, (head_type_at s3 m [] H3') by lia. cbn [lift].
  rewrite Ht, Z.eqb_refl, (proj2 (Z.ltb_ge _ _)) by lia. cbn [negb orb].
  rewrite run_bind. unfold mret at 1, St_ret. cbv beta iota.
  rewrite run_bind, (head_message s3 _ m [] [] H3' M (app_nil_r _)) by (rewrite app_nil_r; lia). cbn [lift].
  exists (consumed (blen m) s3). split; [reflexivity|]. split; [|reflexivity].
  apply (fresh_consumed s3 m cs); [exact H3|done|change (w_exited (wd s2) = false); rewrite S2d; exact A|].
  change (fld (protocol_error (cn s2)) 0 2 = 0xffff). rewrite S2c. exact Q.
Qed.

Lemma main_round g u s e s1 e1 : w_exited (wd s) = false -> round_of g u (conn_state e) s e = Some (s1, e1) ->
  w_exited (wd s1) = false -> fld (protocol_error (cn s1)) 0 2 = 0xffff -> pofsc_main_task g u s e = Some (s1, e1).
Proof.
  intros A E A1 Q. unfold pofsc_main_task. rewrite A, run_bind. unfold get_state at 1. rewrite run_bind.
  unfold get_env at 1, mret at 1, St_ret. cbv beta iota. rewrite run_bind.
  change ((match round_of g u (conn_state e) s e with
    | Some (s1, e1) => (if w_exited (wd s1) then mret s1 else report_protocol_error s1) e1 | None => None end) = Some (s1, e1)).
  rewrite E, A1. unfold report_protocol_error. now rewrite Q.
Qed.

(** The environment once the HELLO has been sent. *)
Definition greeting_env (e : env) : env :=
  let e := if g_poflr_dev_id e =? 0 then set_dev_id 1 e else e in
  set_conn_state POFCS_HELLO (set_upward_xid (u32 (g_upward_xid e + 1)) e).

Lemma greeting_rounds g u s e : conn_state e = POFCS_CHANNEL_INVALID ->
  w_sockets (wd s) = [] -> w_connects (wd s) = [] -> w_writes (wd s) = [] -> w_exited (wd s) = false ->
  fld (protocol_error (cn s)) 0 2 = 0xffff ->
  exists s', rounds 3 g u s e = Some (s', greeting_env e) /\ recv_buf (cn s') = recv_buf (cn s) /\ m_dp s' = m_dp s /\
    w_reads (wd s') = w_reads (wd s) /\ w_exited (wd s') = false /\ protocol_error (cn s') = protocol_error (cn s).
Proof.
  intros R S C W A Q. cbn [rounds].
  set (s1 := upd_conn (with_sfd 3) s). rewrite run_bind, (main_round g u s e s1 (set_conn_state POFCS_CHANNEL_CONNECTING e)); auto.
  2: { rewrite R. cbn [round_of]. unfold state_INVALID, pofsc_create_socket. rewrite S. reflexivity. }
  set (e1 := set_conn_state POFCS_CHANNEL_CONNECTING e).
  set (s2 := upd_conn (with_retry 0) (upd_world (fun w => with_written (w_writes w) [] w) (upd_world (fun w =>
    mkWorld (w_sockets w) [] (w_reads w) (w_writes w) (w_written w) (w_auto_clear w) (w_time w) (w_exited w)) s1))).
  set (e2 := set_conn_state POFCS_CHANNEL_CONNECTED (if g_poflr_dev_id e =? 0 then set_dev_id 1 e else e)).
  rewrite run_bind, (main_round g u s1 e1 s2 e2); auto.
  2: { cbn [round_of conn_state set_conn_state e1]. unfold state_CONNECTING, pofsc_connect.
       change (w_connects (wd s1)) with (w_connects (wd s)). rewrite C. cbv beta iota zeta. unfold mbind, St_bind, get_env.
       change (g_poflr_dev_id e1) with (g_poflr_dev_id e). unfold e2. destruct (g_poflr_dev_id e =? 0); reflexivity. }
  set (s3 := upd_world (fun w => with_written [] (w_written w ++ [header_bytes POFT_HELLO (g_upward_xid e2) sizeof_pof_header]) w) s2).
  assert (state_CONNECTED s2 e2 = Some (s3, set_conn_state POFCS_HELLO (set_upward_xid (u32 (g_upward_xid e2 + 1)) e2))) as E3.
  { unfold state_CONNECTED. rewrite run_bind. unfold upward_xid_pp. rewrite run_bind, header_build. cbn [lift]. rewrite run_bind.
    unfold pofsc_send. rewrite run_bind, sub_buf_in by (unfold blen; rewrite ?length_header; unfold sizeof_pof_header; lia). cbn [lift].
    change (w_writes (wd s2)) with (w_writes (wd s)). rewrite W.
    rewrite drop_0, take_ge by now rewrite length_header. reflexivity. }
  rewrite run_bind, (main_round g u s2 e2 _ _ A E3); auto.
  exists s3. split; [|auto 8]. unfold greeting_env, e2. destruct (g_poflr_dev_id e =? 0); reflexivity.
Qed.

(** ** The handshake *)

(** A request the switch serves, in the state it moves to. *)
Definition served (g : list Z) (u : Z) (next : pof_channel_state) (m : list Z) (dp : pof_datapath) : St pof_datapath :=
  _ ← set_state next;
  '(ret, (_, dp)) ← pof_parse_msg_from_controller g u m dp;
  if ret =? POF_OK then mret dp else fault.

(** What the switch does between the controller's HELLO and the RUN state: clear
    the slots, describe itself, take the configuration and report it. *)
Definition handshake (g : list Z) (u : Z) (feat setc getc : list Z) (dp : pof_datapath) : St pof_datapath :=
  '(_, dp) ← each_slot poflr_clear_resource dp;
  dp ← served g u POFCS_SET_CONFIG feat dp;
  dp ← served g u POFCS_REQUEST_GET_CONFIG setc dp;
  dp ← served g u POFCS_CHANNEL_RUN getc dp;
  _ ← set_state POFCS_CHANNEL_RUN; mret dp.

Lemma served_inv g u next m dp e dp' e' : served g u next m dp e = Some (dp', e') ->
  exists m', pof_parse_msg_from_controller g u m dp (set_conn_state next e) = Some ((POF_OK, (m', dp')), e').
Proof.
  unfold served. rewrite run_bind. unfold set_state at 1, mod_env at 1. cbv beta iota. rewrite run_bind.
  destruct (pof_parse_msg_from_controller _ _ _ _ _) as [[[ret [m' d]] e1]|]; [|discriminate].
  destruct (Z.eqb_spec ret POF_OK) as [->|]; [|discriminate]. intros [= <- <-]. now exists m'.
Qed.

(** A round of a state that waits for a request. *)
Lemma main_request g u type check late next m cs s e dp e' : fresh s (m :: cs) -> well_sized g u m ->
  fld m 1 1 = type -> fld m 0 1 <= POF_VERSION -> next <> POFCS_CHANNEL_INVALID ->
  round_of g u (conn_state e) = state_request g u type check late next ->
  served g u next m (m_dp s) e = Some (dp, e') ->
  exists s', pofsc_main_task g u s e = Some (s', set_conn_state next e') /\ fresh s' cs /\ m_dp s' = dp.
Proof.
  intros F Mw Ht Hv Hn Hr E. destruct (served_inv _ _ _ _ _ _ _ _ E) as [m' Ep].
  destruct (request_round g u type check late next m cs s e m' dp e' F Mw Ht Hv Hn Ep) as (s' & Es & F' & D).
  exists s'. split; [|auto]. apply main_round; [apply F|now rewrite Hr|apply F'|apply F'].
Qed.

Lemma served_next g u next m dp e st : served g u next m dp (set_conn_state st e) = served g u next m dp e.
Proof. reflexivity. Qed.

(** C4. From the start, with sockets that do not fail and a controller that
    sends its HELLO and the three requests of the handshake, a message in each
    [read], seven rounds of the main task reach POFCS_CHANNEL_RUN with the
    datapath the handshake leaves, an empty buffer, and the rest of the stream
    still to be read: the main task never waits for anything else. *)
Theorem handshake_reaches_run g u s e hello feat setc getc cs dp e' : conn_state e = POFCS_CHANNEL_INVALID ->
  w_sockets (wd s) = [] -> w_connects (wd s) = [] -> w_writes (wd s) = [] -> w_exited (wd s) = false ->
  fld (protocol_error (cn s)) 0 2 = 0xffff -> length (recv_buf (cn s)) = 2560%nat ->
  w_reads (wd s) = [hello; feat; setc; getc] ++ cs -> Forall (fun c => c <> []) ([hello; feat; setc; getc] ++ cs) ->
  blen (concat ([hello; feat; setc; getc] ++ cs)) <= 2560 ->
  Forall (well_sized g u) [hello; feat; setc; getc] -> Forall (fun m => fld m 0 1 <= POF_VERSION) [hello; feat; setc; getc] ->
  (fun m => fld m 1 1) <$> [hello; feat; setc; getc] =
    [POFT_HELLO; POFT_FEATURES_REQUEST; POFT_SET_CONFIG; POFT_GET_CONFIG_REQUEST] ->
  handshake g u feat setc getc (m_dp s) (greeting_env e) = Some (dp, e') ->
  exists s', rounds 7 g u s e = Some (s', e') /\ conn_state e' = POFCS_CHANNEL_RUN /\ m_dp s' = dp /\ fresh s' cs.
Proof.
  intros R S C W A Q Lb Wr F Rm Mw Hv Ht E.
  destruct (greeting_rounds g u s e R S C W A Q) as (s1 & E1 & B1 & D1 & R1 & A1 & Q1).
  rewrite !Forall_cons in Mw, Hv. destruct Mw as (M1 & M2 & M3 & M4 & _), Hv as (V1 & V2 & V3 & V4 & _).
  injection Ht as T1 T2 T3 T4. unfold handshake in E. rewrite run_bind in E.
  destruct (each_slot poflr_clear_resource (m_dp s) (greeting_env e)) as [[[r dp1] e1]|] eqn:Ec; [|discriminate].
  rewrite run_bind in E. destruct (served g u _ feat dp1 e1) as [[dp2 e2]|] eqn:E2; [|discriminate].
  rewrite run_bind in E. destruct (served g u _ setc dp2 e2) as [[dp3 e3]|] eqn:E3; [|discriminate].
  rewrite run_bind in E. destruct (served g u _ getc dp3 e3) as [[dp4 e4]|] eqn:E4; [|discriminate]. injection E as <- <-.
  destruct (hello_round g u hello ([feat; setc; getc] ++ cs) s1 (greeting_env e) r dp1 e1) as (s2 & H2 & F2 & D2); rewrite ?B1, ?R1, ?Q1, ?D1; auto.
  assert (pofsc_main_task g u s1 (greeting_env e) = Some (s2, set_conn_state POFCS_REQUEST_FEATURE e1)) as X2
    by (apply main_round; [exact A1|exact H2|apply F2|apply F2]).
  rewrite <- D2, <- (served_next g u _ _ _ _ POFCS_REQUEST_FEATURE) in E2.
  destruct (main_request g u POFT_FEATURES_REQUEST false false POFCS_SET_CONFIG feat _ s2 (set_conn_state POFCS_REQUEST_FEATURE e1) dp2 e2 F2 M2 T2 V2 ltac:(discriminate) eq_refl E2) as (s3 & X3 & F3 & D3).
  rewrite <- D3, <- (served_next g u _ _ _ _ POFCS_SET_CONFIG) in E3.
  destruct (main_request g u POFT_SET_CONFIG true false POFCS_REQUEST_GET_CONFIG setc _ s3 (set_conn_state POFCS_SET_CONFIG e2) dp3 e3 F3 M3 T3 V3 ltac:(discriminate) eq_refl E3) as (s4 & X4 & F4 & D4).
  rewrite <- D4, <- (served_next g u _ _ _ _ POFCS_REQUEST_GET_CONFIG) in E4.
  destruct (main_request g u POFT_GET_CONFIG_REQUEST false true POFCS_CHANNEL_RUN getc _ s4 (set_conn_state POFCS_REQUEST_GET_CONFIG e3) dp4 e4 F4 M4 T4 V4 ltac:(discriminate) eq_refl E4) as (s5 & X5 & F5 & D5).
  exists s5. split; [|auto].
  change 7%nat with (3 + 4)%nat. rewrite (rounds_add 3 4 g u s e s1 (greeting_env e) E1). cbn [rounds].
  now rewrite run_bind, X2, run_bind, X3, run_bind, X4, run_bind, X5.
Qed.

(** A controller that says no more than it has to. *)
Definition hello_example : list Z := [POF_VERSION; POFT_HELLO; 0; 8; 0; 0; 0; 1].
Definition features_example : list Z := [POF_VERSION; POFT_FEATURES_REQUEST; 0; 8; 0; 0; 0; 2].
Definition set_config_example : list Z := [POF_VERSION; POFT_SET_CONFIG; 0; 16; 0; 0; 0; 3; 0; 0; 0; 1; 0; 0; 0; 128].
Definition get_config_example : list Z := [POF_VERSION; POFT_GET_CONFIG_REQUEST; 0; 8; 0; 0; 0; 4].
Definition controller_example : list (list Z) := [hello_example; features_example; set_config_example; get_config_example].

Definition dp_described : pof_datapath :=
  mkDp (slotMap dp_example) (mkDevice (poflr_switch_config device_example) (poflr_switch_feature device_example)
    (mkTableResource 0 0 512 8 8 ((fun t => mkDesc 0 t 10 160 4000) <$> [0; 1; 2; 3])) 160 (g_versionStr device_example)).

Lemma handshake_reaches_run_witness : exists s' e',
  rounds 7 [] 0 (with_dp dp_described (mst_example controller_example)) (env_init POFCS_CHANNEL_INVALID [] []) = Some (s', e') /\
  conn_state e' = POFCS_CHANNEL_RUN.
Proof.
  destruct (handshake [] 0 features_example set_config_example get_config_example dp_described
    (greeting_env (env_init POFCS_CHANNEL_INVALID [] []))) as [[dp e']|] eqn:E; [|vm_compute in E; discriminate].
  destruct (handshake_reaches_run [] 0 (with_dp dp_described (mst_example controller_example)) (env_init POFCS_CHANNEL_INVALID [] [])
    hello_example features_example set_config_example get_config_example [] dp e') as (s' & E' & R & _); try reflexivity.
  - by_decide.
  - by_decide.
  - repeat (apply Forall_cons_2; [|]); [..|constructor].
    all: split; [vm_compute; reflexivity|split; [vm_compute; lia|vm_compute; first [exact I|reflexivity]]].
  - by_decide.
  - exact E.
  - exists s', e'. split; [exact E'|exact R].
Defined.
